(** * Store-rating backend: schema, rating aggregate trigger and list queries

    A shallow embedding of the relational schema created by
    [initializeDatabase] (the module required as config/database), of the
    row trigger [update_store_rating], and of the route handlers of
    routes/stores.js, routes/ratings.js and the users router.

    Conventions of the embedding.
    - A table is the list of its rows in natural row order.
    - A nullable column is an [option]; [None] is SQL NULL.
    - A [DECIMAL(2,1)] value is the integer number of tenths it denotes
      (4.5 is [45]); the column accepts magnitudes below 10.0.
    - A statement that raises leaves the tables as they were; a [SERIAL]
      sequence keeps the value it consumed. *)

From Stdlib Require Import ZArith QArith Qround Qabs List String Ascii Bool Lia Lqa Permutation.
Import ListNotations.

Local Open Scope string_scope.
Local Open Scope list_scope.
Local Open Scope Z_scope.

(** ** Rows *)

Module User.
Record t := mk
  { id : Z;
    name : string;
    email : string;
    address : string;
    role : string;
    created_at : Z }.
End User.

Module Store.
Record t := mk
  { id : Z;
    name : string;
    email : string;
    address : string;
    owner_id : option Z;
    average_rating : option Z;   (* DECIMAL(2,1), in tenths *)
    total_ratings : option Z;
    created_at : Z;
    updated_at : Z }.
End Store.

Module Rating.
Record t := mk
  { id : Z;
    user_id : Z;
    store_id : Z;
    rating : Z;
    comment : option string;
    created_at : Z;
    updated_at : Z }.
End Rating.

Record database := mkDb
  { users : list User.t;
    stores : list Store.t;
    ratings : list Rating.t;
    stores_id_seq : Z;      (* last value handed out by stores.id SERIAL *)
    ratings_id_seq : Z }.   (* last value handed out by ratings.id SERIAL *)

Definition with_ratings (d : database) (rs : list Rating.t) : database :=
  mkDb (users d) (stores d) rs (stores_id_seq d) (ratings_id_seq d).

Definition with_stores (d : database) (ss : list Store.t) : database :=
  mkDb (users d) ss (ratings d) (stores_id_seq d) (ratings_id_seq d).

(** ** SQL scalar helpers *)

Definition coalesce {A : Type} (a b : option A) : option A :=
  match a with
  | Some x => Some x
  | None => b
  end.

Definition sum_Z (l : list Z) : Z := fold_right Z.add 0 l.

(** [AVG(rating)]: NULL over no rows, otherwise the quotient.  It is taken
    exactly; PostgreSQL carries it to sixteen significant digits or more
    before the column rounds it to one decimal place, which gives the same
    tenths for any table of fewer than 10^15 ratings. *)
Definition sql_avg (l : list Z) : option Q :=
  match l with
  | [] => None
  | _ :: _ => Some (inject_Z (sum_Z l) / inject_Z (Z.of_nat (List.length l)))%Q
  end.

(** [COUNT( * )]. *)
Definition sql_count {A : Type} (l : list A) : Z := Z.of_nat (List.length l).

(** A text PostgreSQL takes as a bound value: it refuses one that holds a
    zero byte, whatever the statement. *)
Definition no_zero_byte (s : string) : bool :=
  forallb (fun c => negb (N_of_ascii c =? 0)%N) (list_ascii_of_string s).

(** The range of an [integer] column; a bound integer outside it is refused
    like a text that is no number. *)
Definition in_int4 (z : Z) : bool := (- 2 ^ 31 <=? z) && (z <? 2 ^ 31).

(** An optional text; an absent one is sent as NULL. *)
Definition bindable (x : option string) : bool :=
  match x with
  | Some s => no_zero_byte s
  | None => true
  end.

(** Rounding of a numeric to the nearest integer, ties away from zero. *)
Definition round_half_away (x : Q) : Z :=
  if Qle_bool 0 x then Qfloor (x + (1 # 2)) else Qceiling (x - (1 # 2)).

(** Assignment to a [DECIMAL(2,1)] column: round to one decimal place, and
    raise "numeric field overflow" when the rounded magnitude reaches 10. *)
Definition to_decimal_2_1 (x : Q) : option Z :=
  let t := round_half_away (x * 10) in
  if Z.abs t <? 100 then Some t else None.

(** ** The rating aggregate trigger *)

(** The pair (OLD, NEW) a row trigger is called with: NEW is NULL on DELETE,
    OLD is NULL on INSERT. *)
Record trigger_event := mkEvent
  { OLD : option Rating.t;
    NEW : option Rating.t }.

(** [COALESCE(NEW.store_id, OLD.store_id)]. *)
Definition event_store (e : trigger_event) : option Z :=
  coalesce (option_map Rating.store_id (NEW e)) (option_map Rating.store_id (OLD e)).

Definition ratings_of_store (rs : list Rating.t) (sid : Z) : list Rating.t :=
  filter (fun r => Rating.store_id r =? sid) rs.

(** Storing a possibly NULL numeric into a [DECIMAL(2,1)] column: the outer
    [None] is the overflow error, the inner one is NULL. *)
Definition assign_decimal_2_1 (v : option Q) : option (option Z) :=
  match v with
  | None => Some None
  | Some q =>
      match to_decimal_2_1 q with
      | None => None
      | Some t => Some (Some t)
      end
  end.

(** The SET clause of the trigger's UPDATE, applied to one store row. *)
Definition recompute (rs : list Rating.t) (sid : Z) (s : Store.t) : option Store.t :=
  let mine := ratings_of_store rs sid in
  match assign_decimal_2_1
          (coalesce (sql_avg (map Rating.rating mine)) (Some (inject_Z 0))) with
  | None => None
  | Some avg =>
      Some (Store.mk (Store.id s) (Store.name s) (Store.email s) (Store.address s)
                     (Store.owner_id s) avg (Some (sql_count mine))
                     (Store.created_at s) (Store.updated_at s))
  end.

(** [UPDATE stores SET ... WHERE id = sid] over the whole table. *)
Fixpoint update_stores (rs : list Rating.t) (sid : Z) (ss : list Store.t)
  : option (list Store.t) :=
  match ss with
  | [] => Some []
  | s :: rest =>
      match (if Store.id s =? sid then recompute rs sid s else Some s) with
      | None => None
      | Some s' =>
          match update_stores rs sid rest with
          | None => None
          | Some rest' => Some (s' :: rest')
          end
      end
  end.

(** How one row of [stores] relates to itself after that UPDATE. *)
Definition row_updated (rs : list Rating.t) (sid : Z) (s s' : Store.t) : Prop :=
  if Store.id s =? sid then recompute rs sid s = Some s' else s' = s.

(** [update_store_rating()]: [None] when the UPDATE raises. *)
Definition update_store_rating (e : trigger_event) (d : database) : option database :=
  match event_store e with
  | None => Some d
  | Some sid =>
      match update_stores (ratings d) sid (stores d) with
      | None => None
      | Some ss => Some (with_stores d ss)
      end
  end.

(** [rating_update_trigger]: AFTER INSERT OR UPDATE OR DELETE, FOR EACH ROW.
    The queued row events fire once the statement has changed the table. *)
Fixpoint rating_update_trigger (evs : list trigger_event) (d : database)
  : option database :=
  match evs with
  | [] => Some d
  | e :: rest =>
      match update_store_rating e d with
      | None => None
      | Some d' => rating_update_trigger rest d'
      end
  end.

(** ** Statements on [ratings] *)

(** What a statement gives back: its RETURNING rows and the new database, or
    an error, with the database the failed statement leaves behind.  A
    statement whose values cannot be bound raises before it runs. *)
Inductive outcome (A : Type) : Type :=
| Done (rows : A) (d : database)
| Raised (d : database).
Arguments Done {A} rows d.
Arguments Raised {A} d.

Definition database_of {A : Type} (o : outcome A) : database :=
  match o with
  | Done _ d => d
  | Raised d => d
  end.

Definition same_key (user_id store_id : Z) (r : Rating.t) : bool :=
  (Rating.user_id r =? user_id) && (Rating.store_id r =? store_id).

(** [CHECK (rating >= 1 AND rating <= 5)]. *)
Definition rating_check (v : Z) : bool := (1 <=? v) && (v <=? 5).

Definition user_exists (d : database) (uid : Z) : bool :=
  existsb (fun u => User.id u =? uid) (users d).

Definition store_exists (d : database) (sid : Z) : bool :=
  existsb (fun s => Store.id s =? sid) (stores d).

(** Constraints a new [ratings] row has to pass: primary key, CHECK,
    UNIQUE(user_id, store_id) and the two foreign keys. *)
Definition rating_row_ok (d : database) (r : Rating.t) : bool :=
  negb (existsb (fun r' => Rating.id r' =? Rating.id r) (ratings d))
  && rating_check (Rating.rating r)
  && negb (existsb (same_key (Rating.user_id r) (Rating.store_id r)) (ratings d))
  && user_exists d (Rating.user_id r)
  && store_exists d (Rating.store_id r).

Definition next_rating_id (d : database) : database :=
  mkDb (users d) (stores d) (ratings d) (stores_id_seq d) (ratings_id_seq d + 1).

(** [INSERT INTO ratings (user_id, store_id, rating, comment)
     VALUES ($1, $2, $3, $4) RETURNING ...]. *)
Definition insert_rating (user_id store_id rating : Z) (comment : option string)
    (now : Z) (d : database) : outcome Rating.t :=
  let d1 := next_rating_id d in
  let r := Rating.mk (ratings_id_seq d1) user_id store_id rating comment now now in
  if negb (bindable comment) then Raised d
  else if rating_row_ok d r then
    match rating_update_trigger [mkEvent None (Some r)]
                                (with_ratings d1 (ratings d ++ [r])) with
    | Some d2 => Done r d2
    | None => Raised d1
    end
  else Raised d1.

(** The SET clause of the handler's UPDATE. *)
Definition set_rating (rating : Z) (comment : option string) (now : Z)
    (r : Rating.t) : Rating.t :=
  Rating.mk (Rating.id r) (Rating.user_id r) (Rating.store_id r) rating comment
            (Rating.created_at r) now.

(** [UPDATE ratings SET rating = $1, comment = $2, updated_at = CURRENT_TIMESTAMP
     WHERE user_id = $3 AND store_id = $4 RETURNING ...]. *)
Definition update_rating (rating : Z) (comment : option string)
    (user_id store_id : Z) (now : Z) (d : database) : outcome (list Rating.t) :=
  let hit := filter (same_key user_id store_id) (ratings d) in
  let rs' := map (fun r => if same_key user_id store_id r
                           then set_rating rating comment now r else r) (ratings d) in
  let evs := map (fun r => mkEvent (Some r) (Some (set_rating rating comment now r))) hit in
  if negb (bindable comment) then Raised d
  else
    match hit with
    | [] => Done [] d
    | _ :: _ =>
        if rating_check rating then
          match rating_update_trigger evs (with_ratings d rs') with
          | Some d2 => Done (map (set_rating rating comment now) hit) d2
          | None => Raised d
          end
        else Raised d
    end.

(** [DELETE FROM ratings WHERE user_id = $1 AND store_id = $2]. *)
Definition delete_rating (user_id store_id : Z) (d : database) : outcome unit :=
  let hit := filter (same_key user_id store_id) (ratings d) in
  let rs' := filter (fun r => negb (same_key user_id store_id r)) (ratings d) in
  let evs := map (fun r => mkEvent (Some r) None) hit in
  match rating_update_trigger evs (with_ratings d rs') with
  | Some d2 => Done tt d2
  | None => Raised d
  end.

(** [DELETE FROM stores WHERE id = $1].  The foreign key of [ratings] is
    ON DELETE CASCADE: the store's ratings go with it, and the trigger fires
    for each of them. *)
Definition delete_store (store_id : Z) (d : database) : outcome unit :=
  let gone := filter (fun r => Rating.store_id r =? store_id) (ratings d) in
  let rs' := filter (fun r => negb (Rating.store_id r =? store_id)) (ratings d) in
  let ss' := filter (fun s => negb (Store.id s =? store_id)) (stores d) in
  let evs := map (fun r => mkEvent (Some r) None) gone in
  match rating_update_trigger evs
          (mkDb (users d) ss' rs' (stores_id_seq d) (ratings_id_seq d)) with
  | Some d2 => Done tt d2
  | None => Raised d
  end.

Definition owned_by (uid : Z) (s : Store.t) : bool :=
  match Store.owner_id s with
  | Some o => o =? uid
  | None => false
  end.

(** A rating that a user's deletion takes away: one the user gave, or one
    on a store the user owns. *)
Definition cascaded (uid : Z) (d : database) (r : Rating.t) : bool :=
  (Rating.user_id r =? uid)
  || existsb (fun s => owned_by uid s && (Store.id s =? Rating.store_id r)) (stores d).

(** [DELETE FROM users WHERE id = $1].  ON DELETE CASCADE removes the stores
    the user owns, the ratings the user gave and the ratings of the removed
    stores; the trigger fires for each removed rating. *)
Definition delete_user (user_id : Z) (d : database) : outcome unit :=
  let gone := filter (cascaded user_id d) (ratings d) in
  let rs' := filter (fun r => negb (cascaded user_id d r)) (ratings d) in
  let ss' := filter (fun s => negb (owned_by user_id s)) (stores d) in
  let us' := filter (fun u => negb (User.id u =? user_id)) (users d) in
  let evs := map (fun r => mkEvent (Some r) None) gone in
  match rating_update_trigger evs
          (mkDb us' ss' rs' (stores_id_seq d) (ratings_id_seq d)) with
  | Some d2 => Done tt d2
  | None => Raised d
  end.

(** A mutation of the ratings table: one of the three statements of
    routes/ratings.js, each against one store, or the deletion of a store or
    of a user, which deletes ratings by cascade. *)
Inductive mutation : Type :=
| Insert (user_id store_id rating : Z) (comment : option string) (now : Z)
| Update (user_id store_id rating : Z) (comment : option string) (now : Z)
| Delete (user_id store_id : Z)
| DeleteStoreRow (store_id : Z)
| DeleteUserRow (user_id : Z).

Definition apply_mutation (m : mutation) (d : database) : database :=
  match m with
  | Insert uid sid v c now => database_of (insert_rating uid sid v c now d)
  | Update uid sid v c now => database_of (update_rating v c uid sid now d)
  | Delete uid sid => database_of (delete_rating uid sid d)
  | DeleteStoreRow sid => database_of (delete_store sid d)
  | DeleteUserRow uid => database_of (delete_user uid d)
  end.

(** The databases seen after each mutation of a sequence, in order. *)
Fixpoint states_after (ms : list mutation) (d : database) : list database :=
  match ms with
  | [] => []
  | m :: rest => let d' := apply_mutation m d in d' :: states_after rest d'
  end.

(** ** What the aggregate columns are meant to hold *)

Definition rating_values (d : database) (sid : Z) : list Z :=
  map Rating.rating (ratings_of_store (ratings d) sid).

Definition mean (l : list Z) : Q :=
  (inject_Z (sum_Z l) / inject_Z (Z.of_nat (List.length l)))%Q.

(** [tenths] is the mean of [l] rounded to one decimal place: no one-decimal
    value is nearer to the mean. *)
Definition rounded_mean (l : list Z) (tenths : Z) : Prop :=
  (Qabs (mean l - inject_Z tenths / 10) <= 1 # 20)%Q.

Definition aggregates_match (d : database) (s : Store.t) : Prop :=
  Store.total_ratings s = Some (Z.of_nat (List.length (rating_values d (Store.id s)))) /\
  match rating_values d (Store.id s) with
  | [] => Store.average_rating s = Some 0
  | l => exists t, Store.average_rating s = Some t /\ rounded_mean l t
  end.

Definition consistent (d : database) : Prop :=
  forall s, In s (stores d) -> aggregates_match d s.

(** Every row of [ratings] passes the column's CHECK. *)
Definition ratings_checked (rs : list Rating.t) : Prop :=
  Forall (fun r => rating_check (Rating.rating r) = true) rs.

(** ** The seeded sample data ([createSampleData] of the initialisation script) *)

Definition seed_time : Z := 0.

(** The administrator's name and e-mail address come from the environment;
    the first row stands for them. *)
Definition seed_users : list User.t :=
  [ User.mk 1 "Default System Administrator" "admin@example.com"
            "System Administrator Address - Default Location" "system_admin" seed_time;
    User.mk 2 "John Smith - Store Owner One" "storeowner1@example.com"
            "123 Main Street, Downtown Business District, City Center, State 12345"
            "store_owner" seed_time;
    User.mk 3 "Sarah Johnson - Store Owner Two" "storeowner2@example.com"
            "456 Oak Avenue, Shopping Mall Complex, Retail District, State 67890"
            "store_owner" seed_time;
    User.mk 4 "Alice Cooper - Regular Customer One" "alice.cooper@example.com"
            "321 Elm Street, Residential Area, Suburb District, State 22222"
            "normal_user" seed_time;
    User.mk 5 "Bob Wilson - Regular Customer Two" "bob.wilson@example.com"
            "654 Maple Drive, Family Neighborhood, Residential Zone, State 33333"
            "normal_user" seed_time;
    User.mk 6 "Carol Davis - Regular Customer Three" "carol.davis@example.com"
            "987 Cedar Lane, Apartment Complex, Urban Area, State 44444"
            "normal_user" seed_time ].

(** The three sample stores as their INSERT leaves them: aggregate columns at
    their defaults 0.0 and 0. *)
Definition seed_stores : list Store.t :=
  [ Store.mk 1 "Premium Electronics Store - Best Tech Solutions"
             "contact@premiumelectronics.com"
             "123 Main Street, Downtown Business District, Electronics Hub, State 12345"
             (Some 2) (Some 0) (Some 0) seed_time seed_time;
    Store.mk 2 "Fashion Forward Boutique - Trendy Clothing Store"
             "info@fashionforwardboutique.com"
             "456 Oak Avenue, Shopping Mall Complex, Fashion District, State 67890"
             (Some 3) (Some 0) (Some 0) seed_time seed_time;
    Store.mk 3 "Gourmet Food Market - Fresh Organic Products"
             "orders@gourmetfoodmarket.com"
             "789 Pine Road, Organic Market Square, Food District, State 11111"
             None (Some 0) (Some 0) seed_time seed_time ].

Definition seed_unrated : database := mkDb seed_users seed_stores [] 3 0.

(** The six sample ratings, in the order the script inserts them. *)
Definition seed_ratings : list mutation :=
  [ Insert 4 1 5 None seed_time;
    Insert 4 2 4 None seed_time;
    Insert 5 1 4 None seed_time;
    Insert 5 3 5 None seed_time;
    Insert 6 2 3 None seed_time;
    Insert 6 3 4 None seed_time ].

Definition createSampleData : database :=
  fold_left (fun d m => apply_mutation m d) seed_ratings seed_unrated.

(** The aggregate columns of the store rows with a given id. *)
Definition aggregates_of (d : database) (sid : Z) : list (option Z * option Z) :=
  map (fun s => (Store.total_ratings s, Store.average_rating s))
      (filter (fun s => Store.id s =? sid) (stores d)).

(** ** Moving a rating row to another store

    No handler issues it, but the trigger is declared for every UPDATE of
    [ratings], so also for
    [UPDATE ratings SET store_id = $1 WHERE id = $2]. *)

Definition set_store_id (sid : Z) (r : Rating.t) : Rating.t :=
  Rating.mk (Rating.id r) (Rating.user_id r) sid (Rating.rating r) (Rating.comment r)
            (Rating.created_at r) (Rating.updated_at r).

(** UNIQUE(user_id, store_id) and the foreign key, for one moved row. *)
Definition move_row_ok (d : database) (sid : Z) (r : Rating.t) : bool :=
  negb (existsb (fun r' => negb (Rating.id r' =? Rating.id r)
                           && same_key (Rating.user_id r) sid r') (ratings d))
  && store_exists d sid.

Definition move_rating (rid sid : Z) (d : database) : outcome (list Rating.t) :=
  let hit := filter (fun r => Rating.id r =? rid) (ratings d) in
  let rs' := map (fun r => if Rating.id r =? rid then set_store_id sid r else r) (ratings d) in
  let evs := map (fun r => mkEvent (Some r) (Some (set_store_id sid r))) hit in
  if forallb (move_row_ok d sid) hit then
    match rating_update_trigger evs (with_ratings d rs') with
    | Some d2 => Done (map (set_store_id sid) hit) d2
    | None => Raised d
    end
  else Raised d.

(** What one firing of the trigger does to one row of [stores]. *)
Definition trigger_row (e : trigger_event) (rs : list Rating.t) (s s' : Store.t) : Prop :=
  Store.id s' = Store.id s /\
  (event_store e <> Some (Store.id s) -> s' = s) /\
  (event_store e = Some (Store.id s) -> recompute rs (Store.id s) s = Some s').

(** The seeded rating with id 1 (user 4 on store 1, value 5) moved to store 3:
    the row event, the table when the trigger fires, and the outcome. *)
Definition seed_move_event : trigger_event :=
  mkEvent (Some (Rating.mk 1 4 1 5 None seed_time seed_time))
          (Some (Rating.mk 1 4 3 5 None seed_time seed_time)).

Definition seed_move_table : database :=
  with_ratings createSampleData
    (map (fun r => if Rating.id r =? 1 then set_store_id 3 r else r)
         (ratings createSampleData)).

Definition seed_moved : database := database_of (move_rating 1 3 createSampleData).

(** ** Requests and responses *)

(** The authenticated principal [req.user] set by the authentication
    middleware before a handler runs. *)
Record principal := mkPrincipal
  { user_id : Z;
    user_role : string }.

(** [res.status(code).json(body)]. *)
Record response (B : Type) := mkResponse
  { status : Z;
    body : B }.
Arguments mkResponse {B} status body.
Arguments status {B} r.
Arguments body {B} r.

(** ** routes/ratings.js

    The handlers are modelled from the point where the middleware chain
    ([authenticateToken], [requireNormalUser], [validateRating]) has let the
    request through and PostgreSQL has read the store id they bind as the
    integer [storeId]; the requests with the id as it arrives in the body or
    in the path are [post_rating_request], [put_rating_request] and
    [delete_rating_request]. *)

Inductive rating_body : Type :=
| RatingMessage (message : string)
| RatingResult (message : string) (rating : option Rating.t).

Definition has_rated (d : database) (userId storeId : Z) : bool :=
  existsb (same_key userId storeId) (ratings d).

(** POST /api/ratings *)
Definition post_rating (user : principal) (storeId rating : Z) (comment : option string)
    (now : Z) (d : database) : response rating_body * database :=
  let userId := user_id user in
  if negb (store_exists d storeId) then
    (mkResponse 404 (RatingMessage "Store not found"), d)
  else if has_rated d userId storeId then
    (mkResponse 400
       (RatingMessage "You have already rated this store. Use PUT to update your rating."),
     d)
  else
    match insert_rating userId storeId rating comment now d with
    | Done newRating d' =>
        (mkResponse 201 (RatingResult "Rating submitted successfully" (Some newRating)), d')
    | Raised d' =>
        (mkResponse 500 (RatingMessage "Server error submitting rating"), d')
    end.

(** PUT /api/ratings/:storeId *)
Definition put_rating (user : principal) (storeId rating : Z) (comment : option string)
    (now : Z) (d : database) : response rating_body * database :=
  let userId := user_id user in
  if negb (store_exists d storeId) then
    (mkResponse 404 (RatingMessage "Store not found"), d)
  else if negb (has_rated d userId storeId) then
    (mkResponse 404
       (RatingMessage "You have not rated this store yet. Use POST to submit a new rating."),
     d)
  else
    match update_rating rating comment userId storeId now d with
    | Done rows d' =>
        (mkResponse 200 (RatingResult "Rating updated successfully" (hd_error rows)), d')
    | Raised d' =>
        (mkResponse 500 (RatingMessage "Server error updating rating"), d')
    end.

(** DELETE /api/ratings/:storeId *)
Definition delete_rating_handler (user : principal) (storeId : Z) (d : database)
  : response rating_body * database :=
  let userId := user_id user in
  if negb (has_rated d userId storeId) then
    (mkResponse 404 (RatingMessage "Rating not found"), d)
  else
    match delete_rating userId storeId d with
    | Done _ d' => (mkResponse 200 (RatingMessage "Rating deleted successfully"), d')
    | Raised d' => (mkResponse 500 (RatingMessage "Server error deleting rating"), d')
    end.

(** UNIQUE(user_id, store_id) as a property of the table. *)
Definition rating_key (r : Rating.t) : Z * Z := (Rating.user_id r, Rating.store_id r).

Definition rating_keys (rs : list Rating.t) : list (Z * Z) := map rating_key rs.

Definition unique_ratings (d : database) : Prop := NoDup (rating_keys (ratings d)).

(** ** routes/stores.js: creating a store *)

Definition length_between (lo hi : nat) (s : string) : bool :=
  (lo <=? String.length s)%nat && (String.length s <=? hi)%nat.

Definition owner_is (oid : Z) (s : Store.t) : bool :=
  match Store.owner_id s with
  | Some o => o =? oid
  | None => false
  end.

(** Constraints a new [stores] row has to pass: primary key, the length
    CHECKs and VARCHAR bounds, UNIQUE(email) and the owner foreign key. *)
Definition store_row_ok (d : database) (s : Store.t) : bool :=
  negb (existsb (fun s' => Store.id s' =? Store.id s) (stores d))
  && length_between 20 60 (Store.name s)
  && length_between 0 255 (Store.email s)
  && negb (existsb (fun s' => String.eqb (Store.email s') (Store.email s)) (stores d))
  && length_between 0 400 (Store.address s)
  && match Store.owner_id s with
     | Some o => user_exists d o
     | None => true
     end.

Definition next_store_id (d : database) : database :=
  mkDb (users d) (stores d) (ratings d) (stores_id_seq d + 1) (ratings_id_seq d).

(** [INSERT INTO stores (name, email, address, owner_id)
     VALUES ($1, $2, $3, $4) RETURNING ...]. *)
Definition insert_store (name email address : string) (owner_id : option Z)
    (now : Z) (d : database) : outcome Store.t :=
  let d1 := next_store_id d in
  let s := Store.mk (stores_id_seq d1) name email address owner_id
                    (Some 0) (Some 0) now now in
  if negb (no_zero_byte name && no_zero_byte email && no_zero_byte address) then Raised d
  else if store_row_ok d s then
    Done s (mkDb (users d1) (stores d1 ++ [s]) (ratings d1)
                 (stores_id_seq d1) (ratings_id_seq d1))
  else Raised d1.

Inductive store_body : Type :=
| StoreMessage (message : string)
| StoreResult (message : string) (store : Store.t).

(** [if (ownerId)] and [ownerId || null]: an absent, null or zero id counts
    as none. *)
Definition truthy_id (ownerId : option Z) : option Z :=
  match ownerId with
  | Some o => if o =? 0 then None else Some o
  | None => None
  end.

(** POST /api/stores, after [authenticateToken], [requireAdmin] and
    [validateStoreCreation]. *)
Definition post_store (name email address : string) (ownerId : option Z)
    (now : Z) (d : database) : response store_body * database :=
  if negb (no_zero_byte email) then
    (mkResponse 500 (StoreMessage "Server error creating store"), d)
  else if existsb (fun s => String.eqb (Store.email s) email) (stores d) then
    (mkResponse 400 (StoreMessage "Store already exists with this email"), d)
  else
    let create :=
      match insert_store name email address (truthy_id ownerId) now d with
      | Done store d' =>
          (mkResponse 201 (StoreResult "Store created successfully" store), d')
      | Raised d' =>
          (mkResponse 500 (StoreMessage "Server error creating store"), d')
      end in
    match truthy_id ownerId with
    | None => create
    | Some oid =>
        if negb (in_int4 oid) then
          (mkResponse 500 (StoreMessage "Server error creating store"), d)
        else
          match filter (fun u => User.id u =? oid) (users d) with
          | [] => (mkResponse 400 (StoreMessage "Owner not found"), d)
          | owner :: _ =>
              if negb (String.eqb (User.role owner) "STORE_OWNER") then
                (mkResponse 400 (StoreMessage "User must be a store owner"), d)
              else if existsb (owner_is oid) (stores d) then
                (mkResponse 400 (StoreMessage "Store owner already has a store"), d)
              else create
          end
    end.

(** [CHECK (role IN ('system_admin', 'normal_user', 'store_owner'))]. *)
Definition role_check (role : string) : bool :=
  existsb (String.eqb role) ["system_admin"; "normal_user"; "store_owner"].

Definition roles_checked (d : database) : Prop :=
  Forall (fun u => role_check (User.role u) = true) (users d).

(** The seeded users before any store exists. *)
Definition seed_no_stores : database := mkDb seed_users [] [] 0 0.

(** ** JavaScript values of query parameters

    A query parameter is a string or absent ([undefined]); a destructuring
    default puts an integer in the place of an absent one.

    Numbers are exact: a finite Number is the rational it denotes, with the
    two infinities, NaN and the negative zero beside it.  The engine's
    binary64 results agree with these wherever its computation is exact, in
    particular on the integers of magnitude below 2^53 that page numbers,
    page sizes and row counts are. *)

Inductive number : Type :=
| NaN
| Inf (negative : bool)
| NegZero
| Fin (q : Q).

Inductive jsval : Type :=
| JInt (z : Z)
| JStr (s : string).

(** [const { x = dflt } = req.query]. *)
Definition or_default (dflt : jsval) (x : option string) : jsval :=
  match x with
  | None => dflt
  | Some s => JStr s
  end.

Definition Qlt_bool (x y : Q) : bool := negb (Qle_bool y x).

Definition num_value (n : number) : Q :=
  match n with
  | Fin q => q
  | _ => 0%Q
  end.

Definition num_negative (n : number) : bool :=
  match n with
  | NaN => false
  | Inf s => s
  | NegZero => true
  | Fin q => Qlt_bool q 0
  end.

Definition num_is_zero (n : number) : bool :=
  match n with
  | NegZero => true
  | Fin q => Qeq_bool q 0
  | _ => false
  end.

Definition signed_zero (negative : bool) : number :=
  if negative then NegZero else Fin 0.

(** [a - b] *)
Definition num_sub (a b : number) : number :=
  match a, b with
  | NaN, _ | _, NaN => NaN
  | Inf s, Inf t => if Bool.eqb s t then NaN else Inf s
  | Inf s, _ => Inf s
  | _, Inf t => Inf (negb t)
  | _, _ =>
      let q := (num_value a - num_value b)%Q in
      if Qeq_bool q 0 then
        match a, b with
        | NegZero, Fin _ => NegZero
        | _, _ => Fin 0
        end
      else Fin q
  end.

(** [a * b] *)
Definition num_mul (a b : number) : number :=
  match a, b with
  | NaN, _ | _, NaN => NaN
  | Inf s, x | x, Inf s =>
      if num_is_zero x then NaN else Inf (xorb s (num_negative x))
  | _, _ =>
      let q := (num_value a * num_value b)%Q in
      if Qeq_bool q 0 then signed_zero (xorb (num_negative a) (num_negative b))
      else Fin q
  end.

(** [a / b] *)
Definition num_div (a b : number) : number :=
  match a, b with
  | NaN, _ | _, NaN => NaN
  | Inf _, Inf _ => NaN
  | Inf s, _ => Inf (xorb s (num_negative b))
  | _, Inf t => signed_zero (xorb (num_negative a) t)
  | _, _ =>
      if num_is_zero b then
        if num_is_zero a then NaN
        else Inf (xorb (num_negative a) (num_negative b))
      else
        let q := (num_value a / num_value b)%Q in
        if Qeq_bool q 0 then signed_zero (xorb (num_negative a) (num_negative b))
        else Fin q
  end.

(** [Math.ceil(a)] *)
Definition num_ceil (a : number) : number :=
  match a with
  | Fin q =>
      let c := Qceiling q in
      if c =? 0 then signed_zero (Qlt_bool q 0) else Fin (inject_Z c)
  | _ => a
  end.

(** [a < b] on numbers. *)
Definition num_lt (a b : number) : bool :=
  match a, b with
  | NaN, _ | _, NaN => false
  | Inf false, _ => false
  | Inf true, Inf true => false
  | Inf true, _ => true
  | _, Inf t => negb t
  | _, _ => Qlt_bool (num_value a) (num_value b)
  end.

Definition num_of_Z (z : Z) : number := Fin (inject_Z z).

(** A number as [res.json] writes it: NaN and the infinities become [null],
    the negative zero becomes [0]. *)
Inductive json_number : Type :=
| JsonNull
| JsonNum (q : Q).

Definition to_json (n : number) : json_number :=
  match n with
  | NaN | Inf _ => JsonNull
  | NegZero => JsonNum 0
  | Fin q => JsonNum q
  end.

(** ** Strings *)

Definition chars (s : string) : list ascii := list_ascii_of_string s.

Definition code (c : ascii) : N := N_of_ascii c.

(** White space of a numeric string: TAB, LF, VT, FF, CR and SP (strings
    are 8-bit here, so the non-ASCII spaces are not told apart). *)
Definition is_space (c : ascii) : bool :=
  let n := code c in ((9 <=? n) && (n <=? 13) || (n =? 32))%N.

Fixpoint trim_start (l : list ascii) : list ascii :=
  match l with
  | c :: rest => if is_space c then trim_start rest else l
  | [] => []
  end.

Definition trim (l : list ascii) : list ascii :=
  rev (trim_start (rev (trim_start l))).

(** The value of a digit in a radix up to 16. *)
Definition digit_value (radix : Z) (c : ascii) : option Z :=
  let n := Z.of_N (code c) in
  let v := if (48 <=? n) && (n <=? 57) then Some (n - 48)
           else if (97 <=? n) && (n <=? 102) then Some (n - 87)
           else if (65 <=? n) && (n <=? 70) then Some (n - 55)
           else None in
  match v with
  | Some d => if d <? radix then Some d else None
  | None => None
  end.

(** The longest prefix of digits, its value folded into [acc], the number
    of digits read and what follows. *)
Fixpoint read_digits (radix : Z) (l : list ascii) (acc : Z) (n : nat)
  : Z * nat * list ascii :=
  match l with
  | c :: rest =>
      match digit_value radix c with
      | Some d => read_digits radix rest (acc * radix + d) (S n)
      | None => (acc, n, l)
      end
  | [] => (acc, n, [])
  end.

(** A non-empty run of digits and nothing else. *)
Definition all_digits (radix : Z) (l : list ascii) : option Z :=
  match read_digits radix l 0 0 with
  | (v, S _, []) => Some v
  | _ => None
  end.

Definition read_sign (l : list ascii) : bool * list ascii :=
  match l with
  | "-"%char :: rest => (true, rest)
  | "+"%char :: rest => (false, rest)
  | _ => (false, l)
  end.

Definition is_e (c : ascii) : bool := Ascii.eqb c "e" || Ascii.eqb c "E".

Definition list_ascii_eqb (a b : list ascii) : bool :=
  String.eqb (string_of_list_ascii a) (string_of_list_ascii b).

(** [ExponentPart]: what follows the [e], an optional sign and digits. *)
Definition read_exponent (l : list ascii) : option Z :=
  let (neg, rest) := read_sign l in
  match all_digits 10 rest with
  | Some e => Some (if neg then - e else e)
  | None => None
  end.

(** [StrUnsignedDecimalLiteral] other than [Infinity]:
    digits, an optional fraction, an optional exponent. *)
Definition unsigned_decimal (l : list ascii) : option Q :=
  let '(ip, ni, rest) := read_digits 10 l 0 0 in
  let '(fp, nf, rest) :=
    match rest with
    | "."%char :: rest' => read_digits 10 rest' 0 0
    | _ => (0, 0%nat, rest)
    end in
  if ((ni =? 0) && (nf =? 0))%nat then None
  else
    let mantissa := (inject_Z ip + inject_Z fp / inject_Z (10 ^ Z.of_nat nf))%Q in
    match rest with
    | [] => Some mantissa
    | c :: rest' =>
        if is_e c then
          match read_exponent rest' with
          | Some e => Some (mantissa * Qpower 10 e)%Q
          | None => None
          end
        else None
    end.

(** [0x..], [0o..], [0b..]: no sign allowed. *)
Definition non_decimal (l : list ascii) : option Z :=
  match l with
  | "0"%char :: p :: rest =>
      if Ascii.eqb p "x" || Ascii.eqb p "X" then all_digits 16 rest
      else if Ascii.eqb p "o" || Ascii.eqb p "O" then all_digits 8 rest
      else if Ascii.eqb p "b" || Ascii.eqb p "B" then all_digits 2 rest
      else None
  | _ => None
  end.

(** [ToNumber] of a string ([StringToNumber]). *)
Definition string_to_number (s : string) : number :=
  let l := trim (chars s) in
  match l with
  | [] => Fin 0
  | _ =>
      match non_decimal l with
      | Some v => num_of_Z v
      | None =>
          let (neg, rest) := read_sign l in
          if list_ascii_eqb rest (chars "Infinity") then Inf neg
          else
            match unsigned_decimal rest with
            | Some q =>
                if Qeq_bool q 0 then signed_zero neg
                else Fin (if neg then - q else q)%Q
            | None => NaN
            end
      end
  end.

(** [ToNumber]. *)
Definition ToNumber (v : jsval) : number :=
  match v with
  | JInt z => num_of_Z z
  | JStr s => string_to_number s
  end.

(** [parseInt(s)] with no radix argument. *)
Definition parseInt_string (s : string) : number :=
  let (neg, rest) := read_sign (trim_start (chars s)) in
  let (radix, rest) :=
    match rest with
    | "0"%char :: p :: rest' =>
        if Ascii.eqb p "x" || Ascii.eqb p "X" then (16, rest') else (10, rest)
    | _ => (10, rest)
    end in
  match read_digits radix rest 0 0 with
  | (_, O, _) => NaN
  | (v, S _, _) => if (v =? 0) && neg then NegZero else num_of_Z (if neg then - v else v)
  end.

Definition parseInt (v : jsval) : number :=
  match v with
  | JInt z => num_of_Z z
  | JStr s => parseInt_string s
  end.

Definition lower_char (c : ascii) : ascii :=
  let n := code c in
  if ((65 <=? n) && (n <=? 90))%N then ascii_of_N (n + 32) else c.

Definition upper_char (c : ascii) : ascii :=
  let n := code c in
  if ((97 <=? n) && (n <=? 122))%N then ascii_of_N (n - 32) else c.

(** [s.toLowerCase()] and [s.toUpperCase()], on the ASCII letters. *)
Definition toLowerCase (s : string) : string :=
  string_of_list_ascii (map lower_char (chars s)).

Definition toUpperCase (s : string) : string :=
  string_of_list_ascii (map upper_char (chars s)).

(** [list.includes(s)]. *)
Definition includes (l : list string) (s : string) : bool :=
  existsb (String.eqb s) l.

(** Truthiness of a string: [if (search)]. *)
Definition truthy (s : string) : bool := negb (String.eqb s "").

(** ** Bound parameters and PostgreSQL conversions *)

(** A value handed to [pool.query] as a bound parameter. *)
Inductive param : Type :=
| PInt (z : Z)            (* an id read from the database, such as [req.user.id] *)
| PNum (n : number)       (* a computed Number, such as [offset] *)
| PStr (s : string).

Definition param_of_jsval (v : jsval) : param :=
  match v with
  | JInt z => PInt z
  | JStr s => PStr s
  end.

Definition in_int8 (z : Z) : bool := (- 2 ^ 63 <=? z) && (z <? 2 ^ 63).

(** The decimal forms of a [bigint]: blanks, an optional sign, decimal
    digits, blanks.  Every PostgreSQL version reads these, and [bigint_in]
    below reads them as this does. *)
Definition int8_of_string (s : string) : option Z :=
  let (neg, rest) := read_sign (trim (chars s)) in
  match all_digits 10 rest with
  | Some v => let z := if neg then - v else v in
              if in_int8 z then Some z else None
  | None => None
  end.

(** Digits in groups, as PostgreSQL 16 and later read them: an underscore
    may stand before a digit, but not first in a decimal number.  [first]
    says that nothing has been read yet; the result is the value and what
    follows the digits, [None] for a syntax error. *)
Fixpoint read_grouped (radix : Z) (prefixed first : bool) (l : list ascii) (acc : Z)
  : option (Z * list ascii) :=
  match l with
  | c :: rest =>
      match digit_value radix c with
      | Some v => read_grouped radix prefixed false rest (acc * radix + v)
      | None =>
          if Ascii.eqb c "_" then
            if first && negb prefixed then None
            else
              match rest with
              | c' :: _ =>
                  match digit_value radix c' with
                  | Some _ => read_grouped radix prefixed false rest acc
                  | None => None
                  end
              | [] => None
              end
          else if first then None else Some (acc, l)
      end
  | [] => if first then None else Some (acc, [])
  end.

(** The radix a prefix after the sign announces, and the digits after it. *)
Definition read_prefix (l : list ascii) : Z * bool * list ascii :=
  match l with
  | "0"%char :: p :: rest =>
      if Ascii.eqb p "x" || Ascii.eqb p "X" then (16, true, rest)
      else if Ascii.eqb p "o" || Ascii.eqb p "O" then (8, true, rest)
      else if Ascii.eqb p "b" || Ascii.eqb p "B" then (2, true, rest)
      else (10, false, l)
  | _ => (10, false, l)
  end.

(** Input of a [bigint] from text, as PostgreSQL 16 and later read it:
    blanks, an optional sign, then decimal digits or [0x], [0o], [0b] and
    digits of that radix, with underscores between digits, then blanks.
    Earlier versions read the decimal forms without underscores only. *)
Definition bigint_in (s : string) : option Z :=
  let (neg, rest) := read_sign (trim_start (chars s)) in
  let '(radix, prefixed, digits) := read_prefix rest in
  match read_grouped radix prefixed true digits 0 with
  | Some (v, after) =>
      match trim_start after with
      | [] => let z := if neg then - v else v in
              if in_int8 z then Some z else None
      | _ :: _ => None
      end
  | None => None
  end.

(** A Number is sent as its [toString()] text; only an integer-valued one
    reads back as a [bigint]. *)
Definition int8_of_number (n : number) : option Z :=
  match n with
  | NegZero => Some 0
  | Fin q =>
      let z := Qfloor q in
      if Qeq_bool (inject_Z z) q && in_int8 z then Some z else None
  | _ => None
  end.

Definition int8_of_param (p : param) : option Z :=
  match p with
  | PInt z => Some z
  | PNum n => int8_of_number n
  | PStr s => bigint_in s
  end.

(** ** Column values, LIKE and ORDER BY *)

Inductive value : Type :=
| VNull
| VInt (z : Z)
| VText (s : string).

(** [LOWER(s)], on the ASCII letters. *)
Definition sql_lower (s : string) : string := toLowerCase s.

(** [s LIKE p] with the default escape character: [None] when the pattern
    ends in a lone backslash. *)
Fixpoint like (p : list ascii) : list ascii -> option bool :=
  match p with
  | [] => fun s => Some (match s with [] => true | _ => false end)
  | c :: p' =>
      if Ascii.eqb c "%" then
        fix star (s : list ascii) : option bool :=
          match like p' s with
          | None => None
          | Some true => Some true
          | Some false =>
              match s with
              | [] => Some false
              | _ :: s' => star s'
              end
          end
      else if Ascii.eqb c "_" then
        fun s => match s with
                 | [] => Some false
                 | _ :: s' => like p' s'
                 end
      else if Ascii.eqb c "\" then
        match p' with
        | [] => fun _ => None
        | e :: p'' =>
            fun s => match s with
                     | [] => Some false
                     | x :: s' => if Ascii.eqb x e then like p'' s' else Some false
                     end
        end
      else
        fun s => match s with
                 | [] => Some false
                 | x :: s' => if Ascii.eqb x c then like p' s' else Some false
                 end
  end.

Definition sql_like (s p : string) : option bool := like (chars p) (chars s).

(** Order of two text values, byte by byte, as under the C collation. *)
Fixpoint text_leb (a b : list ascii) : bool :=
  match a, b with
  | [], _ => true
  | _ :: _, [] => false
  | x :: a', y :: b' =>
      if (code x <? code y)%N then true
      else if (code y <? code x)%N then false
      else text_leb a' b'
  end.

(** [a] sorts no later than [b] in ascending order; NULL sorts last. *)
Definition value_leb (a b : value) : bool :=
  match a, b with
  | _, VNull => true
  | VNull, _ => false
  | VInt x, VInt y => x <=? y
  | VText x, VText y => text_leb (chars x) (chars y)
  | VInt _, VText _ => true
  | VText _, VInt _ => false
  end.

Section Sorting.
Context {R : Type} (leb : R -> R -> bool).

Fixpoint insert_sorted (x : R) (l : list R) : list R :=
  match l with
  | [] => [x]
  | y :: rest => if leb x y then x :: l else y :: insert_sorted x rest
  end.

(** A stable sort: rows that compare equal keep their natural order. *)
Definition sort_rows (l : list R) : list R :=
  fold_right insert_sorted [] l.
End Sorting.

(** ** Parameterised list queries

    The handlers assemble the query text piece by piece while counting
    placeholders.  A query is kept here as the pieces that vary: the WHERE
    conditions with their [$n] placeholders, the ORDER BY column and
    direction, and the placeholders of LIMIT and OFFSET. *)

Inductive condition : Type :=
| LikeLower (column : string) (placeholder : nat)  (* LOWER(column) LIKE LOWER($n) *)
| Equals (column : string) (placeholder : nat).    (* column = $n *)

Definition condition_placeholder (c : condition) : nat :=
  match c with
  | LikeLower _ n => n
  | Equals _ n => n
  end.

Record select_query := mkSelect
  { sel_join : option nat;          (* [$n] of the joined ratings, when joined *)
    sel_where : list condition;     (* after WHERE 1=1, joined by AND *)
    sel_order_by : string;
    sel_direction : string;
    sel_limit : nat;
    sel_offset : nat }.

Record count_query := mkCount
  { cnt_where : list condition }.

Definition select_placeholders (q : select_query) : list nat :=
  match sel_join q with Some n => [n] | None => [] end
  ++ map condition_placeholder (sel_where q)
  ++ [sel_limit q; sel_offset q].

(** The bound values fit the statement: every placeholder has a value and
    every value has a placeholder. *)
Definition binds_ok (used : list nat) (params : list param) : bool :=
  forallb (fun n => (1 <=? n)%nat && (n <=? List.length params)%nat) used
  && forallb (fun n => existsb (Nat.eqb n) used) (seq 1 (List.length params)).

Definition bound (params : list param) (n : nat) : option param :=
  nth_error params (n - 1).

Inductive kind : Type := KInt | KText.

(** A row source: the kind of each column it knows and the column's value
    in a row. *)
Record table (R : Type) := mkTable
  { kind_of : string -> option kind;
    value_of : R -> string -> value }.
Arguments mkTable {R} kind_of value_of.
Arguments kind_of {R} t c.
Arguments value_of {R} t r c.

Section Select.
Context {R : Type} (T : table R).
Variable params : list param.

(** What the planner and the bind step verify before any row is read. *)
Definition condition_ok (c : condition) : bool :=
  match c with
  | LikeLower col n =>
      match kind_of T col, bound params n with
      | Some KText, Some (PStr s) => no_zero_byte s
      | _, _ => false
      end
  | Equals col n =>
      match kind_of T col, bound params n with
      | Some KText, Some (PStr s) => no_zero_byte s
      | Some KInt, Some p => match int8_of_param p with Some _ => true | None => false end
      | _, _ => false
      end
  end.

(** The condition on one row; [None] when its evaluation raises.  A
    comparison with NULL is not true. *)
Definition holds (c : condition) (r : R) : option bool :=
  match c with
  | LikeLower col n =>
      match value_of T r col, bound params n with
      | VText s, Some (PStr p) => sql_like (sql_lower s) (sql_lower p)
      | _, _ => Some false
      end
  | Equals col n =>
      match value_of T r col, bound params n with
      | VText s, Some (PStr p) => Some (String.eqb s p)
      | VInt z, Some p =>
          match int8_of_param p with
          | Some z' => Some (z =? z')
          | None => Some false
          end
      | _, _ => Some false
      end
  end.

Fixpoint holds_all (cs : list condition) (r : R) : option bool :=
  match cs with
  | [] => Some true
  | c :: rest =>
      match holds c r, holds_all rest r with
      | Some a, Some b => Some (a && b)
      | _, _ => None
      end
  end.

(** The rows that pass WHERE, in their order. *)
Fixpoint where_rows (cs : list condition) (rows : list R) : option (list R) :=
  match rows with
  | [] => Some []
  | r :: rest =>
      match holds_all cs r, where_rows cs rest with
      | Some keep, Some rest' => Some (if keep then r :: rest' else rest')
      | _, _ => None
      end
  end.

Definition order_leb (col direction : string) (a b : R) : bool :=
  if String.eqb direction "DESC"
  then value_leb (value_of T b col) (value_of T a col)
  else value_leb (value_of T a col) (value_of T b col).

(** A SELECT over the rows [from] of its FROM clause. *)
Definition run_select (from : list R) (q : select_query) : option (list R) :=
  if binds_ok (select_placeholders q) params
     && forallb condition_ok (sel_where q)
     && match kind_of T (sel_order_by q) with Some _ => true | None => false end
     && includes ["ASC"; "DESC"] (sel_direction q)
  then
    match bound params (sel_limit q), bound params (sel_offset q) with
    | Some pl, Some po =>
        match int8_of_param pl, int8_of_param po with
        | Some l, Some o =>
            if (l <? 0) || (o <? 0) then None
            else
              match where_rows (sel_where q) from with
              | Some rows =>
                  Some (firstn (Z.to_nat l)
                          (skipn (Z.to_nat o)
                             (sort_rows (order_leb (sel_order_by q) (sel_direction q))
                                        rows)))
              | None => None
              end
        | _, _ => None
        end
    | _, _ => None
    end
  else None.

(** A SELECT COUNT( * ) over the rows [from]. *)
Definition run_count (from : list R) (q : count_query) : option Z :=
  if binds_ok (map condition_placeholder (cnt_where q)) params
     && forallb condition_ok (cnt_where q)
  then
    match where_rows (cnt_where q) from with
    | Some rows => Some (sql_count rows)
    | None => None
    end
  else None.
End Select.

(** ** The list handlers' request and response *)

(** [req.query]: each parameter a string, or absent.  A parameter is a
    string when its key occurs once in the query string, without brackets;
    the arrays and objects the query parser builds from repeated or
    bracketed keys are not represented. *)
Module Query.
Record t := mk
  { page : option string;
    limit : option string;
    sortBy : option string;
    sortOrder : option string;
    search : option string;
    searchBy : option string;
    role : option string }.

Definition empty : t := mk None None None None None None None.

Definition set_sortBy (x : option string) (q : t) : t :=
  mk (page q) (limit q) x (sortOrder q) (search q) (searchBy q) (role q).
End Query.

(** [const { x = dflt } = req.query] for a string default. *)
Definition string_or (dflt : string) (x : option string) : string :=
  match x with
  | None => dflt
  | Some s => s
  end.

(** The pagination block.  [total] is sent as [totalStores], [totalUsers]
    or [totalRatings], depending on the route. *)
Record pagination := mkPagination
  { currentPage : json_number;
    totalPages : json_number;
    total : Z;
    hasNext : bool;
    hasPrev : bool }.

Inductive list_body (Row : Type) : Type :=
| ListMessage (message : string)
| ListPage (rows : list Row) (block : pagination).
Arguments ListMessage {Row} message.
Arguments ListPage {Row} rows block.

(** The block as every list handler computes it from [page], [limit] and
    the count. *)
Definition pagination_block (page limit : jsval) (count : Z) : pagination :=
  let totalPages := num_ceil (num_div (num_of_Z count) (ToNumber limit)) in
  mkPagination (to_json (parseInt page))
               (to_json totalPages)
               count
               (num_lt (ToNumber page) totalPages)
               (num_lt (num_of_Z 1) (ToNumber page)).

(** [(page - 1) * limit]. *)
Definition page_offset (page limit : jsval) : number :=
  num_mul (num_sub (ToNumber page) (num_of_Z 1)) (ToNumber limit).

(** [valid.includes(x) ? x : dflt]. *)
Definition allow_listed (valid : list string) (dflt : string) (x : string) : string :=
  if includes valid x then x else dflt.

(** [validSortOrders.includes(sortOrder.toLowerCase()) ? sortOrder.toUpperCase() : dflt]. *)
Definition sort_direction (dflt : string) (sortOrder : string) : string :=
  if includes ["asc"; "desc"] (toLowerCase sortOrder) then toUpperCase sortOrder else dflt.

(** The query under construction: its conditions, the values pushed so far
    and [paramCount]. *)
Record builder := mkBuilder
  { b_where : list condition;
    b_params : list param;
    paramCount : nat }.

(** [paramCount++; query += ` AND LOWER(col) LIKE LOWER($n)`; params.push(`%${search}%`)]. *)
Definition and_like (col search : string) (b : builder) : builder :=
  let n := S (paramCount b) in
  mkBuilder (b_where b ++ [LikeLower col n])
            (b_params b ++ [PStr ("%" ++ search ++ "%")])
            n.

(** [paramCount++; query += ` AND col = $n`; params.push(v)]. *)
Definition and_equals (col : string) (v : param) (b : builder) : builder :=
  let n := S (paramCount b) in
  mkBuilder (b_where b ++ [Equals col n]) (b_params b ++ [v]) n.

Definition when (c : bool) (f : builder -> builder) (b : builder) : builder :=
  if c then f b else b.

(** [paramCount++; query += ` LIMIT $n`; params.push(limit);
     paramCount++; query += ` OFFSET $n`; params.push(offset)]. *)
Definition paginate (join : option nat) (order_by direction : string)
    (limit : jsval) (offset : number) (b : builder) : select_query * list param :=
  let nl := S (paramCount b) in
  let no := S nl in
  (mkSelect join (b_where b) order_by direction nl no,
   b_params b ++ [param_of_jsval limit] ++ [PNum offset]).

Fixpoint assoc {A : Type} (k : string) (l : list (string * A)) : option A :=
  match l with
  | [] => None
  | (k', v) :: rest => if String.eqb k k' then Some v else assoc k rest
  end.

Definition nullable_int (v : option Z) : value :=
  match v with
  | Some z => VInt z
  | None => VNull
  end.

(** [a LEFT JOIN b ON on]: every row of [a], with each of its matches or
    with none. *)
Definition left_join {A B : Type} (on : A -> B -> bool) (a : list A) (b : list B)
  : list (A * option B) :=
  flat_map (fun x => match filter (on x) b with
                     | [] => [(x, None)]
                     | ms => map (fun y => (x, Some y)) ms
                     end) a.

(** ** GET /api/stores *)

(** A row of [stores s LEFT JOIN users u ... LEFT JOIN ratings r ...]. *)
Record store_row := mkStoreRow
  { row_s : Store.t;
    row_u : option User.t;
    row_r : option Rating.t }.

Definition stores_table : table store_row :=
  mkTable
    (fun c => assoc c [("s.id", KInt); ("s.name", KText); ("s.email", KText);
                       ("s.address", KText); ("s.owner_id", KInt);
                       ("s.average_rating", KInt); ("s.total_ratings", KInt);
                       ("s.created_at", KInt); ("s.updated_at", KInt)])
    (fun r c =>
       let s := row_s r in
       match assoc c [("s.id", VInt (Store.id s)); ("s.name", VText (Store.name s));
                      ("s.email", VText (Store.email s));
                      ("s.address", VText (Store.address s));
                      ("s.owner_id", nullable_int (Store.owner_id s));
                      ("s.average_rating", nullable_int (Store.average_rating s));
                      ("s.total_ratings", nullable_int (Store.total_ratings s));
                      ("s.created_at", VInt (Store.created_at s));
                      ("s.updated_at", VInt (Store.updated_at s))] with
       | Some v => v
       | None => VNull
       end).

(** [FROM stores s LEFT JOIN users u ON s.owner_id = u.id], and with
    [Some uid] also [LEFT JOIN ratings r ON s.id = r.store_id AND r.user_id = uid]. *)
Definition stores_from (d : database) (rater : option Z) : list store_row :=
  let su := left_join (fun s u => owner_is (User.id u) s) (stores d) (users d) in
  match rater with
  | None => map (fun x => mkStoreRow (fst x) (snd x) None) su
  | Some uid =>
      map (fun x => mkStoreRow (fst (fst x)) (snd (fst x)) (snd x))
          (left_join (fun x r => (Store.id (fst x) =? Rating.store_id r)
                                 && (Rating.user_id r =? uid))
                     su (ratings d))
  end.

(** [FROM stores s] alone, for the count. *)
Definition stores_only (d : database) : list store_row :=
  map (fun s => mkStoreRow s None None) (stores d).

(** One element of the [stores] array of the response: the selected columns
    of [s] (id, name, email, address, average_rating, total_ratings,
    created_at), [owner_name], and [user_rating] when it is selected. *)
Record store_item := mkStoreItem
  { item_store : Store.t;
    owner_name : option string;
    user_rating : option (option Z) }.

Definition store_item_of (with_rating : bool) (r : store_row) : store_item :=
  mkStoreItem (row_s r)
              (option_map User.name (row_u r))
              (if with_rating then Some (option_map Rating.rating (row_r r)) else None).

Definition stores_validSortFields : list string :=
  ["name"; "email"; "address"; "average_rating"; "total_ratings"; "created_at"].

Definition stores_validSearchFields : list string := ["name"; "address"].

Definition stores_sortField (q : Query.t) : string :=
  allow_listed stores_validSortFields "name" (string_or "name" (Query.sortBy q)).

Definition stores_searchField (q : Query.t) : string :=
  allow_listed stores_validSearchFields "name" (string_or "name" (Query.searchBy q)).

(** The conditions both the row query and the count query add after
    [WHERE 1=1], starting from the builder [b]. *)
Definition stores_filters (user : principal) (q : Query.t) (b : builder) : builder :=
  let search := string_or "" (Query.search q) in
  when (String.eqb (user_role user) "STORE_OWNER")
       (and_equals "s.owner_id" (PInt (user_id user)))
       (when (truthy search) (and_like ("s." ++ stores_searchField q) search) b).

(** The row query of the handler with its [queryParams]. *)
Definition stores_query (user : principal) (q : Query.t) : select_query * list param :=
  let page := or_default (JInt 1) (Query.page q) in
  let limit := or_default (JInt 10) (Query.limit q) in
  let order := sort_direction "ASC" (string_or "asc" (Query.sortOrder q)) in
  let normal := String.eqb (user_role user) "NORMAL_USER" in
  let queryParams := if normal then [PInt (user_id user)] else [] in
  paginate (if normal then Some 1%nat else None)
           ("s." ++ stores_sortField q) order limit (page_offset page limit)
           (stores_filters user q (mkBuilder [] queryParams (List.length queryParams))).

(** The count query with its [countParams]. *)
Definition stores_countQuery (user : principal) (q : Query.t) : count_query * list param :=
  let b := stores_filters user q (mkBuilder [] [] 0) in
  (mkCount (b_where b), b_params b).

(** [pool.query(query, queryParams)] for the row query. *)
Definition run_stores_query (d : database) (qp : select_query * list param)
  : option (list store_row) :=
  let (query, params) := qp in
  match sel_join query with
  | None => run_select stores_table params (stores_from d None) query
  | Some n =>
      match bound params n with
      | Some p =>
          match int8_of_param p with
          | Some uid => run_select stores_table params (stores_from d (Some uid)) query
          | None => None
          end
      | None => None
      end
  end.

Definition run_stores_count (d : database) (qp : count_query * list param) : option Z :=
  let (query, params) := qp in
  run_count stores_table params (stores_only d) query.

(** GET /api/stores, after [authenticateToken]. *)
Definition get_stores (user : principal) (q : Query.t) (d : database)
  : response (list_body store_item) :=
  let page := or_default (JInt 1) (Query.page q) in
  let limit := or_default (JInt 10) (Query.limit q) in
  let failed := mkResponse 500 (ListMessage "Server error fetching stores") in
  match run_stores_query d (stores_query user q) with
  | None => failed
  | Some rows =>
      match run_stores_count d (stores_countQuery user q) with
      | None => failed
      | Some totalStores =>
          mkResponse 200
            (ListPage (map (store_item_of (String.eqb (user_role user) "NORMAL_USER")) rows)
                      (pagination_block page limit totalStores))
      end
  end.

(** ** GET /api/users *)

(** A row of [users u LEFT JOIN stores s ON u.id = s.owner_id AND u.role = 'STORE_OWNER']. *)
Record user_row := mkUserRow
  { row_user : User.t;
    row_store : option Store.t }.

(** The columns of [users] under a prefix: ["u."] in the row query, none in
    the count query, which reads [FROM users] without an alias. *)
Definition users_table (prefix : string) : table user_row :=
  mkTable
    (fun c => assoc c [((prefix ++ "id")%string, KInt); ((prefix ++ "name")%string, KText);
                       ((prefix ++ "email")%string, KText); ((prefix ++ "address")%string, KText);
                       ((prefix ++ "role")%string, KText); ((prefix ++ "created_at")%string, KInt)])
    (fun r c =>
       let u := row_user r in
       match assoc c [((prefix ++ "id")%string, VInt (User.id u));
                      ((prefix ++ "name")%string, VText (User.name u));
                      ((prefix ++ "email")%string, VText (User.email u));
                      ((prefix ++ "address")%string, VText (User.address u));
                      ((prefix ++ "role")%string, VText (User.role u));
                      ((prefix ++ "created_at")%string, VInt (User.created_at u))] with
       | Some v => v
       | None => VNull
       end).

Definition users_from (d : database) : list user_row :=
  map (fun x => mkUserRow (fst x) (snd x))
      (left_join (fun u s => owner_is (User.id u) s && String.eqb (User.role u) "STORE_OWNER")
                 (users d) (stores d)).

Definition users_only (d : database) : list user_row :=
  map (fun u => mkUserRow u None) (users d).

(** One element of the [users] array: the selected columns of [u] and
    [CASE WHEN u.role = 'STORE_OWNER' THEN s.average_rating ELSE NULL END]. *)
Record user_item := mkUserItem
  { item_user : User.t;
    store_rating : option Z }.

Definition user_item_of (r : user_row) : user_item :=
  mkUserItem (row_user r)
             (if String.eqb (User.role (row_user r)) "STORE_OWNER"
              then match row_store r with
                   | Some s => Store.average_rating s
                   | None => None
                   end
              else None).

Definition users_validSortFields : list string :=
  ["name"; "email"; "address"; "role"; "created_at"].

Definition users_validSearchFields : list string :=
  ["name"; "email"; "address"; "role"].

Definition users_sortField (q : Query.t) : string :=
  allow_listed users_validSortFields "name" (string_or "name" (Query.sortBy q)).

Definition users_searchField (q : Query.t) : string :=
  allow_listed users_validSearchFields "name" (string_or "name" (Query.searchBy q)).

Definition users_filters (prefix : string) (q : Query.t) (b : builder) : builder :=
  let search := string_or "" (Query.search q) in
  let role := string_or "" (Query.role q) in
  when (truthy role) (and_equals (prefix ++ "role") (PStr role))
       (when (truthy search) (and_like (prefix ++ users_searchField q) search) b).

Definition users_query (q : Query.t) : select_query * list param :=
  let page := or_default (JInt 1) (Query.page q) in
  let limit := or_default (JInt 10) (Query.limit q) in
  let order := sort_direction "ASC" (string_or "asc" (Query.sortOrder q)) in
  paginate None ("u." ++ users_sortField q) order limit (page_offset page limit)
           (users_filters "u." q (mkBuilder [] [] 0)).

Definition users_countQuery (q : Query.t) : count_query * list param :=
  let b := users_filters "" q (mkBuilder [] [] 0) in
  (mkCount (b_where b), b_params b).

(** GET /api/users, after [authenticateToken] and [requireAdmin]. *)
Definition get_users (q : Query.t) (d : database) : response (list_body user_item) :=
  let page := or_default (JInt 1) (Query.page q) in
  let limit := or_default (JInt 10) (Query.limit q) in
  let failed := mkResponse 500 (ListMessage "Server error fetching users") in
  match (let (query, params) := users_query q in
         run_select (users_table "u.") params (users_from d) query) with
  | None => failed
  | Some rows =>
      match (let (query, params) := users_countQuery q in
             run_count (users_table "") params (users_only d) query) with
      | None => failed
      | Some totalUsers =>
          mkResponse 200
            (ListPage (map user_item_of rows) (pagination_block page limit totalUsers))
      end
  end.

(** ** Single-row handlers with role checks *)

(** The decimal forms of an [integer]. *)
Definition int4_of_string (s : string) : option Z :=
  match int8_of_string s with
  | Some z => if in_int4 z then Some z else None
  | None => None
  end.

(** Input of an [integer] from text: a path parameter bound where an
    [integer] column is compared is read so. *)
Definition integer_in (s : string) : option Z :=
  match bigint_in s with
  | Some z => if in_int4 z then Some z else None
  | None => None
  end.

(** [a === b] on numbers. *)
Definition num_eq (a b : number) : bool :=
  match a, b with
  | NaN, _ | _, NaN => false
  | Inf s, Inf t => Bool.eqb s t
  | Inf _, _ | _, Inf _ => false
  | _, _ => Qeq_bool (num_value a) (num_value b)
  end.

Inductive detail_body (Row : Type) : Type :=
| DetailMessage (message : string)
| Detail (row : Row).
Arguments DetailMessage {Row} message.
Arguments Detail {Row} row.

(** The row of GET /api/stores/:id: the list columns and [u.id as owner_id]. *)
Record store_detail := mkStoreDetail
  { detail_item : store_item;
    detail_owner_id : option Z }.

(** [req.user.role === 'STORE_OWNER' && owner_id !== req.user.id]. *)
Definition owner_denied (user : principal) (owner_id : option Z) : bool :=
  String.eqb (user_role user) "STORE_OWNER"
  && negb (match owner_id with
           | Some o => o =? user_id user
           | None => false
           end).

(** GET /api/stores/:id, after [authenticateToken]. *)
Definition get_store (user : principal) (id : string) (d : database)
  : response (detail_body store_detail) :=
  let normal := String.eqb (user_role user) "NORMAL_USER" in
  match integer_in id with
  | None => mkResponse 500 (DetailMessage "Server error fetching store")
  | Some storeId =>
      let rows := filter (fun r => Store.id (row_s r) =? storeId)
                         (stores_from d (if normal then Some (user_id user) else None)) in
      match rows with
      | [] => mkResponse 404 (DetailMessage "Store not found")
      | r :: _ =>
          let owner_id := option_map User.id (row_u r) in
          if owner_denied user owner_id then
            mkResponse 403 (DetailMessage "Access denied")
          else
            mkResponse 200 (Detail (mkStoreDetail (store_item_of normal r) owner_id))
      end
  end.

(** The row of GET /api/users/:id: the list columns and the owned store's id. *)
Record user_detail := mkUserDetail
  { detail_user : user_item;
    detail_store_id : option Z }.

(** [req.user.role !== 'SYSTEM_ADMIN' && req.user.id !== parseInt(userId)]. *)
Definition profile_denied (user : principal) (userId : string) : bool :=
  negb (String.eqb (user_role user) "SYSTEM_ADMIN")
  && negb (num_eq (num_of_Z (user_id user)) (parseInt_string userId)).

(** GET /api/users/:id, after [authenticateToken]. *)
Definition get_user (user : principal) (userId : string) (d : database)
  : response (detail_body user_detail) :=
  if profile_denied user userId then
    mkResponse 403 (DetailMessage "Access denied")
  else
    match integer_in userId with
    | None => mkResponse 500 (DetailMessage "Server error fetching user")
    | Some uid =>
        match filter (fun r => User.id (row_user r) =? uid) (users_from d) with
        | [] => mkResponse 404 (DetailMessage "User not found")
        | r :: _ =>
            mkResponse 200
              (Detail (mkUserDetail
                         (user_item_of r)
                         (if String.eqb (User.role (row_user r)) "STORE_OWNER"
                          then option_map Store.id (row_store r) else None)))
        end
    end.

(** ** PUT /api/stores/:id *)

Definition truthy_field (x : option string) : option string :=
  match x with
  | Some s => if truthy s then Some s else None
  | None => None
  end.

(** The SET clause built from the fields that are present. *)
Definition set_store_fields (name email address : option string) (now : Z)
    (s : Store.t) : Store.t :=
  Store.mk (Store.id s)
           (string_or (Store.name s) name)
           (string_or (Store.email s) email)
           (string_or (Store.address s) address)
           (Store.owner_id s) (Store.average_rating s) (Store.total_ratings s)
           (Store.created_at s) now.

(** The CHECKs, VARCHAR bounds and UNIQUE(email) on an updated row. *)
Definition store_update_ok (d : database) (s : Store.t) : bool :=
  length_between 20 60 (Store.name s)
  && length_between 0 255 (Store.email s)
  && negb (existsb (fun s' => negb (Store.id s' =? Store.id s)
                              && String.eqb (Store.email s') (Store.email s)) (stores d))
  && length_between 0 400 (Store.address s).

(** [UPDATE stores SET ..., updated_at = CURRENT_TIMESTAMP WHERE id = $n RETURNING ...]. *)
Definition update_store (name email address : option string) (storeId : Z) (now : Z)
    (d : database) : outcome (list Store.t) :=
  let hit := map (set_store_fields name email address now)
                 (filter (fun s => Store.id s =? storeId) (stores d)) in
  if negb (bindable name && bindable email && bindable address) then Raised d
  else if forallb (store_update_ok d) hit then
    Done hit
         (with_stores d (map (fun s => if Store.id s =? storeId
                                       then set_store_fields name email address now s
                                       else s) (stores d)))
  else Raised d.

(** PUT /api/stores/:id, after [authenticateToken] and [validateStoreUpdate]. *)
Definition put_store (user : principal) (id : string) (name email address : option string)
    (now : Z) (d : database) : response (detail_body Store.t) * database :=
  match integer_in id with
  | None => (mkResponse 500 (DetailMessage "Server error updating store"), d)
  | Some storeId =>
      match filter (fun s => Store.id s =? storeId) (stores d) with
      | [] => (mkResponse 404 (DetailMessage "Store not found"), d)
      | store :: _ =>
          if owner_denied user (Store.owner_id store) then
            (mkResponse 403 (DetailMessage "Access denied"), d)
          else if negb (bindable (truthy_field email)) then
            (mkResponse 500 (DetailMessage "Server error updating store"), d)
          else if match truthy_field email with
                  | Some e => existsb (fun s => String.eqb (Store.email s) e
                                                && negb (Store.id s =? storeId)) (stores d)
                  | None => false
                  end then
            (mkResponse 400 (DetailMessage "Email already exists"), d)
          else
            match truthy_field name, truthy_field email, truthy_field address with
            | None, None, None =>
                (mkResponse 400 (DetailMessage "No valid fields to update"), d)
            | n, e, a =>
                match update_store n e a storeId now d with
                | Done (row :: _) d' => (mkResponse 200 (Detail row), d')
                | Done [] d' => (mkResponse 200 (DetailMessage "Store updated successfully"), d')
                | Raised d' => (mkResponse 500 (DetailMessage "Server error updating store"), d')
                end
            end
      end
  end.

(** ** The stores router *)

Inductive method : Type := GET | POST | PUT | DELETE.

Definition method_eqb (a b : method) : bool :=
  match a, b with
  | GET, GET | POST, POST | PUT, PUT | DELETE, DELETE => true
  | _, _ => false
  end.

(** A route path is a sequence of segments: a literal, or a named parameter
    that takes any one non-empty segment. *)
Inductive segment : Type :=
| Lit (s : string)
| Par (name : string).

Fixpoint split_slash (l : list ascii) (cur : list ascii) : list string :=
  match l with
  | [] => [string_of_list_ascii (rev cur)]
  | c :: rest =>
      if Ascii.eqb c "/" then string_of_list_ascii (rev cur) :: split_slash rest []
      else split_slash rest (c :: cur)
  end.

(** The segments of a request path: it starts with a slash, and one
    trailing slash is allowed (routing is not strict). *)
Definition path_segments (path : string) : option (list string) :=
  match chars path with
  | "/"%char :: rest =>
      let segs := split_slash rest [] in
      let segs := match rev segs with
                  | ""%string :: front => rev front
                  | _ => segs
                  end in
      if forallb truthy segs then Some segs else None
  | _ => None
  end.

(** A route path against the segments of a request path; literals compare
    without regard to case.  The result is [req.params]. *)
Fixpoint match_route (route : list segment) (segs : list string)
  : option (list (string * string)) :=
  match route, segs with
  | [], [] => Some []
  | Lit s :: route', x :: segs' =>
      if String.eqb (toLowerCase s) (toLowerCase x) then match_route route' segs' else None
  | Par name :: route', x :: segs' =>
      match match_route route' segs' with
      | Some ps => Some ((name, x) :: ps)
      | None => None
      end
  | _, _ => None
  end.

Inductive stores_handler : Type :=
| ListStores          (* GET / *)
| GetStoreById        (* GET /:id *)
| CreateStore         (* POST / *)
| UpdateStore         (* PUT /:id *)
| DeleteStore         (* DELETE /:id *)
| GetStoreRatings     (* GET /:id/ratings *)
| GetMyStore          (* GET /my-store *)
| GetMyStoreRatings.  (* GET /my-store/ratings *)

Record route := mkRoute
  { route_method : method;
    route_path : list segment;
    route_handler : stores_handler }.

(** The routes of routes/stores.js in the order they are registered. *)
Definition stores_router : list route :=
  [ mkRoute GET [] ListStores;
    mkRoute GET [Par "id"] GetStoreById;
    mkRoute POST [] CreateStore;
    mkRoute PUT [Par "id"] UpdateStore;
    mkRoute DELETE [Par "id"] DeleteStore;
    mkRoute GET [Par "id"; Lit "ratings"] GetStoreRatings;
    mkRoute GET [Lit "my-store"] GetMyStore;
    mkRoute GET [Lit "my-store"; Lit "ratings"] GetMyStoreRatings ].

(** The first registered route whose method and path match takes the
    request; none of these handlers passes it on. *)
Fixpoint first_match (routes : list route) (m : method) (segs : list string)
  : option (stores_handler * list (string * string)) :=
  match routes with
  | [] => None
  | r :: rest =>
      if method_eqb (route_method r) m then
        match match_route (route_path r) segs with
        | Some ps => Some (route_handler r, ps)
        | None => first_match rest m segs
        end
      else first_match rest m segs
  end.

(** The parameters are the segments as they stand in the path; a handler
    reads them percent-decoded. *)
Definition dispatch (routes : list route) (m : method) (path : string)
  : option (stores_handler * list (string * string)) :=
  match path_segments path with
  | Some segs => first_match routes m segs
  | None => None
  end.

(** ** The sortable resources

    Every list handler reads [sortBy] ([sort_by] on the my-store ratings)
    with a default and passes it through its allow-list: the allow-list and
    the field used for anything else. *)
Record sortable := mkSortable
  { endpoint : string;
    validSortFields : list string;
    fallback_field : string }.

Definition sortables : list sortable :=
  [ mkSortable "GET /api/stores" stores_validSortFields "name";
    mkSortable "GET /api/users" users_validSortFields "name";
    mkSortable "GET /api/stores/:id/ratings" ["rating"; "created_at"; "user_name"] "created_at";
    mkSortable "GET /api/stores/my-store/ratings"
               ["rating"; "created_at"; "user_name"; "user_email"] "created_at";
    mkSortable "GET /api/ratings/user/:userId" ["rating"; "created_at"; "store_name"] "created_at";
    mkSortable "GET /api/ratings/my-ratings" ["rating"; "created_at"; "store_name"] "created_at";
    mkSortable "GET /api/ratings/store/:storeId" ["rating"; "created_at"; "user_name"] "created_at" ].

(** [const { sortBy = dflt } = req.query; const sortField = valid.includes(sortBy) ? sortBy : dflt]. *)
Definition sortField (r : sortable) (sortBy : option string) : string :=
  allow_listed (validSortFields r) (fallback_field r) (string_or (fallback_field r) sortBy).

(** The number [n] is the integer [z]. *)
Definition is_integer (n : number) (z : Z) : Prop :=
  match n with
  | Fin q => (q == inject_Z z)%Q
  | NegZero => z = 0
  | _ => False
  end.

(** ** The list endpoints taken together *)

Inductive list_request : Type :=
| StoresList (user : principal)
| UsersList.

Definition page_of {Row : Type} (r : response (list_body Row)) : option pagination :=
  match body r with
  | ListPage _ block => Some block
  | ListMessage _ => None
  end.

(** The pagination block of the answer, when the answer is a page. *)
Definition list_pagination (e : list_request) (q : Query.t) (d : database)
  : option pagination :=
  match e with
  | StoresList user => page_of (get_stores user q d)
  | UsersList => page_of (get_users q d)
  end.

(** The number of rows of the listed table that pass the WHERE conditions
    of the row query, bound to the row query's own parameters: the row
    query without its LIMIT and OFFSET. *)
Definition row_query_matches (e : list_request) (q : Query.t) (d : database)
  : option Z :=
  match e with
  | StoresList user =>
      let (query, params) := stores_query user q in
      option_map sql_count
        (where_rows stores_table params (sel_where query) (stores_only d))
  | UsersList =>
      let (query, params) := users_query q in
      option_map sql_count
        (where_rows (users_table "u.") params (sel_where query) (users_only d))
  end.

Definition list_page (q : Query.t) : jsval := or_default (JInt 1) (Query.page q).

Definition list_limit (q : Query.t) : jsval := or_default (JInt 10) (Query.limit q).

(** The seeded database asked for page 2 of its stores, two to a page. *)
Definition second_page_of_two : Query.t :=
  Query.mk (Some "2") (Some "2") None None None None None.

(** A search that matches no store, asked for page 2. *)
Definition no_match_page_two : Query.t :=
  Query.mk (Some "2") None None None (Some "zzz") None None.

Definition seed_admin : principal := mkPrincipal 1 "system_admin".

(** A LIKE condition whose pattern is some text between two [%], as the
    handlers bind it. *)
Definition like_bound (params : list param) (c : condition) : Prop :=
  match c with
  | LikeLower _ n => exists s, bound params n = Some (PStr ("%" ++ s ++ "%"))
  | Equals _ _ => True
  end.

Definition is_text (k : kind) : bool :=
  match k with
  | KText => true
  | KInt => false
  end.

Definition rows_of {Row : Type} (r : response (list_body Row)) : option nat :=
  match body r with
  | ListPage rows _ => Some (List.length rows)
  | ListMessage _ => None
  end.

(** The number of rows in the answer, when the answer is a page. *)
Definition list_rows_length (e : list_request) (q : Query.t) (d : database)
  : option nat :=
  match e with
  | StoresList user => rows_of (get_stores user q d)
  | UsersList => rows_of (get_users q d)
  end.

Definition page_zero : Query.t :=
  Query.mk (Some "0") None None None None None None.

(** The texts of the request that the queries of a list bind as text
    values: the search text, and on the users list the role. *)
Definition bound_texts (e : list_request) (q : Query.t) : list string :=
  match e with
  | StoresList _ => [string_or "" (Query.search q)]
  | UsersList => [string_or "" (Query.search q); string_or "" (Query.role q)]
  end.

(** A search for a text that holds a zero byte. *)
Definition search_zero_byte : Query.t :=
  Query.mk None None None None (Some (String zero "")) None None.

(** The schema's keys, as properties of a database: PRIMARY KEY on
    [users.id], and the role CHECK and UNIQUE(user_id, store_id) above. *)
Definition users_keyed (d : database) : Prop := NoDup (map User.id (users d)).

(** The number of rows the row query returns once its LIMIT and OFFSET are
    taken away: the rows of its FROM clause, joins included, that pass its
    WHERE conditions. *)
Definition unpaginated_rows (e : list_request) (q : Query.t) (d : database)
  : option Z :=
  match e with
  | StoresList user =>
      let (query, params) := stores_query user q in
      let rater := match sel_join query with
                   | Some _ => Some (user_id user)
                   | None => None
                   end in
      option_map sql_count
        (where_rows stores_table params (sel_where query) (stores_from d rater))
  | UsersList =>
      let (query, params) := users_query q in
      option_map sql_count
        (where_rows (users_table "u.") params (sel_where query) (users_from d))
  end.

(** ** Deleting a store or a user *)

(** DELETE /api/stores/:id, after [authenticateToken] and [requireAdmin].
    The body of the answer is its [message]. *)
Definition delete_store_handler (id : string) (d : database) : response string * database :=
  match integer_in id with
  | None => (mkResponse 500 "Server error deleting store", d)
  | Some storeId =>
      if negb (store_exists d storeId) then
        (mkResponse 404 "Store not found", d)
      else
        match delete_store storeId d with
        | Done _ d' => (mkResponse 200 "Store deleted successfully", d')
        | Raised d' => (mkResponse 500 "Server error deleting store", d')
        end
  end.

(** DELETE /api/users/:id of the users router, after [authenticateToken]
    and [requireAdmin]. *)
Definition delete_user_handler (user : principal) (userId : string) (d : database)
  : response string * database :=
  if num_eq (num_of_Z (user_id user)) (parseInt_string userId) then
    (mkResponse 400 "Cannot delete your own account", d)
  else
    match integer_in userId with
    | None => (mkResponse 500 "Server error deleting user", d)
    | Some uid =>
        if negb (user_exists d uid) then
          (mkResponse 404 "User not found", d)
        else
          match delete_user uid d with
          | Done _ d' => (mkResponse 200 "User deleted successfully", d')
          | Raised d' => (mkResponse 500 "Server error deleting user", d')
          end
    end.

(** ** The rating requests as they arrive

    [post_rating], [put_rating] and [delete_rating_handler] take the store
    id as the integer PostgreSQL has read.  The id arrives as the [storeId]
    of the body or as the path parameter, and the first statement that
    binds it raises when it cannot be read as an [integer]. *)

Definition int4_of_param (p : param) : option Z :=
  match int8_of_param p with
  | Some z => if in_int4 z then Some z else None
  | None => None
  end.

(** POST /api/ratings with the [storeId] of the body. *)
Definition post_rating_request (user : principal) (storeId : jsval) (rating : Z)
    (comment : option string) (now : Z) (d : database) : response rating_body * database :=
  match int4_of_param (param_of_jsval storeId) with
  | Some sid => post_rating user sid rating comment now d
  | None => (mkResponse 500 (RatingMessage "Server error submitting rating"), d)
  end.

(** PUT /api/ratings/:storeId with the path parameter. *)
Definition put_rating_request (user : principal) (storeId : string) (rating : Z)
    (comment : option string) (now : Z) (d : database) : response rating_body * database :=
  match integer_in storeId with
  | Some sid => put_rating user sid rating comment now d
  | None => (mkResponse 500 (RatingMessage "Server error updating rating"), d)
  end.

(** DELETE /api/ratings/:storeId with the path parameter. *)
Definition delete_rating_request (user : principal) (storeId : string) (d : database)
  : response rating_body * database :=
  match integer_in storeId with
  | Some sid => delete_rating_handler user sid d
  | None => (mkResponse 500 (RatingMessage "Server error deleting rating"), d)
  end.

(** Two users with the ids 5 and 50, and the path [5_0]: [parseInt] reads
    it as 5, PostgreSQL as 50. *)
Definition two_profiles : database :=
  mkDb [ User.mk 5 "Bob Wilson - Regular Customer Two" "bob.wilson@example.com"
                 "654 Maple Drive, Family Neighborhood, Residential Zone, State 33333"
                 "normal_user" seed_time;
         User.mk 50 "Erin Walker - Regular Customer Fifty" "erin.walker@example.com"
                 "50 Birch Court, Lakeside Quarter, Residential Zone, State 55555"
                 "normal_user" seed_time ]
       [] [] 0 0.

(** ** The schema's constraints as properties of a database *)

(** PRIMARY KEY of [stores] and UNIQUE(email) of [stores]. *)
Definition stores_keyed (d : database) : Prop := NoDup (map Store.id (stores d)).

Definition store_emails_unique (d : database) : Prop := NoDup (map Store.email (stores d)).

(** The three foreign keys: a rating's user and store exist, and so does a
    store's owner when it has one. *)
Definition rating_references (d : database) (r : Rating.t) : Prop :=
  user_exists d (Rating.user_id r) = true /\ store_exists d (Rating.store_id r) = true.

Definition owner_reference (d : database) (s : Store.t) : Prop :=
  match Store.owner_id s with
  | Some o => user_exists d o = true
  | None => True
  end.

Definition references_hold (d : database) : Prop :=
  Forall (rating_references d) (ratings d) /\ Forall (owner_reference d) (stores d).

(** No row carries an id its SERIAL sequence has not handed out yet. *)
Definition ids_issued (d : database) : Prop :=
  Forall (fun s => Store.id s <= stores_id_seq d) (stores d) /\
  Forall (fun r => Rating.id r <= ratings_id_seq d) (ratings d).

(** The columns of a store row that the trigger leaves alone. *)
Definition same_store_columns (s s' : Store.t) : Prop :=
  Store.id s' = Store.id s /\ Store.name s' = Store.name s /\
  Store.email s' = Store.email s /\ Store.address s' = Store.address s /\
  Store.owner_id s' = Store.owner_id s /\
  Store.created_at s' = Store.created_at s /\ Store.updated_at s' = Store.updated_at s.

(** ** Write requests

    The requests that change the tables: the three of routes/ratings.js,
    the three of routes/stores.js and the deletion of a user. *)

Inductive write_request : Type :=
| PostRating (user : principal) (storeId : jsval) (rating : Z) (comment : option string)
| PutRating (user : principal) (storeId : string) (rating : Z) (comment : option string)
| DeleteRatingOf (user : principal) (storeId : string)
| PostStore (name email address : string) (ownerId : option Z)
| PutStore (user : principal) (id : string) (name email address : option string)
| DeleteStoreById (id : string)
| DeleteUserById (user : principal) (userId : string).

(** The database a write request leaves behind when it is served at time [now]. *)
Definition handle (w : write_request) (now : Z) (d : database) : database :=
  match w with
  | PostRating user storeId v c => snd (post_rating_request user storeId v c now d)
  | PutRating user storeId v c => snd (put_rating_request user storeId v c now d)
  | DeleteRatingOf user storeId => snd (delete_rating_request user storeId d)
  | PostStore name email address oid => snd (post_store name email address oid now d)
  | PutStore user id name email address => snd (put_store user id name email address now d)
  | DeleteStoreById id => snd (delete_store_handler id d)
  | DeleteUserById user userId => snd (delete_user_handler user userId d)
  end.

(** The databases seen after each request of a sequence, each with the time
    it is served at. *)
Fixpoint served (ws : list (write_request * Z)) (d : database) : list database :=
  match ws with
  | [] => []
  | (w, now) :: rest => let d' := handle w now d in d' :: served rest d'
  end.

(** What a statement of a write handler does to the tables before any
    trigger runs: nothing, the use of a sequence value by a statement that
    then raises, or one of the seven changes below, each made only when
    the constraints on the new rows pass. *)
Inductive table_change (d : database) : database -> Prop :=
| NoChange : table_change d d
| RatingIdUsed : table_change d (next_rating_id d)
| StoreIdUsed : table_change d (next_store_id d)
| RatingAdded (r : Rating.t) :
    Rating.id r = ratings_id_seq d + 1 ->
    rating_row_ok d r = true ->
    table_change d (with_ratings (next_rating_id d) (ratings d ++ [r]))
| RatingsSet (uid sid v : Z) (c : option string) (now : Z) :
    rating_check v = true ->
    table_change d (with_ratings d
                      (map (fun r => if same_key uid sid r
                                     then set_rating v c now r else r) (ratings d)))
| RatingsDeleted (uid sid : Z) :
    table_change d (with_ratings d (filter (fun r => negb (same_key uid sid r)) (ratings d)))
| StoreDeleted (sid : Z) :
    table_change d (mkDb (users d)
                         (filter (fun s => negb (Store.id s =? sid)) (stores d))
                         (filter (fun r => negb (Rating.store_id r =? sid)) (ratings d))
                         (stores_id_seq d) (ratings_id_seq d))
| UserDeleted (uid : Z) :
    table_change d (mkDb (filter (fun u => negb (User.id u =? uid)) (users d))
                         (filter (fun s => negb (owned_by uid s)) (stores d))
                         (filter (fun r => negb (cascaded uid d r)) (ratings d))
                         (stores_id_seq d) (ratings_id_seq d))
| StoreAdded (s : Store.t) :
    Store.id s = stores_id_seq d + 1 ->
    store_row_ok d s = true ->
    table_change d (mkDb (users d) (stores d ++ [s]) (ratings d)
                         (stores_id_seq d + 1) (ratings_id_seq d))
| StoreSet (name email address : option string) (sid now : Z) :
    forallb (store_update_ok d)
            (map (set_store_fields name email address now)
                 (filter (fun s => Store.id s =? sid) (stores d))) = true ->
    table_change d (with_stores d
                      (map (fun s => if Store.id s =? sid
                                     then set_store_fields name email address now s
                                     else s) (stores d))).

(** PRIMARY KEY of [ratings]. *)
Definition ratings_keyed (d : database) : Prop := NoDup (map Rating.id (ratings d)).

(** The keys, the CHECK on ratings and the sequences, taken together. *)
Definition constraints_hold (d : database) : Prop :=
  users_keyed d /\ stores_keyed d /\ store_emails_unique d /\
  ratings_keyed d /\ unique_ratings d /\ ratings_checked (ratings d) /\ ids_issued d.

(** A short run of write requests against the seeded data: the removal of
    the first store owner, a new rating by user 4, and a store's renaming. *)
Definition sample_writes : list (write_request * Z) :=
  [ (DeleteUserById (mkPrincipal 1 "SYSTEM_ADMIN") "2", 1);
    (PostRating (mkPrincipal 4 "NORMAL_USER") (JInt 3) 2 None, 2);
    (PutStore (mkPrincipal 1 "SYSTEM_ADMIN") "3"
              (Some "Gourmet Food Market - Organic") None None, 3);
    (PostStore "Corner Bakery and Coffee House" "hello@cornerbakery.example"
               "12 Mill Lane, Old Town" None, 4) ].

(** ** A user's own rating as the store page shows it *)

(** [user_rating] of GET /api/stores/:id: [None] when the answer is not a
    store or carries no such field, [Some None] for the field at null. *)
Definition shown_rating (user : principal) (id : string) (d : database)
  : option (option Z) :=
  match body (get_store user id d) with
  | Detail item => user_rating (detail_item item)
  | DetailMessage _ => None
  end.

(** ** What the list queries select, in closed form *)

(** The characters LIKE gives a meaning to. *)
Definition wildcard (c : ascii) : bool :=
  Ascii.eqb c "%" || Ascii.eqb c "_" || Ascii.eqb c "\".

(** A search text with no LIKE wildcard and no escape character in it. *)
Definition plain_text (x : string) : bool :=
  forallb (fun c => negb (wildcard c)) (chars x).

Fixpoint starts_with (x s : list ascii) : bool :=
  match x, s with
  | [], _ => true
  | _ :: _, [] => false
  | c :: x', e :: s' => Ascii.eqb e c && starts_with x' s'
  end.

(** [x] is a run of consecutive characters of [s]. *)
Fixpoint occurs (x s : list ascii) : bool :=
  starts_with x s
  || match s with
     | [] => false
     | _ :: s' => occurs x s'
     end.

Definition contains_ignoring_case (x s : string) : bool :=
  occurs (chars (toLowerCase x)) (chars (toLowerCase s)).

(** The column GET /api/stores searches: [address] when [searchBy] says so,
    [name] otherwise. *)
Definition stores_searched_text (q : Query.t) (s : Store.t) : string :=
  if String.eqb (stores_searchField q) "address" then Store.address s else Store.name s.

(** The WHERE clause of GET /api/stores as a test on a store, for a plain
    search text. *)
Definition store_listed (user : principal) (q : Query.t) (s : Store.t) : bool :=
  (if String.eqb (user_role user) "STORE_OWNER" then owned_by (user_id user) s else true)
  && (if truthy (string_or "" (Query.search q))
      then contains_ignoring_case (string_or "" (Query.search q)) (stores_searched_text q s)
      else true).

Definition users_searched_text (q : Query.t) (u : User.t) : string :=
  let f := users_searchField q in
  if String.eqb f "email" then User.email u
  else if String.eqb f "address" then User.address u
  else if String.eqb f "role" then User.role u
  else User.name u.

(** The WHERE clause of GET /api/users as a test on a user. *)
Definition user_listed (q : Query.t) (u : User.t) : bool :=
  (if truthy (string_or "" (Query.role q))
   then String.eqb (User.role u) (string_or "" (Query.role q))
   else true)
  && (if truthy (string_or "" (Query.search q))
      then contains_ignoring_case (string_or "" (Query.search q)) (users_searched_text q u)
      else true).

(** Each element of a list is no later than the next one. *)
Fixpoint ordered {R : Type} (leb : R -> R -> bool) (l : list R) : bool :=
  match l with
  | a :: rest =>
      match rest with
      | b :: _ => leb a b
      | [] => true
      end && ordered leb rest
  | [] => true
  end.

(** The order GET /api/stores asks for, on the elements of its answer. *)
Definition stores_item_leb (q : Query.t) (a b : store_item) : bool :=
  order_leb stores_table ("s." ++ stores_sortField q)
            (sort_direction "ASC" (string_or "asc" (Query.sortOrder q)))
            (mkStoreRow (item_store a) None None) (mkStoreRow (item_store b) None None).

(** The order GET /api/users asks for. *)
Definition users_item_leb (q : Query.t) (a b : user_item) : bool :=
  order_leb (users_table "u.") ("u." ++ users_sortField q)
            (sort_direction "ASC" (string_or "asc" (Query.sortOrder q)))
            (mkUserRow (item_user a) None) (mkUserRow (item_user b) None).

(** The seeded owner of store 1 under the role the handlers test for, and a
    search for "STORE" in the default column. *)
Definition seed_owner : principal := mkPrincipal 2 "STORE_OWNER".

Definition search_store : Query.t :=
  Query.mk None None None None (Some "STORE") None None.

(** Users with role [normal_user] whose name has "CUSTOMER" in it, by name
    in descending order. *)
Definition search_customers : Query.t :=
  Query.mk None None None (Some "Desc") (Some "CUSTOMER") None (Some "normal_user").

(** ** The identifiers in the text of a list query *)

Definition condition_column (c : condition) : string :=
  match c with
  | LikeLower col _ => col
  | Equals col _ => col
  end.

(** What the handler interpolates into the text of the row query: the
    ORDER BY column, the direction and the columns of the conditions. *)
Definition query_identifiers (q : select_query) : list string :=
  sel_order_by q :: sel_direction q :: map condition_column (sel_where q).

Definition count_identifiers (q : count_query) : list string :=
  map condition_column (cnt_where q).

(** The identifiers the source text of each handler spells out. *)
Definition stores_identifiers : list string :=
  ["ASC"; "DESC"; "s.owner_id"]
  ++ map (append "s.") (stores_validSortFields ++ stores_validSearchFields).

Definition users_identifiers (prefix : string) : list string :=
  ["ASC"; "DESC"; (prefix ++ "role")%string]
  ++ map (append prefix) (users_validSortFields ++ users_validSearchFields).

(** ** GET /api/users/stats/dashboard *)

(** The [stats] object of the answer: the six counts of the one SELECT. *)
Module Dashboard.
Record t := mk
  { total_users : Z;
    normal_users : Z;
    store_owners : Z;
    admin_users : Z;
    total_stores : Z;
    total_ratings : Z }.
End Dashboard.

(** [SELECT COUNT( * ) FROM users WHERE role = '...']. *)
Definition users_with_role (d : database) (role : string) : Z :=
  sql_count (filter (fun u => String.eqb (User.role u) role) (users d)).

(** GET /api/users/stats/dashboard, after [authenticateToken] and
    [requireAdmin]. *)
Definition get_dashboard (d : database) : response Dashboard.t :=
  mkResponse 200
    (Dashboard.mk (sql_count (users d))
                  (users_with_role d "NORMAL_USER")
                  (users_with_role d "STORE_OWNER")
                  (users_with_role d "SYSTEM_ADMIN")
                  (sql_count (stores d))
                  (sql_count (ratings d))).

(** ** GET /api/ratings/stats *)

(** The [stats] object of the answer.  [overall_average_rating] is the
    number the handler formats: [AVG(rating)], or 0 when there is none; the
    answer shows it to one decimal place. *)
Module RatingStats.
Record t := mk
  { total_ratings : Z;
    overall_average_rating : Q;
    stores_with_ratings : Z;
    users_who_rated : Z;
    most_common_rating_count : Z }.
End RatingStats.

(** [SELECT rating, COUNT( * ) as count FROM ratings GROUP BY rating]: one
    row per rating value that occurs.  PostgreSQL leaves the order of the
    groups open; the queries that use them sort them by a key that tells
    them apart, or only count the rows. *)
Definition rating_groups (rs : list Rating.t) : list (Z * Z) :=
  map (fun v => (v, sql_count (filter (fun r => Rating.rating r =? v) rs)))
      (nodup Z.eq_dec (map Rating.rating rs)).

(** [... GROUP BY rating ORDER BY count DESC LIMIT 1]. *)
Definition most_common (rs : list Rating.t) : list (Z * Z) :=
  firstn 1 (sort_rows (fun a b => snd b <=? snd a) (rating_groups rs)).

(** [... GROUP BY rating ORDER BY rating]. *)
Definition rating_distribution (rs : list Rating.t) : list (Z * Z) :=
  sort_rows (fun a b => fst a <=? fst b) (rating_groups rs).

(** The integer columns of [ratings] by name. *)
Definition rating_column (c : string) : option (Rating.t -> Z) :=
  assoc c [("id", Rating.id); ("user_id", Rating.user_id);
           ("store_id", Rating.store_id); ("rating", Rating.rating)].

(** The aggregates of a select list over the rows of its FROM clause.  A
    select list without a FROM clause is computed over one row that has no
    columns: [COUNT( * )] is 1 there, and an aggregate that names a column
    raises ([None]), as it does for a column the table does not have. *)
Definition count_rows (from : option (list Rating.t)) : Z :=
  match from with
  | Some rs => sql_count rs
  | None => 1
  end.

(** [AVG(column)]; the inner [None] is NULL. *)
Definition average_of (from : option (list Rating.t)) (c : string) : option (option Q) :=
  match from, rating_column c with
  | Some rs, Some f => Some (sql_avg (map f rs))
  | _, _ => None
  end.

(** [COUNT(DISTINCT column)]. *)
Definition count_distinct_of (from : option (list Rating.t)) (c : string) : option Z :=
  match from, rating_column c with
  | Some rs, Some f => Some (sql_count (nodup Z.eq_dec (map f rs)))
  | _, _ => None
  end.

Inductive rating_stats_body : Type :=
| RatingStatsMessage (message : string)
| RatingStatsPage (stats : RatingStats.t) (distribution : list (Z * Z)).

(** The row of the handler's first SELECT, given the rows of its FROM
    clause: [COUNT( * )], [AVG(rating)], [COUNT(DISTINCT store_id)],
    [COUNT(DISTINCT user_id)] and the scalar sub-select, which reads
    [FROM ratings] itself and counts the rows of a query limited to one. *)
Definition select_stats (from : option (list Rating.t)) (d : database)
  : option (Z * option Q * Z * Z * Z) :=
  match average_of from "rating",
        count_distinct_of from "store_id",
        count_distinct_of from "user_id" with
  | Some average, Some stores, Some raters =>
      Some (count_rows from, average, stores, raters, sql_count (most_common (ratings d)))
  | _, _, _ => None
  end.

(** GET /api/ratings/stats, after [authenticateToken] and [requireAdmin]:
    the first SELECT, which has no FROM clause, then the distribution, then
    the answer built from the two. *)
Definition get_rating_stats (d : database) : response rating_stats_body :=
  match select_stats None d with
  | Some (total, average, stores, raters, common) =>
      mkResponse 200
        (RatingStatsPage
           (RatingStats.mk total
                           (match average with
                            | Some a => a
                            | None => 0%Q
                            end)
                           stores raters common)
           (rating_distribution (ratings d)))
  | None =>
      mkResponse 500 (RatingStatsMessage "Server error fetching rating statistics")
  end.

(** ** The ratings router and the users router *)

Record route_to (H : Type) := mkRouteTo
  { to_method : method;
    to_path : list segment;
    to_handler : H }.
Arguments mkRouteTo {H} to_method to_path to_handler.
Arguments to_method {H} r.
Arguments to_path {H} r.
Arguments to_handler {H} r.

(** The first registered route whose method and path match takes the
    request. *)
Fixpoint first_route {H : Type} (routes : list (route_to H)) (m : method)
    (segs : list string) : option (H * list (string * string)) :=
  match routes with
  | [] => None
  | r :: rest =>
      if method_eqb (to_method r) m then
        match match_route (to_path r) segs with
        | Some ps => Some (to_handler r, ps)
        | None => first_route rest m segs
        end
      else first_route rest m segs
  end.

Inductive ratings_handler : Type :=
| SubmitRating        (* POST / *)
| UpdateRating        (* PUT /:storeId *)
| ListUserRatings     (* GET /user/:userId *)
| ListMyRatings       (* GET /my-ratings *)
| WithdrawRating      (* DELETE /:storeId *)
| ListStoreRatings    (* GET /store/:storeId *)
| RatingStatistics.   (* GET /stats *)

(** The routes of routes/ratings.js in the order they are registered. *)
Definition ratings_router : list (route_to ratings_handler) :=
  [ mkRouteTo POST [] SubmitRating;
    mkRouteTo PUT [Par "storeId"] UpdateRating;
    mkRouteTo GET [Lit "user"; Par "userId"] ListUserRatings;
    mkRouteTo GET [Lit "my-ratings"] ListMyRatings;
    mkRouteTo DELETE [Par "storeId"] WithdrawRating;
    mkRouteTo GET [Lit "store"; Par "storeId"] ListStoreRatings;
    mkRouteTo GET [Lit "stats"] RatingStatistics ].

Inductive users_handler : Type :=
| ListUsers           (* GET / *)
| GetUserById         (* GET /:id *)
| UpdateUser          (* PUT /:id *)
| DeleteUser          (* DELETE /:id *)
| UserDashboard.      (* GET /stats/dashboard *)

(** The routes of the users router in the order they are registered. *)
Definition users_router : list (route_to users_handler) :=
  [ mkRouteTo GET [] ListUsers;
    mkRouteTo GET [Par "id"] GetUserById;
    mkRouteTo PUT [Par "id"] UpdateUser;
    mkRouteTo DELETE [Par "id"] DeleteUser;
    mkRouteTo GET [Lit "stats"; Lit "dashboard"] UserDashboard ].

(** No route of the router is shadowed: a request that a route matches is
    given to that route's handler, with the parameters of that match. *)
Definition unshadowed {H : Type} (routes : list (route_to H)) : Prop :=
  forall r segs ps,
    In r routes ->
    match_route (to_path r) segs = Some ps ->
    first_route routes (to_method r) segs = Some (to_handler r, ps).

(** ** The rating lists of routes/ratings.js *)

(** [a JOIN b ON on]: the pairs that match. *)
Definition inner_join {A B : Type} (on : A -> B -> bool) (a : list A) (b : list B)
  : list (A * B) :=
  flat_map (fun x => map (fun y => (x, y)) (filter (on x) b)) a.

(** [FROM ratings r JOIN stores s ON r.store_id = s.id]. *)
Definition ratings_with_stores (d : database) : list (Rating.t * Store.t) :=
  inner_join (fun r s => Rating.store_id r =? Store.id s) (ratings d) (stores d).

(** [FROM ratings r JOIN users u ON r.user_id = u.id]. *)
Definition ratings_with_users (d : database) : list (Rating.t * User.t) :=
  inner_join (fun r u => Rating.user_id r =? User.id u) (ratings d) (users d).

(** The columns of [ratings] under a prefix: ["r."] in the row queries,
    none in the count queries, which read [FROM ratings] without an alias. *)
Definition rating_kinds (prefix : string) : list (string * kind) :=
  [((prefix ++ "id")%string, KInt); ((prefix ++ "user_id")%string, KInt);
   ((prefix ++ "store_id")%string, KInt); ((prefix ++ "rating")%string, KInt);
   ((prefix ++ "comment")%string, KText); ((prefix ++ "created_at")%string, KInt);
   ((prefix ++ "updated_at")%string, KInt)].

Definition rating_cells (prefix : string) (r : Rating.t) : list (string * value) :=
  [((prefix ++ "id")%string, VInt (Rating.id r));
   ((prefix ++ "user_id")%string, VInt (Rating.user_id r));
   ((prefix ++ "store_id")%string, VInt (Rating.store_id r));
   ((prefix ++ "rating")%string, VInt (Rating.rating r));
   ((prefix ++ "comment")%string, match Rating.comment r with
                                  | Some c => VText c
                                  | None => VNull
                                  end);
   ((prefix ++ "created_at")%string, VInt (Rating.created_at r));
   ((prefix ++ "updated_at")%string, VInt (Rating.updated_at r))].

Definition ratings_only_table : table Rating.t :=
  mkTable (fun c => assoc c (rating_kinds ""))
          (fun r c => match assoc c (rating_cells "" r) with
                      | Some v => v
                      | None => VNull
                      end).

Definition ratings_stores_table : table (Rating.t * Store.t) :=
  mkTable (fun c => match assoc c (rating_kinds "r.") with
                    | Some k => Some k
                    | None => kind_of stores_table c
                    end)
          (fun x c => match assoc c (rating_cells "r." (fst x)) with
                      | Some v => v
                      | None => value_of stores_table (mkStoreRow (snd x) None None) c
                      end).

Definition ratings_users_table : table (Rating.t * User.t) :=
  mkTable (fun c => match assoc c (rating_kinds "r.") with
                    | Some k => Some k
                    | None => kind_of (users_table "u.") c
                    end)
          (fun x c => match assoc c (rating_cells "r." (fst x)) with
                      | Some v => v
                      | None => value_of (users_table "u.") (mkUserRow (snd x) None) c
                      end).

(** A list of ratings asked for in the order of the store names, which
    tells the seeded rows apart. *)
Definition by_store_name : Query.t :=
  Query.mk None None (Some "store_name") (Some "asc") None None None.

(** [validSortFields.includes(sortBy) ? sortBy : 'created_at'], where the
    allow-list is [rating], [created_at] and the name of the joined row. *)
Definition ratings_sortField (joined : string) (q : Query.t) : string :=
  allow_listed ["rating"; "created_at"; joined] "created_at"
               (string_or "created_at" (Query.sortBy q)).

(** [sortField === joined ? column : 'r.' + sortField]. *)
Definition ratings_order_by (joined column : string) (q : Query.t) : string :=
  if String.eqb (ratings_sortField joined q) joined then column
  else "r." ++ ratings_sortField joined q.

Definition ratings_order (q : Query.t) : string :=
  sort_direction "DESC" (string_or "desc" (Query.sortOrder q)).

(** [... WHERE where_col = $1 ORDER BY ... LIMIT $2 OFFSET $3] with
    [[id, limit, offset]]. *)
Definition rating_list_query (where_col order_by : string) (id : param) (q : Query.t)
  : select_query * list param :=
  (mkSelect None [Equals where_col 1] order_by (ratings_order q) 2 3,
   [id; param_of_jsval (list_limit q); PNum (page_offset (list_page q) (list_limit q))]).

(** [SELECT COUNT( * ) FROM ratings WHERE where_col = $1] with [[id]]. *)
Definition rating_count_query (where_col : string) (id : param) : count_query * list param :=
  (mkCount [Equals where_col 1], [id]).

(** The two queries of the lists of one user's ratings and the answer
    built from them.  A row of the answer is the rating with its store; the
    selected columns are fields of the two. *)
Definition user_ratings_page (failure : string) (userId : param) (q : Query.t)
    (d : database) : response (list_body (Rating.t * Store.t)) :=
  let failed := mkResponse 500 (ListMessage failure) in
  match (let (query, params) :=
           rating_list_query "r.user_id" (ratings_order_by "store_name" "s.name" q) userId q in
         run_select ratings_stores_table params (ratings_with_stores d) query) with
  | None => failed
  | Some rows =>
      match (let (query, params) := rating_count_query "user_id" userId in
             run_count ratings_only_table params (ratings d) query) with
      | None => failed
      | Some totalRatings =>
          mkResponse 200
            (ListPage rows (pagination_block (list_page q) (list_limit q) totalRatings))
      end
  end.

(** GET /api/ratings/my-ratings, after [authenticateToken] and
    [requireNormalUser]. *)
Definition get_my_ratings (user : principal) (q : Query.t) (d : database)
  : response (list_body (Rating.t * Store.t)) :=
  user_ratings_page "Server error fetching your ratings" (PInt (user_id user)) q d.

(** GET /api/ratings/user/:userId, after [authenticateToken] and
    [requireAdmin]. *)
Definition get_user_ratings (userId : string) (q : Query.t) (d : database)
  : response (list_body (Rating.t * Store.t)) :=
  match integer_in userId with
  | None => mkResponse 500 (ListMessage "Server error fetching user ratings")
  | Some uid =>
      if negb (user_exists d uid) then mkResponse 404 (ListMessage "User not found")
      else user_ratings_page "Server error fetching user ratings" (PStr userId) q d
  end.

(** The [stats] object of GET /api/ratings/store/:storeId.
    [averageRating] is the number the handler formats,
    [COALESCE(AVG(rating), 0)]; the answer shows it to one decimal place. *)
Record store_ratings_stats := mkStoreRatingsStats
  { stats_totalRatings : Z;
    stats_averageRating : Q }.

Inductive store_ratings_body : Type :=
| StoreRatingsMessage (message : string)
| StoreRatingsPage (rows : list (Rating.t * User.t)) (stats : store_ratings_stats)
                   (block : pagination).

(** GET /api/ratings/store/:storeId, after [authenticateToken]. *)
Definition get_store_ratings (storeId : string) (q : Query.t) (d : database)
  : response store_ratings_body :=
  let failed := mkResponse 500 (StoreRatingsMessage "Server error fetching store ratings") in
  match integer_in storeId with
  | None => failed
  | Some sid =>
      if negb (store_exists d sid) then
        mkResponse 404 (StoreRatingsMessage "Store not found")
      else
        match (let (query, params) :=
                 rating_list_query "r.store_id" (ratings_order_by "user_name" "u.name" q)
                                   (PStr storeId) q in
               run_select ratings_users_table params (ratings_with_users d) query) with
        | None => failed
        | Some rows =>
            let mine := ratings_of_store (ratings d) sid in
            let totalRatings := sql_count mine in
            mkResponse 200
              (StoreRatingsPage rows
                 (mkStoreRatingsStats totalRatings
                    (match sql_avg (map Rating.rating mine) with
                     | Some a => a
                     | None => 0%Q
                     end))
                 (pagination_block (list_page q) (list_limit q) totalRatings))
        end
  end.

(** GET /api/stores/:id/ratings of routes/stores.js, after
    [authenticateToken] and [checkStoreOwnership]: the ratings of one store
    with the users who gave them.  The id is bound where an [integer]
    column is compared. *)
Definition get_store_ratings_of_owner (id : string) (q : Query.t) (d : database)
  : response (list_body (Rating.t * User.t)) :=
  let failed := mkResponse 500 (ListMessage "Server error fetching store ratings") in
  match integer_in id with
  | None => failed
  | Some _ =>
      match (let (query, params) :=
               rating_list_query "r.store_id" (ratings_order_by "user_name" "u.name" q)
                                 (PStr id) q in
             run_select ratings_users_table params (ratings_with_users d) query) with
      | None => failed
      | Some rows =>
          match (let (query, params) := rating_count_query "store_id" (PStr id) in
                 run_count ratings_only_table params (ratings d) query) with
          | None => failed
          | Some totalRatings =>
              mkResponse 200
                (ListPage rows (pagination_block (list_page q) (list_limit q) totalRatings))
          end
      end
  end.

(** * Proofs *)

(** ** Rounding into [DECIMAL(2,1)] *)

Lemma round_half_away_near (x : Q) :
  (Qabs (x - inject_Z (round_half_away x)) <= 1 # 2)%Q.
Proof.
  unfold round_half_away.
  apply Qabs_Qle_condition.
  destruct (Qle_bool 0 x).
  - pose proof (Qfloor_le (x + (1 # 2))) as Hlo.
    pose proof (Qlt_floor (x + (1 # 2))) as Hhi.
    rewrite inject_Z_plus in Hhi.
    change (inject_Z 1) with 1%Q in Hhi.
    generalize dependent (inject_Z (Qfloor (x + (1 # 2)))).
    intros f Hlo Hhi. split; lra.
  - pose proof (Qle_ceiling (x - (1 # 2))) as Hhi.
    pose proof (Qceiling_lt (x - (1 # 2))) as Hlo.
    unfold Z.sub in Hlo. rewrite inject_Z_plus in Hlo.
    change (inject_Z (- (1))) with (- (1))%Q in Hlo.
    generalize dependent (inject_Z (Qceiling (x - (1 # 2)))).
    intros c Hhi Hlo. split; lra.
Qed.

Lemma to_decimal_2_1_near (x : Q) (t : Z) :
  to_decimal_2_1 x = Some t ->
  (Qabs (x - inject_Z t / 10) <= 1 # 20)%Q.
Proof.
  unfold to_decimal_2_1.
  destruct (Z.abs (round_half_away (x * 10)) <? 100); [|discriminate].
  intros [= <-].
  pose proof (round_half_away_near (x * 10)) as H.
  apply Qabs_Qle_condition in H.
  apply Qabs_Qle_condition.
  generalize dependent (inject_Z (round_half_away (x * 10))).
  intros r [Hlo Hhi].
  assert (E : (r / 10 == r * (1 # 10))%Q) by (unfold Qdiv; reflexivity).
  rewrite E. split; lra.
Qed.


(** ** The trigger body on one store row *)

Lemma recompute_id rs sid s s' :
  recompute rs sid s = Some s' -> Store.id s' = Store.id s.
Proof.
  unfold recompute.
  destruct (assign_decimal_2_1 _); [|discriminate].
  intros [= <-]. reflexivity.
Qed.

Lemma recompute_idempotent rs sid s s' :
  recompute rs sid s = Some s' -> recompute rs sid s' = Some s'.
Proof.
  unfold recompute.
  destruct (assign_decimal_2_1 _); [|discriminate].
  intros [= <-]. reflexivity.
Qed.

(** A row the trigger wrote holds the count and the rounded mean (or zero) of
    the ratings table it was computed from. *)
Lemma recompute_aggregates d s s' :
  recompute (ratings d) (Store.id s) s = Some s' -> aggregates_match d s'.
Proof.
  intros H. pose proof (recompute_id _ _ _ _ H) as Hid.
  unfold aggregates_match, rating_values. rewrite Hid.
  revert H. unfold recompute, sql_count.
  destruct (map Rating.rating (ratings_of_store (ratings d) (Store.id s)))
    as [|v l] eqn:E.
  - cbn. intros [= <-]. cbn. split; [|reflexivity].
    rewrite <- (length_map Rating.rating), E. reflexivity.
  - unfold sql_avg, coalesce, assign_decimal_2_1.
    destruct (to_decimal_2_1 _) as [t|] eqn:Ht; [|discriminate].
    intros [= <-]. cbn [Store.total_ratings Store.average_rating]. split.
    + rewrite <- E, length_map. reflexivity.
    + exists t. split; [reflexivity|].
      apply to_decimal_2_1_near in Ht. exact Ht.
Qed.

(** ** The trigger's UPDATE over the [stores] table *)

Lemma update_stores_rows rs sid ss ss' :
  update_stores rs sid ss = Some ss' -> Forall2 (row_updated rs sid) ss ss'.
Proof.
  revert ss'. induction ss as [|s rest IH]; intros ss'; cbn.
  - intros [= <-]. constructor.
  - destruct (if Store.id s =? sid then recompute rs sid s else Some s)
      as [s1|] eqn:E1; [|discriminate].
    destruct (update_stores rs sid rest) as [rest'|]; [|discriminate].
    intros [= <-]. constructor; [|apply IH; reflexivity].
    unfold row_updated. destruct (Store.id s =? sid); congruence.
Qed.

Lemma update_stores_idempotent rs sid ss ss' :
  update_stores rs sid ss = Some ss' -> update_stores rs sid ss' = Some ss'.
Proof.
  revert ss'. induction ss as [|s rest IH]; intros ss'; cbn.
  - intros [= <-]. reflexivity.
  - destruct (Store.id s =? sid) eqn:Eid.
    + destruct (recompute rs sid s) as [s1|] eqn:E1; [|discriminate].
      destruct (update_stores rs sid rest) as [rest'|]; [|discriminate].
      intros [= <-]. cbn.
      rewrite (recompute_id _ _ _ _ E1), Eid, (recompute_idempotent _ _ _ _ E1).
      rewrite (IH rest' eq_refl). reflexivity.
    + destruct (update_stores rs sid rest) as [rest'|]; [|discriminate].
      intros [= <-]. cbn. rewrite Eid, (IH rest' eq_refl). reflexivity.
Qed.

Lemma update_store_rating_frame e d d' :
  update_store_rating e d = Some d' ->
  users d' = users d /\ ratings d' = ratings d /\
  stores_id_seq d' = stores_id_seq d /\ ratings_id_seq d' = ratings_id_seq d.
Proof.
  unfold update_store_rating.
  destruct (event_store e); [|intros [= <-]; auto].
  destruct (update_stores _ _ _); [|discriminate].
  intros [= <-]. cbn. auto.
Qed.

Lemma rating_update_trigger_ratings evs d d' :
  rating_update_trigger evs d = Some d' -> ratings d' = ratings d.
Proof.
  revert d. induction evs as [|e evs IH]; intros d; cbn.
  - intros [= <-]. reflexivity.
  - destruct (update_store_rating e d) as [d1|] eqn:E1; [|discriminate].
    intros H. rewrite (IH _ H).
    apply (update_store_rating_frame _ _ _ E1).
Qed.

(** Row events that all name one store leave the table as a single run of the
    trigger's UPDATE for that store does. *)
Lemma rating_update_trigger_one_store sid evs d d' :
  evs <> [] ->
  Forall (fun e => event_store e = Some sid) evs ->
  rating_update_trigger evs d = Some d' ->
  update_stores (ratings d) sid (stores d) = Some (stores d') /\
  users d' = users d /\ ratings d' = ratings d /\
  stores_id_seq d' = stores_id_seq d /\ ratings_id_seq d' = ratings_id_seq d.
Proof.
  intros Hne Hall. revert d Hne.
  induction Hall as [|e rest He Hrest IH]; intros d Hne; [congruence|].
  cbn. destruct (update_store_rating e d) as [d1|] eqn:E1; [|discriminate].
  pose proof (update_store_rating_frame _ _ _ E1) as (Hu & Hr & Hs1 & Hs2).
  assert (Hfirst : update_stores (ratings d) sid (stores d) = Some (stores d1)).
  { revert E1. unfold update_store_rating. rewrite He.
    destruct (update_stores _ _ _); [|discriminate]. intros [= <-]. reflexivity. }
  destruct rest as [|e2 rest].
  - cbn. intros [= <-]. auto.
  - intros Hrun.
    assert (Hne2 : e2 :: rest <> []) by discriminate.
    destruct (IH d1 Hne2 Hrun) as (Hst & Hu' & Hr' & Hs1' & Hs2').
    rewrite Hr in Hst.
    rewrite (update_stores_idempotent _ _ _ _ Hfirst) in Hst.
    repeat split; congruence.
Qed.

(** ** Rating mutations keep the aggregates right *)

Lemma aggregates_match_ext d1 d2 s :
  ratings_of_store (ratings d2) (Store.id s) = ratings_of_store (ratings d1) (Store.id s) ->
  aggregates_match d1 s -> aggregates_match d2 s.
Proof.
  unfold aggregates_match, rating_values. intros ->. auto.
Qed.

Lemma Forall2_In_r {A B : Type} (R : A -> B -> Prop) l l' y :
  Forall2 R l l' -> In y l' -> exists x, In x l /\ R x y.
Proof.
  induction 1 as [|x y' l l' Hxy _ IH]; cbn; [tauto|].
  intros [<-|Hin].
  - exists x. auto.
  - destruct (IH Hin) as (x' & Hx' & HR). exists x'. auto.
Qed.

(** Where a row of [stores] stands after the queued events have fired: it
    was written by the trigger from the table [rs], or it is a row the
    statement started with, of a store no event names. *)
Lemma rating_update_trigger_rows evs d1 d2 s' :
  rating_update_trigger evs d1 = Some d2 ->
  In s' (stores d2) ->
  (exists s, recompute (ratings d1) (Store.id s) s = Some s') \/
  (In s' (stores d1) /\ ~ In (Some (Store.id s')) (map event_store evs)).
Proof.
  revert d1. induction evs as [|e evs IH]; intros d1; cbn [rating_update_trigger].
  - intros [= <-] Hin. right. split; [exact Hin|]. intros [].
  - destruct (update_store_rating e d1) as [dm|] eqn:Estep; [|discriminate].
    intros Hrun Hin.
    destruct (update_store_rating_frame _ _ _ Estep) as (_ & Hr & _).
    destruct (IH dm Hrun Hin) as [[s Hrec]|[Hdm Hfresh]].
    + left. exists s. rewrite <- Hr. exact Hrec.
    + revert Estep. unfold update_store_rating.
      destruct (event_store e) as [sid|] eqn:Ee.
      * destruct (update_stores (ratings d1) sid (stores d1)) as [ss|] eqn:Hup;
          [|discriminate].
        intros [= <-]. cbn [stores with_stores] in Hdm.
        destruct (Forall2_In_r _ _ _ _ (update_stores_rows _ _ _ _ Hup) Hdm)
          as (s & Hs & Hrow).
        unfold row_updated in Hrow.
        destruct (Z.eqb_spec (Store.id s) sid) as [Heq|Hne].
        -- left. exists s. rewrite Heq. exact Hrow.
        -- subst s'. right. split; [exact Hs|].
           cbn [map]. rewrite Ee. intros [Hhere|Hrest]; [congruence|contradiction].
      * intros [= <-]. right. split; [exact Hdm|].
        cbn [map]. rewrite Ee. intros [Hhere|Hrest]; [discriminate|contradiction].
Qed.

(** The shape shared by all the statements: the table becomes [rs'], the
    rows of [stores] it keeps were there before, and the ratings of a store
    that no queued event names are as they were. *)
Lemma consistent_after_statement evs d d1 rs' d2 :
  consistent d ->
  (forall s, In s (stores d1) -> In s (stores d)) ->
  (forall sid', ~ In (Some sid') (map event_store evs) ->
     ratings_of_store rs' sid' = ratings_of_store (ratings d) sid') ->
  rating_update_trigger evs (with_ratings d1 rs') = Some d2 ->
  consistent d2.
Proof.
  intros Hc Hst Hframe Hrun s' Hs'.
  pose proof (rating_update_trigger_ratings _ _ _ Hrun) as Hr. cbn in Hr.
  destruct (rating_update_trigger_rows _ _ _ _ Hrun Hs') as [[s Hrec]|[Hold Hfresh]].
  - cbn [ratings with_ratings] in Hrec. rewrite <- Hr in Hrec.
    apply (recompute_aggregates d2 s). exact Hrec.
  - cbn [stores with_ratings] in Hold.
    apply (aggregates_match_ext d); [|apply Hc, Hst, Hold].
    rewrite Hr. apply Hframe, Hfresh.
Qed.

Lemma filter_map_frame {A : Type} (p : A -> bool) (f : A -> A) (l : list A) :
  (forall x, f x = x \/ (p x = false /\ p (f x) = false)) ->
  filter p (map f l) = filter p l.
Proof.
  intros Hf. induction l as [|x l IH]; cbn; [reflexivity|].
  destruct (Hf x) as [->|[-> ->]]; rewrite IH; reflexivity.
Qed.

(** Filtering twice loses nothing the second filter wants when the first
    one keeps every such row. *)
Lemma filter_keeps {A : Type} (want keep : A -> bool) (l : list A) :
  (forall x, In x l -> want x = true -> keep x = true) ->
  filter want (filter keep l) = filter want l.
Proof.
  induction l as [|x l IH]; intros Hk; cbn; [reflexivity|].
  assert (IH' : filter want (filter keep l) = filter want l)
    by (apply IH; intros y Hy; apply Hk; right; exact Hy).
  destruct (keep x) eqn:Ek; cbn; [rewrite IH'; reflexivity|].
  destruct (want x) eqn:Ew; [|exact IH'].
  rewrite (Hk x (or_introl eq_refl) Ew) in Ek. discriminate.
Qed.

Lemma same_key_store uid sid r : same_key uid sid r = true -> Rating.store_id r = sid.
Proof.
  unfold same_key. intros H. apply andb_true_iff in H. destruct H as [_ H].
  apply Z.eqb_eq in H. exact H.
Qed.

Lemma insert_rating_consistent uid sid v c now d :
  consistent d -> consistent (database_of (insert_rating uid sid v c now d)).
Proof.
  intros Hc. unfold insert_rating.
  destruct (bindable c); cbn [negb]; [|exact Hc].
  destruct (rating_row_ok d _); [|exact Hc].
  destruct (rating_update_trigger _ _) as [d2|] eqn:Hrun; [|exact Hc].
  cbn [database_of]. revert Hrun.
  apply (consistent_after_statement _ d); [exact Hc | auto | ].
  intros sid' Hfresh.
  unfold ratings_of_store. rewrite filter_app. cbn.
  destruct (Z.eqb_spec sid sid') as [->|_]; [|apply app_nil_r].
  exfalso. apply Hfresh. left. reflexivity.
Qed.

Lemma update_rating_consistent v c uid sid now d :
  consistent d -> consistent (database_of (update_rating v c uid sid now d)).
Proof.
  intros Hc. unfold update_rating.
  destruct (bindable c); cbn [negb]; [|exact Hc].
  destruct (filter (same_key uid sid) (ratings d)) as [|r0 hit] eqn:Ehit; [exact Hc|].
  destruct (rating_check v); [|exact Hc].
  destruct (rating_update_trigger _ _) as [d2|] eqn:Hrun; [|exact Hc].
  cbn [database_of]. revert Hrun.
  apply (consistent_after_statement _ d); [exact Hc | auto | ].
  intros sid' Hfresh.
  assert (Hne : sid' <> sid).
  { intros ->. apply Hfresh. left. cbn.
    assert (Hin : In r0 (filter (same_key uid sid) (ratings d)))
      by (rewrite Ehit; left; reflexivity).
    apply filter_In in Hin. destruct Hin as [_ Hin].
    apply same_key_store in Hin. congruence. }
  unfold ratings_of_store. apply filter_map_frame. intros r.
  destruct (same_key uid sid r) eqn:Ek; [right|left; reflexivity].
  apply same_key_store in Ek. cbn. rewrite Ek.
  split; apply Z.eqb_neq; congruence.
Qed.

Lemma delete_rating_consistent uid sid d :
  consistent d -> consistent (database_of (delete_rating uid sid d)).
Proof.
  intros Hc. unfold delete_rating.
  destruct (rating_update_trigger _ _) as [d2|] eqn:Hrun; [|exact Hc].
  cbn [database_of]. revert Hrun.
  apply (consistent_after_statement _ d); [exact Hc | auto | ].
  intros sid' Hfresh. unfold ratings_of_store.
  apply filter_keeps. intros r Hr Hsid. apply Z.eqb_eq in Hsid.
  destruct (same_key uid sid r) eqn:Ek; [|reflexivity].
  exfalso. apply Hfresh. rewrite map_map. apply in_map_iff.
  exists r. split; [cbn; congruence|].
  apply filter_In. auto.
Qed.

Lemma delete_store_consistent sid d :
  consistent d -> consistent (database_of (delete_store sid d)).
Proof.
  intros Hc. unfold delete_store.
  destruct (rating_update_trigger _ _) as [d2|] eqn:Hrun; [|exact Hc].
  cbn [database_of]. revert Hrun.
  change (mkDb (users d) (filter (fun s => negb (Store.id s =? sid)) (stores d))
               (filter (fun r => negb (Rating.store_id r =? sid)) (ratings d))
               (stores_id_seq d) (ratings_id_seq d))
    with (with_ratings
            (with_stores d (filter (fun s => negb (Store.id s =? sid)) (stores d)))
            (filter (fun r => negb (Rating.store_id r =? sid)) (ratings d))).
  apply (consistent_after_statement _ d); [exact Hc | | ].
  - intros s Hs. cbn in Hs. apply filter_In in Hs. tauto.
  - intros sid' Hfresh. unfold ratings_of_store.
    apply filter_keeps. intros r Hr Hsid. apply Z.eqb_eq in Hsid.
    destruct (Z.eqb_spec (Rating.store_id r) sid) as [Heq|_]; [|reflexivity].
    exfalso. apply Hfresh. rewrite map_map. apply in_map_iff.
    exists r. split; [cbn; congruence|].
    apply filter_In. split; [exact Hr|]. apply Z.eqb_eq, Heq.
Qed.

Lemma delete_user_consistent uid d :
  consistent d -> consistent (database_of (delete_user uid d)).
Proof.
  intros Hc. unfold delete_user.
  destruct (rating_update_trigger _ _) as [d2|] eqn:Hrun; [|exact Hc].
  cbn [database_of]. revert Hrun.
  set (us' := filter (fun u => negb (User.id u =? uid)) (users d)).
  set (ss' := filter (fun s => negb (owned_by uid s)) (stores d)).
  set (rs' := filter (fun r => negb (cascaded uid d r)) (ratings d)).
  change (mkDb us' ss' rs' (stores_id_seq d) (ratings_id_seq d))
    with (with_ratings (mkDb us' ss' (ratings d) (stores_id_seq d) (ratings_id_seq d)) rs').
  apply (consistent_after_statement _ d); [exact Hc | | ].
  - intros s Hs. cbn in Hs. apply filter_In in Hs. tauto.
  - intros sid' Hfresh. unfold ratings_of_store, rs'.
    apply filter_keeps. intros r Hr Hsid. apply Z.eqb_eq in Hsid.
    destruct (cascaded uid d r) eqn:Ecas; [|reflexivity].
    exfalso. apply Hfresh. rewrite map_map. apply in_map_iff.
    exists r. split; [cbn; congruence|].
    apply filter_In. auto.
Qed.

Lemma apply_mutation_consistent m d :
  consistent d -> consistent (apply_mutation m d).
Proof.
  destruct m; cbn.
  - apply insert_rating_consistent.
  - apply update_rating_consistent.
  - apply delete_rating_consistent.
  - apply delete_store_consistent.
  - apply delete_user_consistent.
Qed.

(** ** The trigger does not raise on checked ratings *)

Lemma sum_Z_bounds (l : list Z) :
  Forall (fun v => rating_check v = true) l ->
  Z.of_nat (List.length l) <= sum_Z l <= 5 * Z.of_nat (List.length l).
Proof.
  induction 1 as [|v l Hv _ IH]; [cbn; lia|].
  unfold rating_check in Hv. apply andb_true_iff in Hv. destruct Hv as [H1 H5].
  apply Z.leb_le in H1, H5.
  change (sum_Z (v :: l)) with (v + sum_Z l).
  change (List.length (v :: l)) with (S (List.length l)).
  lia.
Qed.

Lemma mean_bounds (l : list Z) :
  l <> [] -> Forall (fun v => rating_check v = true) l ->
  (1 <= mean l <= 5)%Q.
Proof.
  intros Hne Hl. pose proof (sum_Z_bounds l Hl) as [Hlo Hhi].
  assert (Hn : 0 < Z.of_nat (List.length l)) by (destruct l; [congruence|cbn; lia]).
  unfold mean.
  assert (Hq : (0 < inject_Z (Z.of_nat (List.length l)))%Q).
  { rewrite <- (Zlt_Qlt 0). exact Hn. }
  split.
  - apply Qle_shift_div_l; [exact Hq|].
    rewrite Qmult_1_l, <- Zle_Qle. exact Hlo.
  - apply Qle_shift_div_r; [exact Hq|].
    change 5%Q with (inject_Z 5). rewrite <- inject_Z_mult, <- Zle_Qle. exact Hhi.
Qed.

Lemma to_decimal_2_1_in_range (x : Q) :
  (1 <= x <= 5)%Q -> exists t, to_decimal_2_1 x = Some t /\ 10 <= t <= 50.
Proof.
  intros [Hlo Hhi]. unfold to_decimal_2_1, round_half_away.
  assert (H0 : Qle_bool 0 (x * 10) = true) by (apply Qle_bool_iff; lra).
  rewrite H0.
  assert (H10 : 10 <= Qfloor (x * 10 + (1 # 2))).
  { pose proof (Qfloor_resp_le 10 (x * 10 + (1 # 2))) as H.
    apply H. lra. }
  assert (H50 : Qfloor (x * 10 + (1 # 2)) <= 50).
  { pose proof (Qfloor_resp_le (x * 10 + (1 # 2)) (101 # 2)) as H.
    apply H. lra. }
  exists (Qfloor (x * 10 + (1 # 2))). split; [|lia].
  destruct (Z.ltb_spec (Z.abs (Qfloor (x * 10 + (1 # 2)))) 100); [reflexivity|lia].
Qed.

Lemma recompute_succeeds rs sid s :
  ratings_checked rs -> exists s', recompute rs sid s = Some s'.
Proof.
  intros Hrs. unfold recompute.
  destruct (map Rating.rating (ratings_of_store rs sid)) as [|v l] eqn:E.
  - cbn. eauto.
  - assert (Hl : Forall (fun v => rating_check v = true) (v :: l)).
    { rewrite <- E. apply Forall_map. unfold ratings_of_store.
      apply Forall_forall. intros r Hr. apply filter_In in Hr.
      destruct Hr as [Hr _]. revert r Hr. apply Forall_forall. exact Hrs. }
    destruct (to_decimal_2_1_in_range (mean (v :: l))) as (t & Ht & _).
    { apply mean_bounds; [discriminate|exact Hl]. }
    unfold sql_avg, coalesce, assign_decimal_2_1.
    unfold mean in Ht. rewrite Ht. eauto.
Qed.

Lemma update_stores_succeeds rs sid ss :
  ratings_checked rs -> exists ss', update_stores rs sid ss = Some ss'.
Proof.
  intros Hrs. induction ss as [|s rest [rest' IH]]; cbn; [eauto|].
  rewrite IH.
  destruct (Store.id s =? sid); [|eauto].
  destruct (recompute_succeeds rs sid s Hrs) as [s' ->]. eauto.
Qed.

Lemma rating_update_trigger_succeeds evs d :
  ratings_checked (ratings d) -> exists d', rating_update_trigger evs d = Some d'.
Proof.
  revert d. induction evs as [|e evs IH]; intros d Hd; cbn; [eauto|].
  assert (exists d1, update_store_rating e d = Some d1) as [d1 E1].
  { unfold update_store_rating. destruct (event_store e) as [sid|]; [|eauto].
    destruct (update_stores_succeeds (ratings d) sid (stores d) Hd) as [ss ->]. eauto. }
  rewrite E1. apply IH.
  destruct (update_store_rating_frame _ _ _ E1) as (_ & -> & _). exact Hd.
Qed.

(** ** The statements take effect

    On a table whose rows pass the CHECK, an INSERT of an admissible row, an
    UPDATE to an admissible value and a DELETE all go through. *)

Lemma insert_rating_takes_effect uid sid v c now d :
  ratings_checked (ratings d) ->
  bindable c = true ->
  rating_row_ok d (Rating.mk (ratings_id_seq d + 1) uid sid v c now now) = true ->
  exists d2,
    insert_rating uid sid v c now d
    = Done (Rating.mk (ratings_id_seq d + 1) uid sid v c now now) d2 /\
    ratings d2 = ratings d ++ [Rating.mk (ratings_id_seq d + 1) uid sid v c now now].
Proof.
  intros Hchecked Hbind Hok. unfold insert_rating. cbn [next_rating_id ratings_id_seq].
  rewrite Hbind, Hok. cbn [negb].
  assert (Hnew : ratings_checked
                   (ratings d ++ [Rating.mk (ratings_id_seq d + 1) uid sid v c now now])).
  { apply Forall_app. split; [exact Hchecked|]. constructor; [|constructor].
    unfold rating_row_ok in Hok.
    apply andb_true_iff in Hok. destruct Hok as [Hok _].
    apply andb_true_iff in Hok. destruct Hok as [Hok _].
    apply andb_true_iff in Hok. destruct Hok as [Hok _].
    apply andb_true_iff in Hok. destruct Hok as [_ Hcheck].
    exact Hcheck. }
  destruct (rating_update_trigger_succeeds
              [mkEvent None (Some (Rating.mk (ratings_id_seq d + 1) uid sid v c now now))]
              (with_ratings (next_rating_id d)
                 (ratings d ++ [Rating.mk (ratings_id_seq d + 1) uid sid v c now now]))
              Hnew) as [d2 Hrun].
  cbn [next_rating_id] in Hrun |- *. rewrite Hrun.
  exists d2. split; [reflexivity|].
  apply rating_update_trigger_ratings in Hrun. exact Hrun.
Qed.

Lemma update_rating_takes_effect v c uid sid now d :
  ratings_checked (ratings d) -> bindable c = true -> rating_check v = true ->
  exists d2,
    update_rating v c uid sid now d
    = Done (map (set_rating v c now) (filter (same_key uid sid) (ratings d))) d2 /\
    ratings d2 = map (fun r => if same_key uid sid r then set_rating v c now r else r)
                     (ratings d).
Proof.
  intros Hchecked Hbind Hv. unfold update_rating. rewrite Hbind. cbn [negb].
  destruct (filter (same_key uid sid) (ratings d)) as [|r0 hit] eqn:Ehit.
  - exists d. split; [reflexivity|].
    symmetry. erewrite map_ext_in; [apply map_id|].
    intros r Hr. destruct (same_key uid sid r) eqn:Ek; [|reflexivity].
    assert (Hin : In r (filter (same_key uid sid) (ratings d)))
      by (apply filter_In; auto).
    rewrite Ehit in Hin. destruct Hin.
  - rewrite Hv.
    assert (Hnew : ratings_checked
                     (map (fun r => if same_key uid sid r then set_rating v c now r else r)
                          (ratings d))).
    { apply Forall_map. revert Hchecked. apply Forall_impl.
      intros r Hr. destruct (same_key uid sid r); [exact Hv|exact Hr]. }
    destruct (rating_update_trigger_succeeds
                (map (fun r => mkEvent (Some r) (Some (set_rating v c now r))) (r0 :: hit))
                (with_ratings d
                   (map (fun r => if same_key uid sid r then set_rating v c now r else r)
                        (ratings d)))
                Hnew) as [d2 Hrun].
    rewrite Hrun. exists d2. split; [reflexivity|].
    apply rating_update_trigger_ratings in Hrun. exact Hrun.
Qed.

Lemma delete_rating_takes_effect uid sid d :
  ratings_checked (ratings d) ->
  exists d2,
    delete_rating uid sid d = Done tt d2 /\
    ratings d2 = filter (fun r => negb (same_key uid sid r)) (ratings d).
Proof.
  intros Hchecked. unfold delete_rating.
  assert (Hnew : ratings_checked (filter (fun r => negb (same_key uid sid r)) (ratings d))).
  { apply Forall_forall. intros r Hr. apply filter_In in Hr. destruct Hr as [Hr _].
    revert r Hr. apply Forall_forall. exact Hchecked. }
  destruct (rating_update_trigger_succeeds
              (map (fun r => mkEvent (Some r) None) (filter (same_key uid sid) (ratings d)))
              (with_ratings d (filter (fun r => negb (same_key uid sid r)) (ratings d)))
              Hnew) as [d2 Hrun].
  rewrite Hrun. exists d2. split; [reflexivity|].
  apply rating_update_trigger_ratings in Hrun. exact Hrun.
Qed.

(** ** Deleting the only rating of a store *)

Lemma filter_comm {A : Type} (p q : A -> bool) (l : list A) :
  filter p (filter q l) = filter q (filter p l).
Proof.
  induction l as [|x l IH]; cbn; [reflexivity|].
  destruct (p x) eqn:Ep, (q x) eqn:Eq; cbn; rewrite ?Ep, ?Eq, IH; reflexivity.
Qed.

Lemma filter_and {A : Type} (p q : A -> bool) (l : list A) :
  filter (fun x => p x && q x) l = filter p (filter q l).
Proof.
  induction l as [|x l IH]; cbn; [reflexivity|].
  destruct (p x) eqn:Ep, (q x) eqn:Eq; cbn; rewrite ?Ep, IH; reflexivity.
Qed.

Lemma update_stores_unrated rs sid ss ss' :
  ratings_of_store rs sid = [] ->
  update_stores rs sid ss = Some ss' ->
  forall s, In s ss' -> Store.id s = sid ->
    Store.total_ratings s = Some 0 /\ Store.average_rating s = Some 0.
Proof.
  intros Hnone Hup s Hs Hid.
  destruct (Forall2_In_r _ _ _ _ (update_stores_rows _ _ _ _ Hup) Hs) as (s0 & _ & Hrow).
  unfold row_updated in Hrow.
  destruct (Store.id s0 =? sid) eqn:E.
  - revert Hrow. unfold recompute. rewrite Hnone. cbn. intros [= <-]. auto.
  - subst s0. apply Z.eqb_neq in E. contradiction.
Qed.

Lemma update_stores_unrated_succeeds rs sid ss :
  ratings_of_store rs sid = [] -> exists ss', update_stores rs sid ss = Some ss'.
Proof.
  intros Hnone. induction ss as [|s rest [rest' IH]]; cbn; [eauto|].
  rewrite IH. destruct (Store.id s =? sid); [|eauto].
  unfold recompute. rewrite Hnone. cbn. eauto.
Qed.

Lemma delete_last_rating_resets d uid sid r :
  ratings_of_store (ratings d) sid = [r] ->
  Rating.user_id r = uid ->
  exists d',
    delete_rating uid sid d = Done tt d' /\
    ratings_of_store (ratings d') sid = [] /\
    forall s, In s (stores d') -> Store.id s = sid ->
      Store.total_ratings s = Some 0 /\ Store.average_rating s = Some 0.
Proof.
  intros Hone Huid. unfold delete_rating.
  assert (Hr : Rating.store_id r = sid).
  { assert (Hin : In r (ratings_of_store (ratings d) sid)) by (rewrite Hone; left; reflexivity).
    apply filter_In in Hin. destruct Hin as [_ Hin]. apply Z.eqb_eq in Hin. exact Hin. }
  assert (Hkey : same_key uid sid r = true).
  { unfold same_key. rewrite Huid, Hr, !Z.eqb_refl. reflexivity. }
  assert (Hhit : filter (same_key uid sid) (ratings d) = [r]).
  { unfold same_key. rewrite (filter_and (fun x => Rating.user_id x =? uid)).
    unfold ratings_of_store in Hone. rewrite Hone. cbn.
    rewrite Huid, Z.eqb_refl. reflexivity. }
  assert (Hrest : ratings_of_store
                    (filter (fun x => negb (same_key uid sid x)) (ratings d)) sid = []).
  { unfold ratings_of_store in *. rewrite filter_comm, Hone. cbn.
    rewrite Hkey. reflexivity. }
  rewrite Hhit. cbn [map rating_update_trigger].
  unfold update_store_rating, event_store. cbn [NEW OLD option_map coalesce].
  rewrite Hr. cbn [ratings stores with_ratings].
  destruct (update_stores_unrated_succeeds _ sid (stores d) Hrest) as [ss Hss].
  rewrite Hss. eexists. split; [reflexivity|]. cbn. split; [exact Hrest|].
  apply (update_stores_unrated _ _ _ _ Hrest Hss).
Qed.

(** ** C1 *)

(** C1. For every sequence of rating inserts, updates and deletes (the
    statements of the rating handlers, and the deletes that the removal of a
    store or of a user cascades), the database reached after each single
    mutation has, on every store row, [total_ratings] equal to the number of
    that store's rating rows and [average_rating] equal to their mean rounded
    to one decimal place, or 0.0 when the store has no rating rows.  In
    particular the delete of a store's only rating succeeds and leaves both
    columns at zero (a value, not NULL). *)
Theorem rating_aggregates_invariant (d : database) (ms : list mutation) :
  consistent d ->
  Forall consistent (states_after ms d) /\
  (forall uid sid r,
     ratings_of_store (ratings d) sid = [r] -> Rating.user_id r = uid ->
     ratings_of_store (ratings (apply_mutation (Delete uid sid) d)) sid = [] /\
     forall s, In s (stores (apply_mutation (Delete uid sid) d)) -> Store.id s = sid ->
       Store.total_ratings s = Some 0 /\ Store.average_rating s = Some 0).
Proof.
  intros Hc. split.
  - revert d Hc. induction ms as [|m ms IH]; intros d Hc; cbn; constructor.
    + apply apply_mutation_consistent, Hc.
    + apply IH, apply_mutation_consistent, Hc.
  - intros uid sid r Hone Huid.
    destruct (delete_last_rating_resets d uid sid r Hone Huid) as (d' & Hdel & H).
    cbn [apply_mutation]. rewrite Hdel. exact H.
Qed.

Lemma seed_unrated_consistent : consistent seed_unrated.
Proof.
  intros s Hs. cbn in Hs.
  destruct Hs as [<-|[<-|[<-|[]]]]; split; reflexivity.
Qed.

Lemma rating_aggregates_invariant_witness :
  consistent seed_unrated /\
  Forall consistent (states_after seed_ratings seed_unrated).
Proof.
  split.
  - exact seed_unrated_consistent.
  - apply (rating_aggregates_invariant seed_unrated seed_ratings).
    exact seed_unrated_consistent.
Defined.

(** The seeded store 1 carries the ratings 5 and 4: two ratings, mean 4.5. *)
Example seeded_store_1 : aggregates_of createSampleData 1 = [(Some 2, Some 45)].
Proof. vm_compute. reflexivity. Qed.

(** A third rating of 3 gives three ratings and mean 4.0. *)
Example seeded_store_1_rated_3 :
  aggregates_of (apply_mutation (Insert 6 1 3 None 1) createSampleData) 1
  = [(Some 3, Some 40)].
Proof. vm_compute. reflexivity. Qed.

(** Taking it away again gives two ratings and mean 4.5. *)
Example seeded_store_1_unrated_3 :
  aggregates_of (apply_mutation (Delete 6 1)
                   (apply_mutation (Insert 6 1 3 None 1) createSampleData)) 1
  = [(Some 2, Some 45)].
Proof. vm_compute. reflexivity. Qed.

(** Removing user 4 takes the user's ratings of stores 1 and 2 away: each
    store is left with one rating and shows it. *)
Example seeded_user_4_removed :
  aggregates_of (apply_mutation (DeleteUserRow 4) createSampleData) 1 = [(Some 1, Some 40)] /\
  aggregates_of (apply_mutation (DeleteUserRow 4) createSampleData) 2 = [(Some 1, Some 30)] /\
  aggregates_of (apply_mutation (DeleteUserRow 4) createSampleData) 3 = [(Some 2, Some 45)].
Proof. vm_compute. repeat split; reflexivity. Qed.

(** Removing user 2 removes store 1, which the user owns, and its ratings. *)
Example seeded_user_2_removed :
  map Store.id (stores (apply_mutation (DeleteUserRow 2) createSampleData)) = [2; 3] /\
  map Rating.id (ratings (apply_mutation (DeleteUserRow 2) createSampleData)) = [2; 4; 5; 6].
Proof. vm_compute. split; reflexivity. Qed.

(** Ratings 4, 4, 4, 5 have mean 4.25, stored as 4.3. *)
Example tie_rounds_away :
  to_decimal_2_1 (mean [4; 4; 4; 5]) = Some 43.
Proof. vm_compute. reflexivity. Qed.

(** ** C10 *)

Lemma Forall2_impl {A B : Type} (R R' : A -> B -> Prop) l l' :
  (forall x y, R x y -> R' x y) -> Forall2 R l l' -> Forall2 R' l l'.
Proof. intros H. induction 1; constructor; auto. Qed.

Lemma Forall2_eq_refl {A : Type} (R : A -> A -> Prop) (l : list A) :
  (forall x, R x x) -> Forall2 R l l.
Proof. intros H. induction l; constructor; auto. Qed.

Lemma Forall2_In_l {A B : Type} (R : A -> B -> Prop) l l' x :
  Forall2 R l l' -> In x l -> exists y, In y l' /\ R x y.
Proof.
  induction 1 as [|x' y l l' Hxy _ IH]; cbn; [tauto|].
  intros [<-|Hin].
  - exists y. auto.
  - destruct (IH Hin) as (y' & Hy' & HR). exists y'. auto.
Qed.

(** C10. One firing of [update_store_rating] rewrites [average_rating] and
    [total_ratings] only on the store rows whose id is
    COALESCE(NEW.store_id, OLD.store_id) and returns every other store row
    as it was; the ratings table is not touched.  So when an UPDATE moves a
    rating row from one store to a different one, the rows of the former
    store come out of the trigger unchanged: only the destination store is
    recomputed. *)
Theorem update_store_rating_touches_one_store
    (e : trigger_event) (d d' : database) :
  update_store_rating e d = Some d' ->
  ratings d' = ratings d /\
  Forall2 (trigger_row e (ratings d)) (stores d) (stores d') /\
  (forall o n, OLD e = Some o -> NEW e = Some n ->
     Rating.store_id o <> Rating.store_id n ->
     event_store e = Some (Rating.store_id n) /\
     forall s, In s (stores d) -> Store.id s = Rating.store_id o -> In s (stores d')).
Proof.
  intros Hrun.
  assert (Hrows : Forall2 (trigger_row e (ratings d)) (stores d) (stores d')).
  { revert Hrun. unfold update_store_rating.
    destruct (event_store e) as [sid|] eqn:Ee.
    - destruct (update_stores _ _ _) as [ss|] eqn:Hup; [|discriminate].
      intros [= <-]. cbn.
      apply (Forall2_impl (row_updated (ratings d) sid));
        [|apply update_stores_rows, Hup].
      intros s s'. unfold row_updated, trigger_row.
      destruct (Z.eqb_spec (Store.id s) sid) as [Heq|Hne].
      + intros Hrec. split; [eapply recompute_id, Hrec|].
        split; [congruence|]. intros _. rewrite Heq. exact Hrec.
      + intros ->. split; [reflexivity|]. split; congruence.
    - intros [= <-]. apply Forall2_eq_refl.
      intros s. split; [reflexivity|]. split; congruence. }
  split; [apply (update_store_rating_frame _ _ _ Hrun)|].
  split; [exact Hrows|].
  intros o n Ho Hn Hne.
  assert (He : event_store e = Some (Rating.store_id n)).
  { unfold event_store. rewrite Hn. reflexivity. }
  split; [exact He|].
  intros s Hs Hid.
  destruct (Forall2_In_l _ _ _ _ Hrows Hs) as (s' & Hs' & _ & Hsame & _).
  assert (Hother : event_store e <> Some (Store.id s)) by congruence.
  rewrite (Hsame Hother) in Hs'. exact Hs'.
Qed.

Lemma update_store_rating_touches_one_store_witness :
  update_store_rating seed_move_event seed_move_table = Some seed_moved /\
  forall s, In s (stores seed_move_table) -> Store.id s = 1 -> In s (stores seed_moved).
Proof.
  assert (Hrun : update_store_rating seed_move_event seed_move_table = Some seed_moved)
    by (vm_compute; reflexivity).
  split; [exact Hrun|].
  destruct (update_store_rating_touches_one_store _ _ _ Hrun) as (_ & _ & Hmove).
  destruct (Hmove (Rating.mk 1 4 1 5 None seed_time seed_time)
                  (Rating.mk 1 4 3 5 None seed_time seed_time)
                  eq_refl eq_refl) as [_ Hkept].
  - cbn. lia.
  - exact Hkept.
Defined.

(** The whole statement: whatever row a move updates, store rows other than
    the destination are handed back unchanged. *)
Lemma move_rating_leaves_other_stores rid sid d rows d' :
  move_rating rid sid d = Done rows d' ->
  forall s, In s (stores d) -> Store.id s <> sid -> In s (stores d').
Proof.
  unfold move_rating.
  destruct (forallb _ _); [|discriminate].
  destruct (rating_update_trigger _ _) as [d2|] eqn:Hrun; [|discriminate].
  intros [= _ <-] s Hs Hne.
  destruct (filter (fun r => Rating.id r =? rid) (ratings d)) as [|r hit] eqn:Ehit.
  - cbn in Hrun. injection Hrun as <-. exact Hs.
  - apply (rating_update_trigger_one_store sid) in Hrun.
    + destruct Hrun as (Hup & _). cbn in Hup.
      destruct (Forall2_In_l _ _ _ _ (update_stores_rows _ _ _ _ Hup) Hs)
        as (s' & Hs' & Hrow).
      unfold row_updated in Hrow. apply Z.eqb_neq in Hne. rewrite Hne in Hrow.
      subst s'. exact Hs'.
    + discriminate.
    + apply Forall_map, Forall_forall. intros r' _. reflexivity.
Qed.

(** After the move, store 1 still shows two ratings with mean 4.5 although a
    single rating of 4 is left on it; store 3 has been recomputed. *)
Example moved_rating_former_store_stale :
  aggregates_of seed_moved 1 = [(Some 2, Some 45)] /\
  rating_values seed_moved 1 = [4] /\
  aggregates_of seed_moved 3 = [(Some 3, Some 47)] /\
  rating_values seed_moved 3 = [5; 5; 4].
Proof. vm_compute. repeat split; reflexivity. Qed.

Example moved_rating_breaks_consistency : ~ consistent seed_moved.
Proof.
  intros Hc.
  assert (Hin : In (Store.mk 1 "Premium Electronics Store - Best Tech Solutions"
             "contact@premiumelectronics.com"
             "123 Main Street, Downtown Business District, Electronics Hub, State 12345"
             (Some 2) (Some 45) (Some 2) seed_time seed_time) (stores seed_moved))
    by (vm_compute; left; reflexivity).
  destruct (Hc _ Hin) as [Htotal _].
  vm_compute in Htotal. discriminate.
Qed.

(** ** At most one rating per user and store *)

Lemma existsb_same_key_false uid sid rs :
  existsb (same_key uid sid) rs = false ->
  ~ In (uid, sid) (rating_keys rs).
Proof.
  intros Hex Hin. unfold rating_keys, rating_key in Hin. apply in_map_iff in Hin. destruct Hin as (r & Hr & Hin).
  injection Hr as Hu Hs.
  assert (Ht : existsb (same_key uid sid) rs = true).
  { apply existsb_exists. exists r. split; [exact Hin|].
    unfold same_key. rewrite Hu, Hs, !Z.eqb_refl. reflexivity. }
  congruence.
Qed.

(** Dropping rows cannot make two of the remaining ones share a key. *)
Lemma unique_keys_filter (keep : Rating.t -> bool) (rs : list Rating.t) :
  NoDup (rating_keys rs) -> NoDup (rating_keys (filter keep rs)).
Proof.
  unfold rating_keys.
  induction rs as [|r rs IH]; cbn; intros Hnd; [exact Hnd|].
  apply NoDup_cons_iff in Hnd. destruct Hnd as [Hfresh Hrest].
  destruct (keep r); cbn; [|apply IH, Hrest].
  apply NoDup_cons; [|apply IH, Hrest].
  contradict Hfresh.
  apply in_map_iff in Hfresh. destruct Hfresh as (r' & Hkey & Hin).
  apply filter_In in Hin. apply in_map_iff. exists r'. tauto.
Qed.

Lemma insert_rating_unique uid sid v c now d :
  unique_ratings d -> unique_ratings (database_of (insert_rating uid sid v c now d)).
Proof.
  unfold unique_ratings, insert_rating. intros Hu.
  destruct (bindable c); cbn [negb]; [|exact Hu].
  destruct (rating_row_ok d _) eqn:Hok; [|exact Hu].
  destruct (rating_update_trigger _ _) as [d2|] eqn:Hrun; [|exact Hu].
  cbn [database_of]. rewrite (rating_update_trigger_ratings _ _ _ Hrun).
  cbn [ratings with_ratings]. unfold rating_keys. rewrite map_app.
  apply Permutation_NoDup with (l := (uid, sid) :: rating_keys (ratings d)).
  - apply Permutation_cons_append.
  - constructor; [|exact Hu].
    apply existsb_same_key_false.
    unfold rating_row_ok in Hok. cbn in Hok.
    repeat (apply andb_true_iff in Hok; destruct Hok as [Hok ?]).
    apply negb_true_iff. assumption.
Qed.

Lemma update_rating_unique v c uid sid now d :
  unique_ratings d -> unique_ratings (database_of (update_rating v c uid sid now d)).
Proof.
  unfold unique_ratings, update_rating. intros Hu.
  destruct (bindable c); cbn [negb]; [|exact Hu].
  destruct (filter _ _); [exact Hu|].
  destruct (rating_check v); [|exact Hu].
  destruct (rating_update_trigger _ _) as [d2|] eqn:Hrun; [|exact Hu].
  cbn. rewrite (rating_update_trigger_ratings _ _ _ Hrun). cbn.
  unfold rating_keys in *. rewrite map_map.
  erewrite map_ext; [exact Hu|].
  intros r. cbn. destruct (same_key uid sid r); reflexivity.
Qed.

Lemma delete_rating_unique uid sid d :
  unique_ratings d -> unique_ratings (database_of (delete_rating uid sid d)).
Proof.
  unfold unique_ratings, delete_rating. intros Hu.
  destruct (rating_update_trigger _ _) as [d2|] eqn:Hrun; [|exact Hu].
  cbn. rewrite (rating_update_trigger_ratings _ _ _ Hrun). cbn.
  apply unique_keys_filter, Hu.
Qed.

Lemma post_rating_database user sid v c now d :
  snd (post_rating user sid v c now d) = d \/
  snd (post_rating user sid v c now d)
    = database_of (insert_rating (user_id user) sid v c now d).
Proof.
  unfold post_rating.
  destruct (negb _); [left; reflexivity|].
  destruct (has_rated _ _ _); [left; reflexivity|].
  right. destruct (insert_rating _ _ _ _ _ _); reflexivity.
Qed.

Lemma put_rating_database user sid v c now d :
  snd (put_rating user sid v c now d) = d \/
  snd (put_rating user sid v c now d)
    = database_of (update_rating v c (user_id user) sid now d).
Proof.
  unfold put_rating.
  destruct (negb (store_exists _ _)); [left; reflexivity|].
  destruct (negb (has_rated _ _ _)); [left; reflexivity|].
  right. destruct (update_rating _ _ _ _ _ _); reflexivity.
Qed.

(** C7. For a user and an existing store: submitting a rating when the user
    already has one for that store is answered with the 400 conflict message
    and leaves the database as it was; updating when the user has none is
    answered with 404 and leaves the database as it was; and neither handler
    can make the ratings table hold two ratings of one user for one store. *)
Theorem one_rating_per_user_and_store
    (user : principal) (sid v : Z) (c : option string) (now : Z) (d : database) :
  store_exists d sid = true ->
  (has_rated d (user_id user) sid = true ->
   post_rating user sid v c now d
   = (mkResponse 400
        (RatingMessage "You have already rated this store. Use PUT to update your rating."),
      d)) /\
  (has_rated d (user_id user) sid = false ->
   put_rating user sid v c now d
   = (mkResponse 404
        (RatingMessage "You have not rated this store yet. Use POST to submit a new rating."),
      d)) /\
  (unique_ratings d ->
   unique_ratings (snd (post_rating user sid v c now d)) /\
   unique_ratings (snd (put_rating user sid v c now d))).
Proof.
  intros Hstore. split; [|split].
  - intros Hrated. unfold post_rating. rewrite Hstore, Hrated. reflexivity.
  - intros Hrated. unfold put_rating. rewrite Hstore, Hrated. reflexivity.
  - intros Hu. split.
    + destruct (post_rating_database user sid v c now d) as [-> | ->];
        [exact Hu|apply insert_rating_unique, Hu].
    + destruct (put_rating_database user sid v c now d) as [-> | ->];
        [exact Hu|apply update_rating_unique, Hu].
Qed.

Lemma one_rating_per_user_and_store_witness :
  store_exists createSampleData 1 = true /\
  post_rating (mkPrincipal 4 "normal_user") 1 3 None 1 createSampleData
  = (mkResponse 400
       (RatingMessage "You have already rated this store. Use PUT to update your rating."),
     createSampleData).
Proof.
  assert (Hstore : store_exists createSampleData 1 = true) by (vm_compute; reflexivity).
  split; [exact Hstore|].
  apply (one_rating_per_user_and_store (mkPrincipal 4 "normal_user") 1 3 None 1
           createSampleData Hstore).
  vm_compute. reflexivity.
Defined.

Lemma delete_rating_handler_unique user sid d :
  unique_ratings d -> unique_ratings (snd (delete_rating_handler user sid d)).
Proof.
  intros Hu. unfold delete_rating_handler.
  destruct (negb _); [exact Hu|].
  pose proof (delete_rating_unique (user_id user) sid d Hu) as Hdel.
  destruct (delete_rating _ _ _); exact Hdel.
Qed.

(** User 4 withdraws the rating of store 1 and may then submit a new one. *)
Example withdraw_then_rate_again :
  let withdrawn := delete_rating_handler (mkPrincipal 4 "normal_user") 1 createSampleData in
  let again := post_rating (mkPrincipal 4 "normal_user") 1 2 None 1 (snd withdrawn) in
  status (fst withdrawn) = 200 /\
  aggregates_of (snd withdrawn) 1 = [(Some 1, Some 40)] /\
  status (fst again) = 201 /\
  aggregates_of (snd again) 1 = [(Some 2, Some 30)].
Proof. vm_compute. repeat split; reflexivity. Qed.

(** User 6 has not rated store 1: the first POST creates the rating, a second
    POST is refused, and a PUT then updates the one row in place. *)
Example rate_then_rate_again :
  let first := post_rating (mkPrincipal 6 "normal_user") 1 3 None 1 createSampleData in
  let second := post_rating (mkPrincipal 6 "normal_user") 1 5 None 2 (snd first) in
  let third := put_rating (mkPrincipal 6 "normal_user") 1 5 None 3 (snd second) in
  status (fst first) = 201 /\
  status (fst second) = 400 /\ snd second = snd first /\
  status (fst third) = 200 /\
  map Rating.rating (filter (same_key 6 1) (ratings (snd third))) = [5] /\
  aggregates_of (snd third) 1 = [(Some 3, Some 47)].
Proof. vm_compute. repeat split; reflexivity. Qed.

Example put_without_rating :
  fst (put_rating (mkPrincipal 6 "normal_user") 1 5 None 1 createSampleData)
  = mkResponse 404
      (RatingMessage "You have not rated this store yet. Use POST to submit a new rating.").
Proof. vm_compute. reflexivity. Qed.

(** ** Creating a store for an owner *)

Lemma role_check_not_upper role :
  role_check role = true -> String.eqb role "STORE_OWNER" = false.
Proof.
  unfold role_check. cbn. rewrite orb_false_r.
  intros H. apply orb_true_iff in H. destruct H as [H|H];
    [|apply orb_true_iff in H; destruct H as [H|H]];
    apply String.eqb_eq in H; subst role; reflexivity.
Qed.

(** The validation the handler does run: an unknown owner, an owner whose
    role is not the string [STORE_OWNER], and an owner who already has a
    store are all refused with status 400 and no write. *)
Lemma post_store_owner_validation name email address oid now d :
  no_zero_byte email = true ->
  in_int4 oid = true ->
  oid <> 0 ->
  (filter (fun u => User.id u =? oid) (users d) = [] \/
   (exists owner rest, filter (fun u => User.id u =? oid) (users d) = owner :: rest /\
                       User.role owner <> "STORE_OWNER") \/
   existsb (owner_is oid) (stores d) = true) ->
  status (fst (post_store name email address (Some oid) now d)) = 400 /\
  snd (post_store name email address (Some oid) now d) = d.
Proof.
  intros Hemail Hrange Hoid Hcase. unfold post_store, truthy_id.
  apply Z.eqb_neq in Hoid. rewrite Hemail, Hoid, Hrange. cbn [negb].
  destruct (existsb (fun s => String.eqb (Store.email s) email) (stores d));
    [split; reflexivity|].
  destruct Hcase as [Hnone|[(owner & rest & Hsome & Hrole)|Howns]].
  - rewrite Hnone. split; reflexivity.
  - rewrite Hsome. apply String.eqb_neq in Hrole. rewrite Hrole. split; reflexivity.
  - destruct (filter _ (users d)) as [|owner rest]; [split; reflexivity|].
    destruct (negb _); [split; reflexivity|].
    rewrite Howns. split; reflexivity.
Qed.

(** With the roles the schema admits, no request that names an owner gets
    as far as the INSERT. *)
Lemma post_store_with_owner_never_creates name email address oid now d :
  roles_checked d -> no_zero_byte email = true -> in_int4 oid = true -> oid <> 0 ->
  status (fst (post_store name email address (Some oid) now d)) = 400 /\
  snd (post_store name email address (Some oid) now d) = d.
Proof.
  intros Hroles Hemail Hrange Hoid.
  destruct (filter (fun u => User.id u =? oid) (users d)) as [|owner rest] eqn:Ef.
  - apply post_store_owner_validation; auto.
  - apply post_store_owner_validation; [exact Hemail|exact Hrange|exact Hoid|].
    right. left. exists owner, rest. split; [exact Ef|].
    assert (Hin : In owner (users d)).
    { assert (H : In owner (filter (fun u => User.id u =? oid) (users d)))
        by (rewrite Ef; left; reflexivity).
      apply filter_In in H. tauto. }
    unfold roles_checked in Hroles. rewrite Forall_forall in Hroles.
    apply String.eqb_neq, role_check_not_upper, Hroles, Hin.
Qed.

(** C6, at the failing input.  User 2 is a seeded store owner (role
    [store_owner]) and no store exists yet; the first create-store request
    naming owner 2 is refused with "User must be a store owner" and nothing is
    inserted, where the claim has the first such request succeed. *)
Theorem first_store_for_owner_is_refused :
  post_store "Premium Electronics Store - Best Tech Solutions"
             "contact@premiumelectronics.com"
             "123 Main Street, Downtown Business District, Electronics Hub, State 12345"
             (Some 2) 1 seed_no_stores
  = (mkResponse 400 (StoreMessage "User must be a store owner"), seed_no_stores).
Proof. vm_compute. reflexivity. Qed.

(** The same request without an owner is accepted. *)
Example store_without_owner_is_created :
  status (fst (post_store "Premium Electronics Store - Best Tech Solutions"
                 "contact@premiumelectronics.com"
                 "123 Main Street, Downtown Business District, Electronics Hub, State 12345"
                 None 1 seed_no_stores)) = 201 /\
  map Store.id (stores (snd (post_store "Premium Electronics Store - Best Tech Solutions"
                 "contact@premiumelectronics.com"
                 "123 Main Street, Downtown Business District, Electronics Hub, State 12345"
                 None 1 seed_no_stores))) = [1].
Proof. vm_compute. split; reflexivity. Qed.

(** ** C9: route order on the stores router *)

Ltac route_cases :=
  cbn [match_route first_match stores_router method_eqb route_method
       route_path route_handler];
  repeat match goal with
         | |- context [String.eqb ?a ?b] => destruct (String.eqb a b)
         end;
  try discriminate.

(** C9. On the stores router, GET /my-store is taken by the [/:id] route
    with [id = "my-store"], and GET /my-store/ratings by the [/:id/ratings]
    route with [id = "my-store"]; the same holds for every path the two
    literal routes would accept, and no request at all, whatever its method
    and path, reaches the two my-store handlers. *)
Theorem my_store_routes_unreachable :
  dispatch stores_router GET "/my-store" = Some (GetStoreById, [("id", "my-store")]) /\
  dispatch stores_router GET "/my-store/ratings"
    = Some (GetStoreRatings, [("id", "my-store")]) /\
  (forall segs,
     match_route [Lit "my-store"] segs = Some [] ->
     exists x, segs = [x] /\
               first_match stores_router GET segs = Some (GetStoreById, [("id", x)])) /\
  (forall segs,
     match_route [Lit "my-store"; Lit "ratings"] segs = Some [] ->
     exists x y, segs = [x; y] /\
                 first_match stores_router GET segs = Some (GetStoreRatings, [("id", x)])) /\
  (forall m path h ps,
     dispatch stores_router m path = Some (h, ps) ->
     h <> GetMyStore /\ h <> GetMyStoreRatings).
Proof.
  split; [vm_compute; reflexivity|].
  split; [vm_compute; reflexivity|].
  split; [|split].
  - intros [|x [|y segs]]; route_cases; intros _. exists x. auto.
  - intros [|x [|y [|z segs]]]; route_cases; intros _.
    exists x, y. auto.
  - intros m path h ps. unfold dispatch.
    destruct (path_segments path) as [segs|]; [|discriminate].
    destruct m; destruct segs as [|x [|y [|z segs]]]; route_cases;
      intros [= <- _]; split; discriminate.
Qed.

(** What the get-store-by-id handler then does with [id = "my-store"]: the
    text is not an integer, the query raises, and the answer is 500. *)
Example get_store_my_store :
  get_store (mkPrincipal 2 "store_owner") "my-store" createSampleData
  = mkResponse 500 (DetailMessage "Server error fetching store").
Proof. vm_compute. reflexivity. Qed.

(** ** C3: a sort field outside the allow-list *)

Lemma allow_listed_fallback valid dflt x :
  includes valid x = false -> allow_listed valid dflt x = dflt.
Proof. unfold allow_listed. intros ->. reflexivity. Qed.

Lemma allow_listed_default valid dflt :
  allow_listed valid dflt dflt = dflt.
Proof. unfold allow_listed. destruct (includes valid dflt); reflexivity. Qed.

Lemma get_stores_sortField user q q' d :
  Query.page q' = Query.page q -> Query.limit q' = Query.limit q ->
  Query.sortOrder q' = Query.sortOrder q -> Query.search q' = Query.search q ->
  Query.searchBy q' = Query.searchBy q ->
  stores_sortField q' = stores_sortField q ->
  get_stores user q' d = get_stores user q d.
Proof.
  intros Hp Hl Ho Hs Hb Hf.
  unfold get_stores, stores_query, stores_countQuery, stores_filters, stores_searchField.
  rewrite Hp, Hl, Ho, Hs, Hb, Hf. reflexivity.
Qed.

Lemma get_users_sortField q q' d :
  Query.page q' = Query.page q -> Query.limit q' = Query.limit q ->
  Query.sortOrder q' = Query.sortOrder q -> Query.search q' = Query.search q ->
  Query.searchBy q' = Query.searchBy q -> Query.role q' = Query.role q ->
  users_sortField q' = users_sortField q ->
  get_users q' d = get_users q d.
Proof.
  intros Hp Hl Ho Hs Hb Hr Hf.
  unfold get_users, users_query, users_countQuery, users_filters, users_searchField.
  rewrite Hp, Hl, Ho, Hs, Hb, Hr, Hf. reflexivity.
Qed.



(** Listing stores with [sortBy=unknown_field]: status 200, the stores in
    ascending order of name, page 1. *)
Example stores_sorted_by_unknown_field :
  let r := get_stores (mkPrincipal 1 "system_admin")
             (Query.set_sortBy (Some "unknown_field") Query.empty) createSampleData in
  status r = 200 /\
  match body r with
  | ListPage rows block =>
      map (fun i => Store.id (item_store i)) rows = [2; 3; 1] /\
      currentPage block = JsonNum 1
  | ListMessage _ => False
  end.
Proof. vm_compute. repeat split; reflexivity. Qed.

(** ** C8: roles as stored and roles as tested *)

Lemma role_check_cases role :
  role_check role = true ->
  role = "system_admin" \/ role = "normal_user" \/ role = "store_owner".
Proof.
  unfold role_check. cbn [existsb]. rewrite orb_false_r.
  intros H. apply orb_true_iff in H. destruct H as [H|H];
    [|apply orb_true_iff in H; destruct H as [H|H]];
    apply String.eqb_eq in H; auto.
Qed.

Lemma role_check_upper role :
  role_check role = true ->
  String.eqb role "NORMAL_USER" = false /\
  String.eqb role "STORE_OWNER" = false /\
  String.eqb role "SYSTEM_ADMIN" = false.
Proof.
  intros H. destruct (role_check_cases role H) as [-> | [-> | ->]]; repeat split; reflexivity.
Qed.

(** C8. The users table admits only the roles [system_admin], [normal_user]
    and [store_owner]; the handlers test for [NORMAL_USER], [STORE_OWNER] and
    [SYSTEM_ADMIN].  For a principal with an admitted role, then: the stores
    list neither joins the principal's ratings nor selects [user_rating], and
    adds no owner condition to the row query or to the count query; the
    store-owner check of GET and PUT /api/stores/:id never denies access; and
    reading a profile is denied whenever the id asked for is not the
    principal's own, the role giving no exemption. *)
Theorem stored_roles_take_no_role_branch (user : principal) :
  role_check (user_role user) = true ->
  (forall q,
     sel_join (fst (stores_query user q)) = None /\
     (forall b, stores_filters user q b
                = when (truthy (string_or "" (Query.search q)))
                       (and_like ("s." ++ stores_searchField q) (string_or "" (Query.search q)))
                       b)) /\
  (forall q d rows block,
     get_stores user q d = mkResponse 200 (ListPage rows block) ->
     Forall (fun i => user_rating i = None) rows) /\
  (forall o, owner_denied user o = false) /\
  (forall id d, status (get_store user id d) <> 403) /\
  (forall id name email address now d,
     status (fst (put_store user id name email address now d)) <> 403) /\
  (forall userId d,
     num_eq (num_of_Z (user_id user)) (parseInt_string userId) = false ->
     get_user user userId d = mkResponse 403 (DetailMessage "Access denied")).
Proof.
  intros Hrole. destruct (role_check_upper _ Hrole) as (Hn & Ho & Ha).
  assert (Hdenied : forall o, owner_denied user o = false).
  { intros o. unfold owner_denied. rewrite Ho. reflexivity. }
  split; [|split; [|split; [|split; [|split]]]].
  - intros q. split.
    + unfold stores_query. rewrite Hn. reflexivity.
    + intros b. unfold stores_filters. rewrite Ho. reflexivity.
  - intros q d rows block. unfold get_stores. rewrite Hn.
    destruct (run_stores_query _ _) as [rs|]; [|discriminate].
    destruct (run_stores_count _ _); [|discriminate].
    intros [= <- _]. apply Forall_map, Forall_forall. intros r _. reflexivity.
  - exact Hdenied.
  - intros id d. unfold get_store.
    destruct (integer_in id); [|cbn; lia].
    destruct (filter _ _); [cbn; lia|].
    rewrite Hdenied. cbn. lia.
  - intros id name email address now d. unfold put_store.
    destruct (integer_in id); [|cbn; lia].
    destruct (filter _ _); [cbn; lia|].
    rewrite Hdenied.
    destruct (negb (bindable (truthy_field email))); [cbn; lia|].
    destruct (match truthy_field email with Some _ => _ | None => _ end); [cbn; lia|].
    destruct (truthy_field name), (truthy_field email), (truthy_field address);
      try (cbn; lia);
      (destruct (update_store _ _ _ _ _ _) as [[|row rows] d1 | d1]; cbn; lia).
  - intros userId d Hother. unfold get_user, profile_denied.
    rewrite Ha, Hother. reflexivity.
Qed.

Lemma stored_roles_take_no_role_branch_witness :
  role_check (user_role (mkPrincipal 1 "system_admin")) = true /\
  get_user (mkPrincipal 1 "system_admin") "2" createSampleData
  = mkResponse 403 (DetailMessage "Access denied").
Proof.
  assert (Hrole : role_check (user_role (mkPrincipal 1 "system_admin")) = true)
    by reflexivity.
  split; [exact Hrole|].
  destruct (stored_roles_take_no_role_branch _ Hrole) as (_ & _ & _ & _ & _ & Hprofile).
  apply Hprofile. vm_compute. reflexivity.
Defined.

(** With the upper-case role the branches are there to be taken: the normal
    user's own rating is selected, and the store owner sees one store. *)
Example upper_case_roles_take_the_branches :
  sel_join (fst (stores_query (mkPrincipal 4 "NORMAL_USER") Query.empty)) = Some 1%nat /\
  sel_where (fst (stores_query (mkPrincipal 2 "STORE_OWNER") Query.empty))
  = [Equals "s.owner_id" 1] /\
  get_user (mkPrincipal 1 "SYSTEM_ADMIN") "2" createSampleData
  <> mkResponse 403 (DetailMessage "Access denied").
Proof. repeat split; try reflexivity. vm_compute. discriminate. Qed.

(** A seeded store owner lists every store, not only the owned one. *)
Example stored_store_owner_lists_all :
  match body (get_stores (mkPrincipal 2 "store_owner") Query.empty createSampleData) with
  | ListPage rows block => List.length rows = 3%nat /\ total block = 3
  | ListMessage _ => False
  end.
Proof. vm_compute. split; reflexivity. Qed.

(** ** Arithmetic of the pagination block *)

Lemma Qfloor_div (a b : Z) : 0 < b -> Qfloor (inject_Z a / inject_Z b) = a / b.
Proof.
  intros Hb. destruct b as [|p|p]; try lia.
  unfold Qdiv, Qinv, inject_Z, Qmult, Qfloor. cbn.
  rewrite Z.mul_1_r. reflexivity.
Qed.

Lemma ceil_div_Z (a b : Z) : 0 < b -> - ((- a) / b) = (a + b - 1) / b.
Proof.
  intros Hb.
  apply Z.div_unique with (r := b - 1 - (- a) mod b).
  - left. pose proof (Z.mod_pos_bound (- a) b Hb). lia.
  - assert (Hnz : b <> 0) by lia. pose proof (Z.div_mod (- a) b Hnz). nia.
Qed.

(** [Math.ceil(a / b)] on integers is the quotient rounded up. *)
Lemma Qceiling_div (a b : Z) :
  0 < b -> Qceiling (inject_Z a / inject_Z b) = (a + b - 1) / b.
Proof.
  intros Hb. unfold Qceiling.
  assert (E : (- (inject_Z a / inject_Z b) == inject_Z (- a) / inject_Z b)%Q).
  { rewrite inject_Z_opp. unfold Qdiv. ring. }
  rewrite E, Qfloor_div by exact Hb.
  apply ceil_div_Z, Hb.
Qed.

Lemma Qlt_bool_iff (x y : Q) : Qlt_bool x y = true <-> (x < y)%Q.
Proof.
  unfold Qlt_bool. rewrite negb_true_iff. split.
  - intros H. apply Qnot_le_lt. intros Hle. apply Qle_bool_iff in Hle. congruence.
  - intros H. destruct (Qle_bool y x) eqn:E; [|reflexivity].
    apply Qle_bool_iff in E. apply Qle_not_lt in E. contradiction.
Qed.

Lemma Qlt_bool_integers (x y : Q) (a b : Z) :
  (x == inject_Z a)%Q -> (y == inject_Z b)%Q -> Qlt_bool x y = (a <? b).
Proof.
  intros Hx Hy. destruct (Z.ltb_spec a b) as [Hlt|Hge].
  - apply Qlt_bool_iff. rewrite Hx, Hy, <- Zlt_Qlt. exact Hlt.
  - destruct (Qlt_bool x y) eqn:E; [|reflexivity].
    apply Qlt_bool_iff in E. rewrite Hx, Hy, <- Zlt_Qlt in E. lia.
Qed.

Lemma Qeq_bool_integers (x : Q) (a b : Z) :
  (x == inject_Z a)%Q -> Qeq_bool x (inject_Z b) = (a =? b).
Proof.
  intros Hx. destruct (Z.eqb_spec a b) as [->|Hne].
  - apply Qeq_bool_iff. exact Hx.
  - destruct (Qeq_bool x (inject_Z b)) eqn:E; [|reflexivity].
    apply Qeq_bool_iff in E. rewrite Hx in E. exfalso. exact (Hne (proj1 (inject_Z_injective a b) E)).
Qed.

(** [Math.ceil(count / limit)] for a count and a positive integer limit. *)
Lemma total_pages_integers (count L : Z) (lim : number) :
  is_integer lim L -> 1 <= L -> 0 <= count ->
  num_ceil (num_div (num_of_Z count) lim) = Fin (inject_Z ((count + L - 1) / L)).
Proof.
  intros Hlim HL Hcount.
  destruct lim as [| |  |q]; cbn in Hlim; try contradiction; [lia|].
  unfold num_div, num_of_Z, num_is_zero, num_value, num_negative.
  change 0%Q with (inject_Z 0).
  rewrite (Qeq_bool_integers q L 0 Hlim).
  destruct (Z.eqb_spec L 0) as [|_]; [lia|].
  assert (Hquot : (inject_Z count / q == inject_Z count / inject_Z L)%Q)
    by (rewrite Hlim; reflexivity).
  destruct (Z.eq_dec count 0) as [->|Hpos].
  - assert (Hz : Qeq_bool (inject_Z 0 / q) (inject_Z 0) = true).
    { apply Qeq_bool_iff. unfold Qdiv. ring. }
    rewrite Hz.
    rewrite (Qlt_bool_integers (inject_Z 0) (inject_Z 0) 0 0) by reflexivity.
    rewrite (Qlt_bool_integers q (inject_Z 0) L 0 Hlim) by reflexivity.
    destruct (Z.ltb_spec L 0); [lia|]. cbn.
    rewrite Z.div_small by lia. reflexivity.
  - assert (Hc : 1 <= (count + L - 1) / L).
    { apply Z.div_le_lower_bound; lia. }
    assert (Hnz : Qeq_bool (inject_Z count / q) (inject_Z 0) = false).
    { destruct (Qeq_bool _ _) eqn:E; [|reflexivity].
      apply Qeq_bool_iff in E. rewrite Hquot in E.
      assert (Hc0 : Qceiling (inject_Z count / inject_Z L) = Qceiling (inject_Z 0))
        by (rewrite E; reflexivity).
      rewrite Qceiling_div in Hc0 by lia. cbn in Hc0. lia. }
    assert (Hceil : Qceiling (inject_Z count / q) = (count + L - 1) / L).
    { rewrite Hquot. apply Qceiling_div. lia. }
    rewrite Hnz. unfold num_ceil. rewrite Hceil.
    destruct (Z.eqb_spec ((count + L - 1) / L) 0); [lia|reflexivity].
Qed.

Lemma num_lt_integers (a b : number) (x y : Z) :
  is_integer a x -> is_integer b y -> num_lt a b = (x <? y).
Proof.
  intros Ha Hb.
  destruct a as [| | |p]; cbn in Ha; try contradiction;
    destruct b as [| | |q]; cbn in Hb; try contradiction; subst; cbn.
  - reflexivity.
  - apply Qlt_bool_integers; [reflexivity|exact Hb].
  - apply Qlt_bool_integers; [exact Ha|reflexivity].
  - apply Qlt_bool_integers; assumption.
Qed.

Lemma is_integer_of_Z z : is_integer (num_of_Z z) z.
Proof. cbn. reflexivity. Qed.

(** The block for an integer page and a positive integer limit. *)
Lemma pagination_block_integers (page limit : jsval) (P L count : Z) :
  is_integer (ToNumber page) P -> is_integer (ToNumber limit) L ->
  1 <= L -> 0 <= count ->
  pagination_block page limit count
  = mkPagination (to_json (parseInt page))
                 (JsonNum (inject_Z ((count + L - 1) / L)))
                 count
                 (P <? (count + L - 1) / L)
                 (1 <? P).
Proof.
  intros HP HL Hpos Hcount. unfold pagination_block.
  rewrite (total_pages_integers count L _ HL Hpos Hcount).
  rewrite (num_lt_integers (ToNumber page) (Fin (inject_Z ((count + L - 1) / L)))
             P _ HP (is_integer_of_Z _)).
  rewrite (num_lt_integers (num_of_Z 1) (ToNumber page) 1 P (is_integer_of_Z _) HP).
  reflexivity.
Qed.

(** ** The count query filters as the row query does *)

Lemma where_rows_ext {R : Type} (T T' : table R) (ps ps' : list param)
    (cs cs' : list condition) (rows : list R) :
  (forall r, holds_all T ps cs r = holds_all T' ps' cs' r) ->
  where_rows T ps cs rows = where_rows T' ps' cs' rows.
Proof.
  intros H. induction rows as [|r rows IH]; cbn; [reflexivity|].
  rewrite H, IH. reflexivity.
Qed.

Lemma stores_filters_agree user q r :
  holds_all stores_table (snd (stores_query user q))
            (sel_where (fst (stores_query user q))) r
  = holds_all stores_table (snd (stores_countQuery user q))
              (cnt_where (fst (stores_countQuery user q))) r.
Proof.
  unfold stores_query, stores_countQuery, stores_filters, paginate, when,
    and_like, and_equals.
  destruct (String.eqb (user_role user) "NORMAL_USER");
    destruct (String.eqb (user_role user) "STORE_OWNER");
    destruct (truthy (string_or "" (Query.search q)));
    reflexivity.
Qed.

Lemma users_filters_agree q r :
  holds_all (users_table "u.") (snd (users_query q))
            (sel_where (fst (users_query q))) r
  = holds_all (users_table "") (snd (users_countQuery q))
              (cnt_where (fst (users_countQuery q))) r.
Proof.
  unfold users_query, users_countQuery, users_filters, paginate, when,
    and_like, and_equals.
  destruct (truthy (string_or "" (Query.role q)));
    destruct (truthy (string_or "" (Query.search q)));
    reflexivity.
Qed.

Lemma run_count_rows {R : Type} (T : table R) ps from q n :
  run_count T ps from q = Some n ->
  option_map sql_count (where_rows T ps (cnt_where q) from) = Some n.
Proof.
  unfold run_count.
  destruct (_ && _); [|discriminate].
  destruct (where_rows _ _ _ _); [|discriminate].
  intros [= <-]. reflexivity.
Qed.

(** Whenever a list request is answered with a page, the [total] of its
    block counts the rows that pass the row query's own conditions. *)
Lemma list_total_counts_row_query e q d block :
  list_pagination e q d = Some block ->
  row_query_matches e q d = Some (total block).
Proof.
  destruct e as [user|]; unfold list_pagination, row_query_matches.
  - generalize (stores_filters_agree user q).
    unfold get_stores, run_stores_count, page_of.
    destruct (stores_query user q) as [rq rps].
    destruct (stores_countQuery user q) as [cq cps].
    cbn [fst snd]. intros Hagree.
    destruct (run_stores_query d (rq, rps)); [|discriminate].
    destruct (run_count _ _ _ _) as [n|] eqn:Hcount; [|discriminate].
    cbn [body]. intros [= <-]. cbn [total pagination_block].
    apply run_count_rows in Hcount.
    rewrite <- Hcount. f_equal. apply where_rows_ext, Hagree.
  - generalize (users_filters_agree q).
    unfold get_users, page_of.
    destruct (users_query q) as [rq rps].
    destruct (users_countQuery q) as [cq cps].
    cbn [fst snd]. intros Hagree.
    destruct (run_select _ _ _ _); [|discriminate].
    destruct (run_count _ _ _ _) as [n|] eqn:Hcount; [|discriminate].
    cbn [body]. intros [= <-]. cbn [total pagination_block].
    apply run_count_rows in Hcount.
    rewrite <- Hcount. f_equal. apply where_rows_ext, Hagree.
Qed.

Lemma list_pagination_block e q d block :
  list_pagination e q d = Some block ->
  block = pagination_block (list_page q) (list_limit q) (total block) /\
  0 <= total block.
Proof.
  destruct e as [user|]; unfold list_pagination, page_of.
  - unfold get_stores, run_stores_count.
    destruct (run_stores_query _ _); [|discriminate].
    destruct (stores_countQuery user q) as [cq cps].
    destruct (run_count _ _ _ _) as [n|] eqn:Hcount; [|discriminate].
    cbn [body]. intros [= <-]. split; [reflexivity|].
    apply run_count_rows in Hcount.
    destruct (where_rows _ _ _ _); [|discriminate].
    injection Hcount as <-. cbn. unfold sql_count. lia.
  - unfold get_users.
    destruct (users_query q) as [rq rps].
    destruct (run_select _ _ _ _); [|discriminate].
    destruct (users_countQuery q) as [cq cps].
    destruct (run_count _ _ _ _) as [n|] eqn:Hcount; [|discriminate].
    cbn [body]. intros [= <-]. split; [reflexivity|].
    apply run_count_rows in Hcount.
    destruct (where_rows _ _ _ _); [|discriminate].
    injection Hcount as <-. cbn. unfold sql_count. lia.
Qed.

(** ** C4 *)

(** C4. Whenever the stores list or the users list answers with a page, its
    pagination block has [totalPages = Math.ceil(total / limit)],
    [hasNext = page < totalPages] and [hasPrev = page > 1], and [total] is
    the number of rows of the listed table that pass the row query's own
    WHERE conditions (search and role or owner scoping), with no LIMIT or
    OFFSET applied.  For an integer page and a positive integer limit,
    [totalPages] is the quotient total/limit rounded up. *)
Theorem list_pagination_block_correct
    (e : list_request) (q : Query.t) (d : database) (block : pagination) :
  list_pagination e q d = Some block ->
  row_query_matches e q d = Some (total block) /\
  totalPages block
  = to_json (num_ceil (num_div (num_of_Z (total block)) (ToNumber (list_limit q)))) /\
  hasNext block
  = num_lt (ToNumber (list_page q))
           (num_ceil (num_div (num_of_Z (total block)) (ToNumber (list_limit q)))) /\
  hasPrev block = num_lt (num_of_Z 1) (ToNumber (list_page q)) /\
  (forall P L,
     is_integer (ToNumber (list_page q)) P ->
     is_integer (ToNumber (list_limit q)) L -> 1 <= L ->
     totalPages block = JsonNum (inject_Z ((total block + L - 1) / L)) /\
     hasNext block = (P <? (total block + L - 1) / L) /\
     hasPrev block = (1 <? P)).
Proof.
  intros Hpage.
  destruct (list_pagination_block e q d block Hpage) as [Hblock Hcount].
  split; [apply list_total_counts_row_query, Hpage|].
  pose proof (f_equal totalPages Hblock) as Htp.
  pose proof (f_equal hasNext Hblock) as Hnext.
  pose proof (f_equal hasPrev Hblock) as Hprev.
  split; [exact Htp|]. split; [exact Hnext|]. split; [exact Hprev|].
  intros P L HP HL Hpos.
  rewrite (pagination_block_integers _ _ P L _ HP HL Hpos Hcount) in Htp, Hnext, Hprev.
  repeat split; assumption.
Qed.

Lemma list_pagination_block_correct_witness :
  list_pagination (StoresList seed_admin) second_page_of_two createSampleData
  = Some (mkPagination (JsonNum 2) (JsonNum 2) 3 false true) /\
  row_query_matches (StoresList seed_admin) second_page_of_two createSampleData = Some 3.
Proof.
  assert (Hpage : list_pagination (StoresList seed_admin) second_page_of_two
                    createSampleData
                  = Some (mkPagination (JsonNum 2) (JsonNum 2) 3 false true))
    by (vm_compute; reflexivity).
  split; [exact Hpage|].
  exact (proj1 (list_pagination_block_correct _ _ _ _ Hpage)).
Defined.

(** ** What an answered list request says about LIMIT and OFFSET *)

Lemma run_select_bounds {R : Type} (T : table R) ps from q rows :
  run_select T ps from q = Some rows ->
  exists pl po l o matched,
    bound ps (sel_limit q) = Some pl /\ int8_of_param pl = Some l /\ 0 <= l /\
    bound ps (sel_offset q) = Some po /\ int8_of_param po = Some o /\ 0 <= o /\
    where_rows T ps (sel_where q) from = Some matched /\
    rows = firstn (Z.to_nat l)
             (skipn (Z.to_nat o)
                (sort_rows (order_leb T (sel_order_by q) (sel_direction q)) matched)).
Proof.
  unfold run_select.
  destruct (_ && _); [|discriminate].
  destruct (bound ps (sel_limit q)) as [pl|]; [|discriminate].
  destruct (bound ps (sel_offset q)) as [po|]; [|discriminate].
  destruct (int8_of_param pl) as [l|] eqn:Hil; [|discriminate].
  destruct (int8_of_param po) as [o|] eqn:Hio; [|discriminate].
  destruct (Z.ltb_spec l 0) as [|Hl]; [discriminate|].
  destruct (Z.ltb_spec o 0) as [|Ho]; [discriminate|].
  cbn [orb].
  destruct (where_rows _ _ _ _) as [matched|]; [|discriminate].
  intros [= <-]. exists pl, po, l, o, matched.
  split; [reflexivity|]. split; [exact Hil|]. split; [exact Hl|].
  split; [reflexivity|]. split; [exact Hio|]. split; [exact Ho|].
  split; reflexivity.
Qed.

Lemma stores_query_pagination user q :
  bound (snd (stores_query user q)) (sel_limit (fst (stores_query user q)))
  = Some (param_of_jsval (list_limit q)) /\
  bound (snd (stores_query user q)) (sel_offset (fst (stores_query user q)))
  = Some (PNum (page_offset (list_page q) (list_limit q))).
Proof.
  unfold stores_query, stores_filters, paginate, when, and_like, and_equals.
  destruct (String.eqb (user_role user) "NORMAL_USER");
    destruct (String.eqb (user_role user) "STORE_OWNER");
    destruct (truthy (string_or "" (Query.search q)));
    split; reflexivity.
Qed.

Lemma users_query_pagination q :
  bound (snd (users_query q)) (sel_limit (fst (users_query q)))
  = Some (param_of_jsval (list_limit q)) /\
  bound (snd (users_query q)) (sel_offset (fst (users_query q)))
  = Some (PNum (page_offset (list_page q) (list_limit q))).
Proof.
  unfold users_query, users_filters, paginate, when, and_like, and_equals.
  destruct (truthy (string_or "" (Query.role q)));
    destruct (truthy (string_or "" (Query.search q)));
    split; reflexivity.
Qed.

(** An answered list request had a LIMIT and an OFFSET that PostgreSQL read
    as integers, neither of them negative. *)
Lemma answered_list_bounds e q d block :
  list_pagination e q d = Some block ->
  exists l o,
    int8_of_param (param_of_jsval (list_limit q)) = Some l /\ 0 <= l /\
    int8_of_number (page_offset (list_page q) (list_limit q)) = Some o /\ 0 <= o.
Proof.
  destruct e as [user|]; unfold list_pagination, page_of.
  - unfold get_stores, run_stores_query.
    pose proof (stores_query_pagination user q) as [Hl Ho].
    destruct (stores_query user q) as [rq rps]. cbn [fst snd] in Hl, Ho.
    destruct (match sel_join rq with Some _ => _ | None => _ end) as [rows|] eqn:Hrun;
      [|discriminate].
    intros _.
    assert (Hsel : exists from, run_select stores_table rps from rq = Some rows).
    { destruct (sel_join rq) as [n|]; [|eauto].
      destruct (bound rps n); [|discriminate].
      destruct (int8_of_param p); [|discriminate]. eauto. }
    destruct Hsel as [from Hsel].
    destruct (run_select_bounds _ _ _ _ _ Hsel)
      as (pl & po & l & o & _ & Hpl & Hil & Hl0 & Hpo & Hio & Ho0 & _).
    rewrite Hl in Hpl. injection Hpl as <-.
    rewrite Ho in Hpo. injection Hpo as <-.
    exists l, o. auto.
  - unfold get_users.
    pose proof (users_query_pagination q) as [Hl Ho].
    destruct (users_query q) as [rq rps]. cbn [fst snd] in Hl, Ho.
    destruct (run_select _ _ _ _) as [rows|] eqn:Hsel; [|discriminate].
    intros _.
    destruct (run_select_bounds _ _ _ _ _ Hsel)
      as (pl & po & l & o & _ & Hpl & Hil & Hl0 & Hpo & Hio & Ho0 & _).
    rewrite Hl in Hpl. injection Hpl as <-.
    rewrite Ho in Hpo. injection Hpo as <-.
    exists l, o. auto.
Qed.

(** ** C5: a filter that matches nothing *)

Lemma int8_of_number_Fin q o :
  int8_of_number (Fin q) = Some o -> (q == inject_Z o)%Q.
Proof.
  cbn. destruct (Qeq_bool (inject_Z (Qfloor q)) q) eqn:E; [|discriminate].
  destruct (in_int8 _); [|discriminate]. cbn. intros [= <-].
  apply Qeq_bool_iff in E. symmetry. exact E.
Qed.

Lemma offset_nonneg_page (p lim : number) (L o : Z) :
  is_integer lim L -> 1 <= L ->
  int8_of_number (num_mul (num_sub p (num_of_Z 1)) lim) = Some o -> 0 <= o ->
  num_lt p (Fin 0) = false.
Proof.
  intros Hlim HL Hoff Ho.
  destruct lim as [| | |ql]; cbn in Hlim; try contradiction; [lia|].
  assert (HqL : (1 <= ql)%Q).
  { rewrite Hlim. change 1%Q with (inject_Z 1). rewrite <- Zle_Qle. exact HL. }
  destruct p as [|s| |qp].
  - discriminate.
  - cbn in Hoff. destruct (Qeq_bool ql 0); discriminate.
  - exfalso. revert Hoff. unfold num_sub, num_of_Z, num_value.
    destruct (Qeq_bool (0 - inject_Z 1) 0) eqn:E0; [discriminate E0|].
    unfold num_mul, num_value.
    destruct (Qeq_bool ((0 - inject_Z 1) * ql) 0) eqn:E1.
    + apply Qeq_bool_iff in E1. intros _. 
      change (inject_Z 1) with 1%Q in E1. nra.
    + intros H. apply int8_of_number_Fin in H.
      assert (Hoq : (0 <= inject_Z o)%Q) by (change 0%Q with (inject_Z 0); rewrite <- Zle_Qle; exact Ho).
      change (inject_Z 1) with 1%Q in H. nra.
  - cbn [num_lt num_value].
    destruct (Qlt_bool qp 0) eqn:Elt; [|reflexivity].
    apply Qlt_bool_iff in Elt. exfalso.
    revert Hoff. unfold num_sub, num_of_Z, num_value.
    destruct (Qeq_bool (qp - inject_Z 1) 0) eqn:E0.
    + apply Qeq_bool_iff in E0. change (inject_Z 1) with 1%Q in E0. lra.
    + unfold num_mul, num_value.
      destruct (Qeq_bool ((qp - inject_Z 1) * ql) 0) eqn:E1.
      * apply Qeq_bool_iff in E1. intros _.
        change (inject_Z 1) with 1%Q in E1. nra.
      * intros H. apply int8_of_number_Fin in H.
        assert (Hoq : (0 <= inject_Z o)%Q) by (change 0%Q with (inject_Z 0); rewrite <- Zle_Qle; exact Ho).
        change (inject_Z 1) with 1%Q in H. nra.
Qed.

(** C5 fails as stated: the seeded stores searched for [zzz], page 2.  No
    store matches, the answer is a page with no rows, [totalPages] 0 and
    [hasNext] false, but [hasPrev] is true. *)
Lemma empty_page_two_has_previous :
  get_stores seed_admin no_match_page_two createSampleData
  = mkResponse 200
      (ListPage [] (mkPagination (JsonNum 2) (JsonNum 0) 0 false true)).
Proof. vm_compute. reflexivity. Qed.

(** C5, amended.  When a list request whose filter matches no rows is
    answered with a page and its limit is a positive integer, the block has
    [totalPages = 0] and [hasNext = false], whatever page was asked for, and
    [hasPrev] is [page > 1]: true from page 2 on. *)
Theorem empty_list_pagination
    (e : list_request) (q : Query.t) (d : database) (block : pagination) (L : Z) :
  list_pagination e q d = Some block ->
  total block = 0 ->
  is_integer (ToNumber (list_limit q)) L -> 1 <= L ->
  totalPages block = JsonNum 0 /\
  hasNext block = false /\
  hasPrev block = num_lt (num_of_Z 1) (ToNumber (list_page q)) /\
  (forall P, is_integer (ToNumber (list_page q)) P -> hasPrev block = (1 <? P)).
Proof.
  intros Hpage Hnone HL Hpos.
  destruct (list_pagination_block e q d block Hpage) as [Hblock _].
  destruct (answered_list_bounds e q d block Hpage) as (l & o & _ & _ & Hoff & Ho).
  rewrite Hnone in Hblock.
  assert (Hpages : num_ceil (num_div (num_of_Z 0) (ToNumber (list_limit q))) = Fin 0).
  { rewrite (total_pages_integers 0 L _ HL Hpos) by lia.
    rewrite Z.div_small by lia. reflexivity. }
  pose proof (f_equal totalPages Hblock) as Htp.
  pose proof (f_equal hasNext Hblock) as Hnext.
  pose proof (f_equal hasPrev Hblock) as Hprev.
  cbn [pagination_block totalPages hasNext hasPrev] in Htp, Hnext, Hprev.
  rewrite Hpages in Htp, Hnext.
  split; [exact Htp|].
  split.
  - rewrite Hnext. apply (offset_nonneg_page _ _ L o HL Hpos Hoff Ho).
  - split; [exact Hprev|].
    intros P HP. rewrite Hprev.
    apply (num_lt_integers (num_of_Z 1) _ 1 P (is_integer_of_Z 1) HP).
Qed.

Lemma empty_list_pagination_witness :
  list_pagination (StoresList seed_admin) no_match_page_two createSampleData
  = Some (mkPagination (JsonNum 2) (JsonNum 0) 0 false true) /\
  hasPrev (mkPagination (JsonNum 2) (JsonNum 0) 0 false true) = (1 <? 2).
Proof.
  assert (Hpage : list_pagination (StoresList seed_admin) no_match_page_two
                    createSampleData
                  = Some (mkPagination (JsonNum 2) (JsonNum 0) 0 false true))
    by (vm_compute; reflexivity).
  split; [exact Hpage|].
  assert (HL : is_integer (ToNumber (list_limit no_match_page_two)) 10)
    by (vm_compute; reflexivity).
  assert (Hpos : 1 <= 10) by lia.
  destruct (empty_list_pagination _ _ _ _ 10 Hpage eq_refl HL Hpos) as (_ & _ & _ & HP).
  apply HP. vm_compute. reflexivity.
Defined.

(** ** LIKE on the handlers' patterns *)

Lemma like_nil s : exists b, like [] s = Some b.
Proof. cbn. eauto. Qed.

(** The [%] loop answers once what follows it does. *)
Lemma like_percent_total (p : list ascii) :
  (forall s, exists b, like p s = Some b) ->
  forall s, exists b, like ("%"%char :: p) s = Some b.
Proof.
  intros Hp s. cbn [like]. change (Ascii.eqb "%" "%") with true. cbv iota.
  induction s as [|x s IH].
  - destruct (Hp []) as [b Hb]. rewrite Hb. destruct b; eauto.
  - destruct (Hp (x :: s)) as [b Hb]. rewrite Hb. destruct b; [eauto|exact IH].
Qed.

Lemma like_step_total (c : ascii) (p : list ascii) :
  Ascii.eqb c "\" = false ->
  (forall s, exists b, like p s = Some b) ->
  forall s, exists b, like (c :: p) s = Some b.
Proof.
  intros Hesc Hp.
  destruct (Ascii.eqb c "%") eqn:Epct.
  - apply Ascii.eqb_eq in Epct. subst c. apply like_percent_total, Hp.
  - intros s. cbn [like]. rewrite Epct, Hesc.
    destruct (Ascii.eqb c "_").
    + destruct s as [|x s]; [eauto|apply Hp].
    + destruct s as [|x s]; [eauto|].
      destruct (Ascii.eqb x c); [apply Hp|eauto].
Qed.

Lemma like_escape_total (e : ascii) (p : list ascii) :
  (forall s, exists b, like p s = Some b) ->
  forall s, exists b, like ("\"%char :: e :: p) s = Some b.
Proof.
  intros Hp s. cbn [like].
  change (Ascii.eqb "\" "%") with false. change (Ascii.eqb "\" "_") with false.
  change (Ascii.eqb "\" "\") with true. cbv iota.
  destruct s as [|x s]; [eauto|].
  destruct (Ascii.eqb x e); [apply Hp|eauto].
Qed.

(** A pattern that ends in [%] never ends in a lone escape. *)
Lemma like_total (n : nat) :
  forall p, (List.length p <= n)%nat ->
  forall s, exists b, like (p ++ ["%"%char]) s = Some b.
Proof.
  induction n as [|n IH]; intros p Hlen.
  - destruct p; [|cbn in Hlen; lia]. cbn [app].
    apply like_percent_total, like_nil.
  - destruct p as [|c p]; [cbn [app]; apply like_percent_total, like_nil|].
    cbn in Hlen. cbn [app].
    destruct (Ascii.eqb c "\") eqn:Hesc.
    + apply Ascii.eqb_eq in Hesc. subst c.
      destruct p as [|e p].
      * cbn [app]. apply like_escape_total, like_nil.
      * cbn [app]. apply like_escape_total, IH. cbn in Hlen. lia.
    + apply like_step_total; [exact Hesc|]. apply IH. lia.
Qed.

Lemma chars_append (a b : string) : chars (a ++ b) = chars a ++ chars b.
Proof.
  unfold chars. induction a as [|c a IH]; cbn; [reflexivity|].
  rewrite IH. reflexivity.
Qed.

Lemma chars_toLowerCase (s : string) : chars (toLowerCase s) = map lower_char (chars s).
Proof. unfold toLowerCase, chars. apply list_ascii_of_string_of_list_ascii. Qed.

(** [LOWER(col) LIKE LOWER('%' || search || '%')] always has an answer. *)
Lemma sql_like_total (s search : string) :
  exists b, sql_like s (sql_lower ("%" ++ search ++ "%")) = Some b.
Proof.
  unfold sql_like, sql_lower.
  rewrite chars_toLowerCase, !chars_append, !map_app.
  change (map lower_char (chars "%")) with ["%"%char].
  rewrite app_assoc.
  apply (like_total (List.length (["%"%char] ++ map lower_char (chars search)))).
  lia.
Qed.

(** ** Sort direction *)

Lemma upper_lower_char (c : ascii) : upper_char (lower_char c) = upper_char c.
Proof.
  destruct c as [[] [] [] [] [] [] [] []]; vm_compute; reflexivity.
Qed.

Lemma toUpperCase_toLowerCase (s : string) :
  toUpperCase (toLowerCase s) = toUpperCase s.
Proof.
  unfold toUpperCase. rewrite chars_toLowerCase, map_map.
  f_equal. apply map_ext, upper_lower_char.
Qed.

Lemma sort_direction_valid (dflt sortOrder : string) :
  includes ["ASC"; "DESC"] dflt = true ->
  includes ["ASC"; "DESC"] (sort_direction dflt sortOrder) = true.
Proof.
  intros Hd. unfold sort_direction.
  destruct (includes ["asc"; "desc"] (toLowerCase sortOrder)) eqn:E; [|exact Hd].
  rewrite <- toUpperCase_toLowerCase.
  unfold includes in E. cbn [existsb] in E. rewrite orb_false_r in E.
  apply orb_true_iff in E. destruct E as [E|E];
    apply String.eqb_eq in E; rewrite E; reflexivity.
Qed.

(** ** Allow-listed columns exist *)

Lemma allow_listed_in (valid : list string) (dflt x : string) :
  In (allow_listed valid dflt x) (dflt :: valid).
Proof.
  unfold allow_listed, includes.
  destruct (existsb (String.eqb x) valid) eqn:E; [|left; reflexivity].
  right. apply existsb_exists in E. destruct E as (y & Hy & Exy).
  apply String.eqb_eq in Exy. subst y. exact Hy.
Qed.

Lemma allow_listed_kind {R : Type} (T : table R) (prefix : string)
    (valid : list string) (dflt x : string) (k : kind -> bool) :
  forallb (fun f => match kind_of T (prefix ++ f) with
                    | Some c => k c
                    | None => false
                    end) (dflt :: valid) = true ->
  exists c, kind_of T (prefix ++ allow_listed valid dflt x) = Some c /\ k c = true.
Proof.
  intros H. rewrite forallb_forall in H.
  specialize (H _ (allow_listed_in valid dflt x)).
  destruct (kind_of T (prefix ++ allow_listed valid dflt x)) as [c|]; [|discriminate].
  exists c. auto.
Qed.

(** ** Queries that cannot raise *)

Section Total.
Context {R : Type} (T : table R).
Variable ps : list param.

Lemma holds_total (c : condition) (r : R) :
  like_bound ps c -> exists b, holds T ps c r = Some b.
Proof.
  destruct c as [col n|col n]; cbn.
  - intros [s ->]. destruct (value_of T r col); eauto.
    apply sql_like_total.
  - intros _. destruct (value_of T r col); eauto.
    + destruct (bound ps n) as [p|]; eauto.
      destruct (int8_of_param p); eauto.
    + destruct (bound ps n) as [[]|]; eauto.
Qed.

Lemma holds_all_total (cs : list condition) (r : R) :
  Forall (like_bound ps) cs -> exists b, holds_all T ps cs r = Some b.
Proof.
  induction 1 as [|c cs Hc _ [b IH]]; cbn; [eauto|].
  destruct (holds_total c r Hc) as [a ->]. rewrite IH. eauto.
Qed.

Lemma where_rows_total (cs : list condition) (rows : list R) :
  Forall (like_bound ps) cs -> exists kept, where_rows T ps cs rows = Some kept.
Proof.
  intros Hcs. induction rows as [|r rows [kept IH]]; cbn; [eauto|].
  destruct (holds_all_total cs r Hcs) as [b ->]. rewrite IH. eauto.
Qed.

Lemma run_select_total (from : list R) (q : select_query) (pl po : param) (l o : Z) :
  binds_ok (select_placeholders q) ps = true ->
  forallb (condition_ok T ps) (sel_where q) = true ->
  (exists k, kind_of T (sel_order_by q) = Some k) ->
  includes ["ASC"; "DESC"] (sel_direction q) = true ->
  bound ps (sel_limit q) = Some pl -> int8_of_param pl = Some l -> 0 <= l ->
  bound ps (sel_offset q) = Some po -> int8_of_param po = Some o -> 0 <= o ->
  Forall (like_bound ps) (sel_where q) ->
  exists rows, run_select T ps from q = Some rows /\
               (List.length rows <= Z.to_nat l)%nat.
Proof.
  intros Hb Hc [k Hk] Hd Hpl Hl Hl0 Hpo Ho Ho0 Hlike.
  unfold run_select. rewrite Hb, Hc, Hk, Hd, Hpl, Hpo, Hl, Ho. cbn [andb].
  destruct (Z.ltb_spec l 0); [lia|]. destruct (Z.ltb_spec o 0); [lia|]. cbn [orb].
  destruct (where_rows_total (sel_where q) from Hlike) as [kept ->].
  eexists. split; [reflexivity|]. apply firstn_le_length.
Qed.

Lemma run_count_total (from : list R) (q : count_query) :
  binds_ok (map condition_placeholder (cnt_where q)) ps = true ->
  forallb (condition_ok T ps) (cnt_where q) = true ->
  Forall (like_bound ps) (cnt_where q) ->
  exists n, run_count T ps from q = Some n.
Proof.
  intros Hb Hc Hlike. unfold run_count. rewrite Hb, Hc. cbn [andb].
  destruct (where_rows_total (cnt_where q) from Hlike) as [kept ->]. eauto.
Qed.

End Total.

(** ** C2: page and limit *)

Lemma stores_searchField_text q :
  kind_of stores_table ("s." ++ stores_searchField q) = Some KText.
Proof.
  destruct (allow_listed_kind stores_table "s." stores_validSearchFields "name"
              (string_or "name" (Query.searchBy q)) is_text eq_refl) as ([] & Hk & Ht);
    [discriminate|exact Hk].
Qed.

Lemma stores_sortField_known q :
  exists k, kind_of stores_table ("s." ++ stores_sortField q) = Some k.
Proof.
  destruct (allow_listed_kind stores_table "s." stores_validSortFields "name"
              (string_or "name" (Query.sortBy q)) (fun _ => true) eq_refl) as (k & Hk & _).
  eauto.
Qed.

Lemma pattern_no_zero_byte (s : string) :
  no_zero_byte ("%" ++ s ++ "%") = no_zero_byte s.
Proof.
  unfold no_zero_byte. change list_ascii_of_string with chars.
  rewrite !chars_append, !forallb_app. cbn. apply andb_true_r.
Qed.

Lemma stores_query_runs user q d :
  Query.page q = None -> Query.limit q = None ->
  no_zero_byte (string_or "" (Query.search q)) = true ->
  exists rows, run_stores_query d (stores_query user q) = Some rows /\
               (List.length rows <= 10)%nat.
Proof.
  intros Hp Hl Hs.
  pose proof (stores_searchField_text q) as Hfield.
  pose proof (stores_sortField_known q) as Hsort.
  pose proof (sort_direction_valid "ASC" (string_or "asc" (Query.sortOrder q)) eq_refl) as Hdir.
  unfold run_stores_query, stores_query, stores_filters, paginate, when, and_like, and_equals.
  rewrite Hp, Hl.
  destruct (String.eqb (user_role user) "NORMAL_USER");
    destruct (String.eqb (user_role user) "STORE_OWNER");
    destruct (truthy (string_or "" (Query.search q)));
    cbn [sel_join bound nth_error Nat.sub int8_of_param];
    (eapply (run_select_total stores_table _ _ _ (PInt 10) (PNum (Fin 0)) 10 0);
     [ reflexivity
     | cbn [sel_where forallb condition_ok app b_where]; rewrite ?Hfield;
       cbn [bound nth_error Nat.sub b_params app paramCount List.length];
       rewrite ?pattern_no_zero_byte, ?Hs, ?Hr;
       reflexivity
     | exact Hsort
     | exact Hdir
     | reflexivity | reflexivity | lia
     | reflexivity | reflexivity | lia
     | cbn [sel_where app b_where]; repeat constructor; eexists; reflexivity ]).
Qed.

Lemma stores_countQuery_runs user q d :
  no_zero_byte (string_or "" (Query.search q)) = true ->
  exists n, run_stores_count d (stores_countQuery user q) = Some n.
Proof.
  intros Hs.
  pose proof (stores_searchField_text q) as Hfield.
  unfold run_stores_count, stores_countQuery, stores_filters, when, and_like, and_equals.
  destruct (String.eqb (user_role user) "STORE_OWNER");
    destruct (truthy (string_or "" (Query.search q)));
    (apply run_count_total;
     [ reflexivity
     | cbn [cnt_where forallb condition_ok app b_where]; rewrite ?Hfield;
       cbn [bound nth_error Nat.sub b_params app paramCount List.length];
       rewrite ?pattern_no_zero_byte, ?Hs, ?Hr;
       reflexivity
     | cbn [cnt_where app b_where]; repeat constructor; eexists; reflexivity ]).
Qed.

Lemma users_searchField_text prefix q :
  prefix = "u." \/ prefix = "" ->
  kind_of (users_table prefix) (prefix ++ users_searchField q) = Some KText.
Proof.
  intros [-> | ->].
  - destruct (allow_listed_kind (users_table "u.") "u." users_validSearchFields "name"
                (string_or "name" (Query.searchBy q)) is_text eq_refl) as ([] & Hk & Ht);
      [discriminate|exact Hk].
  - destruct (allow_listed_kind (users_table "") "" users_validSearchFields "name"
                (string_or "name" (Query.searchBy q)) is_text eq_refl) as ([] & Hk & Ht);
      [discriminate|exact Hk].
Qed.

Lemma users_sortField_known q :
  exists k, kind_of (users_table "u.") ("u." ++ users_sortField q) = Some k.
Proof.
  destruct (allow_listed_kind (users_table "u.") "u." users_validSortFields "name"
              (string_or "name" (Query.sortBy q)) (fun _ => true) eq_refl) as (k & Hk & _).
  eauto.
Qed.

Lemma users_query_runs q d :
  Query.page q = None -> Query.limit q = None ->
  no_zero_byte (string_or "" (Query.search q)) = true ->
  no_zero_byte (string_or "" (Query.role q)) = true ->
  exists rows,
    (let (query, params) := users_query q in
     run_select (users_table "u.") params (users_from d) query) = Some rows /\
    (List.length rows <= 10)%nat.
Proof.
  intros Hp Hl Hs Hr.
  pose proof (users_searchField_text "u." q (or_introl eq_refl)) as Hfield.
  pose proof (users_sortField_known q) as Hsort.
  pose proof (sort_direction_valid "ASC" (string_or "asc" (Query.sortOrder q)) eq_refl) as Hdir.
  unfold users_query, users_filters, paginate, when, and_like, and_equals.
  rewrite Hp, Hl.
  destruct (truthy (string_or "" (Query.role q)));
    destruct (truthy (string_or "" (Query.search q)));
    (eapply (run_select_total (users_table "u.") _ _ _ (PInt 10) (PNum (Fin 0)) 10 0);
     [ reflexivity
     | cbn [sel_where forallb condition_ok app b_where]; rewrite ?Hfield;
       cbn [bound nth_error Nat.sub b_params app paramCount List.length];
       rewrite ?pattern_no_zero_byte, ?Hs, ?Hr;
       reflexivity
     | exact Hsort
     | exact Hdir
     | reflexivity | reflexivity | lia
     | reflexivity | reflexivity | lia
     | cbn [sel_where app b_where]; repeat constructor; eexists; reflexivity ]).
Qed.

Lemma users_countQuery_runs q d :
  no_zero_byte (string_or "" (Query.search q)) = true ->
  no_zero_byte (string_or "" (Query.role q)) = true ->
  exists n,
    (let (query, params) := users_countQuery q in
     run_count (users_table "") params (users_only d) query) = Some n.
Proof.
  intros Hs Hr.
  pose proof (users_searchField_text "" q (or_intror eq_refl)) as Hfield.
  unfold users_countQuery, users_filters, when, and_like, and_equals.
  destruct (truthy (string_or "" (Query.role q)));
    destruct (truthy (string_or "" (Query.search q)));
    (apply run_count_total;
     [ reflexivity
     | cbn [cnt_where forallb condition_ok app b_where]; rewrite ?Hfield;
       cbn [bound nth_error Nat.sub b_params app paramCount List.length];
       rewrite ?pattern_no_zero_byte, ?Hs, ?Hr;
       reflexivity
     | cbn [cnt_where app b_where]; repeat constructor; eexists; reflexivity ]).
Qed.




(** A text with a zero byte in it cannot be bound: a request that sends one
    as its search text, or as the role on the users list, is answered 500
    whatever its other parameters are. *)
Lemma zero_byte_is_refused (e : list_request) (q : Query.t) (d : database) :
  forallb no_zero_byte (bound_texts e q) = false -> list_pagination e q d = None.
Proof.
  assert (Htruthy : forall s, no_zero_byte s = false -> truthy s = true).
  { intros [|c s]; [discriminate|reflexivity]. }
  assert (Hsel : forall (R : Type) (T : table R) ps from sq,
             forallb (condition_ok T ps) (sel_where sq) = false ->
             run_select T ps from sq = None).
  { intros R T ps from sq H. unfold run_select. rewrite H, andb_false_r. reflexivity. }
  destruct e as [user|]; cbn [bound_texts forallb list_pagination]; rewrite andb_true_r.
  - intros Hs. pose proof (Htruthy _ Hs) as Ht.
    pose proof (stores_searchField_text q) as Hfield.
    unfold get_stores.
    replace (run_stores_query d (stores_query user q)) with (@None (list store_row));
      [reflexivity|].
    symmetry. unfold run_stores_query, stores_query, stores_filters, paginate, when, and_like.
    rewrite Ht.
    destruct (String.eqb (user_role user) "NORMAL_USER");
      destruct (String.eqb (user_role user) "STORE_OWNER");
      cbn [sel_join bound nth_error Nat.sub int8_of_param and_equals b_where b_params
           paramCount app List.length];
      apply Hsel; cbn [sel_where forallb condition_ok]; rewrite Hfield;
      cbn [bound nth_error Nat.sub]; rewrite pattern_no_zero_byte, Hs; reflexivity.
  - intros H. unfold get_users.
    replace (let (query, params) := users_query q in
             run_select (users_table "u.") params (users_from d) query)
      with (@None (list user_row)); [reflexivity|].
    symmetry.
    pose proof (users_searchField_text "u." q (or_introl eq_refl)) as Hfield.
    unfold users_query, users_filters, paginate, when, and_like, and_equals.
    apply andb_false_iff in H. destruct H as [Hs|Hr].
    + rewrite (Htruthy _ Hs).
      destruct (truthy (string_or "" (Query.role q)));
        cbn [b_where b_params paramCount app List.length];
        apply Hsel; cbn [sel_where forallb condition_ok]; rewrite Hfield;
        cbn [bound nth_error Nat.sub]; rewrite pattern_no_zero_byte, Hs; reflexivity.
    + rewrite (Htruthy _ Hr).
      destruct (truthy (string_or "" (Query.search q)));
        cbn [b_where b_params paramCount app List.length];
        apply Hsel; cbn [sel_where forallb condition_ok]; rewrite ?Hfield;
        cbn [bound nth_error Nat.sub];
        rewrite ?pattern_no_zero_byte.
      * destruct (no_zero_byte (string_or "" (Query.search q))); cbn [andb].
        -- cbn. rewrite Hr. reflexivity.
        -- reflexivity.
      * cbn. rewrite Hr. reflexivity.
Qed.

Example search_with_zero_byte_is_refused :
  get_stores seed_admin search_zero_byte createSampleData
  = mkResponse 500 (ListMessage "Server error fetching stores").
Proof. vm_compute. reflexivity. Qed.

(** A page or limit that is present is bound as it came.  A limit of 0 gives
    an empty page whose [totalPages] is not a number; a negative or
    non-numeric limit makes the row query raise. *)
Example limit_zero_is_used :
  get_stores seed_admin (Query.mk None (Some "0") None None None None None)
             createSampleData
  = mkResponse 200 (ListPage [] (mkPagination (JsonNum 1) JsonNull 3 true false)).
Proof. vm_compute. reflexivity. Qed.

Example negative_limit_is_refused :
  get_stores seed_admin (Query.mk None (Some "-1") None None None None None)
             createSampleData
  = mkResponse 500 (ListMessage "Server error fetching stores").
Proof. vm_compute. reflexivity. Qed.

Example non_numeric_limit_is_refused :
  get_stores seed_admin (Query.mk None (Some "abc") None None None None None)
             createSampleData
  = mkResponse 500 (ListMessage "Server error fetching stores").
Proof. vm_compute. reflexivity. Qed.

Example non_numeric_page_is_refused :
  get_users (Query.mk (Some "abc") None None None None None None) createSampleData
  = mkResponse 500 (ListMessage "Server error fetching users").
Proof. vm_compute. reflexivity. Qed.

(** ** Joins do not multiply rows *)

Lemma left_join_at_most_one {A B : Type} (on : A -> B -> bool) (a : list A) (b : list B) :
  (forall x, In x a -> (List.length (filter (on x) b) <= 1)%nat) ->
  map fst (left_join on a b) = a.
Proof.
  unfold left_join. induction a as [|x a IH]; intros Hone; [reflexivity|].
  cbn [flat_map]. rewrite map_app, IH by (intros y Hy; apply Hone; right; exact Hy).
  pose proof (Hone x (or_introl eq_refl)) as Hx.
  destruct (filter (on x) b) as [|y [|z rest]]; cbn in *; [reflexivity|reflexivity|lia].
Qed.

Lemma filter_nothing {B : Type} (p : B -> bool) (b : list B) :
  (forall y, p y = false) -> filter p b = [].
Proof.
  intros Hp. induction b as [|y b IH]; cbn; [reflexivity|].
  rewrite Hp. exact IH.
Qed.

Lemma left_join_no_match {A B : Type} (on : A -> B -> bool) (a : list A) (b : list B) :
  (forall x y, In x a -> on x y = false) ->
  left_join on a b = map (fun x => (x, None)) a.
Proof.
  unfold left_join. induction a as [|x a IH]; intros Hnone; [reflexivity|].
  cbn [flat_map]. rewrite IH by (intros x' y Hx'; apply Hnone; right; exact Hx').
  rewrite (filter_nothing (on x) b); [reflexivity|].
  intros y. apply Hnone. left. reflexivity.
Qed.

Lemma one_match_per_key {A K : Type} (key : A -> K) (hit : A -> bool) (k : K) (l : list A) :
  NoDup (map key l) ->
  (forall x, hit x = true -> key x = k) ->
  (List.length (filter hit l) <= 1)%nat.
Proof.
  intros Hnd Hkey. induction l as [|x l IH]; cbn; [lia|].
  apply NoDup_cons_iff in Hnd. destruct Hnd as [Hfresh Hrest].
  destruct (hit x) eqn:Ex; [|apply IH, Hrest].
  assert (Hnone : filter hit l = []).
  { destruct (filter hit l) as [|y rest] eqn:Ef; [reflexivity|].
    exfalso. apply Hfresh.
    assert (Hy : In y (filter hit l)) by (rewrite Ef; left; reflexivity).
    apply filter_In in Hy. destruct Hy as [Hy Hhit].
    rewrite (Hkey x Ex), <- (Hkey y Hhit). apply in_map, Hy. }
  rewrite Hnone. cbn. lia.
Qed.

(** With the keys of the schema in force the FROM clause of the stores list
    has one row for each store. *)
Lemma stores_from_one_row_each d rater :
  users_keyed d -> unique_ratings d ->
  map row_s (stores_from d rater) = stores d.
Proof.
  intros Hu Hr. unfold stores_from.
  assert (Hsu : map fst (left_join (fun s u => owner_is (User.id u) s) (stores d) (users d))
                = stores d).
  { apply left_join_at_most_one. intros s _.
    destruct (Store.owner_id s) as [o|] eqn:Eo.
    - apply (one_match_per_key User.id _ o); [exact Hu|].
      intros u Hhit. unfold owner_is in Hhit. rewrite Eo in Hhit.
      apply Z.eqb_eq in Hhit. congruence.
    - rewrite filter_nothing; [cbn; lia|].
      intros u. unfold owner_is. rewrite Eo. reflexivity. }
  destruct rater as [uid|].
  - rewrite map_map. cbn [row_s].
    rewrite <- Hsu at 2. rewrite <- map_map. f_equal.
    apply left_join_at_most_one. intros x _.
    apply (one_match_per_key rating_key _ (uid, Store.id (fst x))); [exact Hr|].
    intros r Hhit. apply andb_true_iff in Hhit. destruct Hhit as [Hs Hu'].
    apply Z.eqb_eq in Hs, Hu'. unfold rating_key. congruence.
  - rewrite map_map. cbn [row_s]. exact Hsu.
Qed.

Lemma users_from_no_join d :
  roles_checked d -> users_from d = users_only d.
Proof.
  intros Hroles. unfold users_from, users_only.
  rewrite left_join_no_match.
  - rewrite map_map. reflexivity.
  - intros u s Hu. unfold roles_checked in Hroles. rewrite Forall_forall in Hroles.
    destruct (role_check_upper _ (Hroles u Hu)) as (_ & -> & _).
    apply andb_false_r.
Qed.

Lemma where_rows_same_store ps cs (from from' : list store_row) :
  map row_s from = map row_s from' ->
  option_map (@List.length _) (where_rows stores_table ps cs from)
  = option_map (@List.length _) (where_rows stores_table ps cs from').
Proof.
  assert (Hholds : forall r r', row_s r = row_s r' ->
                     holds_all stores_table ps cs r = holds_all stores_table ps cs r').
  { intros r r' Hs. induction cs as [|c cs IH]; cbn; [reflexivity|].
    rewrite IH. f_equal.
    destruct c; cbn; rewrite Hs; reflexivity. }
  revert from'. induction from as [|r from IH]; intros [|r' from']; cbn;
    try discriminate; [reflexivity|].
  intros [= Hr Hrest].
  rewrite (Hholds r r' Hr).
  specialize (IH from' Hrest).
  destruct (holds_all stores_table ps cs r') as [[]|];
    destruct (where_rows stores_table ps cs from);
    destruct (where_rows stores_table ps cs from'); cbn in *; congruence.
Qed.

(** With the schema's keys and role CHECK in force, [total] is also the
    number of rows the row query itself would return without LIMIT and
    OFFSET, joins included. *)
Lemma list_total_counts_unpaginated_rows e q d block :
  users_keyed d -> unique_ratings d -> roles_checked d ->
  list_pagination e q d = Some block ->
  unpaginated_rows e q d = Some (total block).
Proof.
  intros Hu Hr Hroles Hpage.
  pose proof (list_total_counts_row_query e q d block Hpage) as Hcount.
  destruct e as [user|]; unfold unpaginated_rows, row_query_matches in *.
  - destruct (stores_query user q) as [rq rps].
    set (rater := match sel_join rq with Some _ => Some (user_id user) | None => None end).
    pose proof (where_rows_same_store rps (sel_where rq) (stores_from d rater)
                  (stores_only d)) as Hsame.
    rewrite stores_from_one_row_each in Hsame by assumption.
    unfold stores_only in Hsame at 1. rewrite map_map in Hsame. cbn [row_s] in Hsame.
    rewrite map_id in Hsame. specialize (Hsame eq_refl).
    unfold sql_count in *.
    destruct (where_rows stores_table rps (sel_where rq) (stores_from d rater));
      destruct (where_rows stores_table rps (sel_where rq) (stores_only d));
      cbn in *; congruence.
  - rewrite users_from_no_join by exact Hroles. exact Hcount.
Qed.

(** * Further properties of the handlers *)

(** ** A path parameter read by [parseInt] and by PostgreSQL *)

Lemma trim_start_spaces (l : list ascii) :
  exists sp, l = sp ++ trim_start l /\ Forall (fun c => is_space c = true) sp.
Proof.
  induction l as [|c l (sp & Hl & Hsp)].
  - exists []. split; [reflexivity|constructor].
  - cbn. destruct (is_space c) eqn:Ec.
    + exists (c :: sp). split; [cbn; congruence|constructor; assumption].
    + exists []. split; [reflexivity|constructor].
Qed.

Lemma trim_spaces_follow (l : list ascii) :
  exists sp, trim_start l = trim l ++ sp /\ Forall (fun c => is_space c = true) sp.
Proof.
  unfold trim.
  destruct (trim_start_spaces (rev (trim_start l))) as (sp & Hl & Hsp).
  exists (rev sp). split; [|apply Forall_rev; exact Hsp].
  rewrite <- rev_app_distr, <- Hl, rev_involutive. reflexivity.
Qed.

Lemma space_is_no_digit (c : ascii) : is_space c = true -> digit_value 10 c = None.
Proof.
  destruct c as [[] [] [] [] [] [] [] []]; vm_compute; congruence.
Qed.

Lemma digit_is_no_x (c : ascii) (v : Z) :
  digit_value 10 c = Some v -> Ascii.eqb c "x" || Ascii.eqb c "X" = false.
Proof.
  destruct c as [[] [] [] [] [] [] [] []]; vm_compute; congruence.
Qed.

Lemma space_is_no_x (c : ascii) :
  is_space c = true -> Ascii.eqb c "x" || Ascii.eqb c "X" = false.
Proof.
  destruct c as [[] [] [] [] [] [] [] []]; vm_compute; congruence.
Qed.

Lemma read_digits_then_spaces (l sp : list ascii) (acc : Z) (n : nat) (v : Z) (m : nat) :
  read_digits 10 l acc n = (v, m, []) ->
  Forall (fun c => is_space c = true) sp ->
  read_digits 10 (l ++ sp) acc n = (v, m, sp).
Proof.
  intros Hl Hsp. revert acc n Hl. induction l as [|c l IH]; intros acc n Hl.
  - cbn in Hl. injection Hl as <- <-. cbn.
    destruct Hsp as [|c sp Hc _]; [reflexivity|].
    cbn. rewrite (space_is_no_digit _ Hc). reflexivity.
  - cbn in *. destruct (digit_value 10 c); [apply IH; exact Hl|discriminate].
Qed.

Lemma all_digits_read (l : list ascii) (v : Z) :
  all_digits 10 l = Some v -> exists n, read_digits 10 l 0 0 = (v, S n, []).
Proof.
  unfold all_digits.
  destruct (read_digits 10 l 0 0) as [[v' [|n]] [|c rest]]; try discriminate.
  intros [= <-]. exists n. reflexivity.
Qed.

Lemma read_sign_then (t sp rest : list ascii) (neg : bool) :
  t <> [] -> read_sign t = (neg, rest) -> read_sign (t ++ sp) = (neg, rest ++ sp).
Proof.
  destruct t as [|c t]; [congruence|]. intros _.
  destruct c as [[] [] [] [] [] [] [] []]; cbn; intros [= <- <-]; reflexivity.
Qed.

(** Decimal digits followed by blanks are not taken for a hexadecimal
    literal. *)
Lemma decimal_radix (l sp : list ascii) (v : Z) (n : nat) :
  read_digits 10 l 0 0 = (v, S n, []) ->
  Forall (fun c => is_space c = true) sp ->
  match l ++ sp with
  | "0"%char :: p :: rest' =>
      if Ascii.eqb p "x" || Ascii.eqb p "X" then (16, rest') else (10, l ++ sp)
  | _ => (10, l ++ sp)
  end = (10, l ++ sp).
Proof.
  intros Hl Hsp.
  assert (Hp : forall c p tl, l ++ sp = c :: p :: tl ->
                 Ascii.eqb p "x" || Ascii.eqb p "X" = false).
  { intros c p tl E. destruct l as [|c1 [|c2 l]].
    - cbn in Hl. discriminate.
    - cbn in E. injection E as _ E. subst sp.
      inversion Hsp; subst. apply space_is_no_x. assumption.
    - cbn in E. injection E as _ -> _.
      cbn in Hl. destruct (digit_value 10 c1); [|discriminate].
      destruct (digit_value 10 p) eqn:Ep; [|discriminate].
      exact (digit_is_no_x _ _ Ep). }
  destruct (l ++ sp) as [|c [|p tl]]; try reflexivity.
  - destruct c as [[] [] [] [] [] [] [] []]; reflexivity.
  - specialize (Hp c p tl eq_refl).
    destruct c as [[] [] [] [] [] [] [] []]; try reflexivity.
    rewrite Hp. reflexivity.
Qed.

(** A decimal form that denotes the integer [z] is read by [parseInt] as
    the same number. *)
Lemma parseInt_reads_int8 (s : string) (z : Z) :
  int8_of_string s = Some z -> num_eq (num_of_Z z) (parseInt_string s) = true.
Proof.
  unfold int8_of_string, parseInt_string.
  destruct (trim_spaces_follow (chars s)) as (sp & Htrim & Hsp).
  rewrite Htrim.
  destruct (read_sign (trim (chars s))) as [neg rest] eqn:Hsign.
  destruct (all_digits 10 rest) as [v|] eqn:Hdigits; [|discriminate].
  destruct (all_digits_read _ _ Hdigits) as (n & Hread).
  assert (Hne : trim (chars s) <> []).
  { intros E. rewrite E in Hsign. cbn in Hsign. injection Hsign as _ <-.
    cbn in Hread. discriminate. }
  rewrite (read_sign_then _ sp _ _ Hne Hsign).
  rewrite (decimal_radix _ _ _ _ Hread Hsp).
  rewrite (read_digits_then_spaces _ _ _ _ _ _ Hread Hsp).
  destruct (in_int8 _); [|discriminate]. intros [= <-].
  destruct (v =? 0) eqn:Ev; destruct neg; cbn [andb].
  - apply Z.eqb_eq in Ev. subst v. reflexivity.
  - unfold num_eq, num_of_Z, num_value. apply Qeq_bool_refl.
  - unfold num_eq, num_of_Z, num_value. apply Qeq_bool_refl.
  - unfold num_eq, num_of_Z, num_value. apply Qeq_bool_refl.
Qed.

Lemma int4_is_int8 (s : string) (z : Z) :
  int4_of_string s = Some z -> int8_of_string s = Some z.
Proof.
  unfold int4_of_string. destruct (int8_of_string s) as [z'|]; [|discriminate].
  destruct (in_int4 z'); [|discriminate]. intros [= <-]. reflexivity.
Qed.


(** ** The decimal forms among the forms PostgreSQL reads *)

Lemma digit_is_no_prefix (c : ascii) (v : Z) :
  digit_value 10 c = Some v ->
  Ascii.eqb c "x" || Ascii.eqb c "X" = false /\
  Ascii.eqb c "o" || Ascii.eqb c "O" = false /\
  Ascii.eqb c "b" || Ascii.eqb c "B" = false.
Proof.
  destruct c as [[] [] [] [] [] [] [] []]; vm_compute; intuition congruence.
Qed.

Lemma space_is_no_prefix (c : ascii) :
  is_space c = true ->
  Ascii.eqb c "x" || Ascii.eqb c "X" = false /\
  Ascii.eqb c "o" || Ascii.eqb c "O" = false /\
  Ascii.eqb c "b" || Ascii.eqb c "B" = false.
Proof.
  destruct c as [[] [] [] [] [] [] [] []]; vm_compute; intuition congruence.
Qed.

Lemma space_is_no_underscore (c : ascii) : is_space c = true -> Ascii.eqb c "_" = false.
Proof.
  destruct c as [[] [] [] [] [] [] [] []]; vm_compute; congruence.
Qed.

(** Decimal digits followed by blanks announce no other radix. *)
Lemma decimal_prefix (l sp : list ascii) (v : Z) (n : nat) :
  read_digits 10 l 0 0 = (v, S n, []) ->
  Forall (fun c => is_space c = true) sp ->
  read_prefix (l ++ sp) = (10, false, l ++ sp).
Proof.
  intros Hl Hsp.
  assert (Hp : forall c p tl, l ++ sp = c :: p :: tl ->
                 Ascii.eqb p "x" || Ascii.eqb p "X" = false /\
                 Ascii.eqb p "o" || Ascii.eqb p "O" = false /\
                 Ascii.eqb p "b" || Ascii.eqb p "B" = false).
  { intros c p tl E. destruct l as [|c1 [|c2 l]].
    - cbn in Hl. discriminate.
    - cbn in E. injection E as _ E. subst sp.
      inversion Hsp; subst. apply space_is_no_prefix. assumption.
    - cbn in E. injection E as _ -> _.
      cbn in Hl. destruct (digit_value 10 c1); [|discriminate].
      destruct (digit_value 10 p) eqn:Ep; [|discriminate].
      exact (digit_is_no_prefix _ _ Ep). }
  unfold read_prefix.
  destruct (l ++ sp) as [|c [|p tl]]; try reflexivity.
  - destruct c as [[] [] [] [] [] [] [] []]; reflexivity.
  - destruct (Hp c p tl eq_refl) as (Hx & Ho & Hb).
    destruct c as [[] [] [] [] [] [] [] []]; try reflexivity.
    rewrite Hx, Ho, Hb. reflexivity.
Qed.

(** A run of digits is read in groups as it is read plainly. *)
Lemma read_grouped_digits (l sp : list ascii) (acc : Z) (n : nat) (v : Z) (m : nat)
    (first : bool) :
  read_digits 10 l acc n = (v, m, []) ->
  (first = true -> l <> []) ->
  Forall (fun c => is_space c = true) sp ->
  read_grouped 10 false first (l ++ sp) acc = Some (v, sp).
Proof.
  intros Hl Hne Hsp. revert acc n first Hl Hne.
  induction l as [|c l IH]; intros acc n first Hl Hne.
  - destruct first; [exfalso; apply Hne; reflexivity|].
    cbn in Hl. injection Hl as <- <-. cbn [app].
    destruct Hsp as [|c sp Hc _]; [reflexivity|].
    cbn [read_grouped]. rewrite (space_is_no_digit _ Hc), (space_is_no_underscore _ Hc).
    reflexivity.
  - cbn [app read_grouped]. cbn [read_digits] in Hl.
    destruct (digit_value 10 c); [|discriminate].
    apply (IH _ (S n)); [exact Hl|discriminate].
Qed.

Lemma trim_start_only_spaces (sp : list ascii) :
  Forall (fun c => is_space c = true) sp -> trim_start sp = [].
Proof.
  induction 1 as [|c sp Hc _ IH]; [reflexivity|]. cbn. rewrite Hc. exact IH.
Qed.

(** PostgreSQL reads a decimal form as the integer it denotes. *)
Lemma decimal_bigint_in (s : string) (z : Z) :
  int8_of_string s = Some z -> bigint_in s = Some z.
Proof.
  unfold int8_of_string, bigint_in.
  destruct (trim_spaces_follow (chars s)) as (sp & Htrim & Hsp).
  rewrite Htrim.
  destruct (read_sign (trim (chars s))) as [neg rest] eqn:Hsign.
  destruct (all_digits 10 rest) as [v|] eqn:Hdigits; [|discriminate].
  destruct (all_digits_read _ _ Hdigits) as (n & Hread).
  assert (Hne : trim (chars s) <> []).
  { intros E. rewrite E in Hsign. cbn in Hsign. injection Hsign as _ <-.
    cbn in Hread. discriminate. }
  rewrite (read_sign_then _ sp _ _ Hne Hsign).
  rewrite (decimal_prefix _ _ _ _ Hread Hsp).
  rewrite (read_grouped_digits _ _ _ _ _ _ true Hread); [|intros _ E; subst rest; discriminate|exact Hsp].
  rewrite (trim_start_only_spaces _ Hsp). auto.
Qed.

Lemma decimal_integer_in (s : string) (z : Z) :
  int4_of_string s = Some z -> integer_in s = Some z.
Proof.
  unfold int4_of_string, integer_in.
  destruct (int8_of_string s) as [z'|] eqn:E; [|discriminate].
  rewrite (decimal_bigint_in _ _ E). auto.
Qed.

(** A number that is the integer [a] is no other integer. *)
Lemma num_eq_other (a b : Z) (x : number) :
  num_eq (num_of_Z a) x = true -> b <> a -> num_eq (num_of_Z b) x = false.
Proof.
  unfold num_eq, num_of_Z. intros Ha Hne.
  destruct x as [| |  |q]; try discriminate; cbn [num_value] in *.
  - apply Qeq_bool_iff in Ha. apply not_true_is_false. intros Hb.
    apply Qeq_bool_iff in Hb. apply Hne.
    apply inject_Z_injective. rewrite Hb, Ha. reflexivity.
  - apply Qeq_bool_iff in Ha. apply not_true_is_false. intros Hb.
    apply Qeq_bool_iff in Hb. apply Hne.
    apply inject_Z_injective. rewrite Hb, Ha. reflexivity.
Qed.

(** ** What the trigger leaves alone *)

Lemma same_store_columns_refl s : same_store_columns s s.
Proof. unfold same_store_columns. auto 8. Qed.

Lemma recompute_columns rs sid s s' :
  recompute rs sid s = Some s' -> same_store_columns s s'.
Proof.
  unfold recompute.
  destruct (assign_decimal_2_1 _); [|discriminate].
  intros [= <-]. unfold same_store_columns. cbn. auto 8.
Qed.

Lemma update_stores_columns rs sid ss ss' :
  update_stores rs sid ss = Some ss' -> Forall2 same_store_columns ss ss'.
Proof.
  revert ss'. induction ss as [|s rest IH]; intros ss'; cbn.
  - intros [= <-]. constructor.
  - destruct (Store.id s =? sid).
    + destruct (recompute rs sid s) as [s1|] eqn:E1; [|discriminate].
      destruct (update_stores rs sid rest) as [rest'|]; [|discriminate].
      intros [= <-]. constructor; [|apply IH; reflexivity].
      exact (recompute_columns _ _ _ _ E1).
    + destruct (update_stores rs sid rest) as [rest'|]; [|discriminate].
      intros [= <-]. constructor; [|apply IH; reflexivity].
      apply same_store_columns_refl.
Qed.

Lemma store_columns_chain (a b c : list Store.t) :
  Forall2 same_store_columns a b -> Forall2 same_store_columns b c ->
  Forall2 same_store_columns a c.
Proof.
  intros Hab. revert c. induction Hab as [|x y a b Hxy _ IH]; intros c Hbc.
  - inversion Hbc. constructor.
  - inversion Hbc as [|y' z b' c' Hyz Hrest]; subst. constructor; [|apply IH; exact Hrest].
    unfold same_store_columns in *.
    destruct Hxy as (? & ? & ? & ? & ? & ? & ?), Hyz as (? & ? & ? & ? & ? & ? & ?).
    repeat split; congruence.
Qed.

Lemma store_columns_same_rows (ss : list Store.t) : Forall2 same_store_columns ss ss.
Proof. induction ss; constructor; auto using same_store_columns_refl. Qed.

(** The trigger writes the two aggregate columns only: after any run of row
    events every store row is where it was, with its other columns as they
    were, and the other tables and the sequences are untouched. *)
Lemma rating_update_trigger_columns evs d d' :
  rating_update_trigger evs d = Some d' ->
  Forall2 same_store_columns (stores d) (stores d') /\
  users d' = users d /\ ratings d' = ratings d /\
  stores_id_seq d' = stores_id_seq d /\ ratings_id_seq d' = ratings_id_seq d.
Proof.
  revert d. induction evs as [|e evs IH]; intros d; cbn.
  - intros [= <-]. split; [apply store_columns_same_rows|auto].
  - destruct (update_store_rating e d) as [d1|] eqn:E1; [|discriminate].
    intros Hrun. destruct (IH _ Hrun) as (Hcols & Hu & Hr & Hs1 & Hs2).
    pose proof (update_store_rating_frame _ _ _ E1) as (Hu1 & Hr1 & Hs11 & Hs21).
    split; [|repeat split; congruence].
    apply store_columns_chain with (b := stores d1); [|exact Hcols].
    revert E1. unfold update_store_rating.
    destruct (event_store e) as [sid|].
    + destruct (update_stores (ratings d) sid (stores d)) as [ss|] eqn:Eu; [|discriminate].
      intros [= <-]. cbn. exact (update_stores_columns _ _ _ _ Eu).
    + intros [= <-]. apply store_columns_same_rows.
Qed.

Lemma store_columns_ids (ss ss' : list Store.t) :
  Forall2 same_store_columns ss ss' -> map Store.id ss' = map Store.id ss.
Proof.
  induction 1 as [|s s' ss ss' H _ IH]; [reflexivity|].
  cbn. rewrite IH. destruct H as (-> & _). reflexivity.
Qed.

Lemma store_columns_emails (ss ss' : list Store.t) :
  Forall2 same_store_columns ss ss' -> map Store.email ss' = map Store.email ss.
Proof.
  induction 1 as [|s s' ss ss' H _ IH]; [reflexivity|].
  cbn. rewrite IH. destruct H as (_ & _ & -> & _). reflexivity.
Qed.

Lemma store_exists_ids (d d' : database) :
  map Store.id (stores d') = map Store.id (stores d) ->
  forall sid, store_exists d' sid = store_exists d sid.
Proof.
  intros H sid. unfold store_exists.
  assert (E : forall l, existsb (fun s => Store.id s =? sid) l
                        = existsb (fun i => i =? sid) (map Store.id l)).
  { induction l as [|s l IH]; [reflexivity|]. cbn. rewrite IH. reflexivity. }
  rewrite !E, H. reflexivity.
Qed.

(** Row events for stores that are not in the table rewrite nothing. *)
Lemma update_stores_absent rs sid ss :
  existsb (fun s => Store.id s =? sid) ss = false -> update_stores rs sid ss = Some ss.
Proof.
  induction ss as [|s rest IH]; [reflexivity|].
  cbn. destruct (Store.id s =? sid); [discriminate|].
  cbn. intros H. rewrite (IH H). reflexivity.
Qed.

Lemma rating_update_trigger_absent evs d :
  Forall (fun e => match event_store e with
                   | Some sid => store_exists d sid = false
                   | None => True
                   end) evs ->
  rating_update_trigger evs d = Some d.
Proof.
  induction 1 as [|e evs He _ IH]; [reflexivity|].
  cbn. unfold update_store_rating.
  destruct (event_store e) as [sid|].
  - unfold store_exists in He. rewrite (update_stores_absent _ _ _ He).
    replace (with_stores d (stores d)) with d by (destruct d; reflexivity).
    exact IH.
  - exact IH.
Qed.

(** ** DELETE /api/stores/:id *)

(** X1. Deleting a store that exists is always answered with 200: the store
    rows with that id and the ratings on that store are removed, and every
    other row of every table stays exactly as it was.  The trigger fires for
    each rating the cascade removes, but by then the store is gone and its
    UPDATE finds no row. *)
Theorem delete_store_removes_store_and_ratings (id : string) (sid : Z) (d : database) :
  int4_of_string id = Some sid ->
  store_exists d sid = true ->
  delete_store_handler id d
  = (mkResponse 200 "Store deleted successfully",
     mkDb (users d)
          (filter (fun s => negb (Store.id s =? sid)) (stores d))
          (filter (fun r => negb (Rating.store_id r =? sid)) (ratings d))
          (stores_id_seq d) (ratings_id_seq d)).
Proof.
  intros Hid Hex. unfold delete_store_handler.
  rewrite (decimal_integer_in _ _ Hid), Hex. cbn [negb].
  unfold delete_store.
  rewrite rating_update_trigger_absent; [reflexivity|].
  apply Forall_forall. intros e He.
  apply in_map_iff in He. destruct He as (r & <- & Hr).
  apply filter_In in Hr. destruct Hr as [_ Hr]. apply Z.eqb_eq in Hr.
  cbn. rewrite Hr. unfold store_exists. cbn [stores].
  induction (stores d) as [|s rest IH]; [reflexivity|].
  cbn. destruct (Store.id s =? sid) eqn:E; cbn; [exact IH|].
  rewrite E. exact IH.
Qed.

Lemma delete_store_removes_store_and_ratings_witness :
  delete_store_handler "2" createSampleData
  = (mkResponse 200 "Store deleted successfully",
     mkDb (users createSampleData)
          (filter (fun s => negb (Store.id s =? 2)) (stores createSampleData))
          (filter (fun r => negb (Rating.store_id r =? 2)) (ratings createSampleData))
          (stores_id_seq createSampleData) (ratings_id_seq createSampleData)).
Proof.
  apply (delete_store_removes_store_and_ratings "2" 2 createSampleData);
    vm_compute; reflexivity.
Defined.

(** ** DELETE /api/users/:id *)

(** The guard and the DELETE read a decimal path alike. *)
Lemma decimal_readings_agree (s : string) (z : Z) :
  int8_of_string s <> None -> integer_in s = Some z ->
  num_eq (num_of_Z z) (parseInt_string s) = true.
Proof.
  intros Hdec Hread.
  destruct (int8_of_string s) as [z'|] eqn:E; [|congruence].
  pose proof (parseInt_reads_int8 _ _ E) as Hjs.
  unfold integer_in in Hread. rewrite (decimal_bigint_in _ _ E) in Hread.
  destruct (in_int4 z'); [|discriminate].
  injection Hread as <-. exact Hjs.
Qed.

(** X2. The guard of DELETE /api/users/:id compares the principal's id
    with [parseInt] of the path parameter, and the DELETE binds the
    parameter as PostgreSQL reads it.  On a ratings table that passes its
    CHECK, the request removes the principal's own account exactly when
    PostgreSQL reads the parameter as the principal's id and [parseInt]
    does not.  A parameter in decimal form is read alike by both, so a
    request that carries one leaves the own account in place. *)
Theorem own_account_removed_when_readings_differ
    (user : principal) (userId : string) (d : database) (u : User.t) :
  ratings_checked (ratings d) ->
  In u (users d) ->
  User.id u = user_id user ->
  (In u (users (snd (delete_user_handler user userId d))) <->
   ~ (integer_in userId = Some (user_id user) /\
      num_eq (num_of_Z (user_id user)) (parseInt_string userId) = false)) /\
  (int8_of_string userId <> None ->
   In u (users (snd (delete_user_handler user userId d)))).
Proof.
  intros Hchecked Hin Hid.
  assert (Hiff : In u (users (snd (delete_user_handler user userId d))) <->
                 ~ (integer_in userId = Some (user_id user) /\
                    num_eq (num_of_Z (user_id user)) (parseInt_string userId) = false)).
  { unfold delete_user_handler.
    destruct (num_eq _ _) eqn:Hguard.
    { split; [intros _ [_ H]; discriminate|intros _; exact Hin]. }
    destruct (integer_in userId) as [uid|] eqn:Hparse.
    2:{ split; [intros _ [H _]; discriminate|intros _; exact Hin]. }
    destruct (Z.eq_dec uid (user_id user)) as [->|Hother].
    - assert (Hex : user_exists d (user_id user) = true).
      { unfold user_exists. apply existsb_exists. exists u.
        split; [exact Hin|]. apply Z.eqb_eq. exact Hid. }
      rewrite Hex. cbn [negb]. unfold delete_user.
      destruct (rating_update_trigger_succeeds
                  (map (fun r => mkEvent (Some r) None)
                       (filter (cascaded (user_id user) d) (ratings d)))
                  (mkDb (filter (fun u0 => negb (User.id u0 =? user_id user)) (users d))
                        (filter (fun s => negb (owned_by (user_id user) s)) (stores d))
                        (filter (fun r => negb (cascaded (user_id user) d r)) (ratings d))
                        (stores_id_seq d) (ratings_id_seq d)))
        as [d2 Hrun].
      { cbn [ratings]. apply Forall_forall. intros r Hr.
        apply filter_In in Hr. destruct Hr as [Hr _].
        revert r Hr. apply Forall_forall. exact Hchecked. }
      rewrite Hrun. cbn [snd].
      apply rating_update_trigger_columns in Hrun.
      destruct Hrun as (_ & -> & _). cbn [users].
      split.
      + intros Hkept. apply filter_In in Hkept. destruct Hkept as [_ Hkept].
        rewrite Hid, Z.eqb_refl in Hkept. discriminate.
      + intros Hno. exfalso. apply Hno. split; reflexivity.
    - split; [intros _ [H _]; congruence|intros _].
      destruct (negb (user_exists d uid)); [exact Hin|].
      unfold delete_user.
      destruct (rating_update_trigger _ _) as [d2|] eqn:Hrun; [|exact Hin].
      cbn [snd]. apply rating_update_trigger_columns in Hrun.
      destruct Hrun as (_ & -> & _). cbn [users].
      apply filter_In. split; [exact Hin|].
      rewrite Hid. apply negb_true_iff, Z.eqb_neq. congruence. }
  split; [exact Hiff|].
  intros Hdec. apply Hiff. intros [Hread Hguard].
  rewrite (decimal_readings_agree _ _ Hdec Hread) in Hguard. discriminate.
Qed.

Lemma own_account_removed_when_readings_differ_witness :
  ~ In (User.mk 1 "Default System Administrator" "admin@example.com"
                "System Administrator Address - Default Location" "system_admin" seed_time)
       (users (snd (delete_user_handler (mkPrincipal 1 "SYSTEM_ADMIN") "0b1"
                                        createSampleData))).
Proof.
  intros Hkept.
  destruct (own_account_removed_when_readings_differ
              (mkPrincipal 1 "SYSTEM_ADMIN") "0b1" createSampleData
              (User.mk 1 "Default System Administrator" "admin@example.com"
                       "System Administrator Address - Default Location"
                       "system_admin" seed_time)) as [[Hdiffer _] _].
  - vm_compute. repeat constructor.
  - vm_compute. left. reflexivity.
  - reflexivity.
  - apply (Hdiffer Hkept). split; vm_compute; reflexivity.
Defined.

(** The administrator with id 1 and the path [0b1]: [parseInt] reads 0,
    PostgreSQL reads 1, and the administrator's own row is deleted. *)
Example own_account_deleted_by_binary_path :
  fst (delete_user_handler (mkPrincipal 1 "SYSTEM_ADMIN") "0b1" createSampleData)
  = mkResponse 200 "User deleted successfully" /\
  map User.id (users (snd (delete_user_handler (mkPrincipal 1 "SYSTEM_ADMIN") "0b1"
                                               createSampleData)))
  = [2; 3; 4; 5; 6].
Proof. vm_compute. split; reflexivity. Qed.

Example delete_own_account_is_refused :
  delete_user_handler (mkPrincipal 1 "SYSTEM_ADMIN") " +1 " createSampleData
  = (mkResponse 400 "Cannot delete your own account", createSampleData).
Proof. vm_compute. reflexivity. Qed.

Example delete_other_account :
  map User.id (users (snd (delete_user_handler (mkPrincipal 1 "SYSTEM_ADMIN") "2"
                                               createSampleData)))
  = [1; 3; 4; 5; 6].
Proof. vm_compute. reflexivity. Qed.

(** ** Every write is a table change followed by the trigger *)

Lemma insert_rating_change uid sid v c now d :
  exists d0 evs, table_change d d0 /\
    rating_update_trigger evs d0 = Some (database_of (insert_rating uid sid v c now d)).
Proof.
  unfold insert_rating.
  destruct (bindable c); cbn [negb];
    [|exists d, []; split; [constructor|reflexivity]].
  destruct (rating_row_ok d _) eqn:Hok.
  - destruct (rating_update_trigger _ _) as [d2|] eqn:Hrun.
    + eexists _, _. split; [|exact Hrun].
      apply RatingAdded with (r := Rating.mk (ratings_id_seq d + 1) uid sid v c now now);
        [reflexivity|exact Hok].
    + exists (next_rating_id d), []. split; [constructor|reflexivity].
  - exists (next_rating_id d), []. split; [constructor|reflexivity].
Qed.

Lemma update_rating_change v c uid sid now d :
  exists d0 evs, table_change d d0 /\
    rating_update_trigger evs d0 = Some (database_of (update_rating v c uid sid now d)).
Proof.
  unfold update_rating.
  destruct (bindable c); cbn [negb];
    [|exists d, []; split; [constructor|reflexivity]].
  destruct (filter (same_key uid sid) (ratings d)) as [|r0 hit].
  - exists d, []. split; [constructor|reflexivity].
  - destruct (rating_check v) eqn:Hv.
    + destruct (rating_update_trigger _ _) as [d2|] eqn:Hrun.
      * eexists _, _. split; [|exact Hrun]. apply RatingsSet. exact Hv.
      * exists d, []. split; [constructor|reflexivity].
    + exists d, []. split; [constructor|reflexivity].
Qed.

Lemma delete_rating_change uid sid d :
  exists d0 evs, table_change d d0 /\
    rating_update_trigger evs d0 = Some (database_of (delete_rating uid sid d)).
Proof.
  unfold delete_rating.
  destruct (rating_update_trigger _ _) as [d2|] eqn:Hrun.
  - eexists _, _. split; [|exact Hrun]. apply RatingsDeleted.
  - exists d, []. split; [constructor|reflexivity].
Qed.

Lemma delete_store_change sid d :
  exists d0 evs, table_change d d0 /\
    rating_update_trigger evs d0 = Some (database_of (delete_store sid d)).
Proof.
  unfold delete_store.
  destruct (rating_update_trigger _ _) as [d2|] eqn:Hrun.
  - eexists _, _. split; [|exact Hrun]. apply StoreDeleted.
  - exists d, []. split; [constructor|reflexivity].
Qed.

Lemma delete_user_change uid d :
  exists d0 evs, table_change d d0 /\
    rating_update_trigger evs d0 = Some (database_of (delete_user uid d)).
Proof.
  unfold delete_user.
  destruct (rating_update_trigger _ _) as [d2|] eqn:Hrun.
  - eexists _, _. split; [|exact Hrun]. apply UserDeleted.
  - exists d, []. split; [constructor|reflexivity].
Qed.

Lemma insert_store_change name email address oid now d :
  table_change d (database_of (insert_store name email address oid now d)).
Proof.
  unfold insert_store.
  destruct (negb _); [apply NoChange|].
  destruct (store_row_ok d _) eqn:Hok.
  - cbn [database_of next_store_id users stores ratings stores_id_seq ratings_id_seq].
    apply StoreAdded with
      (s := Store.mk (stores_id_seq d + 1) name email address oid (Some 0) (Some 0) now now);
      [reflexivity|exact Hok].
  - apply StoreIdUsed.
Qed.

Lemma update_store_change name email address sid now d :
  table_change d (database_of (update_store name email address sid now d)).
Proof.
  unfold update_store.
  destruct (negb _); [apply NoChange|].
  destruct (forallb _ _) eqn:Hok.
  - cbn [database_of]. apply StoreSet. exact Hok.
  - apply NoChange.
Qed.

(** The database a write request leaves is the one it found with one table
    change made and the trigger run on the outcome. *)
Lemma handle_change (w : write_request) (now : Z) (d : database) :
  exists d0 evs, table_change d d0 /\ rating_update_trigger evs d0 = Some (handle w now d).
Proof.
  assert (Hsame : exists d0 evs, table_change d d0 /\ rating_update_trigger evs d0 = Some d).
  { exists d, []. split; [constructor|reflexivity]. }
  destruct w as [user storeId v c|user storeId v c|user storeId|name email address oid
                |user id name email address|id|user userId]; cbn [handle].
  - unfold post_rating_request.
    destruct (int4_of_param _) as [sid|]; [|exact Hsame].
    destruct (post_rating_database user sid v c now d) as [-> | ->];
      [exact Hsame|apply insert_rating_change].
  - unfold put_rating_request.
    destruct (integer_in storeId) as [sid|]; [|exact Hsame].
    destruct (put_rating_database user sid v c now d) as [-> | ->];
      [exact Hsame|apply update_rating_change].
  - unfold delete_rating_request, delete_rating_handler.
    destruct (integer_in storeId) as [sid|]; [|exact Hsame].
    destruct (negb (has_rated d (user_id user) sid)); [exact Hsame|].
    pose proof (delete_rating_change (user_id user) sid d) as H.
    destruct (delete_rating (user_id user) sid d); exact H.
  - assert (Hcreate : exists d0 evs, table_change d d0 /\
              rating_update_trigger evs d0
              = Some (snd (match insert_store name email address (truthy_id oid) now d with
                           | Done store d' =>
                               (mkResponse 201 (StoreResult "Store created successfully" store), d')
                           | Raised d' =>
                               (mkResponse 500 (StoreMessage "Server error creating store"), d')
                           end))).
    { pose proof (insert_store_change name email address (truthy_id oid) now d) as H.
      destruct (insert_store name email address (truthy_id oid) now d);
        eexists _, []; (split; [exact H|reflexivity]). }
    unfold post_store.
    destruct (negb (no_zero_byte email)); [exact Hsame|].
    destruct (existsb _ (stores d)); [exact Hsame|].
    destruct (truthy_id oid) as [o|] eqn:Ho; [|exact Hcreate].
    destruct (negb (in_int4 o)); [exact Hsame|].
    destruct (filter _ (users d)) as [|owner rest]; [exact Hsame|].
    destruct (negb (String.eqb (User.role owner) "STORE_OWNER")); [exact Hsame|].
    destruct (existsb (owner_is o) (stores d)); [exact Hsame|exact Hcreate].
  - unfold put_store.
    destruct (integer_in id) as [storeId|]; [|exact Hsame].
    destruct (filter _ (stores d)) as [|store rest]; [exact Hsame|].
    destruct (owner_denied user (Store.owner_id store)); [exact Hsame|].
    destruct (negb (bindable (truthy_field email))); [exact Hsame|].
    destruct (match truthy_field email with Some _ => _ | None => _ end); [exact Hsame|].
    assert (Hupd : forall n e a, exists d0 evs, table_change d d0 /\
              rating_update_trigger evs d0
              = Some (snd (match update_store n e a storeId now d with
                           | Done (row :: _) d' => (mkResponse 200 (Detail row), d')
                           | Done [] d' =>
                               (mkResponse 200 (DetailMessage "Store updated successfully"), d')
                           | Raised d' =>
                               (mkResponse 500 (DetailMessage "Server error updating store"), d')
                           end))).
    { intros n e a. pose proof (update_store_change n e a storeId now d) as H.
      destruct (update_store n e a storeId now d) as [[|row rows] d'|d'];
        eexists _, []; (split; [exact H|reflexivity]). }
    destruct (truthy_field name), (truthy_field email), (truthy_field address);
      first [exact Hsame | apply Hupd].
  - unfold delete_store_handler.
    destruct (integer_in id) as [storeId|]; [|exact Hsame].
    destruct (negb (store_exists d storeId)); [exact Hsame|].
    pose proof (delete_store_change storeId d) as H.
    destruct (delete_store storeId d); exact H.
  - unfold delete_user_handler.
    destruct (num_eq _ _); [exact Hsame|].
    destruct (integer_in userId) as [uid|]; [|exact Hsame].
    destruct (negb (user_exists d uid)); [exact Hsame|].
    pose proof (delete_user_change uid d) as H.
    destruct (delete_user uid d); exact H.
Qed.

(** ** The foreign keys *)

Lemma user_exists_In (d : database) (uid : Z) :
  user_exists d uid = true <-> exists u, In u (users d) /\ User.id u = uid.
Proof.
  unfold user_exists. rewrite existsb_exists.
  split; intros (u & Hin & Hu); exists u; (split; [exact Hin|]);
    [apply Z.eqb_eq|apply Z.eqb_eq]; exact Hu.
Qed.

Lemma store_exists_In (d : database) (sid : Z) :
  store_exists d sid = true <-> exists s, In s (stores d) /\ Store.id s = sid.
Proof.
  unfold store_exists. rewrite existsb_exists.
  split; intros (s & Hin & Hs); exists s; (split; [exact Hin|]);
    [apply Z.eqb_eq|apply Z.eqb_eq]; exact Hs.
Qed.

Lemma set_fields_ids name email address sid now (ss : list Store.t) :
  map Store.id (map (fun s => if Store.id s =? sid
                              then set_store_fields name email address now s
                              else s) ss)
  = map Store.id ss.
Proof.
  rewrite map_map. apply map_ext. intros s.
  destruct (Store.id s =? sid); reflexivity.
Qed.

Lemma references_after_trigger evs d d' :
  rating_update_trigger evs d = Some d' -> references_hold d -> references_hold d'.
Proof.
  intros Hrun [Hr Hs].
  destruct (rating_update_trigger_columns _ _ _ Hrun) as (Hcols & Hu & Hrs & _).
  pose proof (store_exists_ids d d' (store_columns_ids _ _ Hcols)) as Hex.
  split.
  - rewrite Hrs. eapply Forall_impl; [|exact Hr].
    intros r [H1 H2]. split.
    + unfold user_exists. rewrite Hu. exact H1.
    + rewrite Hex. exact H2.
  - clear Hr Hex. revert Hs. induction Hcols as [|s s' ss ss' Hc _ IH].
    + constructor.
    + intros Hs. inversion Hs as [|? ? Hhd Htl]; subst.
      constructor; [|apply IH; exact Htl].
      unfold owner_reference in *. destruct Hc as (_ & _ & _ & _ & -> & _).
      unfold user_exists. rewrite Hu. exact Hhd.
Qed.

Lemma references_after_change d d0 :
  table_change d d0 -> references_hold d -> references_hold d0.
Proof.
  intros Hchange [Hr Hs].
  destruct Hchange as [| | |r Hid Hok|uid sid v c now Hv|uid sid|sid|uid|s Hid Hok
                      |name email address sid now Hok].
  - split; assumption.
  - split; assumption.
  - split; assumption.
  - split; [|exact Hs].
    cbn [ratings with_ratings]. apply Forall_app. split; [exact Hr|].
    constructor; [|constructor].
    unfold rating_row_ok in Hok.
    apply andb_true_iff in Hok. destruct Hok as [Hok Hstore].
    apply andb_true_iff in Hok. destruct Hok as [_ Huser].
    split; assumption.
  - split; [|exact Hs].
    cbn [ratings with_ratings]. apply Forall_map.
    eapply Forall_impl; [|exact Hr].
    intros r H. destruct (same_key uid sid r); exact H.
  - split; [|exact Hs].
    cbn [ratings with_ratings]. apply Forall_forall. intros r Hin.
    apply filter_In in Hin. destruct Hin as [Hin _].
    exact (proj1 (Forall_forall _ _) Hr r Hin).
  - split.
    + cbn [ratings]. apply Forall_forall. intros r Hin.
      apply filter_In in Hin. destruct Hin as [Hin Hne].
      destruct (proj1 (Forall_forall _ _) Hr r Hin) as [H1 H2].
      split; [exact H1|].
      apply store_exists_In in H2. destruct H2 as (s & Hs1 & Hs2).
      apply store_exists_In. exists s. split; [|exact Hs2].
      cbn [stores]. apply filter_In. split; [exact Hs1|]. rewrite Hs2. exact Hne.
    + cbn [stores]. apply Forall_forall. intros s Hin.
      apply filter_In in Hin. destruct Hin as [Hin _].
      exact (proj1 (Forall_forall _ _) Hs s Hin).
  - assert (Hkept : forall o, o <> uid -> user_exists d o = true ->
              existsb (fun u => User.id u =? o)
                      (filter (fun u => negb (User.id u =? uid)) (users d)) = true).
    { intros o Ho Hex. apply user_exists_In in Hex. destruct Hex as (u & Hu1 & Hu2).
      apply existsb_exists. exists u. split; [|apply Z.eqb_eq; exact Hu2].
      apply filter_In. split; [exact Hu1|].
      apply negb_true_iff, Z.eqb_neq. congruence. }
    split.
    + cbn [ratings]. apply Forall_forall. intros r Hin.
      apply filter_In in Hin. destruct Hin as [Hin Hkeep].
      destruct (proj1 (Forall_forall _ _) Hr r Hin) as [H1 H2].
      apply negb_true_iff in Hkeep. unfold cascaded in Hkeep.
      apply orb_false_iff in Hkeep. destruct Hkeep as [Huid Hown].
      split.
      * apply Hkept; [|exact H1]. apply Z.eqb_neq. exact Huid.
      * apply store_exists_In in H2. destruct H2 as (s & Hs1 & Hs2).
        apply store_exists_In. exists s. split; [|exact Hs2].
        cbn [stores]. apply filter_In. split; [exact Hs1|].
        destruct (owned_by uid s) eqn:Eown; [|reflexivity].
        exfalso. assert (Hx : existsb (fun s0 => owned_by uid s0
                                        && (Store.id s0 =? Rating.store_id r)) (stores d) = true).
        { apply existsb_exists. exists s. split; [exact Hs1|].
          rewrite Eown. apply Z.eqb_eq. exact Hs2. }
        congruence.
    + cbn [stores]. apply Forall_forall. intros s Hin.
      apply filter_In in Hin. destruct Hin as [Hin Hkeep].
      pose proof (proj1 (Forall_forall _ _) Hs s Hin) as Hown.
      unfold owner_reference, owned_by in *.
      destruct (Store.owner_id s) as [o|]; [|exact I].
      apply Hkept; [|exact Hown].
      apply negb_true_iff, Z.eqb_neq in Hkeep. exact Hkeep.
  - assert (Hmore : forall sid, store_exists d sid = true ->
              existsb (fun s0 => Store.id s0 =? sid) (stores d ++ [s]) = true).
    { intros sid H. rewrite existsb_app. unfold store_exists in H. rewrite H. reflexivity. }
    split.
    + cbn [ratings]. eapply Forall_impl; [|exact Hr].
      intros r [H1 H2]. split; [exact H1|]. apply Hmore. exact H2.
    + cbn [stores]. apply Forall_app. split; [exact Hs|].
      constructor; [|constructor].
      unfold store_row_ok in Hok. apply andb_true_iff in Hok. destruct Hok as [_ Hown].
      unfold owner_reference. destruct (Store.owner_id s); [exact Hown|exact I].
  - split.
    + cbn [ratings with_stores]. eapply Forall_impl; [|exact Hr].
      intros r [H1 H2]. split; [exact H1|].
      rewrite <- H2. apply store_exists_ids. cbn [stores]. apply set_fields_ids.
    + cbn [stores with_stores]. apply Forall_map.
      eapply Forall_impl; [|exact Hs].
      intros s H. destruct (Store.id s =? sid); exact H.
Qed.

(** X3. The foreign keys of the schema survive every write request.  If
    every rating names a user and a store that exist and every owned store
    names an owner that exists, the same is true after each request of any
    sequence of rating submissions, updates and deletions, store creations,
    updates and deletions, and user deletions.  In particular the cascade
    of a user's deletion leaves no store without its owner and no rating
    without its user or its store. *)
Theorem writes_keep_references (ws : list (write_request * Z)) (d : database) :
  references_hold d -> Forall references_hold (served ws d).
Proof.
  revert d. induction ws as [|[w now] ws IH]; intros d Hd; cbn [served].
  - constructor.
  - assert (Hnext : references_hold (handle w now d)).
    { destruct (handle_change w now d) as (d0 & evs & Hchange & Hrun).
      apply (references_after_trigger _ _ _ Hrun).
      apply (references_after_change _ _ Hchange). exact Hd. }
    constructor; [exact Hnext|apply IH; exact Hnext].
Qed.

Lemma writes_keep_references_witness :
  Forall references_hold (served sample_writes createSampleData).
Proof.
  apply (writes_keep_references sample_writes createSampleData).
  split; vm_compute; repeat (constructor; [auto|]); constructor.
Defined.

Example sample_writes_outcome :
  let d := last (served sample_writes createSampleData) createSampleData in
  map User.id (users d) = [1; 3; 4; 5; 6] /\
  map Store.id (stores d) = [2; 3; 4] /\
  map (fun r => (Rating.user_id r, Rating.store_id r, Rating.rating r)) (ratings d)
  = [(4, 2, 4); (5, 3, 5); (6, 2, 3); (6, 3, 4); (4, 3, 2)] /\
  map (fun s => (Store.total_ratings s, Store.average_rating s)) (stores d)
  = [(Some 2, Some 35); (Some 3, Some 37); (Some 0, Some 0)].
Proof. vm_compute. repeat split; reflexivity. Qed.

(** ** Keys, CHECKs and sequences *)

Lemma distinct_after_filter {A K : Type} (key : A -> K) (keep : A -> bool) (l : list A) :
  NoDup (map key l) -> NoDup (map key (filter keep l)).
Proof.
  induction l as [|x l IH]; cbn; intros H; [constructor|].
  inversion H as [|? ? Hx Hl]; subst.
  destruct (keep x); [|apply IH; exact Hl].
  cbn. constructor; [|apply IH; exact Hl].
  intros Hin. apply Hx. apply in_map_iff in Hin. destruct Hin as (y & Hy & Hin).
  apply filter_In in Hin. rewrite <- Hy. apply in_map. apply Hin.
Qed.

Lemma distinct_with_new {K : Type} (l : list K) (k : K) :
  NoDup l -> ~ In k l -> NoDup (l ++ [k]).
Proof.
  intros Hl Hk. induction Hl as [|x l Hx Hl IH]; cbn.
  - constructor; [intros []|constructor].
  - constructor.
    + intros Hin. apply in_app_or in Hin. destruct Hin as [Hin|[->|[]]].
      * exact (Hx Hin).
      * apply Hk. left. reflexivity.
    + apply IH. intros Hin. apply Hk. right. exact Hin.
Qed.

Lemma set_rating_ids uid sid v c now (rs : list Rating.t) :
  map Rating.id (map (fun r => if same_key uid sid r then set_rating v c now r else r) rs)
  = map Rating.id rs.
Proof.
  rewrite map_map. apply map_ext. intros r. destruct (same_key uid sid r); reflexivity.
Qed.

Lemma set_rating_keys uid sid v c now (rs : list Rating.t) :
  rating_keys (map (fun r => if same_key uid sid r then set_rating v c now r else r) rs)
  = rating_keys rs.
Proof.
  unfold rating_keys. rewrite map_map. apply map_ext. intros r.
  destruct (same_key uid sid r); reflexivity.
Qed.

(** UNIQUE(email) after an UPDATE of the rows with one id, given the
    primary key. *)
Lemma set_fields_emails name email address sid now (ss : list Store.t) :
  NoDup (map Store.id ss) ->
  NoDup (map Store.email ss) ->
  (forall s s', In s ss -> In s' ss -> Store.id s = sid -> Store.id s' <> sid ->
     Store.email s' <> Store.email (set_store_fields name email address now s)) ->
  NoDup (map Store.email
           (map (fun s => if Store.id s =? sid
                          then set_store_fields name email address now s else s) ss)).
Proof.
  induction ss as [|s rest IH]; intros Hids Hemails Hother; cbn; [constructor|].
  inversion Hids as [|? ? Hid Hids']; subst.
  inversion Hemails as [|? ? Hemail Hemails']; subst.
  assert (IH' := IH Hids' Hemails'
                   (fun a b Ha Hb => Hother a b (or_intror Ha) (or_intror Hb))).
  destruct (Z.eqb_spec (Store.id s) sid) as [Hs|Hs].
  - assert (Hrest : map (fun s0 => if Store.id s0 =? sid
                                   then set_store_fields name email address now s0 else s0) rest
                    = rest).
    { rewrite <- (map_id rest) at 2. apply map_ext_in. intros s' Hin.
      destruct (Z.eqb_spec (Store.id s') sid) as [Hs'|]; [|reflexivity].
      exfalso. apply Hid. rewrite Hs, <- Hs'. apply in_map. exact Hin. }
    rewrite Hrest. constructor; [|exact Hemails'].
    intros Hin. apply in_map_iff in Hin. destruct Hin as (s' & He & Hin).
    apply (Hother s s' (or_introl eq_refl) (or_intror Hin) Hs); [|exact He].
    intros Hs'. apply Hid. rewrite Hs, <- Hs'. apply in_map. exact Hin.
  - constructor; [|exact IH'].
    intros Hin. apply in_map_iff in Hin. destruct Hin as (x & He & Hin).
    apply in_map_iff in Hin. destruct Hin as (s' & <- & Hin).
    destruct (Z.eqb_spec (Store.id s') sid) as [Hs'|Hs'].
    + apply (Hother s' s (or_intror Hin) (or_introl eq_refl) Hs' Hs). symmetry. exact He.
    + apply Hemail. rewrite <- He. apply in_map. exact Hin.
Qed.

Lemma constraints_after_trigger evs d d' :
  rating_update_trigger evs d = Some d' -> constraints_hold d -> constraints_hold d'.
Proof.
  intros Hrun (Hu & Hs & He & Hk & Hr & Hc & Hi1 & Hi2).
  destruct (rating_update_trigger_columns _ _ _ Hrun) as (Hcols & Hus & Hrs & Hq1 & Hq2).
  unfold constraints_hold, users_keyed, stores_keyed, store_emails_unique, ratings_keyed,
    unique_ratings, ids_issued.
  rewrite Hus, Hrs, Hq1, Hq2,
    (store_columns_ids _ _ Hcols), (store_columns_emails _ _ Hcols).
  repeat (split; [assumption|]). split; [|assumption].
  apply Forall_map with (f := Store.id) (P := fun i => i <= stores_id_seq d).
  rewrite (store_columns_ids _ _ Hcols). apply Forall_map. exact Hi1.
Qed.

Lemma constraints_after_change d d0 :
  table_change d d0 -> constraints_hold d -> constraints_hold d0.
Proof.
  intros Hchange (Hu & Hs & He & Hk & Hr & Hc & Hi1 & Hi2).
  unfold constraints_hold, users_keyed, stores_keyed, store_emails_unique, ratings_keyed,
    unique_ratings, ids_issued in *.
  destruct Hchange as [| | |r Hid Hok|uid sid v c now Hv|uid sid|sid|uid|s Hid Hok
                      |name email address sid now Hok];
    cbn [users stores ratings stores_id_seq ratings_id_seq
         next_rating_id next_store_id with_ratings with_stores].
  - auto 10.
  - repeat (split; [assumption|]).
    eapply Forall_impl; [|exact Hi2]. cbn. intros; lia.
  - repeat (split; [assumption|]). split; [|assumption].
    eapply Forall_impl; [|exact Hi1]. cbn. intros; lia.
  - unfold rating_row_ok in Hok.
    apply andb_true_iff in Hok. destruct Hok as [Hok _].
    apply andb_true_iff in Hok. destruct Hok as [Hok _].
    apply andb_true_iff in Hok. destruct Hok as [Hok Hkey].
    apply andb_true_iff in Hok. destruct Hok as [Hpk Hcheck].
    repeat (split; [assumption|]). split; [|split; [|split; [|split]]].
    + rewrite map_app. apply distinct_with_new; [exact Hk|].
      intros Hin. apply in_map_iff in Hin. destruct Hin as (r' & Hr' & Hin).
      apply negb_true_iff in Hpk.
      assert (Hx : existsb (fun r0 => Rating.id r0 =? Rating.id r) (ratings d) = true).
      { apply existsb_exists. exists r'. split; [exact Hin|apply Z.eqb_eq; exact Hr']. }
      congruence.
    + unfold rating_keys. rewrite map_app. apply distinct_with_new; [exact Hr|].
      apply negb_true_iff in Hkey. exact (existsb_same_key_false _ _ _ Hkey).
    + apply Forall_app. split; [exact Hc|]. constructor; [exact Hcheck|constructor].
    + exact Hi1.
    + apply Forall_app. split.
      * eapply Forall_impl; [|exact Hi2]. cbn. intros; lia.
      * constructor; [lia|constructor].
  - rewrite set_rating_ids, set_rating_keys.
    repeat (split; [assumption|]). split; [|split; [assumption|]].
    + apply Forall_map. eapply Forall_impl; [|exact Hc].
      intros r H. destruct (same_key uid sid r); [exact Hv|exact H].
    + apply Forall_map with (f := Rating.id) (P := fun i => i <= ratings_id_seq d).
      rewrite set_rating_ids. apply Forall_map. exact Hi2.
  - repeat (split; [assumption|]).
    split; [apply distinct_after_filter; exact Hk|].
    split; [apply unique_keys_filter; exact Hr|].
    split; [|split; [assumption|]];
      apply Forall_forall; intros r Hin; apply filter_In in Hin; destruct Hin as [Hin _].
    + exact (proj1 (Forall_forall _ _) Hc r Hin).
    + exact (proj1 (Forall_forall _ _) Hi2 r Hin).
  - split; [assumption|].
    split; [apply distinct_after_filter; exact Hs|].
    split; [apply distinct_after_filter; exact He|].
    split; [apply distinct_after_filter; exact Hk|].
    split; [apply unique_keys_filter; exact Hr|].
    split; [|split];
      apply Forall_forall; intros x Hin; apply filter_In in Hin; destruct Hin as [Hin _].
    + exact (proj1 (Forall_forall _ _) Hc x Hin).
    + exact (proj1 (Forall_forall _ _) Hi1 x Hin).
    + exact (proj1 (Forall_forall _ _) Hi2 x Hin).
  - split; [apply distinct_after_filter; exact Hu|].
    split; [apply distinct_after_filter; exact Hs|].
    split; [apply distinct_after_filter; exact He|].
    split; [apply distinct_after_filter; exact Hk|].
    split; [apply unique_keys_filter; exact Hr|].
    split; [|split];
      apply Forall_forall; intros x Hin; apply filter_In in Hin; destruct Hin as [Hin _].
    + exact (proj1 (Forall_forall _ _) Hc x Hin).
    + exact (proj1 (Forall_forall _ _) Hi1 x Hin).
    + exact (proj1 (Forall_forall _ _) Hi2 x Hin).
  - unfold store_row_ok in Hok.
    apply andb_true_iff in Hok. destruct Hok as [Hok _].
    apply andb_true_iff in Hok. destruct Hok as [Hok _].
    apply andb_true_iff in Hok. destruct Hok as [Hok Hmail].
    apply andb_true_iff in Hok. destruct Hok as [Hok _].
    apply andb_true_iff in Hok. destruct Hok as [Hpk _].
    split; [assumption|]. split; [|split; [|repeat (split; [assumption|]); split]].
    + rewrite map_app. apply distinct_with_new; [exact Hs|].
      intros Hin. apply in_map_iff in Hin. destruct Hin as (s' & Hs' & Hin).
      apply negb_true_iff in Hpk.
      assert (Hx : existsb (fun s0 => Store.id s0 =? Store.id s) (stores d) = true).
      { apply existsb_exists. exists s'. split; [exact Hin|apply Z.eqb_eq; exact Hs']. }
      congruence.
    + rewrite map_app. apply distinct_with_new; [exact He|].
      intros Hin. apply in_map_iff in Hin. destruct Hin as (s' & Hs' & Hin).
      apply negb_true_iff in Hmail.
      assert (Hx : existsb (fun s0 => String.eqb (Store.email s0) (Store.email s)) (stores d)
                   = true).
      { apply existsb_exists. exists s'. split; [exact Hin|apply String.eqb_eq; exact Hs']. }
      congruence.
    + apply Forall_app. split.
      * eapply Forall_impl; [|exact Hi1]. cbn. intros; lia.
      * constructor; [lia|constructor].
    + exact Hi2.
  - rewrite set_fields_ids.
    split; [assumption|]. split; [assumption|].
    split; [|repeat (split; [assumption|]); split; [|assumption]].
    + apply set_fields_emails; [exact Hs|exact He|].
      intros s s' Hin Hin' Hid Hid' Heq.
      assert (Hrow : store_update_ok d (set_store_fields name email address now s) = true).
      { apply (proj1 (forallb_forall _ _) Hok). apply in_map. apply filter_In.
        split; [exact Hin|apply Z.eqb_eq; exact Hid]. }
      unfold store_update_ok in Hrow.
      apply andb_true_iff in Hrow. destruct Hrow as [Hrow _].
      apply andb_true_iff in Hrow. destruct Hrow as [_ Hmail].
      apply negb_true_iff in Hmail.
      assert (Hx : existsb (fun s0 =>
                     negb (Store.id s0 =? Store.id (set_store_fields name email address now s))
                     && String.eqb (Store.email s0)
                          (Store.email (set_store_fields name email address now s)))
                     (stores d) = true).
      { apply existsb_exists. exists s'. split; [exact Hin'|].
        apply andb_true_iff. split; [|apply String.eqb_eq; exact Heq].
        cbn [Store.id set_store_fields]. apply negb_true_iff, Z.eqb_neq. congruence. }
      congruence.
    + apply Forall_map with (f := Store.id) (P := fun i => i <= stores_id_seq d).
      rewrite set_fields_ids. apply Forall_map. exact Hi1.
Qed.

(** X4. The keys and CHECKs of the schema survive every write request.  If
    user ids, store ids, store e-mail addresses, rating ids and the
    (user, store) pairs of ratings are each free of duplicates, every rating
    is between 1 and 5 and no id is ahead of its sequence, the same is true
    after each request of any sequence of rating submissions, updates and
    deletions, store creations, updates and deletions, and user deletions. *)
Theorem writes_keep_constraints (ws : list (write_request * Z)) (d : database) :
  constraints_hold d -> Forall constraints_hold (served ws d).
Proof.
  revert d. induction ws as [|[w now] ws IH]; intros d Hd; cbn [served].
  - constructor.
  - assert (Hnext : constraints_hold (handle w now d)).
    { destruct (handle_change w now d) as (d0 & evs & Hchange & Hrun).
      apply (constraints_after_trigger _ _ _ Hrun).
      apply (constraints_after_change _ _ Hchange). exact Hd. }
    constructor; [exact Hnext|apply IH; exact Hnext].
Qed.

Lemma writes_keep_constraints_witness :
  Forall constraints_hold (served sample_writes createSampleData).
Proof.
  apply (writes_keep_constraints sample_writes createSampleData).
  unfold constraints_hold, users_keyed, stores_keyed, store_emails_unique, ratings_keyed,
    unique_ratings, ratings_checked, ids_issued.
  repeat split; vm_compute;
    repeat (constructor;
            [solve [vm_compute; first [reflexivity | intuition discriminate]]|]);
    constructor.
Defined.

(** ** The aggregates under every write *)

Lemma handle_statement (w : write_request) (now : Z) (d : database) :
  handle w now d = d \/
  (exists m, handle w now d = apply_mutation m d) \/
  (exists name email address oid,
     handle w now d = database_of (insert_store name email address oid now d)) \/
  (exists name email address sid,
     handle w now d = database_of (update_store name email address sid now d)).
Proof.
  destruct w as [user storeId v c|user storeId v c|user storeId|name email address oid
                |user id name email address|id|user userId]; cbn [handle].
  - unfold post_rating_request.
    destruct (int4_of_param _) as [sid|]; [|left; reflexivity].
    destruct (post_rating_database user sid v c now d) as [-> | ->]; [left; reflexivity|].
    right. left. exists (Insert (user_id user) sid v c now). reflexivity.
  - unfold put_rating_request.
    destruct (integer_in storeId) as [sid|]; [|left; reflexivity].
    destruct (put_rating_database user sid v c now d) as [-> | ->]; [left; reflexivity|].
    right. left. exists (Update (user_id user) sid v c now). reflexivity.
  - unfold delete_rating_request, delete_rating_handler.
    destruct (integer_in storeId) as [sid|]; [|left; reflexivity].
    destruct (negb (has_rated d (user_id user) sid)); [left; reflexivity|].
    right. left. exists (Delete (user_id user) sid). cbn [apply_mutation].
    destruct (delete_rating (user_id user) sid d); reflexivity.
  - assert (Hcreate :
              snd (match insert_store name email address (truthy_id oid) now d with
                   | Done store d' =>
                       (mkResponse 201 (StoreResult "Store created successfully" store), d')
                   | Raised d' =>
                       (mkResponse 500 (StoreMessage "Server error creating store"), d')
                   end)
              = database_of (insert_store name email address (truthy_id oid) now d)).
    { destruct (insert_store name email address (truthy_id oid) now d); reflexivity. }
    unfold post_store.
    destruct (negb (no_zero_byte email)); [left; reflexivity|].
    destruct (existsb _ (stores d)); [left; reflexivity|].
    destruct (truthy_id oid) as [o|] eqn:Ho.
    + destruct (negb (in_int4 o)); [left; reflexivity|].
      destruct (filter _ (users d)) as [|owner rest]; [left; reflexivity|].
      destruct (negb (String.eqb (User.role owner) "STORE_OWNER")); [left; reflexivity|].
      destruct (existsb (owner_is o) (stores d)); [left; reflexivity|].
      right. right. left. exists name, email, address, (Some o). exact Hcreate.
    + right. right. left. exists name, email, address, None. exact Hcreate.
  - unfold put_store.
    destruct (integer_in id) as [storeId|]; [|left; reflexivity].
    destruct (filter _ (stores d)) as [|store rest]; [left; reflexivity|].
    destruct (owner_denied user (Store.owner_id store)); [left; reflexivity|].
    destruct (negb (bindable (truthy_field email))); [left; reflexivity|].
    destruct (match truthy_field email with Some _ => _ | None => _ end); [left; reflexivity|].
    assert (Hupd : forall n e a,
              snd (match update_store n e a storeId now d with
                   | Done (row :: _) d' => (mkResponse 200 (Detail row), d')
                   | Done [] d' =>
                       (mkResponse 200 (DetailMessage "Store updated successfully"), d')
                   | Raised d' =>
                       (mkResponse 500 (DetailMessage "Server error updating store"), d')
                   end)
              = database_of (update_store n e a storeId now d)).
    { intros n e a. destruct (update_store n e a storeId now d) as [[|row rows] d'|d'];
        reflexivity. }
    destruct (truthy_field name) as [n|], (truthy_field email) as [e|],
             (truthy_field address) as [a|];
      first [left; reflexivity
            | right; right; right; eexists _, _, _, _; apply Hupd].
  - unfold delete_store_handler.
    destruct (integer_in id) as [storeId|]; [|left; reflexivity].
    destruct (negb (store_exists d storeId)); [left; reflexivity|].
    right. left. exists (DeleteStoreRow storeId). cbn [apply_mutation].
    destruct (delete_store storeId d); reflexivity.
  - unfold delete_user_handler.
    destruct (num_eq _ _); [left; reflexivity|].
    destruct (integer_in userId) as [uid|]; [|left; reflexivity].
    destruct (negb (user_exists d uid)); [left; reflexivity|].
    right. left. exists (DeleteUserRow uid). cbn [apply_mutation].
    destruct (delete_user uid d); reflexivity.
Qed.

(** A new store starts with both aggregate columns at zero, and no rating
    names its id. *)
Lemma insert_store_consistent name email address oid now d :
  references_hold d -> consistent d ->
  consistent (database_of (insert_store name email address oid now d)).
Proof.
  intros [Href _] Hd. unfold insert_store.
  destruct (negb _); [exact Hd|].
  destruct (store_row_ok d _) eqn:Hok; [|exact Hd].
  cbn [database_of]. intros s Hin.
  cbn [stores next_store_id] in Hin. apply in_app_or in Hin.
  destruct Hin as [Hin|[<-|[]]].
  - apply (aggregates_match_ext d); [reflexivity|]. apply Hd. exact Hin.
  - unfold store_row_ok in Hok.
    apply andb_true_iff in Hok. destruct Hok as [Hok _].
    apply andb_true_iff in Hok. destruct Hok as [Hok _].
    apply andb_true_iff in Hok. destruct Hok as [Hok _].
    apply andb_true_iff in Hok. destruct Hok as [Hok _].
    apply andb_true_iff in Hok. destruct Hok as [Hpk _].
    apply negb_true_iff in Hpk. cbn [Store.id next_store_id stores_id_seq] in Hpk.
    assert (Hnone : ratings_of_store (ratings d) (stores_id_seq d + 1) = []).
    { unfold ratings_of_store.
      induction (ratings d) as [|r rs IH]; [reflexivity|].
      inversion Href as [|? ? [_ Hr] Hrs]; subst. cbn.
      destruct (Z.eqb_spec (Rating.store_id r) (stores_id_seq d + 1)) as [E|_];
        [|apply IH; exact Hrs].
      rewrite E in Hr. unfold store_exists in Hr. congruence. }
    unfold aggregates_match, rating_values.
    cbn [Store.id Store.total_ratings Store.average_rating next_store_id stores_id_seq ratings].
    rewrite Hnone. split; reflexivity.
Qed.

(** An edited store keeps its id and its two aggregate columns. *)
Lemma update_store_consistent name email address sid now d :
  consistent d -> consistent (database_of (update_store name email address sid now d)).
Proof.
  intros Hd. unfold update_store.
  destruct (negb _); [exact Hd|].
  destruct (forallb _ _); [|exact Hd].
  cbn [database_of]. intros s' Hin.
  cbn [stores with_stores] in Hin. apply in_map_iff in Hin.
  destruct Hin as (s & <- & Hin). specialize (Hd s Hin).
  unfold aggregates_match, rating_values in *.
  destruct (Store.id s =? sid); exact Hd.
Qed.

Lemma handle_consistent (w : write_request) (now : Z) (d : database) :
  references_hold d -> consistent d -> consistent (handle w now d).
Proof.
  intros Href Hd.
  destruct (handle_statement w now d)
    as [-> | [(m & ->) | [(n & e & a & o & ->) | (n & e & a & sid & ->)]]].
  - exact Hd.
  - apply apply_mutation_consistent. exact Hd.
  - apply insert_store_consistent; assumption.
  - apply update_store_consistent. exact Hd.
Qed.

Lemma handle_references (w : write_request) (now : Z) (d : database) :
  references_hold d -> references_hold (handle w now d).
Proof.
  intros Hd. destruct (handle_change w now d) as (d0 & evs & Hchange & Hrun).
  apply (references_after_trigger _ _ _ Hrun).
  apply (references_after_change _ _ Hchange). exact Hd.
Qed.

Lemma seeded_consistent : consistent createSampleData.
Proof.
  unfold createSampleData, seed_ratings. cbn [fold_left].
  repeat apply apply_mutation_consistent. exact seed_unrated_consistent.
Qed.

(** X5. The rating aggregates stay right under every write request, the
    creation and the editing of stores included.  Starting from a database
    whose foreign keys hold and whose store rows carry the count and the
    rounded mean of their ratings, every store row still does so after each
    request of any sequence of rating submissions, updates and deletions,
    store creations, updates and deletions, and user deletions. *)
Theorem writes_keep_aggregates (ws : list (write_request * Z)) (d : database) :
  references_hold d -> consistent d -> Forall consistent (served ws d).
Proof.
  revert d. induction ws as [|[w now] ws IH]; intros d Href Hd; cbn [served].
  - constructor.
  - constructor; [apply handle_consistent; assumption|].
    apply IH; [apply handle_references|apply handle_consistent]; assumption.
Qed.

Lemma writes_keep_aggregates_witness :
  Forall consistent (served sample_writes createSampleData).
Proof.
  apply (writes_keep_aggregates sample_writes createSampleData).
  - split; vm_compute; repeat (constructor; [auto|]); constructor.
  - exact seeded_consistent.
Defined.

(** ** Left joins *)

Lemma left_join_rows {A B : Type} (on : A -> B -> bool) (a : list A) (b : list B) x y :
  In (x, y) (left_join on a b) ->
  In x a /\
  match y with
  | Some r => In r b /\ on x r = true
  | None => filter (on x) b = []
  end.
Proof.
  unfold left_join. intros Hin. apply in_flat_map in Hin.
  destruct Hin as (x0 & Hx0 & Hin).
  destruct (filter (on x0) b) as [|m ms] eqn:Hf.
  - destruct Hin as [[= <- <-]|[]]. split; assumption.
  - apply in_map_iff in Hin. destruct Hin as (r & [= <- <-] & Hr).
    split; [exact Hx0|]. rewrite <- Hf in Hr. apply filter_In in Hr. exact Hr.
Qed.

Lemma left_join_keeps {A B : Type} (on : A -> B -> bool) (a : list A) (b : list B) x :
  In x a -> exists y, In (x, y) (left_join on a b).
Proof.
  intros Hx. unfold left_join.
  destruct (filter (on x) b) as [|m ms] eqn:Hf.
  - exists None. apply in_flat_map. exists x. split; [exact Hx|].
    rewrite Hf. left. reflexivity.
  - exists (Some m). apply in_flat_map. exists x. split; [exact Hx|].
    rewrite Hf. left. reflexivity.
Qed.

(** A row of the stores query with the requester's ratings joined: the
    store is in [stores], and the rating is one the requester gave to it,
    or the requester gave none. *)
Lemma stores_from_rated (d : database) (uid : Z) (row : store_row) :
  In row (stores_from d (Some uid)) ->
  In (row_s row) (stores d) /\
  match row_r row with
  | Some r => In r (ratings d) /\ same_key uid (Store.id (row_s row)) r = true
  | None => has_rated d uid (Store.id (row_s row)) = false
  end.
Proof.
  unfold stores_from. intros Hin. apply in_map_iff in Hin.
  destruct Hin as ([[s u] y] & <- & Hin). cbn [fst snd row_s row_r].
  apply left_join_rows in Hin. destruct Hin as [Hsu Hy]. cbn [fst] in Hy.
  apply left_join_rows in Hsu. destruct Hsu as [Hs _].
  split; [exact Hs|].
  destruct y as [r|].
  - destruct Hy as [Hr Hon]. split; [exact Hr|].
    apply andb_true_iff in Hon. destruct Hon as [H1 H2].
    unfold same_key. rewrite H2. apply Z.eqb_eq in H1. rewrite H1, Z.eqb_refl. reflexivity.
  - unfold has_rated.
    destruct (existsb (same_key uid (Store.id s)) (ratings d)) eqn:Hex; [|reflexivity].
    apply existsb_exists in Hex. destruct Hex as (r & Hr & Hkey).
    assert (Hf : In r (filter (fun r => (Store.id s =? Rating.store_id r)
                                        && (Rating.user_id r =? uid)) (ratings d))).
    { apply filter_In. split; [exact Hr|].
      unfold same_key in Hkey. apply andb_true_iff in Hkey. destruct Hkey as [H1 H2].
      rewrite H1. apply Z.eqb_eq in H2. rewrite H2, Z.eqb_refl. reflexivity. }
    rewrite Hy in Hf. destruct Hf.
Qed.

Lemma stores_from_keeps (d : database) (uid : Z) (s : Store.t) :
  In s (stores d) -> exists row, In row (stores_from d (Some uid)) /\ row_s row = s.
Proof.
  intros Hs. unfold stores_from.
  destruct (left_join_keeps (fun s u => owner_is (User.id u) s) (stores d) (users d) s Hs)
    as (u & Hsu).
  destruct (left_join_keeps
              (fun x r => (Store.id (fst x) =? Rating.store_id r) && (Rating.user_id r =? uid))
              _ (ratings d) (s, u) Hsu) as (y & Hrow).
  exists (mkStoreRow s u y). split; [|reflexivity].
  apply in_map_iff. exists ((s, u), y). split; [reflexivity|exact Hrow].
Qed.

(** GET /api/stores/:id for a normal user and a store that exists: the
    answer is the store, and [user_rating] is a rating the user gave to it,
    or null when the user gave none. *)
Lemma get_store_user_rating (user : principal) (id : string) (sid : Z) (d : database) :
  user_role user = "NORMAL_USER" ->
  int4_of_string id = Some sid ->
  store_exists d sid = true ->
  status (get_store user id d) = 200 /\
  match shown_rating user id d with
  | Some (Some v) =>
      exists r, In r (ratings d) /\ same_key (user_id user) sid r = true /\ Rating.rating r = v
  | Some None => has_rated d (user_id user) sid = false
  | None => False
  end.
Proof.
  intros Hrole Hid Hex. unfold shown_rating, get_store.
  rewrite (decimal_integer_in _ _ Hid), Hrole.
  change (String.eqb "NORMAL_USER" "NORMAL_USER") with true. cbv iota.
  apply store_exists_In in Hex. destruct Hex as (s & Hs & Hsid).
  destruct (stores_from_keeps d (user_id user) s Hs) as (row0 & Hrow0 & Hs0).
  destruct (filter (fun r => Store.id (row_s r) =? sid) (stores_from d (Some (user_id user))))
    as [|row rest] eqn:Hrows.
  - exfalso.
    assert (Hin : In row0 (filter (fun r => Store.id (row_s r) =? sid)
                                  (stores_from d (Some (user_id user))))).
    { apply filter_In. split; [exact Hrow0|]. rewrite Hs0. apply Z.eqb_eq. exact Hsid. }
    rewrite Hrows in Hin. destruct Hin.
  - assert (Hin : In row (filter (fun r => Store.id (row_s r) =? sid)
                                 (stores_from d (Some (user_id user))))).
    { rewrite Hrows. left. reflexivity. }
    apply filter_In in Hin. destruct Hin as [Hin Hrid]. apply Z.eqb_eq in Hrid.
    apply stores_from_rated in Hin. destruct Hin as [_ Hr]. rewrite Hrid in Hr.
    unfold owner_denied. rewrite Hrole.
    change (String.eqb "NORMAL_USER" "STORE_OWNER") with false.
    cbn [andb status body detail_item user_rating store_item_of].
    split; [reflexivity|].
    destruct (row_r row) as [r|]; cbn [option_map].
    + exists r. destruct Hr as [H1 H2]. auto.
    + exact Hr.
Qed.

Lemma has_rated_In (d : database) (uid sid : Z) :
  has_rated d uid sid = true <->
  exists r, In r (ratings d) /\ same_key uid sid r = true.
Proof. unfold has_rated. apply existsb_exists. Qed.

(** ** What a rating statement that went through did *)

Lemma insert_rating_done uid sid v c now d r d2 :
  insert_rating uid sid v c now d = Done r d2 ->
  r = Rating.mk (ratings_id_seq d + 1) uid sid v c now now /\
  ratings d2 = ratings d ++ [r] /\ users d2 = users d /\
  Forall2 same_store_columns (stores d) (stores d2).
Proof.
  unfold insert_rating.
  destruct (negb (bindable c)); [discriminate|].
  destruct (rating_row_ok d _); [|discriminate].
  destruct (rating_update_trigger _ _) as [d'|] eqn:Hrun; [|discriminate].
  intros [= <- <-].
  destruct (rating_update_trigger_columns _ _ _ Hrun) as (Hcols & Hu & Hr & _).
  repeat split; assumption.
Qed.

Lemma update_rating_done v c uid sid now d rows d2 :
  update_rating v c uid sid now d = Done rows d2 ->
  ratings d2 = map (fun r => if same_key uid sid r then set_rating v c now r else r)
                   (ratings d) /\
  users d2 = users d /\
  Forall2 same_store_columns (stores d) (stores d2).
Proof.
  unfold update_rating.
  destruct (negb (bindable c)); [discriminate|].
  destruct (filter (same_key uid sid) (ratings d)) as [|r0 hit] eqn:Hhit.
  - intros [= <- <-]. split; [|split; [reflexivity|apply store_columns_same_rows]].
    rewrite <- (map_id (ratings d)) at 1. apply map_ext_in. intros r Hr.
    destruct (same_key uid sid r) eqn:Hkey; [|reflexivity].
    exfalso. assert (Hin : In r (filter (same_key uid sid) (ratings d))).
    { apply filter_In. split; assumption. }
    rewrite Hhit in Hin. destruct Hin.
  - destruct (rating_check v); [|discriminate].
    destruct (rating_update_trigger _ _) as [d'|] eqn:Hrun; [|discriminate].
    intros [= <- <-].
    destruct (rating_update_trigger_columns _ _ _ Hrun) as (Hcols & Hu & Hr & _).
    repeat split; assumption.
Qed.

Lemma delete_rating_done uid sid d d2 :
  delete_rating uid sid d = Done tt d2 ->
  ratings d2 = filter (fun r => negb (same_key uid sid r)) (ratings d) /\
  users d2 = users d /\
  Forall2 same_store_columns (stores d) (stores d2).
Proof.
  unfold delete_rating.
  destruct (rating_update_trigger _ _) as [d'|] eqn:Hrun; [|discriminate].
  intros [= <-].
  destruct (rating_update_trigger_columns _ _ _ Hrun) as (Hcols & Hu & Hr & _).
  repeat split; assumption.
Qed.

(** ** Writing a rating and reading it back *)

(** X6. A rating that was accepted is the one the store page shows to its
    author: after POST /api/ratings answered 201, GET /api/stores/:id for
    the same user and store answers 200 with [user_rating] equal to the
    rating just submitted. *)
Theorem submitted_rating_is_shown
    (user : principal) (id : string) (sid v : Z) (c : option string) (now : Z)
    (d : database) :
  user_role user = "NORMAL_USER" ->
  int4_of_string id = Some sid ->
  status (fst (post_rating user sid v c now d)) = 201 ->
  status (get_store user id (snd (post_rating user sid v c now d))) = 200 /\
  shown_rating user id (snd (post_rating user sid v c now d)) = Some (Some v).
Proof.
  intros Hrole Hid. unfold post_rating.
  destruct (store_exists d sid) eqn:Hex; cbn [negb]; [|discriminate].
  destruct (has_rated d (user_id user) sid) eqn:Hrated; [discriminate|].
  destruct (insert_rating (user_id user) sid v c now d) as [r d2|d2] eqn:Hins;
    [|discriminate].
  intros _. cbn [snd].
  destruct (insert_rating_done _ _ _ _ _ _ _ _ Hins) as (Hr & Hrs & _ & Hcols).
  assert (Hex2 : store_exists d2 sid = true).
  { rewrite (store_exists_ids d d2 (store_columns_ids _ _ Hcols)). exact Hex. }
  destruct (get_store_user_rating user id sid d2 Hrole Hid Hex2) as [Hstatus Hshown].
  split; [exact Hstatus|].
  destruct (shown_rating user id d2) as [[v'|]|]; [| |destruct Hshown].
  - destruct Hshown as (r' & Hin & Hkey & <-).
    rewrite Hrs in Hin. apply in_app_or in Hin. destruct Hin as [Hin|[<-|[]]].
    + exfalso. assert (has_rated d (user_id user) sid = true)
        by (apply has_rated_In; eauto). congruence.
    + rewrite Hr. reflexivity.
  - exfalso. assert (Hnow : has_rated d2 (user_id user) sid = true).
    { apply has_rated_In. exists r. split.
      - rewrite Hrs. apply in_or_app. right. left. reflexivity.
      - rewrite Hr. unfold same_key. cbn. rewrite !Z.eqb_refl. reflexivity. }
    congruence.
Qed.

Lemma submitted_rating_is_shown_witness :
  status (get_store (mkPrincipal 4 "NORMAL_USER") "3"
            (snd (post_rating (mkPrincipal 4 "NORMAL_USER") 3 2 None 7 createSampleData)))
  = 200 /\
  shown_rating (mkPrincipal 4 "NORMAL_USER") "3"
    (snd (post_rating (mkPrincipal 4 "NORMAL_USER") 3 2 None 7 createSampleData))
  = Some (Some 2).
Proof.
  apply (submitted_rating_is_shown (mkPrincipal 4 "NORMAL_USER") "3" 3 2 None 7
           createSampleData);
    vm_compute; reflexivity.
Defined.

(** X7. An updated rating is the one the store page shows to its author:
    after PUT /api/ratings/:storeId answered 200, GET /api/stores/:id for
    the same user and store answers 200 with [user_rating] equal to the new
    rating. *)
Theorem updated_rating_is_shown
    (user : principal) (id : string) (sid v : Z) (c : option string) (now : Z)
    (d : database) :
  user_role user = "NORMAL_USER" ->
  int4_of_string id = Some sid ->
  status (fst (put_rating user sid v c now d)) = 200 ->
  status (get_store user id (snd (put_rating user sid v c now d))) = 200 /\
  shown_rating user id (snd (put_rating user sid v c now d)) = Some (Some v).
Proof.
  intros Hrole Hid. unfold put_rating.
  destruct (store_exists d sid) eqn:Hex; cbn [negb]; [|discriminate].
  destruct (has_rated d (user_id user) sid) eqn:Hrated; cbn [negb]; [|discriminate].
  destruct (update_rating v c (user_id user) sid now d) as [rows d2|d2] eqn:Hupd;
    [|discriminate].
  intros _. cbn [snd].
  destruct (update_rating_done _ _ _ _ _ _ _ _ Hupd) as (Hrs & _ & Hcols).
  assert (Hex2 : store_exists d2 sid = true).
  { rewrite (store_exists_ids d d2 (store_columns_ids _ _ Hcols)). exact Hex. }
  destruct (get_store_user_rating user id sid d2 Hrole Hid Hex2) as [Hstatus Hshown].
  split; [exact Hstatus|].
  destruct (shown_rating user id d2) as [[v'|]|]; [| |destruct Hshown].
  - destruct Hshown as (r' & Hin & Hkey & <-).
    rewrite Hrs in Hin. apply in_map_iff in Hin. destruct Hin as (r0 & <- & Hin).
    destruct (same_key (user_id user) sid r0) eqn:Hkey0; [reflexivity|congruence].
  - exfalso. apply has_rated_In in Hrated. destruct Hrated as (r0 & Hin & Hkey).
    assert (Hnow : has_rated d2 (user_id user) sid = true).
    { apply has_rated_In. exists (set_rating v c now r0). split.
      - rewrite Hrs. apply in_map_iff. exists r0. rewrite Hkey. auto.
      - exact Hkey. }
    congruence.
Qed.

Lemma updated_rating_is_shown_witness :
  status (get_store (mkPrincipal 4 "NORMAL_USER") "1"
            (snd (put_rating (mkPrincipal 4 "NORMAL_USER") 1 2 None 7 createSampleData)))
  = 200 /\
  shown_rating (mkPrincipal 4 "NORMAL_USER") "1"
    (snd (put_rating (mkPrincipal 4 "NORMAL_USER") 1 2 None 7 createSampleData))
  = Some (Some 2).
Proof.
  apply (updated_rating_is_shown (mkPrincipal 4 "NORMAL_USER") "1" 1 2 None 7
           createSampleData);
    vm_compute; reflexivity.
Defined.

(** X8. A rating that was withdrawn is no longer shown: after DELETE
    /api/ratings/:storeId answered 200, GET /api/stores/:id for the same
    user and a store that exists answers 200 with [user_rating] null. *)
Theorem deleted_rating_is_not_shown
    (user : principal) (id : string) (sid : Z) (d : database) :
  user_role user = "NORMAL_USER" ->
  int4_of_string id = Some sid ->
  store_exists d sid = true ->
  status (fst (delete_rating_handler user sid d)) = 200 ->
  status (get_store user id (snd (delete_rating_handler user sid d))) = 200 /\
  shown_rating user id (snd (delete_rating_handler user sid d)) = Some None.
Proof.
  intros Hrole Hid Hex. unfold delete_rating_handler.
  destruct (has_rated d (user_id user) sid) eqn:Hrated; cbn [negb]; [|discriminate].
  destruct (delete_rating (user_id user) sid d) as [[] d2|d2] eqn:Hdel; [|discriminate].
  intros _. cbn [snd].
  destruct (delete_rating_done _ _ _ _ Hdel) as (Hrs & _ & Hcols).
  assert (Hex2 : store_exists d2 sid = true).
  { rewrite (store_exists_ids d d2 (store_columns_ids _ _ Hcols)). exact Hex. }
  destruct (get_store_user_rating user id sid d2 Hrole Hid Hex2) as [Hstatus Hshown].
  split; [exact Hstatus|].
  destruct (shown_rating user id d2) as [[v'|]|]; [|reflexivity|destruct Hshown].
  exfalso. destruct Hshown as (r' & Hin & Hkey & _).
  rewrite Hrs in Hin. apply filter_In in Hin. destruct Hin as [_ Hkeep].
  rewrite Hkey in Hkeep. discriminate.
Qed.

Lemma deleted_rating_is_not_shown_witness :
  status (get_store (mkPrincipal 4 "NORMAL_USER") "1"
            (snd (delete_rating_handler (mkPrincipal 4 "NORMAL_USER") 1 createSampleData)))
  = 200 /\
  shown_rating (mkPrincipal 4 "NORMAL_USER") "1"
    (snd (delete_rating_handler (mkPrincipal 4 "NORMAL_USER") 1 createSampleData))
  = Some None.
Proof.
  apply (deleted_rating_is_not_shown (mkPrincipal 4 "NORMAL_USER") "1" 1 createSampleData);
    vm_compute; reflexivity.
Defined.

(** ** A rating request touches one user's rating of one store *)

Lemma trigger_for_store (sid : Z) evs d d' :
  Forall (fun e => event_store e = Some sid) evs ->
  rating_update_trigger evs d = Some d' ->
  Forall2 (fun s s' => Store.id s <> sid -> s' = s) (stores d) (stores d').
Proof.
  intros Hall Hrun. destruct evs as [|e evs].
  - cbn in Hrun. injection Hrun as <-. apply Forall2_eq_refl. auto.
  - assert (Hne : e :: evs <> []) by discriminate.
    destruct (rating_update_trigger_one_store sid _ d d' Hne Hall Hrun) as (Hupd & _).
    apply update_stores_rows in Hupd.
    eapply Forall2_impl; [|exact Hupd].
    intros s s' Hrow Hid. unfold row_updated in Hrow.
    destruct (Z.eqb_spec (Store.id s) sid); [contradiction|exact Hrow].
Qed.

Lemma events_of_key (uid sid : Z) (make : Rating.t -> trigger_event) (rs : list Rating.t) :
  (forall r, same_key uid sid r = true -> event_store (make r) = Some sid) ->
  Forall (fun e => event_store e = Some sid) (map make (filter (same_key uid sid) rs)).
Proof.
  intros Hmake. apply Forall_forall. intros e He.
  apply in_map_iff in He. destruct He as (r & <- & Hr).
  apply filter_In in Hr. apply Hmake. apply Hr.
Qed.

(** X9. A rating request is local to its author and its store.  Whatever
    POST /api/ratings, PUT /api/ratings/:storeId or DELETE
    /api/ratings/:storeId does for a user and a store, the users table is
    as it was, every store row with another id is exactly as it was, and
    the ratings other users gave, and the ratings on other stores, are
    exactly the ones that were there. *)
Theorem rating_requests_are_local
    (user : principal) (sid v : Z) (c : option string) (now : Z) (d d' : database) :
  d' = snd (post_rating user sid v c now d) \/
  d' = snd (put_rating user sid v c now d) \/
  d' = snd (delete_rating_handler user sid d) ->
  users d' = users d /\
  Forall2 (fun s s' => Store.id s <> sid -> s' = s) (stores d) (stores d') /\
  forall r, same_key (user_id user) sid r = false ->
            (In r (ratings d') <-> In r (ratings d)).
Proof.
  assert (Hsame : users d = users d /\
            Forall2 (fun s s' => Store.id s <> sid -> s' = s) (stores d) (stores d) /\
            forall r, same_key (user_id user) sid r = false ->
                      (In r (ratings d) <-> In r (ratings d))).
  { split; [reflexivity|]. split; [apply Forall2_eq_refl; auto|]. intros; reflexivity. }
  intros [-> | [-> | ->]].
  - unfold post_rating.
    destruct (negb (store_exists d sid)); [exact Hsame|].
    destruct (has_rated d (user_id user) sid); [exact Hsame|].
    unfold insert_rating.
    destruct (negb (bindable c)); [exact Hsame|].
    destruct (rating_row_ok d _); [|exact Hsame].
    destruct (rating_update_trigger _ _) as [d2|] eqn:Hrun; [|exact Hsame].
    cbn [snd].
    destruct (rating_update_trigger_columns _ _ _ Hrun) as (_ & Hu & Hr & _).
    split; [exact Hu|]. split.
    + apply (trigger_for_store sid _ _ _) in Hrun; [exact Hrun|].
      constructor; [reflexivity|constructor].
    + intros r Hkey. rewrite Hr. cbn [ratings with_ratings]. split.
      * intros Hin. apply in_app_or in Hin. destruct Hin as [Hin|[<-|[]]]; [exact Hin|].
        unfold same_key in Hkey. cbn in Hkey. rewrite !Z.eqb_refl in Hkey. discriminate.
      * intros Hin. apply in_or_app. left. exact Hin.
  - unfold put_rating.
    destruct (negb (store_exists d sid)); [exact Hsame|].
    destruct (negb (has_rated d (user_id user) sid)); [exact Hsame|].
    unfold update_rating.
    destruct (negb (bindable c)); [exact Hsame|].
    destruct (filter (same_key (user_id user) sid) (ratings d)) as [|r0 hit] eqn:Hhit;
      [exact Hsame|].
    destruct (rating_check v); [|exact Hsame].
    destruct (rating_update_trigger _ _) as [d2|] eqn:Hrun; [|exact Hsame].
    cbn [snd].
    destruct (rating_update_trigger_columns _ _ _ Hrun) as (_ & Hu & Hr & _).
    split; [exact Hu|]. split.
    + apply (trigger_for_store sid _ _ _) in Hrun; [exact Hrun|].
      rewrite <- Hhit. apply events_of_key.
      intros r Hkey. cbn. apply same_key_store in Hkey. rewrite Hkey. reflexivity.
    + intros r Hkey. rewrite Hr. cbn [ratings with_ratings]. split.
      * intros Hin. apply in_map_iff in Hin. destruct Hin as (r1 & Hr1 & Hin).
        destruct (same_key (user_id user) sid r1) eqn:Hkey1; [|subst; exact Hin].
        subst r. unfold same_key in Hkey, Hkey1. cbn in Hkey. congruence.
      * intros Hin. apply in_map_iff. exists r. rewrite Hkey. auto.
  - unfold delete_rating_handler.
    destruct (negb (has_rated d (user_id user) sid)); [exact Hsame|].
    unfold delete_rating.
    destruct (rating_update_trigger _ _) as [d2|] eqn:Hrun; [|exact Hsame].
    cbn [snd].
    destruct (rating_update_trigger_columns _ _ _ Hrun) as (_ & Hu & Hr & _).
    split; [exact Hu|]. split.
    + apply (trigger_for_store sid _ _ _) in Hrun; [exact Hrun|].
      apply events_of_key.
      intros r Hkey. cbn. apply same_key_store in Hkey. rewrite Hkey. reflexivity.
    + intros r Hkey. rewrite Hr. cbn [ratings with_ratings]. split.
      * intros Hin. apply filter_In in Hin. apply Hin.
      * intros Hin. apply filter_In. rewrite Hkey. auto.
Qed.

Lemma rating_requests_are_local_witness :
  users (snd (put_rating (mkPrincipal 4 "NORMAL_USER") 1 2 None 7 createSampleData))
  = users createSampleData /\
  Forall2 (fun s s' => Store.id s <> 1 -> s' = s)
          (stores createSampleData)
          (stores (snd (put_rating (mkPrincipal 4 "NORMAL_USER") 1 2 None 7 createSampleData))) /\
  forall r, same_key (user_id (mkPrincipal 4 "NORMAL_USER")) 1 r = false ->
            (In r (ratings (snd (put_rating (mkPrincipal 4 "NORMAL_USER") 1 2 None 7
                                            createSampleData)))
             <-> In r (ratings createSampleData)).
Proof.
  apply (rating_requests_are_local (mkPrincipal 4 "NORMAL_USER") 1 2 None 7 createSampleData).
  right. left. reflexivity.
Defined.

(** ** LIKE with a plain text between two [%] *)

Lemma like_percent_step (p s : list ascii) :
  like ("%"%char :: p) s
  = match like p s with
    | None => None
    | Some true => Some true
    | Some false =>
        match s with
        | [] => Some false
        | _ :: s' => like ("%"%char :: p) s'
        end
    end.
Proof. destruct s; reflexivity. Qed.

Lemma like_plain_step (c : ascii) (p s : list ascii) :
  wildcard c = false ->
  like (c :: p) s
  = match s with
    | [] => Some false
    | x :: s' => if Ascii.eqb x c then like p s' else Some false
    end.
Proof.
  unfold wildcard. intros H.
  apply orb_false_iff in H. destruct H as [H H3].
  apply orb_false_iff in H. destruct H as [H1 H2].
  cbn [like]. rewrite H1, H2, H3. destruct s; reflexivity.
Qed.

Lemma like_percent_only (s : list ascii) : like ["%"%char] s = Some true.
Proof.
  induction s as [|x s IH]; [reflexivity|].
  rewrite like_percent_step. cbn [like]. exact IH.
Qed.

Lemma like_plain_prefix (x s : list ascii) :
  forallb (fun c => negb (wildcard c)) x = true ->
  like (x ++ ["%"%char]) s = Some (starts_with x s).
Proof.
  revert s. induction x as [|c x IH]; intros s Hx.
  - cbn [app]. rewrite like_percent_only. destruct s; reflexivity.
  - cbn [forallb] in Hx. apply andb_true_iff in Hx. destruct Hx as [Hc Hx].
    apply negb_true_iff in Hc.
    cbn [app]. rewrite (like_plain_step _ _ _ Hc).
    destruct s as [|e s]; [reflexivity|].
    cbn [starts_with]. destruct (Ascii.eqb e c); [apply IH; exact Hx|reflexivity].
Qed.

Lemma like_plain_between (x s : list ascii) :
  forallb (fun c => negb (wildcard c)) x = true ->
  like ("%"%char :: x ++ ["%"%char]) s = Some (occurs x s).
Proof.
  intros Hx. induction s as [|e s IH].
  - rewrite like_percent_step, (like_plain_prefix _ _ Hx).
    cbn [occurs]. destruct (starts_with x []); reflexivity.
  - rewrite like_percent_step, (like_plain_prefix _ _ Hx).
    cbn [occurs]. destruct (starts_with x (e :: s)); [reflexivity|exact IH].
Qed.

Lemma lower_char_wildcard (c : ascii) : wildcard (lower_char c) = wildcard c.
Proof.
  destruct c as [[] [] [] [] [] [] [] []]; vm_compute; reflexivity.
Qed.

(** [LOWER(col) LIKE LOWER('%' || search || '%')] for a plain search text
    asks whether the text occurs in the column, letter case ignored. *)
Lemma sql_like_plain (s search : string) :
  plain_text search = true ->
  sql_like (sql_lower s) (sql_lower ("%" ++ search ++ "%"))
  = Some (contains_ignoring_case search s).
Proof.
  intros Hplain. unfold sql_like, sql_lower, contains_ignoring_case.
  rewrite (chars_toLowerCase ("%" ++ search ++ "%")), !chars_append, !map_app.
  change (map lower_char (chars "%")) with ["%"%char].
  cbn [app]. rewrite <- chars_toLowerCase.
  apply like_plain_between.
  rewrite chars_toLowerCase.
  unfold plain_text in Hplain.
  induction (chars search) as [|c l IH]; [reflexivity|].
  cbn [map forallb] in *. apply andb_true_iff in Hplain. destruct Hplain as [Hc Hl].
  rewrite lower_char_wildcard, Hc. exact (IH Hl).
Qed.

Lemma starts_with_prefix (x s : list ascii) :
  starts_with x s = true <-> exists post, s = x ++ post.
Proof.
  revert s. induction x as [|c x IH]; intros s; cbn [starts_with].
  - split; [intros _; exists s; reflexivity|reflexivity].
  - destruct s as [|e s].
    + split; [discriminate|intros (post & H); discriminate].
    + rewrite andb_true_iff, IH. split.
      * intros [He (post & ->)]. apply Ascii.eqb_eq in He. subst e.
        exists post. reflexivity.
      * intros (post & H). cbn in H. injection H as -> ->.
        split; [apply Ascii.eqb_refl|exists post; reflexivity].
Qed.

(** [occurs] is the usual notion of a substring. *)
Lemma occurs_substring (x s : list ascii) :
  occurs x s = true <-> exists pre post, s = pre ++ x ++ post.
Proof.
  induction s as [|e s IH]; cbn [occurs].
  - rewrite orb_false_r, starts_with_prefix. split.
    + intros (post & ->). exists [], post. reflexivity.
    + intros (pre & post & H). destruct pre; [|discriminate].
      exists post. exact H.
  - rewrite orb_true_iff, starts_with_prefix, IH. split.
    + intros [(post & ->)|(pre & post & ->)].
      * exists [], post. reflexivity.
      * exists (e :: pre), post. reflexivity.
    + intros (pre & post & H). destruct pre as [|e' pre].
      * left. exists post. exact H.
      * right. cbn in H. injection H as _ ->. exists pre, post. reflexivity.
Qed.

(** ** The rows a SELECT returns *)

Lemma where_rows_filter {R : Type} (T : table R) ps cs (p : R -> bool) (rows : list R) :
  (forall r, In r rows -> holds_all T ps cs r = Some (p r)) ->
  where_rows T ps cs rows = Some (filter p rows).
Proof.
  induction rows as [|r rows IH]; intros H; cbn [where_rows filter]; [reflexivity|].
  rewrite (H r (or_introl eq_refl)), IH.
  - destruct (p r); reflexivity.
  - intros r' Hr'. apply H. right. exact Hr'.
Qed.

Lemma insert_sorted_In {R : Type} (leb : R -> R -> bool) (x y : R) (l : list R) :
  In y (insert_sorted leb x l) <-> y = x \/ In y l.
Proof.
  induction l as [|z l IH]; cbn [insert_sorted].
  - cbn. intuition congruence.
  - destruct (leb x z); cbn [In]; [intuition congruence|].
    rewrite IH. intuition congruence.
Qed.

Lemma sort_rows_In {R : Type} (leb : R -> R -> bool) (y : R) (l : list R) :
  In y (sort_rows leb l) <-> In y l.
Proof.
  unfold sort_rows. induction l as [|x l IH]; cbn [fold_right]; [reflexivity|].
  rewrite insert_sorted_In, IH. cbn. intuition congruence.
Qed.

Lemma window_In {R : Type} (n m : nat) (l : list R) (y : R) :
  In y (firstn n (skipn m l)) -> In y l.
Proof.
  intros H.
  rewrite <- (firstn_skipn m l). apply in_or_app. right.
  rewrite <- (firstn_skipn n (skipn m l)). apply in_or_app. left. exact H.
Qed.

(** Every row a SELECT returns is a row of its FROM clause that passes its
    WHERE clause. *)
Lemma run_select_sound {R : Type} (T : table R) ps from q rows (p : R -> bool) :
  run_select T ps from q = Some rows ->
  (forall r, In r from -> holds_all T ps (sel_where q) r = Some (p r)) ->
  forall r, In r rows -> In r from /\ p r = true.
Proof.
  intros Hrun Hp r Hr.
  destruct (run_select_bounds _ _ _ _ _ Hrun)
    as (pl & po & l & o & matched & _ & _ & _ & _ & _ & _ & Hwhere & ->).
  rewrite (where_rows_filter T ps (sel_where q) p from Hp) in Hwhere.
  injection Hwhere as <-.
  apply window_In, sort_rows_In, filter_In in Hr. exact Hr.
Qed.

(** ** ORDER BY *)

Lemma ordered_rest {R : Type} (leb : R -> R -> bool) (a : R) (l : list R) :
  ordered leb (a :: l) = true -> ordered leb l = true.
Proof. cbn [ordered]. intros H. apply andb_true_iff in H. apply H. Qed.

Lemma insert_sorted_ordered {R : Type} (leb : R -> R -> bool) (x : R) (l : list R) :
  (forall a b, leb a b = false -> leb b a = true) ->
  ordered leb l = true -> ordered leb (insert_sorted leb x l) = true.
Proof.
  intros Htotal. induction l as [|y l IH]; intros Hl; [reflexivity|].
  cbn [insert_sorted]. destruct (leb x y) eqn:Hxy.
  - cbn [ordered] in *. rewrite Hxy. exact Hl.
  - specialize (IH (ordered_rest _ _ _ Hl)).
    change (ordered leb (y :: insert_sorted leb x l))
      with (match insert_sorted leb x l with
            | b :: _ => leb y b
            | [] => true
            end && ordered leb (insert_sorted leb x l)).
    rewrite IH, andb_true_r.
    destruct l as [|z l]; cbn [insert_sorted].
    + apply Htotal. exact Hxy.
    + destruct (leb x z); [apply Htotal; exact Hxy|].
      cbn [ordered] in Hl. apply andb_true_iff in Hl. apply Hl.
Qed.

Lemma sort_rows_ordered {R : Type} (leb : R -> R -> bool) (l : list R) :
  (forall a b, leb a b = false -> leb b a = true) ->
  ordered leb (sort_rows leb l) = true.
Proof.
  intros Htotal. unfold sort_rows. induction l as [|x l IH]; [reflexivity|].
  cbn [fold_right]. apply insert_sorted_ordered; assumption.
Qed.

Lemma ordered_skipn {R : Type} (leb : R -> R -> bool) (n : nat) (l : list R) :
  ordered leb l = true -> ordered leb (skipn n l) = true.
Proof.
  revert l. induction n as [|n IH]; intros l Hl; [exact Hl|].
  destruct l as [|a l]; [reflexivity|].
  cbn [skipn]. apply IH. exact (ordered_rest _ _ _ Hl).
Qed.

Lemma ordered_firstn {R : Type} (leb : R -> R -> bool) (n : nat) (l : list R) :
  ordered leb l = true -> ordered leb (firstn n l) = true.
Proof.
  revert l. induction n as [|n IH]; intros l Hl; [reflexivity|].
  destruct l as [|a l]; [reflexivity|].
  cbn [firstn].
  change (ordered leb (a :: firstn n l))
    with (match firstn n l with
          | b :: _ => leb a b
          | [] => true
          end && ordered leb (firstn n l)).
  rewrite (IH l (ordered_rest _ _ _ Hl)), andb_true_r.
  destruct n as [|n]; [reflexivity|].
  destruct l as [|b l]; [reflexivity|].
  cbn [firstn]. cbn [ordered] in Hl. apply andb_true_iff in Hl. apply Hl.
Qed.

Lemma ordered_map {A B : Type} (f : A -> B) (leb : A -> A -> bool) (leb' : B -> B -> bool)
    (l : list A) :
  (forall a b, leb a b = true -> leb' (f a) (f b) = true) ->
  ordered leb l = true -> ordered leb' (map f l) = true.
Proof.
  intros Hf. induction l as [|a l IH]; intros Hl; [reflexivity|].
  cbn [map].
  change (ordered leb' (f a :: map f l))
    with (match map f l with
          | b :: _ => leb' (f a) b
          | [] => true
          end && ordered leb' (map f l)).
  rewrite (IH (ordered_rest _ _ _ Hl)), andb_true_r.
  destruct l as [|b l]; [reflexivity|].
  cbn [map]. apply Hf. cbn [ordered] in Hl. apply andb_true_iff in Hl. apply Hl.
Qed.

Lemma text_leb_total (a b : list ascii) : text_leb a b = false -> text_leb b a = true.
Proof.
  revert b. induction a as [|x a IH]; intros b; [discriminate|].
  destruct b as [|y b]; [reflexivity|].
  cbn [text_leb].
  destruct (N.ltb_spec (code x) (code y)) as [Hxy|Hxy]; [discriminate|].
  destruct (N.ltb_spec (code y) (code x)) as [Hyx|Hyx]; [reflexivity|].
  apply IH.
Qed.

Lemma value_leb_total (a b : value) : value_leb a b = false -> value_leb b a = true.
Proof.
  destruct a as [|x|x], b as [|y|y]; cbn [value_leb]; try discriminate; try reflexivity.
  - intros H. apply Z.leb_gt in H. apply Z.leb_le. lia.
  - apply text_leb_total.
Qed.

Lemma order_leb_total {R : Type} (T : table R) (col dir : string) (a b : R) :
  order_leb T col dir a b = false -> order_leb T col dir b a = true.
Proof.
  unfold order_leb. destruct (String.eqb dir "DESC"); apply value_leb_total.
Qed.

(** The rows a SELECT returns come in the order its ORDER BY asks for. *)
Lemma run_select_ordered {R : Type} (T : table R) ps from q rows :
  run_select T ps from q = Some rows ->
  ordered (order_leb T (sel_order_by q) (sel_direction q)) rows = true.
Proof.
  intros Hrun.
  destruct (run_select_bounds _ _ _ _ _ Hrun)
    as (pl & po & l & o & matched & _ & _ & _ & _ & _ & _ & _ & ->).
  apply ordered_firstn, ordered_skipn, sort_rows_ordered.
  intros a b. apply order_leb_total.
Qed.

(** ** GET /api/stores in closed form *)

Lemma stores_searchField_cases (q : Query.t) :
  stores_searchField q = "name" \/ stores_searchField q = "address".
Proof.
  unfold stores_searchField.
  destruct (allow_listed_in stores_validSearchFields "name"
              (string_or "name" (Query.searchBy q))) as [H|[H|[H|[]]]];
    rewrite <- H; auto.
Qed.

Lemma stores_like_holds (q : Query.t) (x : string) (r : store_row) (rest : list param) :
  plain_text x = true ->
  holds stores_table (PStr ("%" ++ x ++ "%") :: rest)
        (LikeLower ("s." ++ stores_searchField q) 1) r
  = Some (contains_ignoring_case x (stores_searched_text q (row_s r))).
Proof.
  intros Hplain. unfold stores_searched_text.
  destruct (stores_searchField_cases q) as [-> | ->].
  - change (holds stores_table (PStr ("%" ++ x ++ "%") :: rest)
                  (LikeLower ("s." ++ "name") 1) r)
      with (sql_like (sql_lower (Store.name (row_s r))) (sql_lower ("%" ++ x ++ "%"))).
    apply sql_like_plain. exact Hplain.
  - change (holds stores_table (PStr ("%" ++ x ++ "%") :: rest)
                  (LikeLower ("s." ++ "address") 1) r)
      with (sql_like (sql_lower (Store.address (row_s r))) (sql_lower ("%" ++ x ++ "%"))).
    apply sql_like_plain. exact Hplain.
Qed.

Lemma stores_owner_holds (uid : Z) (n : nat) (ps : list param) (r : store_row) :
  bound ps n = Some (PInt uid) ->
  holds stores_table ps (Equals "s.owner_id" n) r = Some (owned_by uid (row_s r)).
Proof.
  intros Hb.
  change (holds stores_table ps (Equals "s.owner_id" n) r)
    with (match nullable_int (Store.owner_id (row_s r)), bound ps n with
          | VText s, Some (PStr p) => Some (String.eqb s p)
          | VInt z, Some p =>
              match int8_of_param p with
              | Some z' => Some (z =? z')
              | None => Some false
              end
          | _, _ => Some false
          end).
  rewrite Hb. unfold owned_by.
  destruct (Store.owner_id (row_s r)); reflexivity.
Qed.

(** The WHERE clause of the count query, row by row. *)
Lemma stores_count_holds (user : principal) (q : Query.t) (r : store_row) :
  plain_text (string_or "" (Query.search q)) = true ->
  holds_all stores_table (snd (stores_countQuery user q))
            (cnt_where (fst (stores_countQuery user q))) r
  = Some (store_listed user q (row_s r)).
Proof.
  intros Hplain.
  unfold stores_countQuery, stores_filters, when, and_like, and_equals, store_listed.
  destruct (String.eqb (user_role user) "STORE_OWNER");
    destruct (truthy (string_or "" (Query.search q)));
    cbn [fst snd cnt_where b_where b_params paramCount app holds_all].
  - rewrite (stores_like_holds q _ r _ Hplain).
    rewrite (stores_owner_holds (user_id user)) by reflexivity.
    rewrite andb_true_r, andb_comm. reflexivity.
  - rewrite (stores_owner_holds (user_id user)) by reflexivity.
    rewrite !andb_true_r. reflexivity.
  - rewrite (stores_like_holds q _ r _ Hplain).
    rewrite andb_true_r. reflexivity.
  - reflexivity.
Qed.

Lemma stores_from_store (d : database) (rater : option Z) (row : store_row) :
  In row (stores_from d rater) -> In (row_s row) (stores d).
Proof.
  destruct rater as [uid|].
  - intros H. apply (stores_from_rated d uid row H).
  - unfold stores_from. intros H. apply in_map_iff in H.
    destruct H as ([s u] & <- & H). apply left_join_rows in H. apply H.
Qed.

Lemma run_stores_query_select (d : database) (qp : select_query * list param) rows :
  run_stores_query d qp = Some rows ->
  exists rater, run_select stores_table (snd qp) (stores_from d rater) (fst qp) = Some rows.
Proof.
  unfold run_stores_query. destruct qp as [query params]. cbn [fst snd].
  destruct (sel_join query) as [n|]; [|eauto].
  destruct (bound params n) as [p|]; [|discriminate].
  destruct (int8_of_param p); [|discriminate]. eauto.
Qed.

Lemma filter_stores_only (p : Store.t -> bool) (d : database) :
  List.length (filter (fun r => p (row_s r)) (stores_only d))
  = List.length (filter p (stores d)).
Proof.
  unfold stores_only. induction (stores d) as [|s l IH]; [reflexivity|].
  cbn [map filter row_s]. destruct (p s); cbn [List.length]; rewrite IH; reflexivity.
Qed.

(** X10. GET /api/stores with a plain search text (one without [%], [_]
    or a backslash), or with none, lists stores from the table that pass
    this test and no others: the searched column ([address] when so asked,
    [name] otherwise) contains the search text, letter case ignored, and
    for a [STORE_OWNER] principal the store is the principal's own.  The
    [total] of the pagination block is the number of stores in the table
    that pass the same test. *)
Theorem stores_list_selects_listed_stores
    (user : principal) (q : Query.t) (d : database)
    (items : list store_item) (block : pagination) :
  plain_text (string_or "" (Query.search q)) = true ->
  get_stores user q d = mkResponse 200 (ListPage items block) ->
  total block = sql_count (filter (store_listed user q) (stores d)) /\
  Forall (fun it => In (item_store it) (stores d) /\
                    store_listed user q (item_store it) = true) items.
Proof.
  intros Hplain. unfold get_stores.
  destruct (run_stores_query d (stores_query user q)) as [rows|] eqn:Hrows; [|discriminate].
  destruct (run_stores_count d (stores_countQuery user q)) as [n|] eqn:Hcount;
    [|discriminate].
  intros [= <- <-]. split.
  - cbn [total pagination_block].
    unfold run_stores_count in Hcount.
    pose proof (stores_count_holds user q) as Hholds.
    destruct (stores_countQuery user q) as [cq cps]. cbn [fst snd] in Hholds.
    apply run_count_rows in Hcount.
    rewrite (where_rows_filter stores_table cps (cnt_where cq)
               (fun r => store_listed user q (row_s r))) in Hcount
      by (intros r _; apply Hholds; exact Hplain).
    cbn [option_map] in Hcount. injection Hcount as <-.
    unfold sql_count. rewrite filter_stores_only. reflexivity.
  - apply run_stores_query_select in Hrows. destruct Hrows as (rater & Hrun).
    apply Forall_map, Forall_forall. intros r Hr.
    destruct (run_select_sound stores_table _ _ _ _
                (fun r => store_listed user q (row_s r)) Hrun) with (r := r)
      as [Hfrom Hlisted].
    + intros r' _. rewrite stores_filters_agree. apply stores_count_holds. exact Hplain.
    + exact Hr.
    + split; [|exact Hlisted].
      cbn [item_store store_item_of]. exact (stores_from_store d rater r Hfrom).
Qed.

Lemma stores_list_selects_listed_stores_witness :
  exists items block,
    get_stores seed_owner search_store createSampleData
    = mkResponse 200 (ListPage items block) /\
    total block
    = sql_count (filter (store_listed seed_owner search_store) (stores createSampleData)) /\
    Forall (fun it => In (item_store it) (stores createSampleData) /\
                      store_listed seed_owner search_store (item_store it) = true) items.
Proof.
  eexists _, _. split; [vm_compute; reflexivity|].
  apply (stores_list_selects_listed_stores seed_owner search_store createSampleData);
    vm_compute; reflexivity.
Defined.

Example owner_search_lists_own_store :
  match body (get_stores seed_owner search_store createSampleData) with
  | ListPage items block => map (fun it => Store.id (item_store it)) items = [1] /\ total block = 1
  | ListMessage _ => False
  end.
Proof. vm_compute. split; reflexivity. Qed.



Example stores_by_rating_descending :
  match body (get_stores seed_admin (Query.mk None None (Some "average_rating") (Some "DESC")
                                              None None None) createSampleData) with
  | ListPage items _ => map (fun it => Store.average_rating (item_store it)) items
                        = [Some 45; Some 45; Some 35]
  | ListMessage _ => False
  end.
Proof. vm_compute. reflexivity. Qed.

(** ** GET /api/users in closed form *)

Lemma users_searchField_cases (q : Query.t) :
  users_searchField q = "name" \/ users_searchField q = "email" \/
  users_searchField q = "address" \/ users_searchField q = "role".
Proof.
  unfold users_searchField.
  destruct (allow_listed_in users_validSearchFields "name"
              (string_or "name" (Query.searchBy q))) as [H|[H|[H|[H|[H|[]]]]]];
    rewrite <- H; auto.
Qed.

Lemma users_like_holds (q : Query.t) (x : string) (r : user_row) (rest : list param) :
  plain_text x = true ->
  holds (users_table "") (PStr ("%" ++ x ++ "%") :: rest)
        (LikeLower ("" ++ users_searchField q) 1) r
  = Some (contains_ignoring_case x (users_searched_text q (row_user r))).
Proof.
  intros Hplain. unfold users_searched_text.
  destruct (users_searchField_cases q) as [-> | [-> | [-> | ->]]];
    cbn [String.eqb Ascii.eqb Bool.eqb].
  - change (holds (users_table "") (PStr ("%" ++ x ++ "%") :: rest)
                  (LikeLower ("" ++ "name") 1) r)
      with (sql_like (sql_lower (User.name (row_user r))) (sql_lower ("%" ++ x ++ "%"))).
    apply sql_like_plain. exact Hplain.
  - change (holds (users_table "") (PStr ("%" ++ x ++ "%") :: rest)
                  (LikeLower ("" ++ "email") 1) r)
      with (sql_like (sql_lower (User.email (row_user r))) (sql_lower ("%" ++ x ++ "%"))).
    apply sql_like_plain. exact Hplain.
  - change (holds (users_table "") (PStr ("%" ++ x ++ "%") :: rest)
                  (LikeLower ("" ++ "address") 1) r)
      with (sql_like (sql_lower (User.address (row_user r))) (sql_lower ("%" ++ x ++ "%"))).
    apply sql_like_plain. exact Hplain.
  - change (holds (users_table "") (PStr ("%" ++ x ++ "%") :: rest)
                  (LikeLower ("" ++ "role") 1) r)
      with (sql_like (sql_lower (User.role (row_user r))) (sql_lower ("%" ++ x ++ "%"))).
    apply sql_like_plain. exact Hplain.
Qed.

Lemma users_role_holds (role : string) (n : nat) (ps : list param) (r : user_row) :
  bound ps n = Some (PStr role) ->
  holds (users_table "") ps (Equals ("" ++ "role") n) r
  = Some (String.eqb (User.role (row_user r)) role).
Proof.
  intros Hb.
  change (holds (users_table "") ps (Equals ("" ++ "role") n) r)
    with (match bound ps n with
          | Some (PStr p) => Some (String.eqb (User.role (row_user r)) p)
          | _ => Some false
          end).
  rewrite Hb. reflexivity.
Qed.

Lemma users_count_holds (q : Query.t) (r : user_row) :
  plain_text (string_or "" (Query.search q)) = true ->
  holds_all (users_table "") (snd (users_countQuery q))
            (cnt_where (fst (users_countQuery q))) r
  = Some (user_listed q (row_user r)).
Proof.
  intros Hplain.
  unfold users_countQuery, users_filters, when, and_like, and_equals, user_listed.
  destruct (truthy (string_or "" (Query.role q)));
    destruct (truthy (string_or "" (Query.search q)));
    cbn [fst snd cnt_where b_where b_params paramCount app holds_all].
  - rewrite (users_like_holds q _ r _ Hplain).
    rewrite (users_role_holds (string_or "" (Query.role q))) by reflexivity.
    rewrite andb_true_r, andb_comm. reflexivity.
  - rewrite (users_role_holds (string_or "" (Query.role q))) by reflexivity.
    rewrite !andb_true_r. reflexivity.
  - rewrite (users_like_holds q _ r _ Hplain).
    rewrite andb_true_r. reflexivity.
  - reflexivity.
Qed.

Lemma users_from_user (d : database) (row : user_row) :
  In row (users_from d) -> In (row_user row) (users d).
Proof.
  unfold users_from. intros H. apply in_map_iff in H.
  destruct H as ([u s] & <- & H). apply left_join_rows in H. apply H.
Qed.

Lemma filter_users_only (p : User.t -> bool) (d : database) :
  List.length (filter (fun r => p (row_user r)) (users_only d))
  = List.length (filter p (users d)).
Proof.
  unfold users_only. induction (users d) as [|u l IH]; [reflexivity|].
  cbn [map filter row_user]. destruct (p u); cbn [List.length]; rewrite IH; reflexivity.
Qed.

(** X12. GET /api/users with a plain search text, or with none, lists
    users from the table that pass this test and no others: the searched
    column ([name] unless [searchBy] names [email], [address] or [role])
    contains the search text, letter case ignored, and when [role] is
    given the user's role is exactly that text.  The [total] of the
    pagination block is the number of users in the table that pass the
    same test. *)
Theorem users_list_selects_listed_users
    (q : Query.t) (d : database) (items : list user_item) (block : pagination) :
  plain_text (string_or "" (Query.search q)) = true ->
  get_users q d = mkResponse 200 (ListPage items block) ->
  total block = sql_count (filter (user_listed q) (users d)) /\
  Forall (fun it => In (item_user it) (users d) /\
                    user_listed q (item_user it) = true) items.
Proof.
  intros Hplain. unfold get_users.
  pose proof (users_count_holds q) as Hholds.
  pose proof (users_filters_agree q) as Hagree.
  destruct (users_query q) as [rq rps]. cbn [fst snd] in Hagree.
  destruct (run_select (users_table "u.") rps (users_from d) rq) as [rows|] eqn:Hrun;
    [|discriminate].
  destruct (users_countQuery q) as [cq cps]. cbn [fst snd] in Hholds, Hagree.
  destruct (run_count (users_table "") cps (users_only d) cq) as [n|] eqn:Hcount;
    [|discriminate].
  intros [= <- <-]. split.
  - cbn [total pagination_block].
    apply run_count_rows in Hcount.
    rewrite (where_rows_filter (users_table "") cps (cnt_where cq)
               (fun r => user_listed q (row_user r))) in Hcount
      by (intros r _; apply Hholds; exact Hplain).
    cbn [option_map] in Hcount. injection Hcount as <-.
    unfold sql_count. rewrite filter_users_only. reflexivity.
  - apply Forall_map, Forall_forall. intros r Hr.
    destruct (run_select_sound (users_table "u.") _ _ _ _
                (fun r => user_listed q (row_user r)) Hrun) with (r := r)
      as [Hfrom Hlisted].
    + intros r' _. rewrite Hagree. apply Hholds. exact Hplain.
    + exact Hr.
    + split; [|exact Hlisted].
      cbn [item_user user_item_of]. exact (users_from_user d r Hfrom).
Qed.

Lemma users_list_selects_listed_users_witness :
  exists items block,
    get_users search_customers createSampleData = mkResponse 200 (ListPage items block) /\
    total block = sql_count (filter (user_listed search_customers) (users createSampleData)) /\
    Forall (fun it => In (item_user it) (users createSampleData) /\
                      user_listed search_customers (item_user it) = true) items.
Proof.
  eexists _, _. split; [vm_compute; reflexivity|].
  apply (users_list_selects_listed_users search_customers createSampleData);
    vm_compute; reflexivity.
Defined.

Lemma get_users_page (q : Query.t) (d : database) (items : list user_item)
    (block : pagination) :
  get_users q d = mkResponse 200 (ListPage items block) ->
  exists rows n,
    run_select (users_table "u.") (snd (users_query q)) (users_from d) (fst (users_query q))
    = Some rows /\
    run_count (users_table "") (snd (users_countQuery q)) (users_only d)
              (fst (users_countQuery q)) = Some n /\
    items = map user_item_of rows /\
    block = pagination_block (list_page q) (list_limit q) n.
Proof.
  unfold get_users.
  destruct (users_query q) as [rq rps], (users_countQuery q) as [cq cps]. cbn [fst snd].
  destruct (run_select (users_table "u.") rps (users_from d) rq) as [rows|]; [|discriminate].
  destruct (run_count (users_table "") cps (users_only d) cq) as [n|]; [|discriminate].
  intros [= <- <-]. exists rows, n. repeat split; reflexivity.
Qed.

(** X13. The users of a page come in the order the request asks for: by
    the effective sort field, ascending, or descending when [sortOrder] is
    [desc] in any letter case. *)
Theorem users_list_is_ordered
    (q : Query.t) (d : database) (items : list user_item) (block : pagination) :
  get_users q d = mkResponse 200 (ListPage items block) ->
  ordered (users_item_leb q) items = true.
Proof.
  intros Hpage. destruct (get_users_page q d items block Hpage) as (rows & n & Hrun & _ & -> & _).
  apply run_select_ordered in Hrun.
  eapply ordered_map; [|exact Hrun].
  intros a b H. exact H.
Qed.

Lemma users_list_is_ordered_witness :
  exists items block,
    get_users search_customers createSampleData = mkResponse 200 (ListPage items block) /\
    ordered (users_item_leb search_customers) items = true.
Proof.
  eexists _, _. split; [vm_compute; reflexivity|].
  eapply (users_list_is_ordered search_customers createSampleData).
  vm_compute. reflexivity.
Defined.

Example customers_by_name_descending :
  match body (get_users search_customers createSampleData) with
  | ListPage items block => map (fun it => User.id (item_user it)) items = [6; 5; 4] /\
                            total block = 3
  | ListMessage _ => False
  end.
Proof. vm_compute. split; reflexivity. Qed.

(** ** Nothing from the request reaches the query text *)

Lemma direction_known (known : list string) (sortOrder : string) :
  In "ASC" known -> In "DESC" known ->
  In (sort_direction "ASC" sortOrder) known.
Proof.
  intros Hasc Hdesc.
  pose proof (sort_direction_valid "ASC" sortOrder eq_refl) as H.
  unfold includes in H. cbn [existsb] in H. rewrite orb_false_r in H.
  apply orb_true_iff in H. destruct H as [H|H]; apply String.eqb_eq in H; rewrite H;
    assumption.
Qed.

Lemma allow_listed_known (prefix : string) (valid more : list string) (x : string) :
  In "name" valid ->
  In (prefix ++ allow_listed valid "name" x)%string (map (append prefix) (valid ++ more)).
Proof.
  intros Hname. apply in_map. apply in_or_app. left.
  destruct (allow_listed_in valid "name" x) as [<-|H]; assumption.
Qed.

Lemma allow_listed_known_r (prefix : string) (valid more : list string) (x : string) :
  In "name" valid ->
  In (prefix ++ allow_listed valid "name" x)%string (map (append prefix) (more ++ valid)).
Proof.
  intros Hname. apply in_map. apply in_or_app. right.
  destruct (allow_listed_in valid "name" x) as [<-|H]; assumption.
Qed.

(** X14. Nothing from the request becomes part of the text of a list
    query.  Whatever the query string and the principal are, the ORDER BY
    column, the direction and the columns of the WHERE conditions of the
    stores and users row queries and count queries are among the
    identifiers the handler itself spells out; what the request supplies is
    only bound as a parameter. *)
Theorem list_queries_use_known_identifiers (user : principal) (q : Query.t) :
  incl (query_identifiers (fst (stores_query user q))) stores_identifiers /\
  incl (count_identifiers (fst (stores_countQuery user q))) stores_identifiers /\
  incl (query_identifiers (fst (users_query q))) (users_identifiers "u.") /\
  incl (count_identifiers (fst (users_countQuery q))) (users_identifiers "").
Proof.
  assert (Hs1 : In ("s." ++ stores_sortField q)%string stores_identifiers).
  { apply in_or_app. right. apply allow_listed_known. left. reflexivity. }
  assert (Hs2 : In ("s." ++ stores_searchField q)%string stores_identifiers).
  { apply in_or_app. right. apply allow_listed_known_r. left. reflexivity. }
  assert (Hs3 : In (sort_direction "ASC" (string_or "asc" (Query.sortOrder q)))
                   stores_identifiers).
  { apply direction_known; cbn; auto. }
  assert (Hu1 : In ("u." ++ users_sortField q)%string (users_identifiers "u.")).
  { apply in_or_app. right. apply allow_listed_known. left. reflexivity. }
  assert (Hu2 : forall prefix, In (prefix ++ users_searchField q)%string (users_identifiers prefix)).
  { intros prefix. apply in_or_app. right. apply allow_listed_known_r. left. reflexivity. }
  assert (Hu3 : In (sort_direction "ASC" (string_or "asc" (Query.sortOrder q)))
                   (users_identifiers "u.")).
  { apply direction_known; cbn; auto. }
  assert (Hu4 : forall prefix, In (prefix ++ "role")%string (users_identifiers prefix)).
  { intros prefix. right. right. left. reflexivity. }
  assert (Hs4 : In "s.owner_id" stores_identifiers).
  { right. right. left. reflexivity. }
  unfold query_identifiers, count_identifiers, stores_query, stores_countQuery,
    users_query, users_countQuery, stores_filters, users_filters, paginate, when,
    and_like, and_equals.
  repeat split.
  - destruct (String.eqb (user_role user) "NORMAL_USER");
      destruct (String.eqb (user_role user) "STORE_OWNER");
      destruct (truthy (string_or "" (Query.search q)));
      cbn [fst sel_order_by sel_direction sel_where b_where app map condition_column];
      intros x Hx; cbn [In] in Hx; intuition (subst; assumption).
  - destruct (String.eqb (user_role user) "STORE_OWNER");
      destruct (truthy (string_or "" (Query.search q)));
      cbn [fst cnt_where b_where app map condition_column];
      intros x Hx; cbn [In] in Hx; intuition (subst; assumption).
  - destruct (truthy (string_or "" (Query.role q)));
      destruct (truthy (string_or "" (Query.search q)));
      cbn [fst sel_order_by sel_direction sel_where b_where app map condition_column];
      intros x Hx; cbn [In] in Hx; intuition (subst; auto).
  - destruct (truthy (string_or "" (Query.role q)));
      destruct (truthy (string_or "" (Query.search q)));
      cbn [fst cnt_where b_where app map condition_column];
      intros x Hx; cbn [In] in Hx; intuition (subst; auto).
Qed.

(** ** The dashboard counts *)

Lemma no_user_with_upper_role (d : database) (role : string) :
  roles_checked d ->
  In role ["NORMAL_USER"; "STORE_OWNER"; "SYSTEM_ADMIN"] ->
  users_with_role d role = 0.
Proof.
  intros Hroles Hrole. unfold users_with_role, roles_checked in *.
  induction Hroles as [|u us Hu _ IH]; [reflexivity|].
  cbn [filter].
  destruct (role_check_upper _ Hu) as (Hn & Ho & Ha).
  assert (E : String.eqb (User.role u) role = false).
  { destruct Hrole as [<-|[<-|[<-|[]]]]; assumption. }
  rewrite E. exact IH.
Qed.

(** X15. On a users table that passes the schema's role CHECK, the
    dashboard reports no normal users, no store owners and no
    administrators, however many users there are: its three role counts
    compare [role] with [NORMAL_USER], [STORE_OWNER] and [SYSTEM_ADMIN],
    which the CHECK admits on no row.  [total_users] is the number of
    rows. *)
Theorem dashboard_counts_no_roles (d : database) :
  roles_checked d ->
  Dashboard.normal_users (body (get_dashboard d)) = 0 /\
  Dashboard.store_owners (body (get_dashboard d)) = 0 /\
  Dashboard.admin_users (body (get_dashboard d)) = 0 /\
  Dashboard.total_users (body (get_dashboard d)) = Z.of_nat (List.length (users d)).
Proof.
  intros Hroles. cbn [get_dashboard body Dashboard.normal_users Dashboard.store_owners
                      Dashboard.admin_users Dashboard.total_users].
  repeat split; try (apply no_user_with_upper_role; [exact Hroles|cbn; auto]).
Qed.

Lemma dashboard_counts_no_roles_witness :
  Dashboard.normal_users (body (get_dashboard createSampleData)) = 0 /\
  Dashboard.store_owners (body (get_dashboard createSampleData)) = 0 /\
  Dashboard.admin_users (body (get_dashboard createSampleData)) = 0 /\
  Dashboard.total_users (body (get_dashboard createSampleData))
  = Z.of_nat (List.length (users createSampleData)).
Proof.
  apply (dashboard_counts_no_roles createSampleData).
  unfold roles_checked. vm_compute. repeat (constructor; [reflexivity|]). constructor.
Defined.

Example seeded_dashboard :
  body (get_dashboard createSampleData) = Dashboard.mk 6 0 0 0 3 6.
Proof. vm_compute. reflexivity. Qed.

(** ** The owned store's rating in the users list *)

Lemma where_rows_from {R : Type} (T : table R) ps cs (from matched : list R) :
  where_rows T ps cs from = Some matched -> forall r, In r matched -> In r from.
Proof.
  revert matched. induction from as [|x from IH]; intros matched; cbn [where_rows].
  - intros [= <-] r [].
  - destruct (holds_all T ps cs x) as [keep|]; [|discriminate].
    destruct (where_rows T ps cs from) as [rest|]; [|discriminate].
    intros [= <-] r Hr. specialize (IH rest eq_refl).
    destruct keep; [destruct Hr as [<-|Hr]|]; cbn; auto.
Qed.

Lemma run_select_from {R : Type} (T : table R) ps from q rows :
  run_select T ps from q = Some rows -> forall r, In r rows -> In r from.
Proof.
  intros Hrun r Hr.
  destruct (run_select_bounds _ _ _ _ _ Hrun)
    as (pl & po & l & o & matched & _ & _ & _ & _ & _ & _ & Hwhere & ->).
  apply window_In, sort_rows_In in Hr.
  exact (where_rows_from _ _ _ _ _ Hwhere r Hr).
Qed.

Lemma user_item_no_store (d : database) (r : user_row) :
  roles_checked d -> In (row_user r) (users d) ->
  store_rating (user_item_of r) = None /\
  (if String.eqb (User.role (row_user r)) "STORE_OWNER"
   then option_map Store.id (row_store r) else None) = None.
Proof.
  intros Hroles Hin. unfold roles_checked in Hroles. rewrite Forall_forall in Hroles.
  destruct (role_check_upper _ (Hroles _ Hin)) as (_ & Ho & _).
  unfold user_item_of. cbn [store_rating]. rewrite Ho. split; reflexivity.
Qed.

(** X16. On a users table that passes the schema's role CHECK, no answer
    of the users router shows a store owner's store: every element of the
    list of GET /api/users has [store_rating] null, and the row of GET
    /api/users/:id has [store_rating] and [store_id] null.  The join and
    the CASE of both queries compare [u.role] with [STORE_OWNER]. *)
Theorem stored_owners_show_no_store (d : database) :
  roles_checked d ->
  (forall q items block,
     get_users q d = mkResponse 200 (ListPage items block) ->
     Forall (fun it => store_rating it = None) items) /\
  (forall user userId item,
     get_user user userId d = mkResponse 200 (Detail item) ->
     store_rating (detail_user item) = None /\ detail_store_id item = None).
Proof.
  intros Hroles. split.
  - intros q items block Hpage.
    destruct (get_users_page q d items block Hpage) as (rows & n & Hrun & _ & -> & _).
    apply Forall_map, Forall_forall. intros r Hr.
    apply (user_item_no_store d r Hroles).
    apply users_from_user. exact (run_select_from _ _ _ _ _ Hrun r Hr).
  - intros user userId item. unfold get_user.
    destruct (profile_denied user userId); [discriminate|].
    destruct (integer_in userId) as [uid|]; [|discriminate].
    destruct (filter _ (users_from d)) as [|r rest] eqn:Hrows; [discriminate|].
    intros [= <-]. cbn [detail_user detail_store_id].
    apply (user_item_no_store d r Hroles).
    apply users_from_user.
    assert (Hin : In r (filter (fun r => User.id (row_user r) =? uid) (users_from d))).
    { rewrite Hrows. left. reflexivity. }
    apply filter_In in Hin. apply Hin.
Qed.

Lemma stored_owners_show_no_store_witness :
  (forall q items block,
     get_users q createSampleData = mkResponse 200 (ListPage items block) ->
     Forall (fun it => store_rating it = None) items) /\
  (forall user userId item,
     get_user user userId createSampleData = mkResponse 200 (Detail item) ->
     store_rating (detail_user item) = None /\ detail_store_id item = None).
Proof.
  apply (stored_owners_show_no_store createSampleData).
  unfold roles_checked. vm_compute. repeat (constructor; [reflexivity|]). constructor.
Defined.

Example seeded_owner_profile :
  match body (get_user (mkPrincipal 1 "SYSTEM_ADMIN") "2" createSampleData) with
  | Detail item => User.role (item_user (detail_user item)) = "store_owner" /\
                   store_rating (detail_user item) = None /\ detail_store_id item = None
  | DetailMessage _ => False
  end.
Proof. vm_compute. repeat split; reflexivity. Qed.

(** ** The rating statistics *)

(** A query limited to one row has one row when any rating exists. *)
Lemma most_common_rows (rs : list Rating.t) :
  sql_count (most_common rs) = if sql_count rs =? 0 then 0 else 1.
Proof.
  destruct rs as [|r rs]; [reflexivity|].
  replace (sql_count (r :: rs) =? 0) with false
    by (symmetry; apply Z.eqb_neq; unfold sql_count; cbn [List.length]; lia).
  unfold most_common.
  destruct (sort_rows (fun a b => snd b <=? snd a) (rating_groups (r :: rs)))
    as [|g gs] eqn:Hsort; [|reflexivity].
  exfalso.
  assert (Hin : In (Rating.rating r,
                    sql_count (filter (fun r0 => Rating.rating r0 =? Rating.rating r)
                                      (r :: rs)))
                   (sort_rows (fun a b => snd b <=? snd a) (rating_groups (r :: rs)))).
  { apply sort_rows_In. unfold rating_groups.
    apply in_map_iff. exists (Rating.rating r). split; [reflexivity|].
    apply nodup_In. left. reflexivity. }
  rewrite Hsort in Hin. destruct Hin.
Qed.

(** X17. GET /api/ratings/stats is answered with 500 whatever the database
    holds.  The select list of the handler's first SELECT names the columns
    [rating], [store_id] and [user_id], and the statement has no FROM
    clause to take them from: it raises, and the distribution is never
    read.  Each of the three is a column of [ratings]: over [FROM ratings]
    the same select list gives the count of the ratings, their mean, the
    numbers of rated stores and of rating users, and 1 or 0 for the
    sub-select, which counts the rows of a query limited to one. *)
Theorem rating_stats_always_fail (d : database) :
  get_rating_stats d
  = mkResponse 500 (RatingStatsMessage "Server error fetching rating statistics") /\
  select_stats (Some (ratings d)) d
  = Some (sql_count (ratings d),
          sql_avg (map Rating.rating (ratings d)),
          sql_count (nodup Z.eq_dec (map Rating.store_id (ratings d))),
          sql_count (nodup Z.eq_dec (map Rating.user_id (ratings d))),
          if sql_count (ratings d) =? 0 then 0 else 1).
Proof.
  split; [reflexivity|].
  unfold select_stats, average_of, count_distinct_of, count_rows.
  change (rating_column "rating") with (Some Rating.rating).
  change (rating_column "store_id") with (Some Rating.store_id).
  change (rating_column "user_id") with (Some Rating.user_id).
  cbv iota. rewrite most_common_rows. reflexivity.
Qed.

Example seeded_rating_stats :
  status (get_rating_stats createSampleData) = 500 /\
  rating_distribution (ratings createSampleData) = [(3, 1); (4, 3); (5, 2)].
Proof. vm_compute. split; reflexivity. Qed.

(** ** Route order on the ratings and users routers *)

Ltac literal_clash :=
  match goal with
  | H1 : String.eqb ?a ?x = true, H2 : String.eqb ?b ?x = true |- _ =>
      apply String.eqb_eq in H1; apply String.eqb_eq in H2;
      rewrite <- H1 in H2; vm_compute in H2; discriminate H2
  end.

Ltac route_to_cases :=
  cbn [match_route first_route ratings_router users_router method_eqb
       to_method to_path to_handler];
  repeat match goal with
         | |- context [String.eqb ?a ?b] => destruct (String.eqb a b) eqn:?
         end;
  intros Hmatch; try discriminate Hmatch;
  injection Hmatch as <-;
  first [reflexivity | literal_clash].

(** X18. On the ratings router and on the users router no route is
    shadowed by an earlier one: every request that a registered route
    matches is taken by that route's own handler.  In particular GET
    /my-ratings and GET /stats reach their handlers, and GET
    /stats/dashboard is not taken by the [/:id] route. *)
Theorem ratings_and_users_routes_reachable :
  unshadowed ratings_router /\ unshadowed users_router.
Proof.
  split; intros r segs ps Hin; revert ps.
  - cbn [ratings_router In] in Hin.
    destruct Hin as [<-|[<-|[<-|[<-|[<-|[<-|[<-|[]]]]]]]]; intros ps;
      destruct segs as [|x [|y [|z segs]]]; route_to_cases.
  - cbn [users_router In] in Hin.
    destruct Hin as [<-|[<-|[<-|[<-|[<-|[]]]]]]; intros ps;
      destruct segs as [|x [|y [|z segs]]]; route_to_cases.
Qed.

Example dashboard_route :
  first_route users_router GET ["stats"; "dashboard"] = Some (UserDashboard, []) /\
  first_route ratings_router GET ["my-ratings"] = Some (ListMyRatings, []) /\
  first_route ratings_router GET ["7"] = None.
Proof. vm_compute. repeat split; reflexivity. Qed.

(** ** The lists of one user's ratings *)

Lemma inner_join_rows {A B : Type} (on : A -> B -> bool) (a : list A) (b : list B) x y :
  In (x, y) (inner_join on a b) <-> In x a /\ In y b /\ on x y = true.
Proof.
  unfold inner_join. rewrite in_flat_map. split.
  - intros (x0 & Hx0 & Hin). apply in_map_iff in Hin.
    destruct Hin as (y0 & [= <- <-] & Hy0). apply filter_In in Hy0.
    destruct Hy0. auto.
  - intros (Hx & Hy & Hon). exists x. split; [exact Hx|].
    apply in_map_iff. exists y. split; [reflexivity|].
    apply filter_In. auto.
Qed.

Lemma rating_user_holds (uid : Z) (p : param) (rest : list param) (x : Rating.t * Store.t) :
  int8_of_param p = Some uid ->
  holds_all ratings_stores_table (p :: rest) [Equals "r.user_id" 1] x
  = Some (Rating.user_id (fst x) =? uid).
Proof.
  intros Hp.
  change (holds_all ratings_stores_table (p :: rest) [Equals "r.user_id" 1] x)
    with (match match int8_of_param p with
                | Some z' => Some (Rating.user_id (fst x) =? z')
                | None => Some false
                end, Some true with
          | Some a, Some b => Some (a && b)
          | _, _ => None
          end).
  rewrite Hp, andb_true_r. reflexivity.
Qed.

Lemma rating_user_counts (uid : Z) (p : param) (r : Rating.t) :
  int8_of_param p = Some uid ->
  holds_all ratings_only_table [p] [Equals "user_id" 1] r
  = Some (Rating.user_id r =? uid).
Proof.
  intros Hp.
  change (holds_all ratings_only_table [p] [Equals "user_id" 1] r)
    with (match match int8_of_param p with
                | Some z' => Some (Rating.user_id r =? z')
                | None => Some false
                end, Some true with
          | Some a, Some b => Some (a && b)
          | _, _ => None
          end).
  rewrite Hp, andb_true_r. reflexivity.
Qed.

Lemma user_ratings_page_rows (failure : string) (p : param) (uid : Z) (q : Query.t)
    (d : database) rows block :
  int8_of_param p = Some uid ->
  user_ratings_page failure p q d = mkResponse 200 (ListPage rows block) ->
  Forall (fun x => In (fst x) (ratings d) /\ Rating.user_id (fst x) = uid /\
                   In (snd x) (stores d) /\ Store.id (snd x) = Rating.store_id (fst x))
         rows /\
  total block = sql_count (filter (fun r => Rating.user_id r =? uid) (ratings d)) /\
  ordered (order_leb ratings_stores_table (ratings_order_by "store_name" "s.name" q)
                     (ratings_order q)) rows = true.
Proof.
  intros Hp. unfold user_ratings_page, rating_list_query, rating_count_query.
  destruct (run_select ratings_stores_table _ (ratings_with_stores d) _) as [rs|] eqn:Hrun;
    [|discriminate].
  destruct (run_count ratings_only_table _ (ratings d) _) as [n|] eqn:Hcount;
    [|discriminate].
  intros [= <- <-]. split; [|split].
  - apply Forall_forall. intros [r s] Hx.
    destruct (run_select_sound ratings_stores_table _ _ _ _
                (fun x => Rating.user_id (fst x) =? uid) Hrun) with (r := (r, s))
      as [Hfrom Huser].
    + intros x _. cbn [sel_where]. apply rating_user_holds. exact Hp.
    + exact Hx.
    + cbn [fst snd] in *. apply inner_join_rows in Hfrom.
      destruct Hfrom as (Hr & Hs & Hon). apply Z.eqb_eq in Huser, Hon.
      repeat split; auto.
  - cbn [total pagination_block]. apply run_count_rows in Hcount. cbn [cnt_where] in Hcount.
    rewrite (where_rows_filter ratings_only_table [p] [Equals "user_id" 1%nat]
               (fun r => Rating.user_id r =? uid)) in Hcount
      by (intros r _; apply rating_user_counts; exact Hp).
    cbn [option_map] in Hcount. injection Hcount as <-. reflexivity.
  - apply run_select_ordered in Hrun. exact Hrun.
Qed.

(** X19. The two lists of one user's ratings, GET /api/ratings/my-ratings
    for the principal and GET /api/ratings/user/:userId for the user named,
    show that user's ratings and no others: every row of a page is a rating
    of the table given by that user, with the store it is on; [total] is the
    number of ratings that user gave; and the rows come in the order asked
    for, newest first when none is. *)
Theorem user_ratings_lists_show_that_user
    (user : principal) (userId : string) (uid : Z) (q : Query.t) (d : database)
    (rows : list (Rating.t * Store.t)) (block : pagination) :
  (get_my_ratings user q d = mkResponse 200 (ListPage rows block) /\ uid = user_id user) \/
  (get_user_ratings userId q d = mkResponse 200 (ListPage rows block) /\
   int4_of_string userId = Some uid) ->
  Forall (fun x => In (fst x) (ratings d) /\ Rating.user_id (fst x) = uid /\
                   In (snd x) (stores d) /\ Store.id (snd x) = Rating.store_id (fst x))
         rows /\
  total block = sql_count (filter (fun r => Rating.user_id r =? uid) (ratings d)) /\
  ordered (order_leb ratings_stores_table (ratings_order_by "store_name" "s.name" q)
                     (ratings_order q)) rows = true.
Proof.
  intros [[Hpage ->] | [Hpage Hid]].
  - apply (user_ratings_page_rows _ (PInt (user_id user)) (user_id user) q d rows block
             eq_refl Hpage).
  - unfold get_user_ratings in Hpage. rewrite (decimal_integer_in _ _ Hid) in Hpage.
    destruct (negb (user_exists d uid)); [discriminate|].
    apply (user_ratings_page_rows "Server error fetching user ratings" (PStr userId) uid
             q d rows block); [|exact Hpage].
    cbn [int8_of_param]. apply decimal_bigint_in, int4_is_int8. exact Hid.
Qed.

Lemma user_ratings_lists_show_that_user_witness :
  exists rows block,
    get_user_ratings " 4" by_store_name createSampleData
    = mkResponse 200 (ListPage rows block) /\
    Forall (fun x => In (fst x) (ratings createSampleData) /\ Rating.user_id (fst x) = 4 /\
                     In (snd x) (stores createSampleData) /\
                     Store.id (snd x) = Rating.store_id (fst x)) rows /\
    total block = sql_count (filter (fun r => Rating.user_id r =? 4) (ratings createSampleData)) /\
    ordered (order_leb ratings_stores_table
                       (ratings_order_by "store_name" "s.name" by_store_name)
                       (ratings_order by_store_name)) rows = true.
Proof.
  eexists _, _. split; [vm_compute; reflexivity|].
  apply (user_ratings_lists_show_that_user (mkPrincipal 1 "SYSTEM_ADMIN") " 4" 4
           by_store_name createSampleData).
  right. split; vm_compute; reflexivity.
Defined.

Example my_ratings_by_store_name :
  match body (get_my_ratings (mkPrincipal 4 "NORMAL_USER") by_store_name
                createSampleData) with
  | ListPage rows block =>
      map (fun x => (Store.id (snd x), Rating.rating (fst x))) rows = [(2, 4); (1, 5)] /\
      total block = 2
  | ListMessage _ => False
  end.
Proof. vm_compute. split; reflexivity. Qed.

(** ** The public list of a store's ratings *)

Lemma rating_store_holds (sid : Z) (p : param) (rest : list param) (x : Rating.t * User.t) :
  int8_of_param p = Some sid ->
  holds_all ratings_users_table (p :: rest) [Equals "r.store_id" 1] x
  = Some (Rating.store_id (fst x) =? sid).
Proof.
  intros Hp.
  change (holds_all ratings_users_table (p :: rest) [Equals "r.store_id" 1] x)
    with (match match int8_of_param p with
                | Some z' => Some (Rating.store_id (fst x) =? z')
                | None => Some false
                end, Some true with
          | Some a, Some b => Some (a && b)
          | _, _ => None
          end).
  rewrite Hp, andb_true_r. reflexivity.
Qed.



(** ** Rating requests that cannot fail *)

Lemma issued_id_is_fresh (d : database) :
  ids_issued d ->
  existsb (fun r => Rating.id r =? ratings_id_seq d + 1) (ratings d) = false.
Proof.
  intros [_ Hissued].
  destruct (existsb _ (ratings d)) eqn:Hex; [|reflexivity].
  apply existsb_exists in Hex. destruct Hex as (r & Hin & Hr).
  apply Z.eqb_eq in Hr. rewrite Forall_forall in Hissued.
  specialize (Hissued r Hin). lia.
Qed.

(** X21. A rating request fails only on a value that cannot be bound.  On
    a database that satisfies the schema's constraints, for an existing
    user, a rating between 1 and 5 and a comment without a zero byte: when
    PostgreSQL reads the store id as an [integer], POST is answered 201,
    400 or 404 and PUT and DELETE 200 or 404, the statement passing every
    constraint and the trigger's new average fitting its DECIMAL(2,1)
    column; when it does not, the first statement raises and the answer is
    500, with nothing written. *)
Theorem rating_requests_fail_on_unread_ids
    (user : principal) (body_id : jsval) (path_id : string) (v : Z)
    (c : option string) (now : Z) (d : database) :
  constraints_hold d ->
  user_exists d (user_id user) = true ->
  rating_check v = true ->
  bindable c = true ->
  match int4_of_param (param_of_jsval body_id) with
  | Some _ =>
      In (status (fst (post_rating_request user body_id v c now d))) [201; 400; 404]
  | None =>
      post_rating_request user body_id v c now d
      = (mkResponse 500 (RatingMessage "Server error submitting rating"), d)
  end /\
  match integer_in path_id with
  | Some _ =>
      In (status (fst (put_rating_request user path_id v c now d))) [200; 404] /\
      In (status (fst (delete_rating_request user path_id d))) [200; 404]
  | None =>
      put_rating_request user path_id v c now d
      = (mkResponse 500 (RatingMessage "Server error updating rating"), d) /\
      delete_rating_request user path_id d
      = (mkResponse 500 (RatingMessage "Server error deleting rating"), d)
  end.
Proof.
  intros (_ & _ & _ & _ & _ & Hchecked & Hissued) Huser Hv Hc.
  unfold post_rating_request, put_rating_request, delete_rating_request.
  split.
  - destruct (int4_of_param (param_of_jsval body_id)) as [sid|]; [|reflexivity].
    unfold post_rating.
    destruct (store_exists d sid) eqn:Hstore; cbn [negb]; [|cbn; auto].
    destruct (has_rated d (user_id user) sid) eqn:Hrated; [cbn; auto|].
    destruct (insert_rating_takes_effect (user_id user) sid v c now d Hchecked Hc)
      as (d2 & -> & _); [|cbn; auto].
    unfold rating_row_ok.
    cbn [Rating.id Rating.rating Rating.user_id Rating.store_id].
    rewrite (issued_id_is_fresh d Hissued), Hv, Huser, Hstore.
    unfold has_rated in Hrated. rewrite Hrated. reflexivity.
  - destruct (integer_in path_id) as [sid|]; [|split; reflexivity].
    split.
    + unfold put_rating.
      destruct (store_exists d sid); cbn [negb]; [|cbn; auto].
      destruct (has_rated d (user_id user) sid); cbn [negb]; [|cbn; auto].
      destruct (update_rating_takes_effect v c (user_id user) sid now d Hchecked Hc Hv)
        as (d2 & -> & _).
      cbn. auto.
    + unfold delete_rating_handler.
      destruct (has_rated d (user_id user) sid); cbn [negb]; [|cbn; auto].
      destruct (delete_rating_takes_effect (user_id user) sid d Hchecked) as (d2 & -> & _).
      cbn. auto.
Qed.

Lemma rating_requests_fail_on_unread_ids_witness :
  In (status (fst (post_rating_request (mkPrincipal 4 "NORMAL_USER") (JInt 3) 5 None 7
                                       createSampleData)))
     [201; 400; 404] /\
  put_rating_request (mkPrincipal 4 "NORMAL_USER") "three" 5 None 7 createSampleData
  = (mkResponse 500 (RatingMessage "Server error updating rating"), createSampleData) /\
  delete_rating_request (mkPrincipal 4 "NORMAL_USER") "three" createSampleData
  = (mkResponse 500 (RatingMessage "Server error deleting rating"), createSampleData).
Proof.
  apply (rating_requests_fail_on_unread_ids (mkPrincipal 4 "NORMAL_USER") (JInt 3) "three"
           5 None 7 createSampleData).
  - unfold constraints_hold, users_keyed, stores_keyed, store_emails_unique, ratings_keyed,
      unique_ratings, ratings_checked, ids_issued.
    repeat split; vm_compute;
      repeat (constructor;
              [solve [vm_compute; first [reflexivity | intuition discriminate]]|]);
      constructor.
  - vm_compute. reflexivity.
  - reflexivity.
  - reflexivity.
Defined.

(** A store id past the range of [integer], and a comment with a zero byte
    for a store the user has not rated: both are answered 500, and the
    ratings are as they were. *)
Example rating_for_unreadable_store :
  delete_rating_request (mkPrincipal 4 "NORMAL_USER") "2147483648" createSampleData
  = (mkResponse 500 (RatingMessage "Server error deleting rating"), createSampleData) /\
  post_rating_request (mkPrincipal 4 "NORMAL_USER") (JInt 3) 5 (Some (String zero "")) 7
                      createSampleData
  = (mkResponse 500 (RatingMessage "Server error submitting rating"), createSampleData).
Proof. vm_compute. split; reflexivity. Qed.

(** ** Reading one store or one user *)

Lemma keyed_store (d : database) (a b : Store.t) :
  stores_keyed d -> In a (stores d) -> In b (stores d) -> Store.id a = Store.id b -> a = b.
Proof.
  unfold stores_keyed. induction (stores d) as [|s l IH]; intros Hk Ha Hb Hid; [destruct Ha|].
  cbn [map] in Hk. inversion Hk as [|? ? Hs Hl]; subst.
  destruct Ha as [<-|Ha], Hb as [<-|Hb].
  - reflexivity.
  - exfalso. apply Hs. rewrite Hid. apply in_map. exact Hb.
  - exfalso. apply Hs. rewrite <- Hid. apply in_map. exact Ha.
  - apply IH; assumption.
Qed.

Lemma keyed_user (d : database) (a b : User.t) :
  users_keyed d -> In a (users d) -> In b (users d) -> User.id a = User.id b -> a = b.
Proof.
  unfold users_keyed. induction (users d) as [|u l IH]; intros Hk Ha Hb Hid; [destruct Ha|].
  cbn [map] in Hk. inversion Hk as [|? ? Hu Hl]; subst.
  destruct Ha as [<-|Ha], Hb as [<-|Hb].
  - reflexivity.
  - exfalso. apply Hu. rewrite Hid. apply in_map. exact Hb.
  - exfalso. apply Hu. rewrite <- Hid. apply in_map. exact Ha.
  - apply IH; assumption.
Qed.

Lemma stores_from_any (d : database) (rater : option Z) (s : Store.t) :
  In s (stores d) -> exists row, In row (stores_from d rater) /\ row_s row = s.
Proof.
  destruct rater as [uid|]; [apply stores_from_keeps|].
  intros Hs. unfold stores_from.
  destruct (left_join_keeps (fun s u => owner_is (User.id u) s) (stores d) (users d) s Hs)
    as (u & Hsu).
  exists (mkStoreRow s u None). split; [|reflexivity].
  apply in_map_iff. exists (s, u). split; [reflexivity|exact Hsu].
Qed.

(** The owner joined to a store row is the user its [owner_id] names. *)
Lemma stores_from_owner (d : database) (rater : option Z) (row : store_row) :
  references_hold d ->
  In row (stores_from d rater) ->
  option_map User.id (row_u row) = Store.owner_id (row_s row).
Proof.
  intros [_ Howners] Hin.
  assert (Hjoin : In (row_s row, row_u row)
                     (left_join (fun s u => owner_is (User.id u) s) (stores d) (users d))).
  { unfold stores_from in Hin. destruct rater as [uid|].
    - apply in_map_iff in Hin. destruct Hin as ([[s u] y] & <- & Hin).
      apply left_join_rows in Hin. apply Hin.
    - apply in_map_iff in Hin. destruct Hin as ([s u] & <- & Hin). exact Hin. }
  apply left_join_rows in Hjoin. destruct Hjoin as [Hs Hu].
  destruct (row_u row) as [u|]; cbn [option_map].
  - destruct Hu as [_ Hon]. unfold owner_is in Hon.
    destruct (Store.owner_id (row_s row)) as [o|]; [|discriminate].
    apply Z.eqb_eq in Hon. congruence.
  - rewrite Forall_forall in Howners. specialize (Howners _ Hs).
    unfold owner_reference in Howners.
    destruct (Store.owner_id (row_s row)) as [o|] eqn:Ho; [|reflexivity].
    exfalso. apply user_exists_In in Howners. destruct Howners as (u & Hin' & Hid).
    assert (Hx : In u (filter (fun u => owner_is (User.id u) (row_s row)) (users d))).
    { apply filter_In. split; [exact Hin'|].
      unfold owner_is. rewrite Ho. apply Z.eqb_eq. congruence. }
    rewrite Hu in Hx. destruct Hx.
Qed.

(** The row GET /api/stores/:id finds for an id of the table. *)
Lemma get_store_lookup
    (user : principal) (id : string) (sid : Z) (d : database) (s : Store.t) :
  stores_keyed d ->
  references_hold d ->
  int4_of_string id = Some sid ->
  In s (stores d) ->
  Store.id s = sid ->
  (owner_denied user (Store.owner_id s) = true /\
   get_store user id d = mkResponse 403 (DetailMessage "Access denied")) \/
  (owner_denied user (Store.owner_id s) = false /\
   exists item,
     get_store user id d = mkResponse 200 (Detail item) /\
     item_store (detail_item item) = s /\
     detail_owner_id item = Store.owner_id s).
Proof.
  intros Hkeyed Href Hid Hs Hsid. unfold get_store. rewrite (decimal_integer_in _ _ Hid).
  set (rater := if String.eqb (user_role user) "NORMAL_USER"
                then Some (user_id user) else None).
  destruct (stores_from_any d rater s Hs) as (row0 & Hrow0 & Hs0).
  destruct (filter (fun r => Store.id (row_s r) =? sid) (stores_from d rater))
    as [|row rest] eqn:Hrows.
  - exfalso.
    assert (Hin : In row0 (filter (fun r => Store.id (row_s r) =? sid)
                                  (stores_from d rater))).
    { apply filter_In. split; [exact Hrow0|]. rewrite Hs0. apply Z.eqb_eq. exact Hsid. }
    rewrite Hrows in Hin. destruct Hin.
  - assert (Hin : In row (filter (fun r => Store.id (row_s r) =? sid)
                                 (stores_from d rater))).
    { rewrite Hrows. left. reflexivity. }
    apply filter_In in Hin. destruct Hin as [Hin Hrid]. apply Z.eqb_eq in Hrid.
    assert (Hrow : row_s row = s).
    { apply (keyed_store d); [exact Hkeyed|exact (stores_from_store d rater row Hin)
                             |exact Hs|congruence]. }
    rewrite (stores_from_owner d rater row Href Hin), Hrow.
    destruct (owner_denied user (Store.owner_id s)) eqn:Hden.
    + left. split; reflexivity.
    + right. split; [reflexivity|].
      eexists. split; [reflexivity|].
      cbn [detail_item detail_owner_id item_store store_item_of]. split; [exact Hrow|reflexivity].
Qed.

(** X22. GET /api/stores/:id answers with the store whose id the path
    names.  On a database whose store ids are unique and whose foreign keys
    hold, for a path parameter PostgreSQL reads as the id of a store of the
    table: a [STORE_OWNER] principal who does not own the store gets 403,
    and everyone else gets 200 with that very store row and its
    [owner_id]. *)
Theorem get_store_returns_that_store
    (user : principal) (id : string) (sid : Z) (d : database) (s : Store.t) :
  stores_keyed d ->
  references_hold d ->
  int4_of_string id = Some sid ->
  In s (stores d) ->
  Store.id s = sid ->
  (owner_denied user (Store.owner_id s) = true /\
   get_store user id d = mkResponse 403 (DetailMessage "Access denied")) \/
  (owner_denied user (Store.owner_id s) = false /\
   exists item,
     get_store user id d = mkResponse 200 (Detail item) /\
     item_store (detail_item item) = s /\
     detail_owner_id item = Store.owner_id s).
Proof. apply get_store_lookup. Qed.

Lemma get_store_returns_that_store_witness :
  (owner_denied (mkPrincipal 3 "STORE_OWNER") (Some 2) = true /\
   get_store (mkPrincipal 3 "STORE_OWNER") "1" createSampleData
   = mkResponse 403 (DetailMessage "Access denied")) \/
  (owner_denied (mkPrincipal 3 "STORE_OWNER") (Some 2) = false /\
   exists item,
     get_store (mkPrincipal 3 "STORE_OWNER") "1" createSampleData
     = mkResponse 200 (Detail item) /\
     item_store (detail_item item)
     = Store.mk 1 "Premium Electronics Store - Best Tech Solutions"
                "contact@premiumelectronics.com"
                "123 Main Street, Downtown Business District, Electronics Hub, State 12345"
                (Some 2) (Some 45) (Some 2) seed_time seed_time /\
     detail_owner_id item = Some 2).
Proof.
  apply (get_store_returns_that_store (mkPrincipal 3 "STORE_OWNER") "1" 1 createSampleData
           (Store.mk 1 "Premium Electronics Store - Best Tech Solutions"
                     "contact@premiumelectronics.com"
                     "123 Main Street, Downtown Business District, Electronics Hub, State 12345"
                     (Some 2) (Some 45) (Some 2) seed_time seed_time)).
  - unfold stores_keyed. vm_compute.
    repeat (constructor; [solve [vm_compute; intuition discriminate]|]). constructor.
  - split; vm_compute; repeat (constructor; [auto|]); constructor.
  - vm_compute. reflexivity.
  - vm_compute. left. reflexivity.
  - reflexivity.
Defined.

Lemma users_from_keeps (d : database) (u : User.t) :
  In u (users d) -> exists row, In row (users_from d) /\ row_user row = u.
Proof.
  intros Hu. unfold users_from.
  destruct (left_join_keeps
              (fun u s => owner_is (User.id u) s && String.eqb (User.role u) "STORE_OWNER")
              (users d) (stores d) u Hu) as (s & Hus).
  exists (mkUserRow u s). split; [|reflexivity].
  apply in_map_iff. exists (u, s). split; [reflexivity|exact Hus].
Qed.

(** X23. GET /api/users/:id checks access with [parseInt] of the path
    parameter and selects the row with the id PostgreSQL reads from it.
    On a users table with unique ids, for a parameter PostgreSQL reads as
    the id of a user of the table: a request the check denies is answered
    403, and every other one 200 with that user's row, whoever the
    principal is.  For a parameter in decimal form the two readings agree,
    and the check denies exactly the principals that neither have the role
    [SYSTEM_ADMIN] nor are the user asked for. *)
Theorem get_user_returns_the_row_read
    (user : principal) (userId : string) (uid : Z) (d : database) (u : User.t) :
  users_keyed d ->
  integer_in userId = Some uid ->
  In u (users d) ->
  User.id u = uid ->
  (if profile_denied user userId
   then get_user user userId d = mkResponse 403 (DetailMessage "Access denied")
   else exists item,
          get_user user userId d = mkResponse 200 (Detail item) /\
          item_user (detail_user item) = u) /\
  (int8_of_string userId <> None ->
   profile_denied user userId
   = negb (String.eqb (user_role user) "SYSTEM_ADMIN") && negb (user_id user =? uid)).
Proof.
  intros Hkeyed Hid Hu Huid. split.
  - unfold get_user. destruct (profile_denied user userId); [reflexivity|].
    rewrite Hid.
    destruct (users_from_keeps d u Hu) as (row0 & Hrow0 & Hu0).
    destruct (filter (fun r => User.id (row_user r) =? uid) (users_from d))
      as [|row rest] eqn:Hrows.
    + exfalso.
      assert (Hin : In row0 (filter (fun r => User.id (row_user r) =? uid) (users_from d))).
      { apply filter_In. split; [exact Hrow0|]. rewrite Hu0. apply Z.eqb_eq. exact Huid. }
      rewrite Hrows in Hin. destruct Hin.
    + assert (Hin : In row (filter (fun r => User.id (row_user r) =? uid) (users_from d))).
      { rewrite Hrows. left. reflexivity. }
      apply filter_In in Hin. destruct Hin as [Hin Hrid]. apply Z.eqb_eq in Hrid.
      eexists. split; [reflexivity|].
      cbn [detail_user item_user user_item_of].
      apply (keyed_user d);
        [exact Hkeyed|exact (users_from_user d row Hin)|exact Hu|congruence].
  - intros Hdec. unfold profile_denied. f_equal. f_equal.
    pose proof (decimal_readings_agree _ _ Hdec Hid) as Hagree.
    destruct (Z.eqb_spec (user_id user) uid) as [->|Hne]; [exact Hagree|].
    exact (num_eq_other _ _ _ Hagree Hne).
Qed.

Lemma get_user_returns_the_row_read_witness :
  exists item,
    get_user (mkPrincipal 5 "normal_user") "5_0" two_profiles
    = mkResponse 200 (Detail item) /\
    item_user (detail_user item)
    = User.mk 50 "Erin Walker - Regular Customer Fifty" "erin.walker@example.com"
              "50 Birch Court, Lakeside Quarter, Residential Zone, State 55555"
              "normal_user" seed_time.
Proof.
  destruct (get_user_returns_the_row_read
              (mkPrincipal 5 "normal_user") "5_0" 50 two_profiles
              (User.mk 50 "Erin Walker - Regular Customer Fifty" "erin.walker@example.com"
                       "50 Birch Court, Lakeside Quarter, Residential Zone, State 55555"
                       "normal_user" seed_time)) as [Hrow _].
  - unfold users_keyed. vm_compute.
    repeat (constructor; [solve [vm_compute; intuition discriminate]|]). constructor.
  - vm_compute. reflexivity.
  - vm_compute. right. left. reflexivity.
  - reflexivity.
  - exact Hrow.
Defined.

(** The same user asking in decimal form: the own profile is shown, the
    other one is refused; and the own id in binary form is refused. *)
Example profiles_in_decimal_and_binary :
  status (get_user (mkPrincipal 5 "normal_user") " +5 " two_profiles) = 200 /\
  status (get_user (mkPrincipal 5 "normal_user") "50" two_profiles) = 403 /\
  status (get_user (mkPrincipal 5 "normal_user") "0b101" two_profiles) = 403.
Proof. vm_compute. repeat split; reflexivity. Qed.

(** ** Repeating a store update *)

Lemma set_fields_twice name email address now1 now2 (s : Store.t) :
  set_store_fields name email address now2 (set_store_fields name email address now1 s)
  = set_store_fields name email address now2 s.
Proof.
  unfold set_store_fields. cbn.
  destruct name, email, address; reflexivity.
Qed.

Lemma filter_after_set name email address sid now (l : list Store.t) :
  filter (fun s => Store.id s =? sid)
         (map (fun s => if Store.id s =? sid
                        then set_store_fields name email address now s else s) l)
  = map (set_store_fields name email address now) (filter (fun s => Store.id s =? sid) l).
Proof.
  induction l as [|s l IH]; [reflexivity|].
  cbn [map filter]. destruct (Store.id s =? sid) eqn:E.
  - cbn [Store.id set_store_fields]. rewrite E. cbn [map]. rewrite IH. reflexivity.
  - rewrite E. exact IH.
Qed.

Lemma others_after_set name email address sid now (h : Store.t -> bool) (l : list Store.t) :
  (forall s, Store.id s = sid -> h s = false) ->
  existsb h (map (fun s => if Store.id s =? sid
                           then set_store_fields name email address now s else s) l)
  = existsb h l.
Proof.
  intros Hh. induction l as [|s l IH]; [reflexivity|].
  cbn [map existsb]. rewrite IH. destruct (Z.eqb_spec (Store.id s) sid) as [E|E].
  - rewrite (Hh s E), (Hh (set_store_fields name email address now s) E). reflexivity.
  - reflexivity.
Qed.

Lemma update_ok_after_set name email address sid now (d : database) (x : Store.t) :
  Store.id x = sid ->
  store_update_ok
    (with_stores d (map (fun s => if Store.id s =? sid
                                  then set_store_fields name email address now s else s)
                        (stores d))) x
  = store_update_ok d x.
Proof.
  intros Hx. unfold store_update_ok. cbn [stores with_stores].
  rewrite others_after_set; [reflexivity|].
  intros s Hs. rewrite Hx, Hs, Z.eqb_refl. reflexivity.
Qed.

Lemma update_store_after_set name email address sid now1 now2 (d : database) :
  bindable name && bindable email && bindable address = true ->
  forallb (store_update_ok d)
          (map (set_store_fields name email address now1)
               (filter (fun s => Store.id s =? sid) (stores d))) = true ->
  update_store name email address sid now2
    (with_stores d (map (fun s => if Store.id s =? sid
                                  then set_store_fields name email address now1 s else s)
                        (stores d)))
  = update_store name email address sid now2 d.
Proof.
  intros Hbind Hfirst.
  assert (Hsecond : forallb (store_update_ok d)
                      (map (set_store_fields name email address now2)
                           (filter (fun s => Store.id s =? sid) (stores d))) = true).
  { rewrite <- Hfirst. clear Hfirst.
    induction (filter (fun s => Store.id s =? sid) (stores d)) as [|s l IH]; [reflexivity|].
    cbn [map forallb]. rewrite IH. reflexivity. }
  assert (H1 : map (set_store_fields name email address now2)
                   (map (set_store_fields name email address now1)
                        (filter (fun s => Store.id s =? sid) (stores d)))
               = map (set_store_fields name email address now2)
                     (filter (fun s => Store.id s =? sid) (stores d))).
  { rewrite map_map. apply map_ext. intros s. apply set_fields_twice. }
  assert (H2 : map (fun s => if Store.id s =? sid
                             then set_store_fields name email address now2 s else s)
                   (map (fun s => if Store.id s =? sid
                                  then set_store_fields name email address now1 s else s)
                        (stores d))
               = map (fun s => if Store.id s =? sid
                               then set_store_fields name email address now2 s else s)
                     (stores d)).
  { rewrite map_map. apply map_ext. intros s.
    destruct (Store.id s =? sid) eqn:E.
    - cbn [Store.id set_store_fields]. rewrite E. apply set_fields_twice.
    - rewrite E. reflexivity. }
  assert (Hok : forall l,
            forallb (store_update_ok
                       (with_stores d
                          (map (fun s => if Store.id s =? sid
                                         then set_store_fields name email address now1 s
                                         else s) (stores d))))
                    (map (set_store_fields name email address now2)
                         (filter (fun s => Store.id s =? sid) l))
            = forallb (store_update_ok d)
                      (map (set_store_fields name email address now2)
                           (filter (fun s => Store.id s =? sid) l))).
  { induction l as [|s l IH]; [reflexivity|].
    cbn [filter]. destruct (Store.id s =? sid) eqn:E; [|exact IH].
    cbn [map forallb]. rewrite IH. f_equal.
    apply update_ok_after_set. cbn. apply Z.eqb_eq. exact E. }
  unfold update_store. cbn [stores with_stores].
  rewrite Hbind, filter_after_set, H1, H2, Hok, Hsecond. reflexivity.
Qed.

(** What a store update that changed the table had checked. *)
Lemma put_store_cases
    (user : principal) (id : string) (name email address : option string)
    (now : Z) (d : database) :
  snd (put_store user id name email address now d) = d \/
  exists sid store rest,
    integer_in id = Some sid /\
    filter (fun s => Store.id s =? sid) (stores d) = store :: rest /\
    owner_denied user (Store.owner_id store) = false /\
    match truthy_field email with
    | Some e => existsb (fun s => String.eqb (Store.email s) e
                                  && negb (Store.id s =? sid)) (stores d)
    | None => false
    end = false /\
    match truthy_field name, truthy_field email, truthy_field address with
    | None, None, None => False
    | _, _, _ => True
    end /\
    bindable (truthy_field name) && bindable (truthy_field email)
      && bindable (truthy_field address) = true /\
    forallb (store_update_ok d)
      (map (set_store_fields (truthy_field name) (truthy_field email)
                             (truthy_field address) now) (store :: rest)) = true /\
    snd (put_store user id name email address now d)
    = with_stores d
        (map (fun s => if Store.id s =? sid
                       then set_store_fields (truthy_field name) (truthy_field email)
                                             (truthy_field address) now s
                       else s) (stores d)).
Proof.
  unfold put_store.
  destruct (integer_in id) as [sid|]; [|left; reflexivity].
  destruct (filter (fun s => Store.id s =? sid) (stores d)) as [|store rest] eqn:Hhit;
    [left; reflexivity|].
  destruct (owner_denied user (Store.owner_id store)) eqn:Hden; [left; reflexivity|].
  destruct (negb (bindable (truthy_field email))); [left; reflexivity|].
  destruct (match truthy_field email with Some _ => _ | None => _ end) eqn:Hmail;
    [left; reflexivity|].
  assert (Hupd : forall n e a,
            snd (match update_store n e a sid now d with
                 | Done (row :: _) d' => (mkResponse 200 (Detail row), d')
                 | Done [] d' =>
                     (mkResponse 200 (DetailMessage "Store updated successfully"), d')
                 | Raised d' =>
                     (mkResponse 500 (DetailMessage "Server error updating store"), d')
                 end) = d \/
            (bindable n && bindable e && bindable a = true /\
             forallb (store_update_ok d)
                     (map (set_store_fields n e a now) (store :: rest)) = true /\
             snd (match update_store n e a sid now d with
                  | Done (row :: _) d' => (mkResponse 200 (Detail row), d')
                  | Done [] d' =>
                      (mkResponse 200 (DetailMessage "Store updated successfully"), d')
                  | Raised d' =>
                      (mkResponse 500 (DetailMessage "Server error updating store"), d')
                  end)
             = with_stores d (map (fun s => if Store.id s =? sid
                                            then set_store_fields n e a now s else s)
                                  (stores d)))).
  { intros n e a. unfold update_store. rewrite Hhit.
    destruct (bindable n && bindable e && bindable a); cbn [negb]; [|left; reflexivity].
    destruct (forallb _ _); [|left; reflexivity].
    right. repeat split; reflexivity. }
  destruct (truthy_field name) as [n|], (truthy_field email) as [e|],
           (truthy_field address) as [a|];
    first [left; reflexivity
          | match goal with
            | |- context [update_store ?n' ?e' ?a' _ _ _] =>
                destruct (Hupd n' e' a') as [H|(H0 & H1 & H2)];
                [left; exact H
                |right; exists sid, store, rest;
                 split; [reflexivity|]; split; [exact Hhit|]; split; [exact Hden|];
                 split; [exact Hmail|]; split; [exact I|]; split; [exact H0|];
                 split; [exact H1|exact H2]]
            end].
Qed.

(** X24. Repeating a store update is the same as making it once.  A PUT
    /api/stores/:id sent again with the same fields, at whatever later
    time, leaves exactly the answer and the database that the same request
    would have left had the first one never been made: the fields set are
    the same and only [updated_at] moves on. *)
Theorem repeated_store_update
    (user : principal) (id : string) (name email address : option string)
    (now1 now2 : Z) (d : database) :
  put_store user id name email address now2
            (snd (put_store user id name email address now1 d))
  = put_store user id name email address now2 d.
Proof.
  destruct (put_store_cases user id name email address now1 d)
    as [-> | (sid & store & rest & Hid & Hhit & Hden & Hconflict & Hfields & Hbind
              & Hfirst & ->)];
    [reflexivity|].
  rewrite <- Hhit in Hfirst.
  unfold put_store. rewrite Hid. cbn [stores with_stores].
  rewrite filter_after_set, Hhit.
  cbn [map]. cbn [Store.owner_id set_store_fields]. rewrite Hden.
  assert (Hemail : bindable (truthy_field email) = true).
  { apply andb_true_iff in Hbind. destruct Hbind as [Hbind _].
    apply andb_true_iff in Hbind. apply Hbind. }
  rewrite Hemail. cbn [negb].
  assert (Hmail : forall e,
            existsb (fun s => String.eqb (Store.email s) e && negb (Store.id s =? sid))
                    (map (fun s => if Store.id s =? sid
                                   then set_store_fields (truthy_field name)
                                          (truthy_field email) (truthy_field address) now1 s
                                   else s) (stores d))
            = existsb (fun s => String.eqb (Store.email s) e && negb (Store.id s =? sid))
                      (stores d)).
  { intros e. apply others_after_set.
    intros s Hs. rewrite Hs, Z.eqb_refl. apply andb_false_r. }
  destruct (truthy_field email) as [e|] eqn:He.
  - rewrite Hmail, Hconflict.
    destruct (truthy_field name) as [n|], (truthy_field address) as [a|];
      rewrite (update_store_after_set _ _ _ sid now1 now2 d Hbind Hfirst); reflexivity.
  - destruct (truthy_field name) as [n|], (truthy_field address) as [a|];
      try contradiction;
      rewrite (update_store_after_set _ _ _ sid now1 now2 d Hbind Hfirst); reflexivity.
Qed.

Example store_update_sent_twice :
  put_store seed_admin "3" (Some "Gourmet Food Market - Organic") None None 9
            (snd (put_store seed_admin "3" (Some "Gourmet Food Market - Organic") None None 8
                            createSampleData))
  = put_store seed_admin "3" (Some "Gourmet Food Market - Organic") None None 9
              createSampleData /\
  status (fst (put_store seed_admin "3" (Some "Gourmet Food Market - Organic") None None 8
                         createSampleData)) = 200.
Proof. vm_compute. split; reflexivity. Qed.

(** ** How many rows a page holds *)

Lemma insert_sorted_length {R : Type} (leb : R -> R -> bool) (x : R) (l : list R) :
  List.length (insert_sorted leb x l) = S (List.length l).
Proof.
  induction l as [|y l IH]; cbn [insert_sorted]; [reflexivity|].
  destruct (leb x y); cbn [List.length]; [reflexivity|]. rewrite IH. reflexivity.
Qed.

Lemma sort_rows_length {R : Type} (leb : R -> R -> bool) (l : list R) :
  List.length (sort_rows leb l) = List.length l.
Proof.
  unfold sort_rows. induction l as [|x l IH]; [reflexivity|].
  cbn [fold_right]. rewrite insert_sorted_length, IH. reflexivity.
Qed.

Lemma run_select_window {R : Type} (T : table R) ps from q rows (pl po : param) :
  run_select T ps from q = Some rows ->
  bound ps (sel_limit q) = Some pl ->
  bound ps (sel_offset q) = Some po ->
  exists l o matched,
    int8_of_param pl = Some l /\ int8_of_param po = Some o /\ 0 <= l /\ 0 <= o /\
    where_rows T ps (sel_where q) from = Some matched /\
    Z.of_nat (List.length rows)
    = Z.min l (Z.max 0 (Z.of_nat (List.length matched) - o)).
Proof.
  intros Hrun Hpl Hpo.
  destruct (run_select_bounds _ _ _ _ _ Hrun)
    as (pl' & po' & l & o & matched & Hpl' & Hl & Hl0 & Hpo' & Ho & Ho0 & Hwhere & ->).
  rewrite Hpl in Hpl'. injection Hpl' as <-.
  rewrite Hpo in Hpo'. injection Hpo' as <-.
  exists l, o, matched. repeat (split; [assumption|]).
  rewrite length_firstn, length_skipn, sort_rows_length. lia.
Qed.

(** X25. A page holds the rows of its window and no more.  With the
    schema's keys and role CHECK in force, a stores or users list answered
    with a page has as many rows as remain of the [total] after the offset
    [(page - 1) * limit], up to [limit]: the smaller of [limit] and
    [total - offset], and none when the offset is at or past [total]. *)
Theorem page_holds_its_window
    (e : list_request) (q : Query.t) (d : database) (block : pagination) (n : nat) :
  users_keyed d -> unique_ratings d -> roles_checked d ->
  list_pagination e q d = Some block ->
  list_rows_length e q d = Some n ->
  exists l o,
    int8_of_param (param_of_jsval (list_limit q)) = Some l /\
    int8_of_number (page_offset (list_page q) (list_limit q)) = Some o /\
    0 <= l /\ 0 <= o /\
    Z.of_nat n = Z.min l (Z.max 0 (total block - o)).
Proof.
  intros Hu Hr Hroles Hpage Hn.
  pose proof (list_total_counts_row_query e q d block Hpage) as Htotal.
  destruct e as [user|]; unfold list_rows_length, rows_of, row_query_matches in *.
  - clear Hpage. unfold get_stores in Hn.
    destruct (run_stores_query d (stores_query user q)) as [rows|] eqn:Hrows;
      [|discriminate].
    destruct (run_stores_count d (stores_countQuery user q)); [|discriminate].
    cbn [body] in Hn. injection Hn as <-. rewrite length_map.
    apply run_stores_query_select in Hrows. destruct Hrows as (rater & Hrun).
    destruct (stores_query_pagination user q) as [Hpl Hpo].
    destruct (run_select_window _ _ _ _ _ _ _ Hrun Hpl Hpo)
      as (l & o & matched & Hl & Ho & Hl0 & Ho0 & Hwhere & Hlen).
    exists l, o. repeat (split; [assumption|]).
    pose proof (where_rows_same_store (snd (stores_query user q))
                  (sel_where (fst (stores_query user q)))
                  (stores_from d rater) (stores_only d)) as Hsame.
    rewrite stores_from_one_row_each in Hsame by assumption.
    unfold stores_only in Hsame at 1. rewrite map_map in Hsame. cbn [row_s] in Hsame.
    rewrite map_id in Hsame. specialize (Hsame eq_refl).
    rewrite Hwhere in Hsame.
    destruct (stores_query user q) as [rq rps]. cbn [fst snd] in *.
    destruct (where_rows stores_table rps (sel_where rq) (stores_only d)) as [counted|];
      [|discriminate].
    cbn [option_map] in Hsame, Htotal. unfold sql_count in Htotal.
    injection Hsame as Hsame. injection Htotal as Htotal.
    rewrite Hlen, Hsame, Htotal. reflexivity.
  - clear Hpage.
    destruct (get_users q d) as [st [msg|items blk]] eqn:Hget; [discriminate|].
    cbn [body] in Hn. injection Hn as <-.
    assert (Hst : st = 200).
    { revert Hget. unfold get_users.
      destruct (users_query q) as [rq rps], (users_countQuery q) as [cq cps].
      destruct (run_select (users_table "u.") rps (users_from d) rq); [|discriminate].
      destruct (run_count (users_table "") cps (users_only d) cq); [|discriminate].
      intros [= <- _ _]. reflexivity. }
    subst st.
    destruct (get_users_page q d items blk Hget) as (rows & c & Hrun & _ & -> & _).
    rewrite length_map.
    destruct (users_query_pagination q) as [Hpl Hpo].
    destruct (run_select_window _ _ _ _ _ _ _ Hrun Hpl Hpo)
      as (l & o & matched & Hl & Ho & Hl0 & Ho0 & Hwhere & Hlen).
    exists l, o. repeat (split; [assumption|]).
    rewrite users_from_no_join in Hwhere by exact Hroles.
    destruct (users_query q) as [rq rps]. cbn [fst snd] in *.
    rewrite Hwhere in Htotal. cbn [option_map] in Htotal. unfold sql_count in Htotal.
    injection Htotal as Htotal. rewrite Hlen, Htotal. reflexivity.
Qed.

Lemma page_holds_its_window_witness :
  exists l o,
    int8_of_param (param_of_jsval (list_limit second_page_of_two)) = Some l /\
    int8_of_number (page_offset (list_page second_page_of_two)
                                (list_limit second_page_of_two)) = Some o /\
    0 <= l /\ 0 <= o /\
    Z.of_nat 1 = Z.min l (Z.max 0 (3 - o)).
Proof.
  apply (page_holds_its_window (StoresList seed_admin) second_page_of_two createSampleData
           (mkPagination (JsonNum 2%Q) (JsonNum 2%Q) 3 false true) 1).
  - unfold users_keyed. vm_compute.
    repeat (constructor; [solve [vm_compute; intuition discriminate]|]). constructor.
  - unfold unique_ratings. vm_compute.
    repeat (constructor; [solve [vm_compute; intuition discriminate]|]). constructor.
  - unfold roles_checked. vm_compute. repeat (constructor; [reflexivity|]). constructor.
  - vm_compute. reflexivity.
  - vm_compute. reflexivity.
Defined.

(** ** Creating a store and reading it back *)

(** X26. A store that was created can be read back.  On a database that
    satisfies the schema's constraints and foreign keys, after POST
    /api/stores answered 201 with a store row, that row carries the next
    value of the id sequence and both aggregate columns at zero, and GET
    /api/stores/:id for its id answers, to every principal the owner check
    lets through, with that very row. *)
Theorem created_store_is_read_back
    (user : principal) (name email address : string) (ownerId : option Z) (now : Z)
    (d d' : database) (message : string) (s : Store.t) (id : string) :
  constraints_hold d ->
  references_hold d ->
  post_store name email address ownerId now d = (mkResponse 201 (StoreResult message s), d') ->
  int4_of_string id = Some (Store.id s) ->
  owner_denied user (Store.owner_id s) = false ->
  Store.id s = stores_id_seq d + 1 /\
  Store.average_rating s = Some 0 /\ Store.total_ratings s = Some 0 /\
  exists item,
    get_store user id d' = mkResponse 200 (Detail item) /\
    item_store (detail_item item) = s /\
    detail_owner_id item = Store.owner_id s.
Proof.
  intros Hcons Href Hpost Hid Hallowed.
  assert (Hcreated : insert_store name email address (truthy_id ownerId) now d = Done s d').
  { revert Hpost. unfold post_store.
    destruct (negb (no_zero_byte email)); [discriminate|].
    destruct (existsb _ (stores d)); [discriminate|].
    assert (Hcreate : match insert_store name email address (truthy_id ownerId) now d with
                      | Done store d0 =>
                          (mkResponse 201 (StoreResult "Store created successfully" store), d0)
                      | Raised d0 =>
                          (mkResponse 500 (StoreMessage "Server error creating store"), d0)
                      end = (mkResponse 201 (StoreResult message s), d') ->
                      insert_store name email address (truthy_id ownerId) now d = Done s d').
    { destruct (insert_store name email address (truthy_id ownerId) now d);
        [|discriminate]. intros [= _ <- <-]. reflexivity. }
    destruct (truthy_id ownerId) as [o|]; [|exact Hcreate].
    destruct (negb (in_int4 o)); [discriminate|].
    destruct (filter _ (users d)) as [|owner rest]; [discriminate|].
    destruct (negb (String.eqb (User.role owner) "STORE_OWNER")); [discriminate|].
    destruct (existsb (owner_is o) (stores d)); [discriminate|exact Hcreate]. }
  pose proof (insert_store_change name email address (truthy_id ownerId) now d) as Hchange.
  rewrite Hcreated in Hchange. cbn [database_of] in Hchange.
  pose proof (constraints_after_change _ _ Hchange Hcons) as (_ & Hkeyed & _).
  pose proof (references_after_change _ _ Hchange Href) as Href'.
  revert Hcreated. unfold insert_store.
  destruct (negb _); [discriminate|].
  destruct (store_row_ok d _); [|discriminate].
  intros [= <- <-].
  cbn [Store.id Store.average_rating Store.total_ratings next_store_id stores_id_seq].
  repeat (split; [reflexivity|]).
  match goal with
  | |- exists item, get_store _ _ ?db = _ /\ item_store _ = ?row /\ _ =>
      destruct (get_store_lookup user id (Store.id row) db row Hkeyed Href' Hid)
        as [[Hden _]|[_ Hfound]]
  end.
  - cbn [stores next_store_id]. apply in_or_app. right. left. reflexivity.
  - reflexivity.
  - congruence.
  - exact Hfound.
Qed.

Lemma created_store_is_read_back_witness :
  Store.id (Store.mk 4 "Corner Bakery and Coffee House" "hello@cornerbakery.example"
                     "12 Mill Lane, Old Town" None (Some 0) (Some 0) 7 7)
  = stores_id_seq createSampleData + 1 /\
  Some 0 = Some 0 /\ Some 0 = Some 0 /\
  exists item,
    get_store seed_admin "4"
      (snd (post_store "Corner Bakery and Coffee House" "hello@cornerbakery.example"
                       "12 Mill Lane, Old Town" None 7 createSampleData))
    = mkResponse 200 (Detail item) /\
    item_store (detail_item item)
    = Store.mk 4 "Corner Bakery and Coffee House" "hello@cornerbakery.example"
               "12 Mill Lane, Old Town" None (Some 0) (Some 0) 7 7 /\
    detail_owner_id item = None.
Proof.
  apply (created_store_is_read_back seed_admin "Corner Bakery and Coffee House"
           "hello@cornerbakery.example" "12 Mill Lane, Old Town" None 7 createSampleData
           (snd (post_store "Corner Bakery and Coffee House" "hello@cornerbakery.example"
                            "12 Mill Lane, Old Town" None 7 createSampleData))
           "Store created successfully"
           (Store.mk 4 "Corner Bakery and Coffee House" "hello@cornerbakery.example"
                     "12 Mill Lane, Old Town" None (Some 0) (Some 0) 7 7) "4").
  - unfold constraints_hold, users_keyed, stores_keyed, store_emails_unique, ratings_keyed,
      unique_ratings, ratings_checked, ids_issued.
    repeat split; vm_compute;
      repeat (constructor;
              [solve [vm_compute; first [reflexivity | intuition discriminate]]|]);
      constructor.
  - split; vm_compute; repeat (constructor; [auto|]); constructor.
  - vm_compute. reflexivity.
  - vm_compute. reflexivity.
  - reflexivity.
Defined.

(** ** Deleting another user *)

(** X27. Deleting another user that exists is always answered with 200 on
    a ratings table that passes its CHECK, and takes away exactly what the
    schema's cascades name: the user row, the stores the user owns, the
    ratings the user gave and the ratings on the removed stores.  Every
    other user and rating is as it was, and the stores that remain keep
    every column but the two aggregates, which the trigger recomputes. *)
Theorem delete_user_removes_user_and_dependents
    (user : principal) (userId : string) (uid : Z) (d : database) :
  ratings_checked (ratings d) ->
  int4_of_string userId = Some uid ->
  uid <> user_id user ->
  user_exists d uid = true ->
  exists d',
    delete_user_handler user userId d = (mkResponse 200 "User deleted successfully", d') /\
    users d' = filter (fun u => negb (User.id u =? uid)) (users d) /\
    ratings d' = filter (fun r => negb (cascaded uid d r)) (ratings d) /\
    Forall2 same_store_columns
            (filter (fun s => negb (owned_by uid s)) (stores d)) (stores d').
Proof.
  intros Hchecked Hid Hother Hex. unfold delete_user_handler.
  rewrite (num_eq_other uid (user_id user) _
             (parseInt_reads_int8 _ _ (int4_is_int8 _ _ Hid)))
    by congruence.
  rewrite (decimal_integer_in _ _ Hid), Hex. cbn [negb]. unfold delete_user.
  destruct (rating_update_trigger_succeeds
              (map (fun r => mkEvent (Some r) None) (filter (cascaded uid d) (ratings d)))
              (mkDb (filter (fun u => negb (User.id u =? uid)) (users d))
                    (filter (fun s => negb (owned_by uid s)) (stores d))
                    (filter (fun r => negb (cascaded uid d r)) (ratings d))
                    (stores_id_seq d) (ratings_id_seq d))) as (d2 & Hrun).
  - cbn [ratings]. unfold ratings_checked in *. apply Forall_forall. intros r Hr.
    apply filter_In in Hr. exact (proj1 (Forall_forall _ _) Hchecked r (proj1 Hr)).
  - rewrite Hrun. exists d2. split; [reflexivity|].
    destruct (rating_update_trigger_columns _ _ _ Hrun) as (Hcols & Hu & Hr & _).
    repeat split; assumption.
Qed.

Lemma delete_user_removes_user_and_dependents_witness :
  exists d',
    delete_user_handler seed_admin "2" createSampleData
    = (mkResponse 200 "User deleted successfully", d') /\
    users d' = filter (fun u => negb (User.id u =? 2)) (users createSampleData) /\
    ratings d' = filter (fun r => negb (cascaded 2 createSampleData r))
                        (ratings createSampleData) /\
    Forall2 same_store_columns
            (filter (fun s => negb (owned_by 2 s)) (stores createSampleData)) (stores d').
Proof.
  apply (delete_user_removes_user_and_dependents seed_admin "2" 2 createSampleData).
  - unfold ratings_checked. vm_compute. repeat (constructor; [reflexivity|]). constructor.
  - vm_compute. reflexivity.
  - vm_compute. discriminate.
  - vm_compute. reflexivity.
Defined.

(** ** The ratings of one store, for its owner *)

Lemma rating_store_counts (sid : Z) (p : param) (r : Rating.t) :
  int8_of_param p = Some sid ->
  holds_all ratings_only_table [p] [Equals "store_id" 1] r
  = Some (Rating.store_id r =? sid).
Proof.
  intros Hp.
  change (holds_all ratings_only_table [p] [Equals "store_id" 1] r)
    with (match match int8_of_param p with
                | Some z' => Some (Rating.store_id r =? z')
                | None => Some false
                end, Some true with
          | Some a, Some b => Some (a && b)
          | _, _ => None
          end).
  rewrite Hp, andb_true_r. reflexivity.
Qed.

(** X28. GET /api/stores/:id/ratings shows the ratings of the store the
    path names and no others: every row of a page is a rating of the table
    on that store, with the user who gave it, and the rows come in the
    order asked for, newest first when none is.  [total] is the number of
    ratings on that store. *)
Theorem store_ratings_list_shows_that_store
    (id : string) (sid : Z) (q : Query.t) (d : database)
    (rows : list (Rating.t * User.t)) (block : pagination) :
  int4_of_string id = Some sid ->
  get_store_ratings_of_owner id q d = mkResponse 200 (ListPage rows block) ->
  Forall (fun x => In (fst x) (ratings d) /\ Rating.store_id (fst x) = sid /\
                   In (snd x) (users d) /\ User.id (snd x) = Rating.user_id (fst x)) rows /\
  total block = sql_count (ratings_of_store (ratings d) sid) /\
  ordered (order_leb ratings_users_table (ratings_order_by "user_name" "u.name" q)
                     (ratings_order q)) rows = true.
Proof.
  intros Hid. unfold get_store_ratings_of_owner, rating_list_query, rating_count_query.
  rewrite (decimal_integer_in _ _ Hid).
  destruct (run_select ratings_users_table _ (ratings_with_users d) _) as [rs|] eqn:Hrun;
    [|discriminate].
  destruct (run_count ratings_only_table _ (ratings d) _) as [n|] eqn:Hcount;
    [|discriminate].
  intros [= <- <-].
  assert (Hp : int8_of_param (PStr id) = Some sid).
  { cbn [int8_of_param]. apply decimal_bigint_in, int4_is_int8. exact Hid. }
  assert (Htotal : n = sql_count (ratings_of_store (ratings d) sid)).
  { apply run_count_rows in Hcount. cbn [cnt_where] in Hcount.
    rewrite (where_rows_filter ratings_only_table [PStr id] [Equals "store_id" 1%nat]
               (fun r => Rating.store_id r =? sid)) in Hcount
      by (intros r _; apply rating_store_counts; exact Hp).
    cbn [option_map] in Hcount. injection Hcount as <-. reflexivity. }
  split; [|split].
  - apply Forall_forall. intros [r u] Hx.
    destruct (run_select_sound ratings_users_table _ _ _ _
                (fun x => Rating.store_id (fst x) =? sid) Hrun) with (r := (r, u))
      as [Hfrom Hstore].
    + intros x _. cbn [sel_where]. apply rating_store_holds. exact Hp.
    + exact Hx.
    + cbn [fst snd] in *. apply inner_join_rows in Hfrom.
      destruct Hfrom as (Hr & Hu & Hon). apply Z.eqb_eq in Hstore, Hon.
      repeat split; auto.
  - cbn [total pagination_block]. exact Htotal.
  - apply run_select_ordered in Hrun. exact Hrun.
Qed.

Lemma store_ratings_list_shows_that_store_witness :
  exists rows block,
    get_store_ratings_of_owner "2" Query.empty createSampleData
    = mkResponse 200 (ListPage rows block) /\
    Forall (fun x => In (fst x) (ratings createSampleData) /\ Rating.store_id (fst x) = 2 /\
                     In (snd x) (users createSampleData) /\
                     User.id (snd x) = Rating.user_id (fst x)) rows /\
    total block = sql_count (ratings_of_store (ratings createSampleData) 2) /\
    ordered (order_leb ratings_users_table
                       (ratings_order_by "user_name" "u.name" Query.empty)
                       (ratings_order Query.empty)) rows = true.
Proof.
  eexists _, _. split; [vm_compute; reflexivity|].
  apply (store_ratings_list_shows_that_store "2" 2 Query.empty createSampleData);
    vm_compute; reflexivity.
Defined.
